(** * SmartCash validation core: a shallow embedding of [validation.cpp]

    The development follows the source file function by function.  Machine
    integers are integers of [Z] with their wrap-around written out, the
    [double] arithmetic of the reward taper is round-to-nearest binary64 on
    rationals, the coins view and the block index are finite maps, and
    every function that can bail out returns an [outcome].  Code that lives
    outside [validation.cpp] (scripts, serialisation, proof of work, disk
    files, side-car services) is reached through the [Externals] class. *)

From Stdlib Require Import ZArith QArith Qround Qpower Lqa Lia Bool List String.
From stdpp Require Import base option list gmap.

Close Scope Q_scope.
Open Scope Z_scope.

(* ===================================================================== *)
(** * Part I: definitions                                                 *)
(* ===================================================================== *)

(** ** Machine integers *)

Module Int.

(** [unsigned int]: arithmetic modulo 2^32. *)
Definition u32 (z : Z) : Z := z mod 2 ^ 32.

(** Two's complement reading of the low [w] bits. *)
Definition swrap (w : Z) (z : Z) : Z := (z + 2 ^ (w - 1)) mod 2 ^ w - 2 ^ (w - 1).

(** [int] and [int64_t]. *)
Definition s32 (z : Z) : Z := swrap 32 z.
Definition s64 (z : Z) : Z := swrap 64 z.

Definition UINT_MAX : Z := 2 ^ 32 - 1.
Definition INT_MAX : Z := 2 ^ 31 - 1.
Definition INT64_MAX : Z := 2 ^ 63 - 1.
Definition INT64_MIN : Z := - 2 ^ 63.

Definition in_s32 (z : Z) : Prop := - 2 ^ 31 <= z <= INT_MAX.
Definition in_s64 (z : Z) : Prop := INT64_MIN <= z <= INT64_MAX.
Definition in_u32 (z : Z) : Prop := 0 <= z <= UINT_MAX.

End Int.

(** ** IEEE-754 binary64, round to nearest even

    A [double] is identified with the rational it denotes.  Every operation
    computes the exact rational result and rounds it to 53 significant bits,
    ties to even.  The exponent range is not modelled: the values the
    validation code feeds through [double] lie between 2^-1022 and 2^1023 in
    magnitude, where binary64 has no other effect than this rounding. *)

Module Double.

Definition prec : Z := 53.

(** 2^k for any integer k. *)
Definition pow2 (k : Z) : Q := Qpower 2 k.

(** floor (log2 x) for x > 0. *)
Definition ilog2 (x : Q) : Z :=
  let k := Z.log2 (Qnum x) - Z.log2 (Zpos (Qden x)) in
  if Qle_bool (pow2 k) x then k else k - 1.

(** Nearest integer, ties to the even one. *)
Definition round_half_even (y : Q) : Z :=
  let f := Qfloor y in
  match Qcompare (y - inject_Z f) (1 # 2) with
  | Lt => f
  | Gt => f + 1
  | Eq => if Z.even f then f else f + 1
  end.

(** Rounding of a positive rational to [prec] significant bits. *)
Definition rnd_pos (x : Q) : Q :=
  let e := ilog2 x - (prec - 1) in
  (inject_Z (round_half_even (x / pow2 e)) * pow2 e)%Q.

Definition rnd (x : Q) : Q :=
  match Qcompare x 0 with
  | Eq => 0%Q
  | Gt => rnd_pos x
  | Lt => (- rnd_pos (- x))%Q
  end.

(** Integer to [double] conversion, and the four operations used. *)
Definition of_int (z : Z) : Q := rnd (inject_Z z).
Definition add (x y : Q) : Q := rnd (x + y).
Definition mul (x y : Q) : Q := rnd (x * y).
Definition div (x y : Q) : Q := rnd (x / y).

(** [floor] of <cmath>: the result is an integer-valued double. *)
Definition floor (x : Q) : Q := inject_Z (Qfloor x).

(** Conversion of a [double] to [int64_t]: truncation toward zero. *)
Definition truncate (x : Q) : Z :=
  if Qle_bool 0 x then Qfloor x else Qceiling x.

Definition to_int64 (x : Q) : Z := Int.s64 (truncate x).

End Double.

(** ** Consensus constants ([consensus/consensus.h]) *)

Definition MAX_BLOCK_SERIALIZED_SIZE : Z := 2000000.
Definition MAX_BLOCK_SIZE_INCREASE_MULTIPLE : Z := 2.
Definition NUM_BLOCKS_FOR_MEDIAN_BLOCK : Z := 2016.
Definition OLD_MAX_BLOCK_SIZE : Z := 1000000.
Definition MAX_BLOCK_BASE_SIZE : Z := 1000000.
Definition MAX_BLOCK_SIGOPS_COST : Z := 160000.
Definition COINBASE_MATURITY : Z := 100.
Definition HF_V1_0_START_HEIGHT : Z := 90000.
Definition HF_ZEROCOIN_DISABLE : Z := 266765.
Definition HF_CHAIN_REWARD_END_HEIGHT : Z := 717499999.
Definition LOCKTIME_VERIFY_SEQUENCE : Z := Z.shiftl 1 0.
Definition LOCKTIME_MEDIAN_TIME_PAST : Z := Z.shiftl 1 1.

(** The header initialises the two mutable limits as [maxBlockSize = 1000000]
    and [maxBlockSigops = maxBlockSize/50]. *)
Definition maxBlockSize_init : Z := 1000000.
Definition maxBlockSigops_init : Z := maxBlockSize_init / 50.

(** [amount.h] is not among the sources: [COIN] is the number of base units
    in one coin, 10^8 as in every descendant of that header. *)
Definition COIN : Z := 100000000.

(** ** Block reward *)

(** What [GetBlockValue] reads from outside: the reward start time and
    whether the node runs on the main network. *)
Record RewardParams := {
  nStartRewardTime : Z;
  MainNet : bool
}.

(** [floor(0.5+((double)(5000 * 143500)/(nHeight +1)))]: the product is an
    [int], converted to [double]; [nHeight + 1] is an [int] converted for the
    division; the literal 0.5 is exact. *)
Definition taper (nHeight : Z) : Q :=
  Double.floor
    (Double.add (1 # 2)
       (Double.div (Double.of_int (Int.s32 (5000 * 143500)))
                   (Double.of_int (Int.s32 (nHeight + 1))))).

(** [int64_t GetBlockValue(int nHeight, int64_t nFees, unsigned int nTime)]:
    four independent [if]s assign [value] in turn; the last assignment made
    wins.  In the taper branch [floor(..) * COIN + nFees] is evaluated in
    [double] and converted back on assignment. *)
Definition GetBlockValue (p : RewardParams) (nHeight nFees nTime : Z) : Z :=
  let value := 0 * COIN in
  let value :=
    if ((nTime <? nStartRewardTime p) && MainNet p) || (nHeight =? 0)
    then 0 * COIN else value in
  let value :=
    if (0 <? nHeight) && (nHeight <=? 143499)
    then Int.s64 (5000 * COIN + nFees) else value in
  let value :=
    if (143499 <? nHeight) && (nHeight <=? HF_CHAIN_REWARD_END_HEIGHT)
    then Double.to_int64
           (Double.add (Double.mul (taper nHeight) (Double.of_int COIN))
                       (Double.of_int nFees))
    else value in
  let value :=
    if HF_CHAIN_REWARD_END_HEIGHT <? nHeight then nFees else value in
  value.

(** [CAmount GetBlockSubsidy(int nHeight, const Consensus::Params&)]. *)
Definition GetBlockSubsidy (nHeight : Z) : Z :=
  if nHeight =? 0 then 0
  else if (143499 <? nHeight) && (nHeight <=? HF_CHAIN_REWARD_END_HEIGHT)
  then Double.to_int64 (Double.mul (taper nHeight) (Double.of_int COIN))
  else 5000 * COIN.

(** The taper of the reward schedule in exact integer arithmetic:
    floor (1/2 + 5000*143500/(h+1)). *)
Definition taper_exact (nHeight : Z) : Z :=
  (2 * (5000 * 143500) + (nHeight + 1)) / (2 * (nHeight + 1)).

(** The subsidy as the specification words it: 0 at height 0, the flat
    base of 5000 coins up to the cutoff 143499, the taper up to the terminal
    height, and nothing past it. *)
Definition subsidy_spec (h : Z) : Z :=
  if h =? 0 then 0
  else if h <=? 143499 then 5000 * COIN
  else if h <=? HF_CHAIN_REWARD_END_HEIGHT then taper_exact h * COIN
  else 0.

(** Fees below this magnitude keep [floor(..) * COIN + nFees] exact in
    [double]: every intermediate value is an integer below 2^53. *)
Definition exact_fee_bound : Z := 2 ^ 53 - 5000 * COIN.

(** ** Results of validation functions *)

(** Reject codes ([consensus/validation.h]); [REJECT_NONE] stands for the
    literal code 0 some call sites pass. *)
Inductive RejectCode :=
| REJECT_NONE
| REJECT_INVALID
| REJECT_OBSOLETE
| REJECT_DUPLICATE
| REJECT_NONSTANDARD
| REJECT_INSUFFICIENTFEE
| REJECT_ALREADY_KNOWN
| REJECT_CONFLICT
| REJECT_HIGHFEE.

(** What [state.DoS(level, false, code, reason, corruption)] records in a
    fresh [CValidationState]; debug messages are log text and left out. *)
Record Rejection := mkRejection {
  nDoS : Z;
  chRejectCode : RejectCode;
  strRejectReason : string;
  corruptionPossible : bool
}.

Definition DoS (level : Z) (code : RejectCode) (reason : string) (corruption : bool)
  : Rejection := mkRejection level code reason corruption.

(** [state.Invalid(false, code, reason)] is [DoS(0, false, code, reason)]. *)
Definition Invalid (code : RejectCode) (reason : string) : Rejection :=
  DoS 0 code reason false.

(** How a function can end other than by returning normally. *)
Inductive failure :=
| Rejected (r : Rejection)   (* state.DoS / state.Invalid, returns false *)
| ReturnedFalse              (* return false / return error(..), state untouched *)
| NodeAborted                (* AbortNode *)
| Crashed (why : string).    (* failed assert, exception, null dereference *)

Inductive outcome (A : Type) :=
| Ok (a : A)
| Fail (f : failure).
Arguments Ok {A} a.
Arguments Fail {A} f.

#[global] Instance outcome_ret : MRet outcome := fun A a => Ok a.
#[global] Instance outcome_bind : MBind outcome := fun A B k m =>
  match m with
  | Ok a => k a
  | Fail f => Fail f
  end.

Definition reject {A} (r : Rejection) : outcome A := Fail (Rejected r).
Definition assert_ (b : bool) (what : string) : outcome unit :=
  if b then Ok tt else Fail (Crashed what).
Definition deref {A} (p : option A) : outcome A :=
  match p with
  | Some a => Ok a
  | None => Fail (Crashed "null dereference")
  end.

(** [rejected_with o reason]: [o] is a rejection whose reason is [reason]. *)
Definition rejected_with {A} (o : outcome A) (reason : string) : Prop :=
  exists r, o = Fail (Rejected r) /\ strRejectReason r = reason.

(** [reason_in o reasons]: if [o] is a rejection, its reason is one of
    [reasons]. *)
Definition reason_in {A} (o : outcome A) (reasons : list string) : Prop :=
  forall r, o = Fail (Rejected r) -> strRejectReason r ∈ reasons.

(** ** Transactions, blocks and coins *)

Definition uint256 : Type := Z.
Definition CScript : Type := list Z.
Definition CAmount : Type := Z.

Module COutPoint.
Record t := mk { hash : uint256; n : Z }.
#[global] Instance eq_dec : EqDecision t.
Proof. solve_decision. Defined.
#[global] Instance countable : Countable t.
Proof.
  refine (inj_countable' (fun o => (hash o, n o)) (fun p => mk p.1 p.2) _).
  now intros [].
Defined.
(** [hash.IsNull() && n == (uint32_t) -1]. *)
Definition IsNull (o : t) : bool := (hash o =? 0) && (n o =? Int.UINT_MAX).
End COutPoint.

Module CTxIn.
Record t := mk { prevout : COutPoint.t; scriptSig : CScript; nSequence : Z }.
#[global] Instance eq_dec : EqDecision t.
Proof. solve_decision. Defined.
(** Modelled from the spec: sequence-lock disable bit: bit 31; type-flag bit:
    bit 22; value mask: low 16 bits; granularity 9 (units of 512 s).  These
    are the [CTxIn] constants of [primitives/transaction.h], which is not
    among the sources. *)
Definition SEQUENCE_FINAL : Z := 4294967295.
Definition SEQUENCE_LOCKTIME_DISABLE_FLAG : Z := Z.shiftl 1 31.
Definition SEQUENCE_LOCKTIME_TYPE_FLAG : Z := Z.shiftl 1 22.
Definition SEQUENCE_LOCKTIME_MASK : Z := 65535.
Definition SEQUENCE_LOCKTIME_GRANULARITY : Z := 9.
End CTxIn.

Module CTxOut.
Record t := mk { nValue : CAmount; scriptPubKey : CScript }.
#[global] Instance eq_dec : EqDecision t.
Proof. solve_decision. Defined.
(** [SetNull]: value -1 and an empty script. *)
Definition null : t := mk (-1) [].
Definition IsNull (o : t) : bool := nValue o =? -1.
End CTxOut.

Module CTransaction.
(** [hash] is the member the class caches its hash in; [GetHash()] returns it. *)
Record t := mk {
  nVersion : Z;
  vin : list CTxIn.t;
  vout : list CTxOut.t;
  nLockTime : Z;
  hash : uint256
}.
Definition GetHash (tx : t) : uint256 := hash tx.
End CTransaction.

Module CBlock.
(** The header fields, the transactions, the memoised [fChecked] flag and
    the header hash [GetHash()] computes. *)
Record t := mk {
  nVersion : Z;
  hashPrevBlock : uint256;
  hashMerkleRoot : uint256;
  nTime : Z;
  nBits : Z;
  nNonce : Z;
  hash : uint256;
  vtx : list CTransaction.t;
  fChecked : bool
}.
Definition GetHash (b : t) : uint256 := hash b.
(** [GetBlockTime()] is [(int64_t) nTime], [nTime] a [uint32_t]. *)
Definition GetBlockTime (b : t) : Z := Int.u32 (nTime b).
End CBlock.

Module Coin.
(** Modelled from the spec: a coin is an unspent output with its amount,
    script, height and coinbase flag; [coins.h] is not among the sources.
    A spent coin is the cleared one, whose output is null. *)
Record t := mk { out : CTxOut.t; fCoinBase : bool; nHeight : Z }.
#[global] Instance eq_dec : EqDecision t.
Proof. solve_decision. Defined.
Definition empty : t := mk CTxOut.null false 0.
Definition IsSpent (c : t) : bool := CTxOut.IsNull (out c).
Definition IsCoinBase (c : t) : bool := fCoinBase c.
End Coin.

(** ** The block index *)

(** Modelled from the spec: validity is a level in
    TREE < TRANSACTIONS < CHAIN < SCRIPTS and the status flags are HAVE_DATA,
    HAVE_UNDO, FAILED_VALID, FAILED_CHILD.  [chain.h] is not among the
    sources; the encoding is the one of that header: the level in the low
    three bits, one bit per flag above them. *)
Definition BLOCK_VALID_TREE : Z := 2.
Definition BLOCK_VALID_TRANSACTIONS : Z := 3.
Definition BLOCK_VALID_CHAIN : Z := 4.
Definition BLOCK_VALID_SCRIPTS : Z := 5.
Definition BLOCK_VALID_MASK : Z := 7.
Definition BLOCK_HAVE_DATA : Z := 8.
Definition BLOCK_HAVE_UNDO : Z := 16.
Definition BLOCK_FAILED_VALID : Z := 32.
Definition BLOCK_FAILED_CHILD : Z := 64.
Definition BLOCK_FAILED_MASK : Z := Z.lor BLOCK_FAILED_VALID BLOCK_FAILED_CHILD.

Module CBlockIndex.
(** A node of the header tree.  The C++ object is reached through pointers;
    here every entry of [mapBlockIndex] is named by its block hash, and a
    pointer is such a name or null.  An index built on the stack
    ([CheckSequenceLocks], [TestBlockValidity]) is a record of its own. *)
Record t := mk {
  phashBlock : option uint256;
  pprev : option uint256;
  nHeight : Z;
  nFile : Z;
  nDataPos : Z;
  nUndoPos : Z;
  nChainWork : Z;
  nTx : Z;
  nChainTx : Z;
  nStatus : Z;
  nVersion : Z;
  hashMerkleRoot : uint256;
  nTime : Z;
  nBits : Z;
  nNonce : Z;
  nSequenceId : Z
}.
#[global] Instance eq_dec : EqDecision t.
Proof. solve_decision. Defined.
Definition GetBlockTime (b : t) : Z := Int.u32 (nTime b).
Definition GetBlockHash (b : t) : outcome uint256 := deref (phashBlock b).
(** [IsValid(nUpTo)]: no failure bit and validity level at least [nUpTo]. *)
Definition IsValid (b : t) (nUpTo : Z) : bool :=
  if negb (Z.land (nStatus b) BLOCK_FAILED_MASK =? 0) then false
  else nUpTo <=? Z.land (nStatus b) BLOCK_VALID_MASK.
(** [RaiseValidity(nUpTo)]. *)
Definition RaiseValidity (b : t) (nUpTo : Z) : t :=
  if negb (Z.land (nStatus b) BLOCK_FAILED_MASK =? 0) then b
  else if Z.land (nStatus b) BLOCK_VALID_MASK <? nUpTo
  then mk (phashBlock b) (pprev b) (nHeight b) (nFile b) (nDataPos b) (nUndoPos b)
          (nChainWork b) (nTx b) (nChainTx b)
          (Z.lor (Z.land (nStatus b) (Z.lnot BLOCK_VALID_MASK)) nUpTo)
          (nVersion b) (hashMerkleRoot b) (nTime b) (nBits b) (nNonce b) (nSequenceId b)
  else b.
End CBlockIndex.

(** [BlockMap mapBlockIndex]. *)
Abbreviation BlockMap := (gmap uint256 CBlockIndex.t).

(** Following a [CBlockIndex*]. *)
Definition at_ (m : BlockMap) (p : option uint256) : option CBlockIndex.t :=
  p ≫= fun h => m !! h.

(** Modelled from the spec: [GetAncestor(height)] is the ancestor of the
    entry at that height: null when the height is negative or above the
    entry's own, else reached along [pprev] ([chain.cpp] is not among the
    sources; its skip pointers only shorten the walk). *)
Fixpoint walk_back (m : BlockMap) (steps : nat) (b : CBlockIndex.t) : option CBlockIndex.t :=
  match steps with
  | O => Some b
  | S k => at_ m (CBlockIndex.pprev b) ≫= walk_back m k
  end.

Definition GetAncestor (m : BlockMap) (b : CBlockIndex.t) (height : Z)
  : option CBlockIndex.t :=
  if (height <? 0) || (CBlockIndex.nHeight b <? height) then None
  else walk_back m (Z.to_nat (CBlockIndex.nHeight b - height)) b.

(** Insertion sort, for the median. *)
Fixpoint insert_sorted (x : Z) (l : list Z) : list Z :=
  match l with
  | [] => [x]
  | y :: l' => if x <=? y then x :: l else y :: insert_sorted x l'
  end.

Definition sort_Z (l : list Z) : list Z := foldr insert_sorted [] l.

(** The times of [b] and its predecessors, at most [span] of them. *)
Fixpoint last_times (m : BlockMap) (span : nat) (b : option CBlockIndex.t) : list Z :=
  match span, b with
  | S k, Some b => CBlockIndex.GetBlockTime b :: last_times m k (at_ m (CBlockIndex.pprev b))
  | _, _ => []
  end.

Definition nMedianTimeSpan : nat := 11.

(** Modelled from the spec: the median time past of an entry is the median
    of the timestamps of the last eleven blocks ending with it (the middle
    element of the sorted times, the upper one of an even number). *)
Definition GetMedianTimePast (m : BlockMap) (b : CBlockIndex.t) : Z :=
  let times := sort_Z (last_times m nMedianTimeSpan (Some b)) in
  nth (length times / 2)%nat times 0.
#[global] Arguments GetMedianTimePast : simpl never.
#[global] Arguments GetAncestor : simpl never.

(** ** What lies outside [validation.cpp] *)

Inductive ThresholdState :=
| THRESHOLD_DEFINED | THRESHOLD_STARTED | THRESHOLD_LOCKED_IN
| THRESHOLD_ACTIVE | THRESHOLD_FAILED.
#[global] Instance ThresholdState_eq_dec : EqDecision ThresholdState.
Proof. solve_decision. Defined.

(** Scripts, serialisation, chain parameters, proof of work and the side-car
    services are external collaborators: their answers are the fields of
    this class, and every theorem below holds whatever they answer. *)
Class Externals := {
  (* script.h *)
  GetSigOpCount : CScript -> bool -> Z;
  GetSigOpCount_p2sh : CScript -> CScript -> Z;
  IsPayToScriptHash : CScript -> bool;
  IsUnspendable : CScript -> bool;
  script_IsZerocoinMint : CScript -> bool;
  script_IsZerocoinSpend : CScript -> bool;
  (* primitives/transaction.h, amount.h *)
  IsCoinBase : CTransaction.t -> bool;
  IsZerocoinSpend : CTransaction.t -> bool;
  tx_GetSerializeSize : CTransaction.t -> Z;
  block_GetSerializeSize : CBlock.t -> Z;
  GetBlockWeight : CBlock.t -> Z;
  MAX_MONEY : CAmount;
  WITNESS_SCALE_FACTOR : Z;
  (* chainparams, pow, versionbits *)
  hashGenesisBlock : uint256;
  BIP34Height : Z;
  BIP34Hash : uint256;
  nMajorityWindow : Z;
  nMajorityEnforceBlockUpgrade : Z;
  nMajorityRejectBlockOutdated : Z;
  GetNextWorkRequired : BlockMap -> CBlockIndex.t -> CBlock.t -> Z;
  CheckProofOfWork : Z -> uint256 -> Z -> bool;
  VersionBitsState_CSV : BlockMap -> option CBlockIndex.t -> ThresholdState;
  IsWitnessEnabled : BlockMap -> option CBlockIndex.t -> bool;
  ComputeBlockSize : BlockMap -> CBlockIndex.t -> Z;
  BlockMerkleRoot : CBlock.t -> uint256 * bool;
  (* clock *)
  GetAdjustedTime : Z;
  (* instantsend, spork manager, SmartMining *)
  SPORK_3_INSTANTSEND_BLOCK_FILTERING_active : bool;
  GetLockedOutPointTxHash : COutPoint.t -> option uint256;
  HasTxLockRequest : uint256 -> bool;
  TxLockRequest_IsValid : CTransaction.t -> bool;
  SmartMining_Validate : CBlock.t -> CBlockIndex.t -> CAmount -> option Rejection;
  (* script interpreter: scriptSig, scriptPubKey, flags, transaction, input *)
  VerifyScript : CScript -> CScript -> Z -> CTransaction.t -> nat -> bool;
  (* assumevalid *)
  hashAssumeValid : option uint256;
  nMinimumChainWork : Z;
  GetBlockProofEquivalentTime : CBlockIndex.t -> CBlockIndex.t -> Z;
  (* block and undo files, block tree database *)
  FindUndoPos : Z -> list (list Coin.t) -> option Z;
  UndoWriteToDisk_ok : bool;
  WriteTxIndex_ok : bool;
  WriteAddressIndex_ok : bool;
  UpdateAddressUnspentIndex_ok : bool;
  EraseAddressIndex_ok : bool;
  UpdateSpentIndex_ok : bool;
  WriteTimestampIndex_ok : bool
}.

(** The node's settings ([fTxIndex] and friends, [nScriptCheckThreads]) and
    the limits the adaptive block size moves. *)
Record NodeFlags := mkNodeFlags {
  fTxIndex : bool;
  fAddressIndex : bool;
  fSpentIndex : bool;
  fTimestampIndex : bool;
  nScriptCheckThreads : Z
}.

Record Limits := mkLimits {
  maxBlockSize : Z;
  maxBlockSigops : Z;
  maxStandardTxSigops : Z
}.
(** ** Lock times *)

Section LockTimes.
Context `{Externals}.

(** Modelled from the spec: [nLockTime < 500_000_000] is a height, anything
    else a Unix time ([script/script.h] is not among the sources). *)
Definition LOCKTIME_THRESHOLD : Z := 500000000.

(** [txmempool.h] is not among the sources: the fake height of a coin that
    exists only in the pool, 0x7FFFFFFF there. *)
Definition MEMPOOL_HEIGHT : Z := 2147483647.

(** [bool IsFinalTx(const CTransaction &tx, int nBlockHeight, int64_t nBlockTime)]. *)
Definition IsFinalTx (tx : CTransaction.t) (nBlockHeight nBlockTime : Z) : bool :=
  if CTransaction.nLockTime tx =? 0 then true
  else if CTransaction.nLockTime tx
          <? (if CTransaction.nLockTime tx <? LOCKTIME_THRESHOLD
              then nBlockHeight else nBlockTime)
  then true
  else forallb (fun txin => CTxIn.nSequence txin =? CTxIn.SEQUENCE_FINAL)
               (CTransaction.vin tx).

Definition sequence_disabled (txin : CTxIn.t) : bool :=
  negb (Z.land (CTxIn.nSequence txin) CTxIn.SEQUENCE_LOCKTIME_DISABLE_FLAG =? 0).

Definition sequence_time_based (txin : CTxIn.t) : bool :=
  negb (Z.land (CTxIn.nSequence txin) CTxIn.SEQUENCE_LOCKTIME_TYPE_FLAG =? 0).

Definition sequence_value (txin : CTxIn.t) : Z :=
  Z.land (CTxIn.nSequence txin) CTxIn.SEQUENCE_LOCKTIME_MASK.

(** The [for] loop of [CalculateSequenceLocks] over the inputs and their
    heights; it returns the two minima and the heights vector as the loop
    leaves it (0 written over the entry of every input that is not
    sequence locked). *)
Fixpoint CalculateSequenceLocks_loop (m : BlockMap) (block : CBlockIndex.t)
    (vin : list CTxIn.t) (prevHeights : list Z) (nMinHeight nMinTime : Z)
  : outcome (Z * Z * list Z) :=
  match vin, prevHeights with
  | txin :: vin', nCoinHeight :: prev' =>
    if sequence_disabled txin then
      r ← CalculateSequenceLocks_loop m block vin' prev' nMinHeight nMinTime;
      Ok (r.1.1, r.1.2, 0 :: r.2)
    else if sequence_time_based txin then
      anc ← deref (GetAncestor m block (Z.max (Int.s32 (nCoinHeight - 1)) 0));
      let nCoinTime := GetMedianTimePast m anc in
      let nMinTime' :=
        Z.max nMinTime
          (Int.s64 (nCoinTime
                    + Int.u32 (Z.shiftl (sequence_value txin)
                                        CTxIn.SEQUENCE_LOCKTIME_GRANULARITY)
                    - 1)) in
      r ← CalculateSequenceLocks_loop m block vin' prev' nMinHeight nMinTime';
      Ok (r.1.1, r.1.2, nCoinHeight :: r.2)
    else
      let nMinHeight' :=
        Z.max nMinHeight (Int.s32 (nCoinHeight + sequence_value txin - 1)) in
      r ← CalculateSequenceLocks_loop m block vin' prev' nMinHeight' nMinTime;
      Ok (r.1.1, r.1.2, nCoinHeight :: r.2)
  | _, _ => Ok (nMinHeight, nMinTime, [])
  end.

(** [static std::pair<int, int64_t> CalculateSequenceLocks(tx, flags,
    prevHeights, block)]; the result carries [*prevHeights] as left behind. *)
Definition CalculateSequenceLocks (m : BlockMap) (tx : CTransaction.t) (flags : Z)
    (prevHeights : list Z) (block : CBlockIndex.t) : outcome (Z * Z * list Z) :=
  _ ← assert_ (length prevHeights =? length (CTransaction.vin tx))%nat
              "prevHeights->size() == tx.vin.size()";
  let nMinHeight := -1 in
  let nMinTime := -1 in
  let fEnforceBIP68 :=
    (2 <=? Int.u32 (CTransaction.nVersion tx))
    && negb (Z.land flags LOCKTIME_VERIFY_SEQUENCE =? 0) in
  if negb fEnforceBIP68 then Ok (nMinHeight, nMinTime, prevHeights)
  else CalculateSequenceLocks_loop m block (CTransaction.vin tx) prevHeights
                                   nMinHeight nMinTime.

(** [static bool EvaluateSequenceLocks(block, lockPair)]. *)
Definition EvaluateSequenceLocks (m : BlockMap) (block : CBlockIndex.t)
    (lockPair : Z * Z) : outcome bool :=
  _ ← assert_ (bool_decide (is_Some (CBlockIndex.pprev block))) "block.pprev";
  prev ← deref (at_ m (CBlockIndex.pprev block));
  let nBlockTime := GetMedianTimePast m prev in
  if (CBlockIndex.nHeight block <=? lockPair.1) || (nBlockTime <=? lockPair.2)
  then Ok false
  else Ok true.

(** [bool SequenceLocks(tx, flags, prevHeights, block)]. *)
Definition SequenceLocks (m : BlockMap) (tx : CTransaction.t) (flags : Z)
    (prevHeights : list Z) (block : CBlockIndex.t) : outcome bool :=
  r ← CalculateSequenceLocks m tx flags prevHeights block;
  EvaluateSequenceLocks m block (r.1.1, r.1.2).

Record LockPoints := mkLockPoints {
  lp_height : Z;
  lp_time : Z;
  maxInputBlock : option uint256
}.

(** The heights [CheckSequenceLocks] collects: the coin's, or [tip height + 1]
    for a coin of the pool; [None] is the "Missing input" error. *)
Fixpoint CheckSequenceLocks_prevheights (GetCoin : COutPoint.t -> option Coin.t)
    (tipHeight : Z) (vin : list CTxIn.t) : option (list Z) :=
  match vin with
  | [] => Some []
  | txin :: vin' =>
    match GetCoin (CTxIn.prevout txin) with
    | None => None
    | Some coin =>
      rest ← CheckSequenceLocks_prevheights GetCoin tipHeight vin';
      Some ((if Coin.nHeight coin =? MEMPOOL_HEIGHT
             then Int.s32 (tipHeight + 1) else Coin.nHeight coin) :: rest)
    end
  end.

(** [bool CheckSequenceLocks(tx, flags, lp, useExistingLockPoints)] against
    the tip [ptip] of the active chain and the pool-backed coin lookup
    [GetCoin]; the result carries [*lp] as left behind. *)
Definition CheckSequenceLocks (m : BlockMap) (ptip : option uint256)
    (GetCoin : COutPoint.t -> option Coin.t)
    (tx : CTransaction.t) (flags : Z) (lp : option LockPoints)
    (useExistingLockPoints : bool) : outcome (bool * option LockPoints) :=
  tip ← deref (at_ m ptip);
  let index :=
    CBlockIndex.mk None ptip (Int.s32 (CBlockIndex.nHeight tip + 1))
                   0 0 0 0 0 0 0 0 0 0 0 0 0 in
  if useExistingLockPoints then
    l ← deref lp;
    b ← EvaluateSequenceLocks m index (lp_height l, lp_time l);
    Ok (b, lp)
  else
    match CheckSequenceLocks_prevheights GetCoin (CBlockIndex.nHeight tip)
                                         (CTransaction.vin tx) with
    | None => Ok (false, lp)
    | Some prevheights =>
      r ← CalculateSequenceLocks m tx flags prevheights index;
      let lp' :=
        match lp with
        | None => None
        | Some _ =>
          let maxInputHeight :=
            foldl (fun acc height =>
                     if height =? Int.s32 (CBlockIndex.nHeight tip + 1) then acc
                     else Z.max acc height) 0 r.2 in
          Some (mkLockPoints r.1.1 r.1.2
                  (GetAncestor m tip maxInputHeight ≫= CBlockIndex.phashBlock))
        end in
      b ← EvaluateSequenceLocks m index (r.1.1, r.1.2);
      Ok (b, lp')
    end.

End LockTimes.

(** Sample data: a parent entry of height 104 under the name 1, the block
    of height 105 on top of it, and a version-2 transaction whose single
    input has sequence 5. *)
Definition sample_index (pprev : option uint256) (height time : Z) : CBlockIndex.t :=
  CBlockIndex.mk (Some height) pprev height 0 0 0 0 0 0 0 2 0 time 0 0 0.
Definition sample_parent : CBlockIndex.t := sample_index None 104 1000.
Definition sample_map : BlockMap := {[ 104 := sample_parent ]}.
Definition sample_block_index : CBlockIndex.t := sample_index (Some 104) 105 2000.
Definition sample_txin (seq : Z) : CTxIn.t := CTxIn.mk (COutPoint.mk 7 0) [] seq.
Definition sample_locked_tx : CTransaction.t :=
  CTransaction.mk 2 [sample_txin 5] [CTxOut.mk 1 []] 0 8.

(** ** Contextual header check *)

Section HeaderChecks.
Context `{Externals}.

(** Modelled from the spec: max future block time: 2 hours ([chain.h] is not
    among the sources). *)
Definition MAX_FUTURE_BLOCK_TIME : Z := 2 * 60 * 60.

(** The loop of [IsSuperMajority]: [window] iterations are left. *)
Fixpoint IsSuperMajority_loop (m : BlockMap) (window : nat) (minVersion : Z)
    (pstart : option CBlockIndex.t) (nRequired nFound : Z) : Z :=
  match window with
  | O => nFound
  | S k =>
    if nFound <? nRequired then
      match pstart with
      | Some b =>
        IsSuperMajority_loop m k minVersion (at_ m (CBlockIndex.pprev b)) nRequired
          (if minVersion <=? CBlockIndex.nVersion b then Int.u32 (nFound + 1) else nFound)
      | None => nFound
      end
    else nFound
  end.

(** [static bool IsSuperMajority(minVersion, pstart, nRequired, params)]. *)
Definition IsSuperMajority (m : BlockMap) (minVersion : Z)
    (pstart : option CBlockIndex.t) (nRequired : Z) : bool :=
  Int.u32 nRequired
  <=? IsSuperMajority_loop m (Z.to_nat nMajorityWindow) minVersion pstart
                           (Int.u32 nRequired) 0.

(** [strprintf("bad-version(0x%08x)", version - 1)] for the versions 2, 3, 4. *)
Definition bad_version_reason (version : Z) : string :=
  if version =? 2 then "bad-version(0x00000001)"
  else if version =? 3 then "bad-version(0x00000002)"
  else "bad-version(0x00000003)".

(** The [for (version = 2; version < 5; ++version)] loop. *)
Fixpoint outdated_version_loop (m : BlockMap) (block : CBlock.t)
    (pindexPrev : CBlockIndex.t) (versions : list Z) : outcome unit :=
  match versions with
  | [] => Ok tt
  | version :: rest =>
    if (CBlock.nVersion block <? version)
       && IsSuperMajority m version (Some pindexPrev) nMajorityRejectBlockOutdated
    then reject (Invalid REJECT_OBSOLETE (bad_version_reason version))
    else outdated_version_loop m block pindexPrev rest
  end.

(** [bool ContextualCheckBlockHeader(block, state, pindexPrev)]. *)
Definition ContextualCheckBlockHeader (m : BlockMap) (block : CBlock.t)
    (pindexPrev : CBlockIndex.t) : outcome unit :=
  if negb (Int.u32 (CBlock.nBits block) =? GetNextWorkRequired m pindexPrev block)
  then reject (DoS 100 REJECT_INVALID "bad-diffbits" false)
  else if CBlock.GetBlockTime block <=? GetMedianTimePast m pindexPrev
  then reject (Invalid REJECT_INVALID "time-too-old")
  else if GetAdjustedTime + MAX_FUTURE_BLOCK_TIME <? CBlock.GetBlockTime block
  then reject (Invalid REJECT_INVALID "time-too-new")
  else outdated_version_loop m block pindexPrev [2; 3; 4].

End HeaderChecks.
(** ** The coins view *)

Module CCoinsViewCache.

(** Modelled from the spec: the cache is a map from outpoints to coins with
    the state flags FRESH ("not known in backing store") and DIRTY
    ("diverges from backing store"); a lookup that misses fills from the
    backing store, so the map stands for cache and store together.
    [coins.h] and [coins.cpp] are not among the sources. *)
Record entry := mkEntry { coin : Coin.t; DIRTY : bool; FRESH : bool }.

Record t := mk { cacheCoins : gmap COutPoint.t entry; hashBlock : uint256 }.

Definition GetBestBlock (v : t) : uint256 := hashBlock v.
Definition SetBestBlock (v : t) (h : uint256) : t := mk (cacheCoins v) h.

(** Modelled from the spec: [access(out) -> Option<Coin>]; a spent or
    unknown outpoint yields the empty coin. *)
Definition AccessCoin (v : t) (o : COutPoint.t) : Coin.t :=
  match cacheCoins v !! o with
  | Some e => coin e
  | None => Coin.empty
  end.

(** Modelled from the spec: an outpoint is had when its coin is known and
    unspent. *)
Definition HaveCoin (v : t) (o : COutPoint.t) : bool :=
  match cacheCoins v !! o with
  | Some e => negb (Coin.IsSpent (coin e))
  | None => false
  end.

Definition HaveCoinInCache (v : t) (o : COutPoint.t) : bool := HaveCoin v o.

(** The unspent coins of the view: what the view holds, whatever its
    tombstones and flags. *)
Definition unspent (v : t) : gmap COutPoint.t Coin.t :=
  omap (fun e => if Coin.IsSpent (coin e) then None else Some (coin e)) (cacheCoins v).

Section WithExternals.
Context `{Externals}.

(** Modelled from the spec: [add_coin(out, coin, possible_overwrite)]: if
    the slot is known unspent it fails (the exception "Adding new coin that
    replaces non-pruned entry") unless [possible_overwrite]; a coin added
    where the cache held no dirty entry is FRESH.  Outputs whose script is
    provably unspendable are never stored, which is what the
    [IsUnspendable] guard of [DisconnectBlock] mirrors. *)
Definition AddCoin (v : t) (o : COutPoint.t) (c : Coin.t) (possible_overwrite : bool)
  : outcome t :=
  _ ← assert_ (negb (Coin.IsSpent c)) "!coin.IsSpent()";
  if IsUnspendable (CTxOut.scriptPubKey (Coin.out c)) then Ok v
  else
    let old := default (mkEntry Coin.empty false false) (cacheCoins v !! o) in
    if negb possible_overwrite && negb (Coin.IsSpent (coin old))
    then Fail (Crashed "logic_error: Adding new coin that replaces non-pruned entry")
    else
      let fresh := negb possible_overwrite && negb (DIRTY old) in
      Ok (mk (<[o := mkEntry c true (FRESH old || fresh)]> (cacheCoins v)) (hashBlock v)).

(** Modelled from the spec: [spend_coin(out) -> Coin] marks the entry
    SPENT+DIRTY, or removes it when it is FRESH; the result says whether an
    entry was found and carries the coin moved out. *)
Definition SpendCoin (v : t) (o : COutPoint.t) : bool * Coin.t * t :=
  match cacheCoins v !! o with
  | None => (false, Coin.empty, v)
  | Some e =>
    (true, coin e,
     if FRESH e then mk (delete o (cacheCoins v)) (hashBlock v)
     else mk (<[o := mkEntry Coin.empty true false]> (cacheCoins v)) (hashBlock v))
  end.

(** [HaveInputs]: every input of a non-coinbase transaction is had. *)
Definition HaveInputs (v : t) (tx : CTransaction.t) : bool :=
  if negb (IsCoinBase tx)
  then forallb (fun txin => HaveCoin v (CTxIn.prevout txin)) (CTransaction.vin tx)
  else true.

(** [GetValueIn]: the sum of the values of the coins spent. *)
Definition GetValueIn (v : t) (tx : CTransaction.t) : CAmount :=
  if IsCoinBase tx then 0
  else foldl (fun acc txin =>
                Int.s64 (acc + CTxOut.nValue (Coin.out (AccessCoin v (CTxIn.prevout txin)))))
             0 (CTransaction.vin tx).

(** [MAX_OUTPUTS_PER_BLOCK]: [MAX_BLOCK_BASE_SIZE] over the 9 bytes of an
    empty output. *)
Definition MAX_OUTPUTS_PER_BLOCK : Z := MAX_BLOCK_BASE_SIZE / 9.

(** [AccessByTxid]: the first unspent output of the transaction, if any. *)
Fixpoint AccessByTxid_from (v : t) (txid : uint256) (fuel : nat) (n : Z) : Coin.t :=
  match fuel with
  | O => Coin.empty
  | S k =>
    let alternate := AccessCoin v (COutPoint.mk txid n) in
    if negb (Coin.IsSpent alternate) then alternate
    else AccessByTxid_from v txid k (n + 1)
  end.

Definition AccessByTxid (v : t) (txid : uint256) : Coin.t :=
  AccessByTxid_from v txid (Z.to_nat MAX_OUTPUTS_PER_BLOCK) 0.

(** [AddCoins(cache, tx, nHeight)]: every output becomes a coin; a coinbase
    may overwrite. *)
Fixpoint AddCoins_from (v : t) (tx : CTransaction.t) (nHeight : Z)
    (vout : list CTxOut.t) (i : Z) : outcome t :=
  match vout with
  | [] => Ok v
  | out :: rest =>
    v' ← AddCoin v (COutPoint.mk (CTransaction.GetHash tx) i)
                 (Coin.mk out (IsCoinBase tx) nHeight) (IsCoinBase tx);
    AddCoins_from v' tx nHeight rest (i + 1)
  end.

Definition AddCoins (v : t) (tx : CTransaction.t) (nHeight : Z) : outcome t :=
  AddCoins_from v tx nHeight (CTransaction.vout tx) 0.

End WithExternals.
End CCoinsViewCache.

#[global] Arguments CCoinsViewCache.AccessByTxid : simpl never.

(** [CTxUndo::vprevout] and [CBlockUndo::vtxundo]. *)
Definition CTxUndo : Type := list Coin.t.
Definition CBlockUndo : Type := list CTxUndo.

(** Undo files: what [UndoWriteToDisk] stored at a position, with the hash
    of the parent block that its checksum covers. *)
Definition UndoFiles : Type := gmap (Z * Z) (uint256 * CBlockUndo).
(** ** Contextless checks *)

Section BlockChecks.
Context `{Externals}.

Definition MoneyRange (v : CAmount) : bool := (0 <=? v) && (v <=? MAX_MONEY).

(** [unsigned int GetLegacySigOpCount(const CTransaction& tx)]. *)
Definition GetLegacySigOpCount (tx : CTransaction.t) : Z :=
  let nSigOps :=
    foldl (fun acc txin => Int.u32 (acc + GetSigOpCount (CTxIn.scriptSig txin) false))
          0 (CTransaction.vin tx) in
  foldl (fun acc txout => Int.u32 (acc + GetSigOpCount (CTxOut.scriptPubKey txout) false))
        nSigOps (CTransaction.vout tx).

(** [unsigned int GetP2SHSigOpCount(tx, inputs)]. *)
Fixpoint GetP2SHSigOpCount_loop (view : CCoinsViewCache.t) (vin : list CTxIn.t)
    (nSigOps : Z) : outcome Z :=
  match vin with
  | [] => Ok nSigOps
  | txin :: rest =>
    let coin := CCoinsViewCache.AccessCoin view (CTxIn.prevout txin) in
    _ ← assert_ (negb (Coin.IsSpent coin)) "!coin.IsSpent()";
    let prevout := Coin.out coin in
    GetP2SHSigOpCount_loop view rest
      (if IsPayToScriptHash (CTxOut.scriptPubKey prevout)
       then Int.u32 (nSigOps + GetSigOpCount_p2sh (CTxOut.scriptPubKey prevout)
                                                  (CTxIn.scriptSig txin))
       else nSigOps)
  end.

Definition GetP2SHSigOpCount (tx : CTransaction.t) (view : CCoinsViewCache.t) : outcome Z :=
  if IsCoinBase tx || IsZerocoinSpend tx then Ok 0
  else GetP2SHSigOpCount_loop view (CTransaction.vin tx) 0.

(** [GetValueOut()]: the sum of the output values. *)
Definition GetValueOut (tx : CTransaction.t) : CAmount :=
  foldl (fun acc txout => Int.s64 (acc + CTxOut.nValue txout)) 0 (CTransaction.vout tx).

(** The loop of [CheckTransaction] over the outputs. *)
Fixpoint CheckTransaction_vout (nHeight : Z) (vout : list CTxOut.t) (nValueOut : CAmount)
  : outcome unit :=
  match vout with
  | [] => Ok tt
  | txout :: rest =>
    if CTxOut.nValue txout <? 0
    then reject (DoS 100 REJECT_INVALID "bad-txns-vout-negative" false)
    else if MAX_MONEY <? CTxOut.nValue txout
    then reject (DoS 100 REJECT_INVALID "bad-txns-vout-toolarge" false)
    else
      let nValueOut := Int.s64 (nValueOut + CTxOut.nValue txout) in
      if negb (MoneyRange nValueOut)
      then reject (DoS 100 REJECT_INVALID "bad-txns-txouttotal-toolarge" false)
      else if (HF_ZEROCOIN_DISABLE <? nHeight)
              && (script_IsZerocoinMint (CTxOut.scriptPubKey txout)
                  || script_IsZerocoinSpend (CTxOut.scriptPubKey txout))
      then reject (DoS 100 REJECT_INVALID "bad-txns-vout-zerocoin" false)
      else CheckTransaction_vout nHeight rest nValueOut
  end.

(** The duplicate-input loop: [seen] is [vInOutPoints]. *)
Fixpoint CheckTransaction_dups (vin : list CTxIn.t) (seen : list COutPoint.t)
  : outcome unit :=
  match vin with
  | [] => Ok tt
  | txin :: rest =>
    if bool_decide (CTxIn.prevout txin ∈ seen)
    then reject (DoS 100 REJECT_INVALID "bad-txns-inputs-duplicate" false)
    else CheckTransaction_dups rest (CTxIn.prevout txin :: seen)
  end.

(** The loop over the inputs of a transaction that is not a coinbase. *)
Fixpoint CheckTransaction_vin (nHeight : Z) (vin : list CTxIn.t) : outcome unit :=
  match vin with
  | [] => Ok tt
  | txin :: rest =>
    if COutPoint.IsNull (CTxIn.prevout txin)
       && negb (script_IsZerocoinSpend (CTxIn.scriptSig txin))
    then reject (DoS 10 REJECT_INVALID "bad-txns-prevout-null" false)
    else if (HF_ZEROCOIN_DISABLE <? nHeight)
            && (script_IsZerocoinMint (CTxIn.scriptSig txin)
                || script_IsZerocoinSpend (CTxIn.scriptSig txin))
    then reject (DoS 100 REJECT_INVALID "bad-txns-vout-zerocoin" false)
    else CheckTransaction_vin nHeight rest
  end.

(** [bool CheckTransaction(tx, state, hashTx, isVerifyDB, nHeight)]. *)
Definition CheckTransaction (limits : Limits) (tx : CTransaction.t) (nHeight : Z)
  : outcome unit :=
  if bool_decide (CTransaction.vin tx = [])
  then reject (DoS 10 REJECT_INVALID "bad-txns-vin-empty" false)
  else if bool_decide (CTransaction.vout tx = [])
  then reject (DoS 10 REJECT_INVALID "bad-txns-vout-empty" false)
  else if maxBlockSize limits <? tx_GetSerializeSize tx
  then reject (DoS 100 REJECT_INVALID "bad-txns-oversize" false)
  else
    _ ← CheckTransaction_vout nHeight (CTransaction.vout tx) 0;
    _ ← CheckTransaction_dups (CTransaction.vin tx) [];
    if IsCoinBase tx then
      match CTransaction.vin tx with
      | txin :: _ =>
        if (Z.of_nat (length (CTxIn.scriptSig txin)) <? 2)
           || (100 <? Z.of_nat (length (CTxIn.scriptSig txin)))
        then reject (DoS 100 REJECT_INVALID "bad-cb-length" false)
        else Ok tt
      | [] => Fail (Crashed "tx.vin[0]")
      end
    else CheckTransaction_vin nHeight (CTransaction.vin tx).

(** [int getNHeight(const CBlockHeader &block)]. *)
Definition getNHeight (m : BlockMap) (block : CBlock.t) : Z :=
  match m !! CBlock.hashPrevBlock block with
  | Some pindexPrev => Int.s32 (CBlockIndex.nHeight pindexPrev + 1)
  | None => 0
  end.

(** [bool CheckBlockHeader(block, state, fCheckPOW)]. *)
Definition CheckBlockHeader (m : BlockMap) (block : CBlock.t) (fCheckPOW : bool)
  : outcome unit :=
  let nHeight := getNHeight m block in
  if fCheckPOW && negb (CheckProofOfWork nHeight (CBlock.GetHash block) (CBlock.nBits block))
  then reject (DoS 50 REJECT_INVALID "high-hash" false)
  else Ok tt.

(** The instant-send filter of [CheckBlock]: an input locked by another
    transaction. *)
Definition conflicts_with_lock (tx : CTransaction.t) : bool :=
  if IsCoinBase tx then false
  else existsb (fun txin =>
                  match GetLockedOutPointTxHash (CTxIn.prevout txin) with
                  | Some hashLocked => negb (hashLocked =? CTransaction.GetHash tx)
                  | None => false
                  end) (CTransaction.vin tx).

Fixpoint CheckBlock_transactions (m : BlockMap) (limits : Limits) (block : CBlock.t)
    (vtx : list CTransaction.t) : outcome unit :=
  match vtx with
  | [] => Ok tt
  | tx :: rest =>
    _ ← CheckTransaction limits tx (getNHeight m block);
    CheckBlock_transactions m limits block rest
  end.

(** The legacy sigops of a block, summed in an [unsigned int]. *)
Definition block_legacy_sigops (vtx : list CTransaction.t) : Z :=
  foldl (fun acc tx => Int.u32 (acc + GetLegacySigOpCount tx)) 0 vtx.

(** [CheckBlock] from the header check to the transaction checks: all that
    comes before the sigop count. *)
Definition CheckBlock_structure (m : BlockMap) (limits : Limits) (block : CBlock.t)
    (fCheckPOW fCheckMerkleRoot : bool) : outcome unit :=
  _ ← CheckBlockHeader m block fCheckPOW;
  _ ← (if fCheckMerkleRoot then
         let '(hashMerkleRoot2, mutated) := BlockMerkleRoot block in
         if negb (CBlock.hashMerkleRoot block =? hashMerkleRoot2)
         then reject (DoS 100 REJECT_INVALID "bad-txnmrklroot" true)
         else if mutated
         then reject (DoS 100 REJECT_INVALID "bad-txns-duplicate" true)
         else Ok tt
       else Ok tt);
  if bool_decide (CBlock.vtx block = [])
     || (maxBlockSize limits <? Z.of_nat (length (CBlock.vtx block)))
     || (maxBlockSize limits <? block_GetSerializeSize block)
  then reject (DoS 100 REJECT_INVALID "bad-blk-length" false)
  else
    match CBlock.vtx block with
    | [] => reject (DoS 100 REJECT_INVALID "bad-cb-missing" false)
    | tx0 :: others =>
      if negb (IsCoinBase tx0)
      then reject (DoS 100 REJECT_INVALID "bad-cb-missing" false)
      else if existsb IsCoinBase others
      then reject (DoS 100 REJECT_INVALID "bad-cb-multiple" false)
      else if SPORK_3_INSTANTSEND_BLOCK_FILTERING_active
              && existsb conflicts_with_lock (CBlock.vtx block)
      then reject (DoS 0 REJECT_INVALID "conflict-tx-lock" false)
      else CheckBlock_transactions m limits block (CBlock.vtx block)
    end.

(** [bool CheckBlock(block, state, fCheckPOW, fCheckMerkleRoot)]; the result
    is the value of [block.fChecked] afterwards. *)
Definition CheckBlock (m : BlockMap) (limits : Limits) (block : CBlock.t)
    (fCheckPOW fCheckMerkleRoot : bool) : outcome bool :=
  if CBlock.fChecked block then Ok true
  else
    _ ← CheckBlock_structure m limits block fCheckPOW fCheckMerkleRoot;
    let nSigOps := block_legacy_sigops (CBlock.vtx block) in
    if MAX_BLOCK_SIGOPS_COST <? Int.u32 (nSigOps * WITNESS_SCALE_FACTOR)
    then reject (DoS 100 REJECT_INVALID "bad-blk-sigops" false)
    else Ok (fCheckPOW && fCheckMerkleRoot).

End BlockChecks.
(** ** Connecting and disconnecting a block *)

Section Connect.
Context `{Externals}.

(** Script verification flags ([script/interpreter.h], not among the
    sources); the model only hands them to [VerifyScript]. *)
Definition SCRIPT_VERIFY_NONE : Z := 0.
Definition SCRIPT_VERIFY_P2SH : Z := Z.shiftl 1 0.
Definition SCRIPT_VERIFY_DERSIG : Z := Z.shiftl 1 2.
Definition SCRIPT_VERIFY_CHECKLOCKTIMEVERIFY : Z := Z.shiftl 1 9.
Definition SCRIPT_VERIFY_CHECKSEQUENCEVERIFY : Z := Z.shiftl 1 10.
(** [STANDARD_NOT_MANDATORY_VERIFY_FLAGS] of [policy/policy.h]: the standard
    flags without P2SH. *)
Definition STANDARD_NOT_MANDATORY_VERIFY_FLAGS : Z :=
  Z.lor (Z.shiftl 1 2) (Z.lor (Z.shiftl 1 1) (Z.lor (Z.shiftl 1 5) (Z.lor (Z.shiftl 1 4)
  (Z.lor (Z.shiftl 1 7) (Z.lor (Z.shiftl 1 8) (Z.lor (Z.shiftl 1 9)
  (Z.lor (Z.shiftl 1 10) (Z.shiftl 1 3)))))))).

(** A queued script check: [CScriptCheck(scriptPubKey, amount, tx, nIn, flags, cacheStore)]. *)
Record CScriptCheck := mkScriptCheck {
  chk_scriptPubKey : CScript;
  chk_tx : CTransaction.t;
  chk_nIn : nat;
  chk_flags : Z
}.

(** [CScriptCheck::operator()]. *)
Definition run_check (c : CScriptCheck) : bool :=
  match CTransaction.vin (chk_tx c) !! chk_nIn c with
  | Some txin => VerifyScript (CTxIn.scriptSig txin) (chk_scriptPubKey c) (chk_flags c)
                              (chk_tx c) (chk_nIn c)
  | None => false
  end.

(** The first loop of [Consensus::CheckTxInputs]. *)
Fixpoint CheckTxInputs_loop (inputs : CCoinsViewCache.t) (nSpendHeight : Z)
    (vin : list CTxIn.t) (nValueIn : CAmount) : outcome CAmount :=
  match vin with
  | [] => Ok nValueIn
  | txin :: rest =>
    let coin := CCoinsViewCache.AccessCoin inputs (CTxIn.prevout txin) in
    _ ← assert_ (negb (Coin.IsSpent coin)) "!coin.IsSpent()";
    if Coin.IsCoinBase coin
       && (Int.s32 (nSpendHeight - Coin.nHeight coin) <? COINBASE_MATURITY)
    then reject (Invalid REJECT_INVALID "bad-txns-premature-spend-of-coinbase")
    else
      let nValueIn := Int.s64 (nValueIn + CTxOut.nValue (Coin.out coin)) in
      if negb (MoneyRange (CTxOut.nValue (Coin.out coin))) || negb (MoneyRange nValueIn)
      then reject (DoS 100 REJECT_INVALID "bad-txns-inputvalues-outofrange" false)
      else CheckTxInputs_loop inputs nSpendHeight rest nValueIn
  end.

(** [bool Consensus::CheckTxInputs(tx, state, inputs, nSpendHeight)]. *)
Definition CheckTxInputs (tx : CTransaction.t) (inputs : CCoinsViewCache.t)
    (nSpendHeight : Z) : outcome unit :=
  if negb (CCoinsViewCache.HaveInputs inputs tx)
  then reject (Invalid REJECT_NONE "")
  else
    nValueIn ← CheckTxInputs_loop inputs nSpendHeight (CTransaction.vin tx) 0;
    if nValueIn <? GetValueOut tx
    then reject (DoS 100 REJECT_INVALID "bad-txns-in-belowout" false)
    else
      let nTxFee := Int.s64 (nValueIn - GetValueOut tx) in
      if nTxFee <? 0
      then reject (DoS 100 REJECT_INVALID "bad-txns-fee-negative" false)
      else if negb (MoneyRange (Int.s64 (0 + nTxFee)))
      then reject (DoS 100 REJECT_INVALID "bad-txns-fee-outofrange" false)
      else Ok tt.

(** [int GetSpendHeight(const CCoinsViewCache& inputs)]. *)
Definition GetSpendHeight (m : BlockMap) (inputs : CCoinsViewCache.t) : outcome Z :=
  pindexPrev ← deref (m !! CCoinsViewCache.GetBestBlock inputs);
  Ok (Int.s32 (CBlockIndex.nHeight pindexPrev + 1)).

(** The script loop of [CheckInputs]: with a queue ([queue = true]) the
    checks are pushed for the verifier pool, else they run on the spot.  The
    script error text that the reject reason carries in parentheses is left
    out. *)
Fixpoint CheckInputs_scripts (tx : CTransaction.t) (inputs : CCoinsViewCache.t)
    (flags : Z) (queue : bool) (vin : list CTxIn.t) (i : nat)
  : outcome (list CScriptCheck) :=
  match vin with
  | [] => Ok []
  | txin :: rest =>
    let coin := CCoinsViewCache.AccessCoin inputs (CTxIn.prevout txin) in
    _ ← assert_ (negb (Coin.IsSpent coin)) "!coin.IsSpent()";
    let check := mkScriptCheck (CTxOut.scriptPubKey (Coin.out coin)) tx i flags in
    if queue then
      more ← CheckInputs_scripts tx inputs flags queue rest (S i);
      Ok (check :: more)
    else if negb (run_check check) then
      if negb (Z.land flags STANDARD_NOT_MANDATORY_VERIFY_FLAGS =? 0)
         && run_check (mkScriptCheck (chk_scriptPubKey check) tx i
                         (Z.land flags (Z.lnot STANDARD_NOT_MANDATORY_VERIFY_FLAGS)))
      then reject (Invalid REJECT_NONSTANDARD "non-mandatory-script-verify-flag")
      else reject (DoS 100 REJECT_INVALID "mandatory-script-verify-flag-failed" false)
    else CheckInputs_scripts tx inputs flags queue rest (S i)
  end.

(** [bool CheckInputs(tx, state, inputs, fScriptChecks, flags, cacheStore,
    pvChecks)]; the result is what was pushed to [*pvChecks]. *)
Definition CheckInputs (m : BlockMap) (tx : CTransaction.t) (inputs : CCoinsViewCache.t)
    (fScriptChecks : bool) (flags : Z) (queue : bool) : outcome (list CScriptCheck) :=
  if negb (IsCoinBase tx) && negb (IsZerocoinSpend tx) then
    nSpendHeight ← GetSpendHeight m inputs;
    _ ← CheckTxInputs tx inputs nSpendHeight;
    if fScriptChecks
    then CheckInputs_scripts tx inputs flags queue (CTransaction.vin tx) 0
    else Ok []
  else Ok [].

(** The input loop of [UpdateCoins]: each input is spent into the undo
    record, which grows at the back. *)
Fixpoint UpdateCoins_spend (inputs : CCoinsViewCache.t) (vin : list CTxIn.t)
    (txundo : CTxUndo) : outcome (CCoinsViewCache.t * CTxUndo) :=
  match vin with
  | [] => Ok (inputs, txundo)
  | txin :: rest =>
    let '(is_spent, undo, inputs') :=
      CCoinsViewCache.SpendCoin inputs (CTxIn.prevout txin) in
    _ ← assert_ is_spent "is_spent";
    UpdateCoins_spend inputs' rest (txundo ++ [undo])
  end.

(** [void UpdateCoins(tx, state, inputs, txundo, nHeight)]. *)
Definition UpdateCoins (tx : CTransaction.t) (inputs : CCoinsViewCache.t)
    (txundo : CTxUndo) (nHeight : Z) : outcome (CCoinsViewCache.t * CTxUndo) :=
  r ← (if negb (IsCoinBase tx) && negb (IsZerocoinSpend tx)
       then UpdateCoins_spend inputs (CTransaction.vin tx) txundo
       else Ok (inputs, txundo));
  inputs' ← CCoinsViewCache.AddCoins r.1 tx nHeight;
  Ok (inputs', r.2).

(** The two blocks exempt from the duplicate-transaction rule. *)
Definition BIP30_exempt_1 : Z * uint256 :=
  (91842, 0x00000000000a4d0a398161ffc163c503763b1f4360639393e0e4c8e300e0caec).
Definition BIP30_exempt_2 : Z * uint256 :=
  (91880, 0x00000000000743f190a18c5577a3c2d2a1f610ae9601ac046a38084ccb7cd721).

(** [fEnforceBIP30] as [ConnectBlock] computes it. *)
Definition fEnforceBIP30 (m : BlockMap) (pindex : CBlockIndex.t) : outcome bool :=
  let fEnforce :=
    match CBlockIndex.phashBlock pindex with
    | None => true
    | Some h =>
      negb (((CBlockIndex.nHeight pindex =? BIP30_exempt_1.1) && (h =? BIP30_exempt_1.2))
            || ((CBlockIndex.nHeight pindex =? BIP30_exempt_2.1) && (h =? BIP30_exempt_2.2)))
    end in
  pprev ← deref (at_ m (CBlockIndex.pprev pindex));
  match GetAncestor m pprev BIP34Height with
  | None => Ok fEnforce
  | Some pindexBIP34height =>
    h ← CBlockIndex.GetBlockHash pindexBIP34height;
    Ok (fEnforce && negb (h =? BIP34Hash))
  end.

(** The BIP30 scan: no output of the block may be had by the view. *)
Definition overwrites (view : CCoinsViewCache.t) (tx : CTransaction.t) : bool :=
  existsb (fun o => CCoinsViewCache.HaveCoin view
                      (COutPoint.mk (CTransaction.GetHash tx) (Z.of_nat o)))
          (seq 0 (length (CTransaction.vout tx))).

(** [fScriptChecks]: script checks are skipped under an assumed-valid block. *)
Definition fScriptChecks_of (m : BlockMap) (pindexBestHeader : option uint256)
    (pindex : CBlockIndex.t) : bool :=
  match hashAssumeValid with
  | None => true
  | Some hav =>
    match m !! hav, at_ m pindexBestHeader with
    | Some it, Some best =>
      if bool_decide (GetAncestor m it (CBlockIndex.nHeight pindex) = Some pindex)
         && bool_decide (GetAncestor m best (CBlockIndex.nHeight pindex) = Some pindex)
         && (nMinimumChainWork <=? CBlockIndex.nChainWork best)
      then GetBlockProofEquivalentTime best pindex <=? 60 * 60 * 24 * 7 * 2
      else true
    | _, _ => true
    end
  end.

(** The state the transaction loop of [ConnectBlock] carries. *)
Record ConnectLoop := mkConnectLoop {
  cl_view : CCoinsViewCache.t;
  cl_nFees : CAmount;
  cl_nInputs : Z;
  cl_nSigOps : Z;
  cl_blockundo : CBlockUndo;
  cl_checks : list CScriptCheck
}.

(** What the loop reads and does not change. *)
Record ConnectEnv := mkConnectEnv {
  ce_map : BlockMap;
  ce_flags : NodeFlags;
  ce_limits : Limits;
  ce_pindex : CBlockIndex.t;
  ce_fScriptChecks : bool;
  ce_fStrictPayToScriptHash : bool;
  ce_script_flags : Z;
  ce_nLockTimeFlags : Z
}.

(** One turn of [for (unsigned int i = 0; i < block.vtx.size(); i++)]. *)
Definition ConnectBlock_tx (e : ConnectEnv) (i : nat) (tx : CTransaction.t)
    (s : ConnectLoop) : outcome ConnectLoop :=
  let view := cl_view s in
  let nInputs := Int.s32 (cl_nInputs s + Z.of_nat (length (CTransaction.vin tx))) in
  let nSigOps := Int.u32 (cl_nSigOps s + GetLegacySigOpCount tx) in
  if maxBlockSigops (ce_limits e) <? nSigOps
  then reject (DoS 100 REJECT_INVALID "bad-blk-sigops" false)
  else
    r ← (if negb (IsCoinBase tx) && negb (IsZerocoinSpend tx) then
           if negb (CCoinsViewCache.HaveInputs view tx)
           then reject (DoS 100 REJECT_INVALID "bad-txns-inputs-missingorspent" false)
           else
             let prevheights :=
               map (fun txin => Coin.nHeight (CCoinsViewCache.AccessCoin view (CTxIn.prevout txin)))
                   (CTransaction.vin tx) in
             final ← SequenceLocks (ce_map e) tx (ce_nLockTimeFlags e) prevheights (ce_pindex e);
             if negb final
             then reject (DoS 100 REJECT_INVALID "bad-txns-nonfinal" false)
             else
               nSigOps ← (if ce_fStrictPayToScriptHash e then
                            p ← GetP2SHSigOpCount tx view;
                            let nSigOps := Int.u32 (nSigOps + p) in
                            if maxBlockSigops (ce_limits e) <? nSigOps
                            then reject (DoS 100 REJECT_INVALID "bad-blk-sigops" false)
                            else Ok nSigOps
                          else Ok nSigOps);
               let nFees :=
                 Int.s64 (cl_nFees s
                          + Int.s64 (CCoinsViewCache.GetValueIn view tx - GetValueOut tx)) in
               vChecks ← CheckInputs (ce_map e) tx view (ce_fScriptChecks e)
                                     (ce_script_flags e)
                                     (negb (nScriptCheckThreads (ce_flags e) =? 0));
               Ok (nSigOps, nFees, vChecks)
         else Ok (nSigOps, cl_nFees s, []));
    let '(nSigOps, nFees, vChecks) := r in
    u ← UpdateCoins tx view [] (CBlockIndex.nHeight (ce_pindex e));
    Ok (mkConnectLoop u.1 nFees nInputs nSigOps
          (if (0 <? i)%nat then cl_blockundo s ++ [u.2] else cl_blockundo s)
          (cl_checks s ++ vChecks)).

Fixpoint ConnectBlock_loop (e : ConnectEnv) (i : nat) (vtx : list CTransaction.t)
    (s : ConnectLoop) : outcome ConnectLoop :=
  match vtx with
  | [] => Ok s
  | tx :: rest =>
    s' ← ConnectBlock_tx e i tx s;
    ConnectBlock_loop e (S i) rest s'
  end.

(** [pindex->GetUndoPos()]: null unless the entry has undo data. *)
Definition GetUndoPos (pindex : CBlockIndex.t) : option (Z * Z) :=
  if Z.land (CBlockIndex.nStatus pindex) BLOCK_HAVE_UNDO =? 0 then None
  else Some (CBlockIndex.nFile pindex, CBlockIndex.nUndoPos pindex).

Definition set_undo (pindex : CBlockIndex.t) (nUndoPos : Z) : CBlockIndex.t :=
  CBlockIndex.mk (CBlockIndex.phashBlock pindex) (CBlockIndex.pprev pindex)
    (CBlockIndex.nHeight pindex) (CBlockIndex.nFile pindex) (CBlockIndex.nDataPos pindex)
    nUndoPos (CBlockIndex.nChainWork pindex) (CBlockIndex.nTx pindex)
    (CBlockIndex.nChainTx pindex) (Z.lor (CBlockIndex.nStatus pindex) BLOCK_HAVE_UNDO)
    (CBlockIndex.nVersion pindex) (CBlockIndex.hashMerkleRoot pindex)
    (CBlockIndex.nTime pindex) (CBlockIndex.nBits pindex) (CBlockIndex.nNonce pindex)
    (CBlockIndex.nSequenceId pindex).

(** What a successful [ConnectBlock] leaves behind. *)
Record Connected := mkConnected {
  co_view : CCoinsViewCache.t;
  co_pindex : CBlockIndex.t;
  co_limits : Limits;
  co_undo : UndoFiles;
  co_fChecked : bool;
  co_nFees : CAmount
}.

(** [static bool ConnectBlock(block, state, pindex, view, fJustCheck)].
    The records of the address, spent and timestamp indexes are data for
    the block tree database; only whether writing them succeeds is kept. *)
Definition ConnectBlock (m : BlockMap) (pindexBestHeader : option uint256)
    (nf : NodeFlags) (limits : Limits) (undo : UndoFiles)
    (block : CBlock.t) (pindex : CBlockIndex.t) (view : CCoinsViewCache.t)
    (fJustCheck : bool) : outcome Connected :=
  fChecked ← CheckBlock m limits block (negb fJustCheck) (negb fJustCheck);
  hashPrevBlock ← match CBlockIndex.pprev pindex with
                  | None => Ok 0
                  | Some _ => prev ← deref (at_ m (CBlockIndex.pprev pindex));
                              CBlockIndex.GetBlockHash prev
                  end;
  _ ← assert_ (hashPrevBlock =? CCoinsViewCache.GetBestBlock view)
              "hashPrevBlock == view.GetBestBlock()";
  if CBlock.GetHash block =? hashGenesisBlock then
    if negb fJustCheck then
      h ← CBlockIndex.GetBlockHash pindex;
      Ok (mkConnected (CCoinsViewCache.SetBestBlock view h) pindex limits undo fChecked 0)
    else Ok (mkConnected view pindex limits undo fChecked 0)
  else
    let fScriptChecks := fScriptChecks_of m pindexBestHeader pindex in
    enforce ← fEnforceBIP30 m pindex;
    if enforce && existsb (overwrites view) (CBlock.vtx block)
    then reject (DoS 100 REJECT_INVALID "bad-txns-BIP30" false)
    else
      let nBIP16SwitchTime := 1333238400 in
      let fStrictPayToScriptHash := nBIP16SwitchTime <=? CBlockIndex.GetBlockTime pindex in
      let flags := if fStrictPayToScriptHash then SCRIPT_VERIFY_P2SH else SCRIPT_VERIFY_NONE in
      let pprev := at_ m (CBlockIndex.pprev pindex) in
      let flags :=
        if (3 <=? CBlock.nVersion block)
           && IsSuperMajority m 3 pprev nMajorityEnforceBlockUpgrade
        then Z.lor flags SCRIPT_VERIFY_DERSIG else flags in
      let flags :=
        if (4 <=? CBlock.nVersion block)
           && IsSuperMajority m 4 pprev nMajorityEnforceBlockUpgrade
        then Z.lor flags SCRIPT_VERIFY_CHECKLOCKTIMEVERIFY else flags in
      let limits :=
        if IsSuperMajority m (CBlock.nVersion block) pprev nMajorityEnforceBlockUpgrade
        then let size := Int.u32 (ComputeBlockSize m pindex) in
             mkLimits size (size / 50) (size / 50 / 5)
        else limits in
      let csv := bool_decide (VersionBitsState_CSV m pprev = THRESHOLD_ACTIVE) in
      let flags := if csv then Z.lor flags SCRIPT_VERIFY_CHECKSEQUENCEVERIFY else flags in
      let nLockTimeFlags := if csv then Z.lor 0 LOCKTIME_VERIFY_SEQUENCE else 0 in
      let e := mkConnectEnv m nf limits pindex fScriptChecks fStrictPayToScriptHash
                            flags nLockTimeFlags in
      s ← ConnectBlock_loop e 0 (CBlock.vtx block) (mkConnectLoop view 0 0 0 [] []);
      match SmartMining_Validate block pindex (cl_nFees s) with
      | Some r => reject r
      | None =>
        (* control.Wait() *)
        if negb (forallb run_check (cl_checks s))
        then reject (DoS 100 REJECT_NONE "" false)
        else if fJustCheck
        then Ok (mkConnected (cl_view s) pindex limits undo fChecked (cl_nFees s))
        else
          r ← (if bool_decide (GetUndoPos pindex = None)
                  || negb (CBlockIndex.IsValid pindex BLOCK_VALID_SCRIPTS)
               then
                 r ← (if bool_decide (GetUndoPos pindex = None) then
                        match FindUndoPos (CBlockIndex.nFile pindex) (cl_blockundo s) with
                        | None => Fail ReturnedFalse
                        | Some nPos =>
                          prev ← deref pprev;
                          hprev ← CBlockIndex.GetBlockHash prev;
                          if negb UndoWriteToDisk_ok then Fail NodeAborted
                          else
                            Ok (set_undo pindex nPos,
                                <[(CBlockIndex.nFile pindex, nPos) := (hprev, cl_blockundo s)]> undo)
                        end
                      else Ok (pindex, undo));
                 Ok (CBlockIndex.RaiseValidity r.1 BLOCK_VALID_SCRIPTS, r.2)
               else Ok (pindex, undo));
          if fTxIndex nf && negb WriteTxIndex_ok then Fail NodeAborted
          else if fAddressIndex nf && negb WriteAddressIndex_ok then Fail NodeAborted
          else if fAddressIndex nf && negb UpdateAddressUnspentIndex_ok then Fail NodeAborted
          else if fSpentIndex nf && negb UpdateSpentIndex_ok then Fail NodeAborted
          else if fTimestampIndex nf && negb WriteTimestampIndex_ok then Fail NodeAborted
          else
            h ← CBlockIndex.GetBlockHash pindex;
            Ok (mkConnected (CCoinsViewCache.SetBestBlock (cl_view s) h) r.1 limits r.2
                            fChecked (cl_nFees s))
      end.

Inductive DisconnectResult :=
| DISCONNECT_OK
| DISCONNECT_UNCLEAN
| DISCONNECT_FAILED.
#[global] Instance DisconnectResult_eq_dec : EqDecision DisconnectResult.
Proof. solve_decision. Defined.

(** [int ApplyTxInUndo(Coin&& undo, CCoinsViewCache& view, const COutPoint& out)]. *)
Definition ApplyTxInUndo (undo : Coin.t) (view : CCoinsViewCache.t) (out : COutPoint.t)
  : outcome (DisconnectResult * CCoinsViewCache.t) :=
  let fClean := negb (CCoinsViewCache.HaveCoin view out) in
  let alternate := CCoinsViewCache.AccessByTxid view (COutPoint.hash out) in
  if (Coin.nHeight undo =? 0) && Coin.IsSpent alternate
  then Ok (DISCONNECT_FAILED, view)
  else
    let undo :=
      if Coin.nHeight undo =? 0
      then Coin.mk (Coin.out undo) (Coin.fCoinBase alternate) (Coin.nHeight alternate)
      else undo in
    view' ← CCoinsViewCache.AddCoin view out undo (Coin.fCoinBase undo);
    Ok (if fClean then DISCONNECT_OK else DISCONNECT_UNCLEAN, view').

(** The output loop of [DisconnectBlock] for one transaction. *)
Fixpoint DisconnectBlock_outputs (pindex : CBlockIndex.t) (tx : CTransaction.t)
    (vout : list CTxOut.t) (o : Z) (view : CCoinsViewCache.t) (fClean : bool)
  : CCoinsViewCache.t * bool :=
  match vout with
  | [] => (view, fClean)
  | txout :: rest =>
    if negb (IsUnspendable (CTxOut.scriptPubKey txout)) then
      let '(is_spent, coin, view') :=
        CCoinsViewCache.SpendCoin view (COutPoint.mk (CTransaction.GetHash tx) o) in
      let mismatch :=
        negb is_spent
        || negb (bool_decide (txout = Coin.out coin))
        || negb (CBlockIndex.nHeight pindex =? Coin.nHeight coin)
        || negb (bool_decide (IsCoinBase tx = Coin.fCoinBase coin)) in
      DisconnectBlock_outputs pindex tx rest (o + 1) view'
                              (if mismatch then false else fClean)
    else DisconnectBlock_outputs pindex tx rest (o + 1) view fClean
  end.

(** The input loop, [for (unsigned int j = tx.vin.size(); j-- > 0;)]: the
    pairs of input and undo coin come last first.  [None] is
    [DISCONNECT_FAILED]. *)
Fixpoint DisconnectBlock_inputs (rev_inputs : list (CTxIn.t * Coin.t))
    (view : CCoinsViewCache.t) (fClean : bool)
  : outcome (option (CCoinsViewCache.t * bool)) :=
  match rev_inputs with
  | [] => Ok (Some (view, fClean))
  | (txin, undo) :: rest =>
    r ← ApplyTxInUndo undo view (CTxIn.prevout txin);
    match r.1 with
    | DISCONNECT_FAILED => Ok None
    | res =>
      DisconnectBlock_inputs rest r.2
        (fClean && negb (bool_decide (res = DISCONNECT_UNCLEAN)))
    end
  end.

(** The transaction loop, [for (int i = block.vtx.size() - 1; i >= 0; i--)]:
    the transactions come last first, [i] is the index of the head. *)
Fixpoint DisconnectBlock_loop (pindex : CBlockIndex.t) (blockUndo : CBlockUndo)
    (rev_vtx : list CTransaction.t) (i : nat) (view : CCoinsViewCache.t) (fClean : bool)
  : outcome (option (CCoinsViewCache.t * bool)) :=
  match rev_vtx with
  | [] => Ok (Some (view, fClean))
  | tx :: rest =>
    let '(view, fClean) :=
      DisconnectBlock_outputs pindex tx (CTransaction.vout tx) 0 view fClean in
    r ← (if (0 <? i)%nat then
           txundo ← deref (blockUndo !! (i - 1)%nat);
           if negb (length txundo =? length (CTransaction.vin tx))%nat
           then Ok None
           else DisconnectBlock_inputs (rev (combine (CTransaction.vin tx) txundo))
                                       view fClean
         else Ok (Some (view, fClean)));
    match r with
    | None => Ok None
    | Some (view, fClean) => DisconnectBlock_loop pindex blockUndo rest (i - 1) view fClean
    end
  end.

(** [static DisconnectResult DisconnectBlock(block, state, pindex, view)]. *)
Definition DisconnectBlock (m : BlockMap) (nf : NodeFlags) (undo : UndoFiles)
    (block : CBlock.t) (pindex : CBlockIndex.t) (view : CCoinsViewCache.t)
  : outcome (DisconnectResult * CCoinsViewCache.t) :=
  h ← CBlockIndex.GetBlockHash pindex;
  _ ← assert_ (h =? CCoinsViewCache.GetBestBlock view)
              "pindex->GetBlockHash() == view.GetBestBlock()";
  match GetUndoPos pindex with
  | None => Ok (DISCONNECT_FAILED, view)
  | Some pos =>
    prev ← deref (at_ m (CBlockIndex.pprev pindex));
    hprev ← CBlockIndex.GetBlockHash prev;
    match undo !! pos with
    | None => Ok (DISCONNECT_FAILED, view)
    | Some (hcheck, blockUndo) =>
      if negb (hcheck =? hprev) then Ok (DISCONNECT_FAILED, view)
      else if negb (length blockUndo + 1 =? length (CBlock.vtx block))%nat
      then Ok (DISCONNECT_FAILED, view)
      else
        r ← DisconnectBlock_loop pindex blockUndo (rev (CBlock.vtx block))
                                 (length (CBlock.vtx block) - 1) view true;
        match r : option (CCoinsViewCache.t * bool) with
        | None => Ok (DISCONNECT_FAILED, view)
        | Some (view, fClean) =>
          let view := CCoinsViewCache.SetBestBlock view hprev in
          if fAddressIndex nf && negb EraseAddressIndex_ok
          then Ok (DISCONNECT_FAILED, view)
          else if fAddressIndex nf && negb UpdateAddressUnspentIndex_ok
          then Ok (DISCONNECT_FAILED, view)
          else Ok (if fClean then DISCONNECT_OK else DISCONNECT_UNCLEAN, view)
        end
    end
  end.

End Connect.
(** ** Sample collaborators and data

    A concrete [Externals] for the closed examples: a script's sigop count
    is the sum of its bytes, a script is unspendable when it starts with
    [OP_RETURN] (0x6a), a zerocoin spend starts with 0xc3, a coinbase is a
    transaction whose single input has the null prevout, every proof of work
    and every script passes and every disk write succeeds. *)

Definition sample_IsZerocoinSpend_script (s : CScript) : bool :=
  match s with
  | 195 :: _ => true
  | _ => false
  end.

Definition sample_null : COutPoint.t := COutPoint.mk 0 Int.UINT_MAX.

(** The collaborators, with the height and hash of the BIP34 activation block
    left open. *)
Definition sample_externals_with (bip34_height : Z) (bip34_hash : uint256) : Externals := {|
  GetSigOpCount := fun s _ => foldr Z.add 0 s;
  GetSigOpCount_p2sh := fun _ _ => 0;
  IsPayToScriptHash := fun _ => false;
  IsUnspendable := fun s => match s with 106 :: _ => true | _ => false end;
  script_IsZerocoinMint := fun _ => false;
  script_IsZerocoinSpend := sample_IsZerocoinSpend_script;
  IsCoinBase := fun tx =>
    match CTransaction.vin tx with
    | [txin] => COutPoint.IsNull (CTxIn.prevout txin)
                && negb (sample_IsZerocoinSpend_script (CTxIn.scriptSig txin))
    | _ => false
    end;
  IsZerocoinSpend := fun tx =>
    match CTransaction.vin tx, CTransaction.vout tx with
    | [txin], [_] => COutPoint.IsNull (CTxIn.prevout txin)
                     && sample_IsZerocoinSpend_script (CTxIn.scriptSig txin)
    | _, _ => false
    end;
  tx_GetSerializeSize := fun tx =>
    Z.of_nat (length (CTransaction.vin tx) + length (CTransaction.vout tx));
  block_GetSerializeSize := fun b => Z.of_nat (length (CBlock.vtx b));
  GetBlockWeight := fun b => Z.of_nat (length (CBlock.vtx b));
  MAX_MONEY := 5000000000 * COIN;
  WITNESS_SCALE_FACTOR := 4;
  hashGenesisBlock := 1;
  BIP34Height := bip34_height;
  BIP34Hash := bip34_hash;
  nMajorityWindow := 1000;
  nMajorityEnforceBlockUpgrade := 750;
  nMajorityRejectBlockOutdated := 950;
  GetNextWorkRequired := fun _ _ _ => 0;
  CheckProofOfWork := fun _ _ _ => true;
  VersionBitsState_CSV := fun _ _ => THRESHOLD_ACTIVE;
  IsWitnessEnabled := fun _ _ => false;
  ComputeBlockSize := fun _ _ => 1000000;
  BlockMerkleRoot := fun b => (CBlock.hashMerkleRoot b, false);
  GetAdjustedTime := 3000;
  SPORK_3_INSTANTSEND_BLOCK_FILTERING_active := false;
  GetLockedOutPointTxHash := fun _ => None;
  HasTxLockRequest := fun _ => false;
  TxLockRequest_IsValid := fun _ => true;
  SmartMining_Validate := fun _ _ _ => None;
  VerifyScript := fun _ _ _ _ _ => true;
  hashAssumeValid := None;
  nMinimumChainWork := 0;
  GetBlockProofEquivalentTime := fun _ _ => 0;
  FindUndoPos := fun _ _ => Some 8;
  UndoWriteToDisk_ok := true;
  WriteTxIndex_ok := true;
  WriteAddressIndex_ok := true;
  UpdateAddressUnspentIndex_ok := true;
  EraseAddressIndex_ok := true;
  UpdateSpentIndex_ok := true;
  WriteTimestampIndex_ok := true
|}.

Definition sample_externals : Externals := sample_externals_with 1000000 2.

(** The same with the sample parent as the BIP34 activation block. *)
Definition sample_externals_bip34 : Externals := sample_externals_with 104 104.

Definition sample_flags : NodeFlags := mkNodeFlags true false false false 0.
Definition sample_limits : Limits :=
  mkLimits maxBlockSize_init maxBlockSigops_init (maxBlockSigops_init / 5).

(** A coinbase paying [value] to [script], with [scriptSig] as its input script. *)
Definition sample_coinbase (hash : uint256) (scriptSig : CScript) (value : CAmount)
    (script : CScript) : CTransaction.t :=
  CTransaction.mk 1 [CTxIn.mk sample_null scriptSig CTxIn.SEQUENCE_FINAL]
                  [CTxOut.mk value script] 0 hash.

(** A transaction spending [prevout] into one output. *)
Definition sample_spend (hash : uint256) (prevout : COutPoint.t) (value : CAmount)
  : CTransaction.t :=
  CTransaction.mk 1 [CTxIn.mk prevout [1; 1] CTxIn.SEQUENCE_FINAL]
                  [CTxOut.mk value [1]] 0 hash.

(** A zerocoin spend: one null input whose script starts with 0xc3. *)
Definition sample_zerocoin_spend (hash : uint256) (value : CAmount) : CTransaction.t :=
  CTransaction.mk 1 [CTxIn.mk sample_null [195; 0] CTxIn.SEQUENCE_FINAL]
                  [CTxOut.mk value [1]] 0 hash.

(** A block of hash [hash] on top of the sample parent (the entry 104). *)
Definition sample_block (hash : uint256) (vtx : list CTransaction.t) : CBlock.t :=
  CBlock.mk 2 104 0 2000 0 0 hash vtx false.

(** A view holding one coin of 50 at the outpoint (7, 0), created at height
    3, with the parent as its best block. *)
Definition sample_coin : Coin.t := Coin.mk (CTxOut.mk 50 [1]) false 3.
Definition sample_view : CCoinsViewCache.t :=
  CCoinsViewCache.mk
    {[ COutPoint.mk 7 0 := CCoinsViewCache.mkEntry sample_coin false false ]} 104.

(** A block with a coinbase and a transaction spending the coin of the view. *)
Definition sample_block_spend : CBlock.t :=
  sample_block 105 [sample_coinbase 11 [1; 1] 60 [1]; sample_spend 12 (COutPoint.mk 7 0) 40].

(** A block whose coinbase has the hash 7, so that its output is the
    outpoint (7, 0) the view holds. *)
Definition sample_block_duplicate : CBlock.t :=
  sample_block 105 [sample_coinbase 7 [1; 1] 60 [1]].


(** A block with a zerocoin spend after the coinbase. *)
Definition sample_block_zerocoin : CBlock.t :=
  sample_block 105 [sample_coinbase 11 [1; 1] 60 [1]; sample_zerocoin_spend 12 40].

Definition sample_empty_view : CCoinsViewCache.t := CCoinsViewCache.mk ∅ 0.
(** ** The reject reasons of the block checks

    The reasons each function can reject with, as the source spells them. *)

Definition CheckTransaction_reasons : list string :=
  ["bad-txns-vin-empty"; "bad-txns-vout-empty"; "bad-txns-oversize";
   "bad-txns-vout-negative"; "bad-txns-vout-toolarge"; "bad-txns-txouttotal-toolarge";
   "bad-txns-vout-zerocoin"; "bad-txns-inputs-duplicate"; "bad-cb-length";
   "bad-txns-prevout-null"]%string.

Definition CheckBlock_structure_reasons : list string :=
  ["high-hash"; "bad-txnmrklroot"; "bad-txns-duplicate"; "bad-blk-length";
   "bad-cb-missing"; "bad-cb-multiple"; "conflict-tx-lock"]%string
  ++ CheckTransaction_reasons.

Definition CheckBlock_reasons : list string :=
  "bad-blk-sigops"%string :: CheckBlock_structure_reasons.

Definition CheckInputs_reasons : list string :=
  [""; "bad-txns-premature-spend-of-coinbase"; "bad-txns-inputvalues-outofrange";
   "bad-txns-in-belowout"; "bad-txns-fee-negative"; "bad-txns-fee-outofrange";
   "non-mandatory-script-verify-flag"; "mandatory-script-verify-flag-failed"]%string.

Definition ConnectBlock_tx_reasons : list string :=
  ["bad-blk-sigops"; "bad-txns-inputs-missingorspent"; "bad-txns-nonfinal"]%string
  ++ CheckInputs_reasons.
(** ** The unspent coins a transaction creates

    Statement-level notions for the connect and disconnect theorems. *)

Section Utxo.
Context `{Externals}.

(** The coin that the outputs [vout], numbered from [i], of the transaction
    [tx] place at the outpoint [o] at height [nHeight], if any: unspendable
    outputs place none. *)
Definition output_coin_from (tx : CTransaction.t) (nHeight : Z) (vout : list CTxOut.t)
    (i : Z) (o : COutPoint.t) : option Coin.t :=
  if (COutPoint.hash o =? CTransaction.GetHash tx) && (i <=? COutPoint.n o) then
    match vout !! Z.to_nat (COutPoint.n o - i) with
    | Some out =>
      if IsUnspendable (CTxOut.scriptPubKey out) then None
      else Some (Coin.mk out (IsCoinBase tx) nHeight)
    | None => None
    end
  else None.

Definition output_coin (tx : CTransaction.t) (nHeight : Z) (o : COutPoint.t)
  : option Coin.t :=
  output_coin_from tx nHeight (CTransaction.vout tx) 0 o.


End Utxo.
(** ** The header tree and the block store *)

(** Modelled from the spec: [BlockFileInfo{ nBlocks, nSize, nUndoSize,
    nHeightFirst, nHeightLast, nTimeFirst, nTimeLast }] ([chain.h] is not
    among the sources). *)
Record CBlockFileInfo := mkFileInfo {
  nBlocks : Z;
  nSize : Z;
  nUndoSize : Z;
  nHeightFirst : Z;
  nHeightLast : Z;
  nTimeFirst : Z;
  nTimeLast : Z
}.

(** [CBlockFileInfo()] after [SetNull]. *)
Definition CBlockFileInfo_null : CBlockFileInfo := mkFileInfo 0 0 0 0 0 0 0.

(** The globals of [validation.cpp] that header and block acceptance touch.
    Pointers to index entries are the block hashes that name them. *)
Record ChainState := mkChainState {
  mapBlockIndex : BlockMap;
  pindexBestHeader : option uint256;
  setDirtyBlockIndex : gset uint256;
  chainActive_Tip : option uint256;
  setBlockIndexCandidates : gset uint256;
  (* multimap<CBlockIndex*, CBlockIndex*>: pairs of parent and child *)
  mapBlocksUnlinked : list (uint256 * uint256);
  nBlockSequenceId : Z;
  vinfoBlockFile : list CBlockFileInfo;
  nLastBlockFile : Z;
  setDirtyFileInfo : gset Z;
  fCheckForPruning : bool;
  (* what WriteBlockToDisk stored, by position *)
  vBlocksOnDisk : list (Z * Z * CBlock.t);
  (* GetMainSignals().AcceptedBlockHeader *)
  vAcceptedBlockHeader : list uint256;
  (* AbortNode was called *)
  fAbortRequested : bool
}.

(** Settings. *)
Record ChainFlags := mkChainFlags {
  fCheckBlockIndex : bool;
  fCheckpointsEnabled : bool;
  fPruneMode : bool
}.

(** What lies outside [validation.cpp] for this part: chain work, the
    checkpoint table, witness data, the file system, and the constants of
    [validation.h]. *)
Class ChainExternals := {
  GetBlockProof : CBlockIndex.t -> Z;
  GetLastCheckpoint : BlockMap -> option CBlockIndex.t;
  (* the consistency CheckBlockIndex asserts *)
  CheckBlockIndex_consistent : ChainState -> bool;
  (* witness data of a transaction, which the transaction record leaves out *)
  tx_wit_IsNull : CTransaction.t -> bool;
  coinbase_witness_nonce_ok : CBlock.t -> bool;
  witness_commitment_matches : CBlock.t -> nat -> bool;
  (* block files *)
  MAX_BLOCKFILE_SIZE : Z;
  BLOCKFILE_CHUNK_SIZE : Z;
  MIN_BLOCKS_TO_KEEP : Z;
  CBlockFileInfo_AddBlock : CBlockFileInfo -> Z -> Z -> CBlockFileInfo;
  CheckDiskSpace : Z -> bool;
  (* the order of the addresses of two index entries *)
  pointer_less : uint256 -> uint256 -> bool;
  block_GetSerializeSize_disk : CBlock.t -> Z;
  (* WriteBlockToDisk: the offset the block lands at, or failure *)
  WriteBlockToDisk_at : CBlock.t -> Z * Z -> option Z;
  FlushStateToDisk_none : ChainState -> ChainState
}.

Section HeaderTree.
Context `{Externals} `{ChainExternals}.
Variable cf : ChainFlags.
Variable limits : Limits.

Definition deref_index (cs : ChainState) (p : uint256) : outcome CBlockIndex.t :=
  deref (mapBlockIndex cs !! p).

Definition set_mapBlockIndex (cs : ChainState) (m : BlockMap) : ChainState :=
  mkChainState m (pindexBestHeader cs) (setDirtyBlockIndex cs) (chainActive_Tip cs)
    (setBlockIndexCandidates cs) (mapBlocksUnlinked cs) (nBlockSequenceId cs)
    (vinfoBlockFile cs) (nLastBlockFile cs) (setDirtyFileInfo cs) (fCheckForPruning cs)
    (vBlocksOnDisk cs) (vAcceptedBlockHeader cs) (fAbortRequested cs).

(** [pindex->field = ...; setDirtyBlockIndex.insert(pindex)]. *)
Definition update_index (cs : ChainState) (p : uint256) (b : CBlockIndex.t) (dirty : bool)
  : ChainState :=
  mkChainState (<[p := b]> (mapBlockIndex cs)) (pindexBestHeader cs)
    (if dirty then {[p]} ∪ setDirtyBlockIndex cs else setDirtyBlockIndex cs)
    (chainActive_Tip cs) (setBlockIndexCandidates cs) (mapBlocksUnlinked cs)
    (nBlockSequenceId cs) (vinfoBlockFile cs) (nLastBlockFile cs) (setDirtyFileInfo cs)
    (fCheckForPruning cs) (vBlocksOnDisk cs) (vAcceptedBlockHeader cs) (fAbortRequested cs).

Definition set_status (b : CBlockIndex.t) (nStatus : Z) : CBlockIndex.t :=
  CBlockIndex.mk (CBlockIndex.phashBlock b) (CBlockIndex.pprev b) (CBlockIndex.nHeight b)
    (CBlockIndex.nFile b) (CBlockIndex.nDataPos b) (CBlockIndex.nUndoPos b)
    (CBlockIndex.nChainWork b) (CBlockIndex.nTx b) (CBlockIndex.nChainTx b) nStatus
    (CBlockIndex.nVersion b) (CBlockIndex.hashMerkleRoot b) (CBlockIndex.nTime b)
    (CBlockIndex.nBits b) (CBlockIndex.nNonce b) (CBlockIndex.nSequenceId b).

(** [CBlockIndex* AddToBlockIndex(const CBlockHeader& block)]; the skip
    pointer of [BuildSkip] is not kept, [GetAncestor] walks [pprev]. *)
Definition AddToBlockIndex (cs : ChainState) (block : CBlock.t) : ChainState * uint256 :=
  let hash := CBlock.GetHash block in
  match mapBlockIndex cs !! hash with
  | Some _ => (cs, hash)
  | None =>
    (* CBlockIndex(block), nSequenceId = 0, phashBlock = &mi->first *)
    let new0 :=
      CBlockIndex.mk (Some hash) None 0 0 0 0 0 0 0 0
        (CBlock.nVersion block) (CBlock.hashMerkleRoot block) (CBlock.nTime block)
        (CBlock.nBits block) (CBlock.nNonce block) 0 in
    let m1 := <[hash := new0]> (mapBlockIndex cs) in
    let new1 :=
      match m1 !! CBlock.hashPrevBlock block with
      | Some prev =>
        CBlockIndex.mk (Some hash) (Some (CBlock.hashPrevBlock block))
          (Int.s32 (CBlockIndex.nHeight prev + 1)) 0 0 0 0 0 0 0
          (CBlock.nVersion block) (CBlock.hashMerkleRoot block) (CBlock.nTime block)
          (CBlock.nBits block) (CBlock.nNonce block) 0
      | None => new0
      end in
    let prevWork :=
      match m1 !! CBlock.hashPrevBlock block with
      | Some prev => CBlockIndex.nChainWork prev
      | None => 0
      end in
    let new2 :=
      CBlockIndex.mk (CBlockIndex.phashBlock new1) (CBlockIndex.pprev new1)
        (CBlockIndex.nHeight new1) 0 0 0 ((prevWork + GetBlockProof new1) mod 2 ^ 256)
        0 0 0 (CBlockIndex.nVersion new1) (CBlockIndex.hashMerkleRoot new1)
        (CBlockIndex.nTime new1) (CBlockIndex.nBits new1) (CBlockIndex.nNonce new1) 0 in
    let new3 := CBlockIndex.RaiseValidity new2 BLOCK_VALID_TREE in
    let best :=
      match at_ (mapBlockIndex cs) (pindexBestHeader cs) with
      | None => Some hash
      | Some b =>
        if CBlockIndex.nChainWork b <? CBlockIndex.nChainWork new3
        then Some hash else pindexBestHeader cs
      end in
    (mkChainState (<[hash := new3]> (mapBlockIndex cs)) best
       ({[hash]} ∪ setDirtyBlockIndex cs) (chainActive_Tip cs)
       (setBlockIndexCandidates cs) (mapBlocksUnlinked cs) (nBlockSequenceId cs)
       (vinfoBlockFile cs) (nLastBlockFile cs) (setDirtyFileInfo cs) (fCheckForPruning cs)
       (vBlocksOnDisk cs) (vAcceptedBlockHeader cs) (fAbortRequested cs),
     hash)
  end.

(** [static bool CheckIndexAgainstCheckpoint(pindexPrev, state, chainparams, hash)]. *)
Definition CheckIndexAgainstCheckpoint (cs : ChainState) (pindexPrev : CBlockIndex.t)
  : outcome unit :=
  h ← CBlockIndex.GetBlockHash pindexPrev;
  if h =? hashGenesisBlock then Ok tt
  else
    let nHeight := Int.s32 (CBlockIndex.nHeight pindexPrev + 1) in
    match GetLastCheckpoint (mapBlockIndex cs) with
    | Some pcheckpoint =>
      if nHeight <? CBlockIndex.nHeight pcheckpoint
      then reject (DoS 100 REJECT_NONE "" false)
      else Ok tt
    | None => Ok tt
    end.

(** [static void CheckBlockIndex(consensusParams)]: assertions only. *)
Definition CheckBlockIndex (cs : ChainState) : outcome unit :=
  if negb (fCheckBlockIndex cf) then Ok tt
  else assert_ (CheckBlockIndex_consistent cs) "CheckBlockIndex".

(** [static bool AcceptBlockHeader(block, state, chainparams, ppindex)]: the
    state afterwards, [*ppindex] if it was assigned, and the result. *)
Definition AcceptBlockHeader (cs : ChainState) (block : CBlock.t)
  : ChainState * option uint256 * outcome unit :=
  let hash := CBlock.GetHash block in
  match (if negb (hash =? hashGenesisBlock) then mapBlockIndex cs !! hash else None) with
  | Some pindex =>
    (* Block header is already known. *)
    (cs, Some hash,
     if negb (Z.land (CBlockIndex.nStatus pindex) BLOCK_FAILED_MASK =? 0)
     then reject (Invalid REJECT_NONE "duplicate")
     else Ok tt)
  | None =>
    let checks : outcome unit :=
      if negb (hash =? hashGenesisBlock) then
        _ ← CheckBlockHeader (mapBlockIndex cs) block true;
        match mapBlockIndex cs !! CBlock.hashPrevBlock block with
        | None => reject (DoS 10 REJECT_NONE "bad-prevblk" false)
        | Some pindexPrev =>
          if negb (Z.land (CBlockIndex.nStatus pindexPrev) BLOCK_FAILED_MASK =? 0)
          then reject (DoS 100 REJECT_INVALID "bad-prevblk" false)
          else
            _ ← (if fCheckpointsEnabled cf
                 then CheckIndexAgainstCheckpoint cs pindexPrev else Ok tt);
            ContextualCheckBlockHeader (mapBlockIndex cs) block pindexPrev
        end
      else Ok tt in
    match checks with
    | Fail f => (cs, None, Fail f)
    | Ok _ =>
      let '(cs1, pindex) := AddToBlockIndex cs block in
      match CheckBlockIndex cs1 with
      | Fail f => (cs1, Some pindex, Fail f)
      | Ok _ =>
        (mkChainState (mapBlockIndex cs1) (pindexBestHeader cs1) (setDirtyBlockIndex cs1)
           (chainActive_Tip cs1) (setBlockIndexCandidates cs1) (mapBlocksUnlinked cs1)
           (nBlockSequenceId cs1) (vinfoBlockFile cs1) (nLastBlockFile cs1)
           (setDirtyFileInfo cs1) (fCheckForPruning cs1) (vBlocksOnDisk cs1)
           (vAcceptedBlockHeader cs1 ++ [pindex]) (fAbortRequested cs1),
         Some pindex, Ok tt)
      end
    end
  end.

(** [ProcessNewBlockHeaders]: the headers in turn, stopping at the first
    that fails ([NotifyHeaderTip] is a notification). *)
Fixpoint ProcessNewBlockHeaders (cs : ChainState) (headers : list CBlock.t)
    (ppindex : option uint256) : ChainState * option uint256 * outcome unit :=
  match headers with
  | [] => (cs, ppindex, Ok tt)
  | header :: rest =>
    let '(cs1, p, r) := AcceptBlockHeader cs header in
    let ppindex := match p with Some _ => p | None => ppindex end in
    match r with
    | Fail f => (cs1, ppindex, Fail f)
    | Ok _ => ProcessNewBlockHeaders cs1 rest ppindex
    end
  end.

(** [static int GetWitnessCommitmentIndex(const CBlock& block)]: the last
    output of the coinbase that carries the commitment header, if any. *)
Definition is_commitment (script : CScript) : bool :=
  (38 <=? Z.of_nat (length script))
  && match script with
     | 0x6a :: 0x24 :: 0xaa :: 0x21 :: 0xa9 :: 0xed :: _ => true
     | _ => false
     end.

Fixpoint GetWitnessCommitmentIndex_loop (vout : list CTxOut.t) (o : nat)
    (commitpos : option nat) : option nat :=
  match vout with
  | [] => commitpos
  | out :: rest =>
    GetWitnessCommitmentIndex_loop rest (S o)
      (if is_commitment (CTxOut.scriptPubKey out) then Some o else commitpos)
  end.

Definition GetWitnessCommitmentIndex (block : CBlock.t) : outcome (option nat) :=
  tx0 ← deref (head (CBlock.vtx block));
  Ok (GetWitnessCommitmentIndex_loop (CTransaction.vout tx0) 0 None).

(** [bool ContextualCheckBlock(block, state, pindexPrev)]. *)
Definition ContextualCheckBlock (m : BlockMap) (block : CBlock.t)
    (pindexPrev : option CBlockIndex.t) : outcome unit :=
  let nHeight :=
    match pindexPrev with
    | None => 0
    | Some prev => Int.s32 (CBlockIndex.nHeight prev + 1)
    end in
  let nLockTimeFlags :=
    if bool_decide (VersionBitsState_CSV m pindexPrev = THRESHOLD_ACTIVE)
    then Z.lor 0 LOCKTIME_MEDIAN_TIME_PAST else 0 in
  nLockTimeCutoff ←
    (if negb (Z.land nLockTimeFlags LOCKTIME_MEDIAN_TIME_PAST =? 0)
     then prev ← deref pindexPrev; Ok (GetMedianTimePast m prev)
     else Ok (CBlock.GetBlockTime block));
  if negb (forallb (fun tx => IsFinalTx tx nHeight nLockTimeCutoff) (CBlock.vtx block))
  then reject (DoS 10 REJECT_INVALID "bad-txns-nonfinal" false)
  else
    fHaveWitness ←
      (if IsWitnessEnabled m pindexPrev then
         commitpos ← GetWitnessCommitmentIndex block;
         match commitpos with
         | Some pos =>
           if negb (coinbase_witness_nonce_ok block)
           then reject (DoS 100 REJECT_INVALID "bad-witness-nonce-size" true)
           else if negb (witness_commitment_matches block pos)
           then reject (DoS 100 REJECT_INVALID "bad-witness-merkle-match" true)
           else Ok true
         | None => Ok false
         end
       else Ok false);
    if negb fHaveWitness && negb (forallb tx_wit_IsNull (CBlock.vtx block))
    then reject (DoS 100 REJECT_INVALID "unexpected-witness" true)
    else if maxBlockSize limits <? GetBlockWeight block
    then reject (DoS 100 REJECT_INVALID "bad-blk-weight" false)
    else Ok tt.

(** [vinfoBlockFile.resize(n)] when the vector is shorter. *)
Definition resize_files (files : list CBlockFileInfo) (n : nat) : list CBlockFileInfo :=
  files ++ replicate (n - length files) CBlockFileInfo_null.

(** The [while] loop of [FindBlockPos]: the first file from [nFile] on with
    room for [nAddSize] more bytes.  Past the end of the vector every file
    is fresh, so if even a fresh file has no room the loop never ends
    ([None]). *)
Fixpoint FindBlockPos_file (files : list CBlockFileInfo) (nAddSize : Z) (nFile : nat)
  : option nat :=
  match files with
  | [] => if MAX_BLOCKFILE_SIZE <=? Int.u32 (0 + nAddSize) then None else Some nFile
  | info :: rest =>
    if MAX_BLOCKFILE_SIZE <=? Int.u32 (nSize info + nAddSize)
    then FindBlockPos_file rest nAddSize (S nFile)
    else Some nFile
  end.

Definition set_nSize (info : CBlockFileInfo) (n : Z) : CBlockFileInfo :=
  mkFileInfo (nBlocks info) n (nUndoSize info) (nHeightFirst info) (nHeightLast info)
             (nTimeFirst info) (nTimeLast info).

(** [bool FindBlockPos(state, pos, nAddSize, nHeight, nTime, fKnown)]: the
    state afterwards and the position.  [state.Error("out of disk space")]
    is an internal error, not a rejection: the [ReturnedFalse] failure. *)
Definition FindBlockPos (cs : ChainState) (pos : Z * Z) (nAddSize nHeight nTime : Z)
    (fKnown : bool) : ChainState * outcome (Z * Z) :=
  let nFile0 := Z.to_nat (Int.u32 (if fKnown then pos.1 else nLastBlockFile cs)) in
  let files0 := resize_files (vinfoBlockFile cs) (S nFile0) in
  match (if fKnown then Some nFile0
         else FindBlockPos_file (drop nFile0 files0) nAddSize nFile0) with
  | None => (cs, Fail (Crashed "vinfoBlockFile.resize: out of memory"))
  | Some nFile =>
    let files1 := resize_files files0 (S nFile) in
    let info := default CBlockFileInfo_null (files1 !! nFile) in
    let pos := if fKnown then pos else (Z.of_nat nFile, nSize info) in
    let nLast :=
      if negb (Int.s32 (Z.of_nat nFile) =? nLastBlockFile cs)
      then Int.s32 (Z.of_nat nFile) else nLastBlockFile cs in
    let info1 := CBlockFileInfo_AddBlock info (Int.u32 nHeight) nTime in
    let info2 :=
      if fKnown
      then set_nSize info1 (Z.max (Int.u32 (pos.2 + nAddSize)) (nSize info1))
      else set_nSize info1 (Int.u32 (nSize info1 + nAddSize)) in
    let files2 := <[nFile := info2]> files1 in
    let nOldChunks :=
      Int.u32 (Int.u32 (pos.2 + BLOCKFILE_CHUNK_SIZE - 1) / BLOCKFILE_CHUNK_SIZE) in
    let nNewChunks :=
      Int.u32 (Int.u32 (nSize info2 + BLOCKFILE_CHUNK_SIZE - 1) / BLOCKFILE_CHUNK_SIZE) in
    let grows := negb fKnown && (nOldChunks <? nNewChunks) in
    let pruning := if grows && fPruneMode cf then true else fCheckForPruning cs in
    let out_of_space :=
      grows && negb (CheckDiskSpace (Int.u32 (Int.u32 (nNewChunks * BLOCKFILE_CHUNK_SIZE)
                                              - pos.2))) in
    (mkChainState (mapBlockIndex cs) (pindexBestHeader cs) (setDirtyBlockIndex cs)
       (chainActive_Tip cs) (setBlockIndexCandidates cs) (mapBlocksUnlinked cs)
       (nBlockSequenceId cs) files2 nLast
       (if out_of_space then setDirtyFileInfo cs
        else {[Z.of_nat nFile]} ∪ setDirtyFileInfo cs)
       pruning (vBlocksOnDisk cs) (vAcceptedBlockHeader cs)
       (* CheckDiskSpace calls AbortNode when the space is short *)
       (if out_of_space then true else fAbortRequested cs),
     if out_of_space then Fail ReturnedFalse else Ok pos)
  end.

(** [CBlockIndexWorkComparator]: more work first, then the earlier sequence
    id; the last tie-break compares the addresses of the entries, which the
    allocator decides ([pointer_less]). *)
Definition CBlockIndexWorkComparator (pa pb : uint256 * CBlockIndex.t) : bool :=
  if CBlockIndex.nChainWork pb.2 <? CBlockIndex.nChainWork pa.2 then false
  else if CBlockIndex.nChainWork pa.2 <? CBlockIndex.nChainWork pb.2 then true
  else if CBlockIndex.nSequenceId pa.2 <? CBlockIndex.nSequenceId pb.2 then false
  else if CBlockIndex.nSequenceId pb.2 <? CBlockIndex.nSequenceId pa.2 then true
  else if pointer_less pa.1 pb.1 then false
  else if pointer_less pb.1 pa.1 then true
  else false.

Definition set_chain_fields (b : CBlockIndex.t) (nChainTx nSequenceId : Z)
  : CBlockIndex.t :=
  CBlockIndex.mk (CBlockIndex.phashBlock b) (CBlockIndex.pprev b) (CBlockIndex.nHeight b)
    (CBlockIndex.nFile b) (CBlockIndex.nDataPos b) (CBlockIndex.nUndoPos b)
    (CBlockIndex.nChainWork b) (CBlockIndex.nTx b) nChainTx (CBlockIndex.nStatus b)
    (CBlockIndex.nVersion b) (CBlockIndex.hashMerkleRoot b) (CBlockIndex.nTime b)
    (CBlockIndex.nBits b) (CBlockIndex.nNonce b) nSequenceId.

(** The [while (!queue.empty())] loop of [ReceivedBlockTransactions]; every
    turn takes one entry from the queue, and [fuel] bounds the turns. *)
Fixpoint ReceivedBlockTransactions_queue (fuel : nat) (cs : ChainState)
    (queue : list uint256) : outcome ChainState :=
  match queue with
  | [] => Ok cs
  | p :: queue' =>
    match fuel with
    | O => Fail (Crashed "out of fuel")
    | S fuel' =>
      pindex ← deref_index cs p;
      prevTx ← match CBlockIndex.pprev pindex with
               | None => Ok 0
               | Some pp => prev ← deref_index cs pp; Ok (CBlockIndex.nChainTx prev)
               end;
      let pindex' :=
        set_chain_fields pindex (Int.u32 (prevTx + CBlockIndex.nTx pindex))
                         (nBlockSequenceId cs) in
      let m' := <[p := pindex']> (mapBlockIndex cs) in
      candidate ←
        match chainActive_Tip cs with
        | None => Ok true
        | Some t =>
          tip ← deref (m' !! t);
          Ok (negb (CBlockIndexWorkComparator (p, pindex') (t, tip)))
        end;
      let unlinked := filter (fun pc : uint256 * uint256 => pc.1 = p) (mapBlocksUnlinked cs) in
      let cs' :=
        mkChainState m' (pindexBestHeader cs) (setDirtyBlockIndex cs) (chainActive_Tip cs)
          (if candidate : bool then ({[p]} ∪ setBlockIndexCandidates cs : gset uint256)
           else setBlockIndexCandidates cs)
          (filter (fun pc : uint256 * uint256 => pc.1 <> p) (mapBlocksUnlinked cs))
          (Int.u32 (nBlockSequenceId cs + 1))
          (vinfoBlockFile cs) (nLastBlockFile cs) (setDirtyFileInfo cs)
          (fCheckForPruning cs) (vBlocksOnDisk cs) (vAcceptedBlockHeader cs)
          (fAbortRequested cs) in
      ReceivedBlockTransactions_queue fuel' cs' (queue' ++ map snd unlinked)
    end
  end.

(** [bool ReceivedBlockTransactions(block, state, pindexNew, pos)]; it
    always returns true. *)
Definition ReceivedBlockTransactions (cs : ChainState) (block : CBlock.t)
    (pindexNew : uint256) (pos : Z * Z) : outcome ChainState :=
  b ← deref_index cs pindexNew;
  let b1 :=
    CBlockIndex.mk (CBlockIndex.phashBlock b) (CBlockIndex.pprev b) (CBlockIndex.nHeight b)
      pos.1 pos.2 0 (CBlockIndex.nChainWork b)
      (Int.u32 (Z.of_nat (length (CBlock.vtx block)))) 0
      (Z.lor (CBlockIndex.nStatus b) BLOCK_HAVE_DATA)
      (CBlockIndex.nVersion b) (CBlockIndex.hashMerkleRoot b) (CBlockIndex.nTime b)
      (CBlockIndex.nBits b) (CBlockIndex.nNonce b) (CBlockIndex.nSequenceId b) in
  let cs1 :=
    update_index cs pindexNew (CBlockIndex.RaiseValidity b1 BLOCK_VALID_TRANSACTIONS) true in
  match CBlockIndex.pprev b with
  | None =>
    ReceivedBlockTransactions_queue (S (length (mapBlocksUnlinked cs1))) cs1 [pindexNew]
  | Some pp =>
    prev ← deref_index cs1 pp;
    if negb (CBlockIndex.nChainTx prev =? 0)
    then ReceivedBlockTransactions_queue (S (length (mapBlocksUnlinked cs1))) cs1 [pindexNew]
    else if CBlockIndex.IsValid prev BLOCK_VALID_TREE
    then Ok (mkChainState (mapBlockIndex cs1) (pindexBestHeader cs1)
               (setDirtyBlockIndex cs1) (chainActive_Tip cs1) (setBlockIndexCandidates cs1)
               (mapBlocksUnlinked cs1 ++ [(pp, pindexNew)]) (nBlockSequenceId cs1)
               (vinfoBlockFile cs1) (nLastBlockFile cs1) (setDirtyFileInfo cs1)
               (fCheckForPruning cs1) (vBlocksOnDisk cs1) (vAcceptedBlockHeader cs1)
               (fAbortRequested cs1))
    else Ok cs1
  end.

(** What [AcceptBlock] leaves behind: the state, [*ppindex] if assigned,
    [*fNewBlock], and the result. *)
Record Accepted := mkAccepted {
  ac_state : ChainState;
  ac_pindex : option uint256;
  ac_fNewBlock : bool;
  ac_result : outcome unit
}.

(** [chainActive.Height()]: -1 for an empty chain. *)
Definition chainActive_Height (cs : ChainState) : Z :=
  match at_ (mapBlockIndex cs) (chainActive_Tip cs) with
  | Some tip => CBlockIndex.nHeight tip
  | None => -1
  end.

(** [static bool AcceptBlock(block, state, chainparams, ppindex, fRequested,
    dbp, fNewBlock)]. *)
Definition AcceptBlock (cs : ChainState) (block : CBlock.t) (fRequested : bool)
    (dbp : option (Z * Z)) : Accepted :=
  let '(cs1, ppindex, r) := AcceptBlockHeader cs block in
  match r, ppindex with
  | Fail f, _ => mkAccepted cs1 ppindex false (Fail f)
  | Ok _, None => mkAccepted cs1 ppindex false (Fail (Crashed "null dereference"))
  | Ok _, Some p =>
    match mapBlockIndex cs1 !! p with
    | None => mkAccepted cs1 ppindex false (Fail (Crashed "null dereference"))
    | Some pindex =>
      let fAlreadyHave := negb (Z.land (CBlockIndex.nStatus pindex) BLOCK_HAVE_DATA =? 0) in
      let fHasMoreWork :=
        match at_ (mapBlockIndex cs1) (chainActive_Tip cs1) with
        | Some tip => CBlockIndex.nChainWork tip <? CBlockIndex.nChainWork pindex
        | None => true
        end in
      let fTooFarAhead :=
        Int.s32 (Int.u32 (chainActive_Height cs1 + MIN_BLOCKS_TO_KEEP))
        <? CBlockIndex.nHeight pindex in
      if fAlreadyHave then mkAccepted cs1 ppindex false (Ok tt)
      else if negb fRequested
              && (negb (CBlockIndex.nTx pindex =? 0) || negb fHasMoreWork || fTooFarAhead)
      then mkAccepted cs1 ppindex false (Ok tt)
      else
        let checked :=
          _ ← CheckBlock (mapBlockIndex cs1) limits block true true;
          ContextualCheckBlock (mapBlockIndex cs1) block
                               (at_ (mapBlockIndex cs1) (CBlockIndex.pprev pindex)) in
        match checked with
        | Fail f =>
          let invalid :=
            match f with
            | Rejected rj => negb (corruptionPossible rj)
            | _ => false
            end in
          mkAccepted
            (if invalid
             then update_index cs1 p
                    (set_status pindex (Z.lor (CBlockIndex.nStatus pindex) BLOCK_FAILED_VALID))
                    true
             else cs1)
            ppindex true (Fail f)
        | Ok _ =>
          let nHeight := CBlockIndex.nHeight pindex in
          let nBlockSize := Int.u32 (block_GetSerializeSize_disk block) in
          let '(cs2, found) :=
            FindBlockPos cs1 (default (0, 0) dbp) (Int.u32 (nBlockSize + 8)) nHeight
                         (CBlock.GetBlockTime block) (bool_decide (is_Some dbp)) in
          match found with
          | Fail f => mkAccepted cs2 ppindex true (Fail f)
          | Ok blockPos =>
            (* a failed write calls AbortNode and goes on *)
            let written :=
              match dbp with
              | Some _ => Some blockPos
              | None =>
                match WriteBlockToDisk_at block blockPos with
                | Some nPos => Some (blockPos.1, nPos)
                | None => None
                end
              end in
            let blockPos' := default blockPos written in
            let cs3 :=
              mkChainState (mapBlockIndex cs2) (pindexBestHeader cs2)
                (setDirtyBlockIndex cs2) (chainActive_Tip cs2) (setBlockIndexCandidates cs2)
                (mapBlocksUnlinked cs2) (nBlockSequenceId cs2) (vinfoBlockFile cs2)
                (nLastBlockFile cs2) (setDirtyFileInfo cs2) (fCheckForPruning cs2)
                (match dbp, written with
                 | None, Some w => vBlocksOnDisk cs2 ++ [(w.1, w.2, block)]
                 | _, _ => vBlocksOnDisk cs2
                 end)
                (vAcceptedBlockHeader cs2)
                (match written with None => true | Some _ => fAbortRequested cs2 end) in
            match ReceivedBlockTransactions cs3 block p blockPos' with
            | Fail f => mkAccepted cs3 ppindex true (Fail f)
            | Ok cs4 =>
              mkAccepted (if fCheckForPruning cs4 then FlushStateToDisk_none cs4 else cs4)
                         ppindex true (Ok tt)
            end
          end
        end
    end
  end.

End HeaderTree.
(** Sample collaborators for the header tree: unit chain work, no
    checkpoint, no witness data, block files of 1000 bytes in chunks of 100,
    a disk with room, and writes that land 8 bytes after the position. *)
Definition sample_chain_externals : ChainExternals := {|
  GetBlockProof := fun _ => 1;
  GetLastCheckpoint := fun _ => None;
  CheckBlockIndex_consistent := fun _ => true;
  tx_wit_IsNull := fun _ => true;
  coinbase_witness_nonce_ok := fun _ => true;
  witness_commitment_matches := fun _ _ => true;
  MAX_BLOCKFILE_SIZE := 1000;
  BLOCKFILE_CHUNK_SIZE := 100;
  MIN_BLOCKS_TO_KEEP := 288;
  CBlockFileInfo_AddBlock := fun info _ _ =>
    mkFileInfo (nBlocks info + 1) (nSize info) (nUndoSize info) (nHeightFirst info)
               (nHeightLast info) (nTimeFirst info) (nTimeLast info);
  CheckDiskSpace := fun _ => true;
  pointer_less := Z.ltb;
  block_GetSerializeSize_disk := fun b => Z.of_nat (length (CBlock.vtx b));
  WriteBlockToDisk_at := fun _ pos => Some (pos.2 + 8);
  FlushStateToDisk_none := fun cs => cs
|}.

Definition sample_chain_flags : ChainFlags := mkChainFlags false false false.

(** A chain state whose index holds the sample parent (entry 104) as tip. *)
Definition sample_chain : ChainState :=
  mkChainState sample_map (Some 104) ∅ (Some 104) ∅ [] 1 [] 0 ∅ false [] [] false.


(** The same with an entry 105 that has its data and is not failed. *)
Definition sample_stored_entry : CBlockIndex.t :=
  CBlockIndex.mk (Some 105) (Some 104) 105 0 8 0 0 1 0
    (Z.lor BLOCK_VALID_TRANSACTIONS BLOCK_HAVE_DATA) 2 0 2000 0 0 0.
(** ** Admission to the memory pool *)

(** Modelled from the spec: [MempoolEntry], one pending transaction with its
    size and fee and the count of its in-pool descendants ([txmempool.h] is
    not among the sources; only what [AcceptToMemoryPoolWorker] reads of an
    entry is kept). *)
Record CTxMemPoolEntry := mkPoolEntry {
  GetTx : CTransaction.t;
  GetModifiedFee : CAmount;
  GetTxSize : Z;
  IsDirty : bool;
  GetCountWithDescendants : Z
}.

(** Settings and arguments of the node that admission reads. *)
Record PoolFlags := mkPoolFlags {
  fRequireStandard : bool;
  fEnableReplacement : bool;
  fMainNet : bool;
  fRelayPriority : bool;          (* -relaypriority *)
  nLimitFreeRelay : Z;            (* -limitfreerelay *)
  fIsInitialBlockDownload : bool
}.

(** The pool itself, the policy rules, fee rates and priorities lie outside
    [validation.cpp]. *)
Class MempoolExternals := {
  CTxMemPool : Type;
  pool_exists : CTxMemPool -> uint256 -> bool;
  (* pool.mapNextTx.find(prevout): the pool transaction spending it *)
  pool_mapNextTx : CTxMemPool -> COutPoint.t -> option CTransaction.t;
  (* pool.mapTx.find(hash) *)
  pool_mapTx : CTxMemPool -> uint256 -> option CTxMemPoolEntry;
  (* CCoinsViewCache over CCoinsViewMemPool(pcoinsTip, pool) *)
  CCoinsViewMemPool : CCoinsViewCache.t -> CTxMemPool -> CCoinsViewCache.t;
  ApplyDeltas : CTxMemPool -> uint256 -> CAmount -> CAmount;
  CalculateMemPoolAncestors : CTxMemPool -> CTransaction.t -> option (list uint256);
  CalculateDescendants : CTxMemPool -> uint256 -> list uint256 -> list uint256;
  RemoveStaged : CTxMemPool -> list uint256 -> CTxMemPool;
  addUnchecked : CTxMemPool -> CTransaction.t -> CAmount -> list uint256 -> bool
                 -> CTxMemPool;
  addAddressIndex : CTxMemPool -> CTransaction.t -> CCoinsViewCache.t -> CTxMemPool;
  addSpentIndex : CTxMemPool -> CTransaction.t -> CCoinsViewCache.t -> CTxMemPool;
  pool_Expire : CTxMemPool -> CTxMemPool;
  pool_TrimToSize : CTxMemPool -> CTxMemPool * list COutPoint.t;
  pool_GetMinFee : CTxMemPool -> Z -> CAmount;
  (* the iteration order of std::set<uint256>, a rearrangement of the elements *)
  set_order : list uint256 -> list uint256;
  set_order_perm : forall l, set_order l ≡ₚ l;
  (* policy *)
  IsStandardTx : CTransaction.t -> option string;   (* the reason when not *)
  AreInputsStandard : CTransaction.t -> CCoinsViewCache.t -> bool;
  MAX_STANDARD_TX_SIGOPS_COST : Z;
  STANDARD_SCRIPT_VERIFY_FLAGS : Z;
  MANDATORY_SCRIPT_VERIFY_FLAGS : Z;
  STANDARD_LOCKTIME_VERIFY_FLAGS : Z;
  (* the height CheckTransaction assumes when none is given *)
  CheckTransaction_default_nHeight : Z;
  (* fees and priority *)
  tx_GetMinFee : CTransaction.t -> CAmount;
  entry_GetTxSize : CTransaction.t -> Z;
  minRelayTxFee_GetFee : Z -> CAmount;
  (* CFeeRate(fee, size), in base units per 1000 bytes *)
  CFeeRate : CAmount -> Z -> Z;
  AllowFree_priority : CTransaction.t -> CCoinsViewCache.t -> Z -> bool;
  (* dFreeCount *= pow(1.0 - 1.0/600.0, dt), in double precision *)
  FreeCount_decay : Q -> Z -> Q;
  GetTime : Z
}.

Section Mempool.
Context `{Externals} `{MempoolExternals}.
Variable pf : PoolFlags.
Variable nf : NodeFlags.
Variable limits : Limits.

(** [bool CheckFinalTx(const CTransaction &tx, int flags)] against the tip
    [ptip] of the active chain. *)
Definition CheckFinalTx (m : BlockMap) (ptip : option uint256) (tx : CTransaction.t)
    (flags : Z) : outcome bool :=
  let flags := Z.max flags 0 in
  let nBlockHeight :=
    Int.s32 (match at_ m ptip with
             | Some tip => CBlockIndex.nHeight tip
             | None => -1
             end + 1) in
  nBlockTime ← (if negb (Z.land flags LOCKTIME_MEDIAN_TIME_PAST =? 0)
                then tip ← deref (at_ m ptip); Ok (GetMedianTimePast m tip)
                else Ok GetAdjustedTime);
  Ok (IsFinalTx tx nBlockHeight nBlockTime).

(** What [AcceptToMemoryPoolWorker] leaves behind besides its result: the
    pool, the state of the free-transaction rate limiter, the outpoints to
    uncache, [*pfMissingInputs], and the transactions signalled. *)
Record AtmpState := mkAtmpState {
  at_pool : CTxMemPool;
  at_dFreeCount : Q;
  at_nLastTime : Z;
  at_coins_to_uncache : list COutPoint.t;
  at_fMissingInputs : bool;
  (* pcoinsTip->Uncache by LimitMempoolSize *)
  at_uncached : list COutPoint.t;
  (* GetMainSignals().SyncTransaction *)
  at_synced : list CTransaction.t
}.

Record AtmpResult := mkAtmpResult {
  ar_state : AtmpState;
  ar_result : outcome unit
}.

(** The checks before the pool is consulted for conflicts. *)
Definition ATMP_prechecks (m : BlockMap) (ptip : option uint256) (pool : CTxMemPool)
    (tx : CTransaction.t) : outcome unit :=
  let hash := CTransaction.GetHash tx in
  _ ← CheckTransaction limits tx CheckTransaction_default_nHeight;
  if IsCoinBase tx then reject (DoS 100 REJECT_INVALID "coinbase" false)
  else
    match (if fRequireStandard pf then IsStandardTx tx else None) with
    | Some reason => reject (DoS 0 REJECT_NONSTANDARD reason false)
    | None =>
      if fRequireStandard pf && (2 <=? CTransaction.nVersion tx)
         && negb (bool_decide (VersionBitsState_CSV m (at_ m ptip) = THRESHOLD_ACTIVE))
      then reject (DoS 0 REJECT_NONSTANDARD "premature-version2-tx" false)
      else
        final ← CheckFinalTx m ptip tx STANDARD_LOCKTIME_VERIFY_FLAGS;
        if negb final then reject (DoS 0 REJECT_NONSTANDARD "non-final" false)
        else if pool_exists pool hash
        then reject (Invalid REJECT_ALREADY_KNOWN "txn-already-in-mempool")
        else if HasTxLockRequest hash && negb (TxLockRequest_IsValid tx)
        then reject (DoS 10 REJECT_INVALID "bad-txlockrequest" false)
        else if existsb (fun txin =>
                           match GetLockedOutPointTxHash (CTxIn.prevout txin) with
                           | Some hashLocked => negb (hash =? hashLocked)
                           | None => false
                           end) (CTransaction.vin tx)
        then reject (DoS 10 REJECT_INVALID "tx-txlock-conflict" false)
        else Ok tt
    end.

(** [fReplacementOptOut] for a conflicting pool transaction: no input
    signals replaceability, or replacement is switched off. *)
Definition fReplacementOptOut (ptxConflicting : CTransaction.t) : bool :=
  if fEnableReplacement pf
  then negb (existsb (fun txin => CTxIn.nSequence txin <? Int.UINT_MAX - 1)
                     (CTransaction.vin ptxConflicting))
  else true.

(** The loop that collects [setConflicts]; the set is kept as the list of
    its elements in the order they came in. *)
Fixpoint ATMP_conflicts_loop (pool : CTxMemPool) (hash : uint256) (vin : list CTxIn.t)
    (setConflicts : list uint256) : outcome (list uint256) :=
  match vin with
  | [] => Ok setConflicts
  | txin :: rest =>
    match pool_mapNextTx pool (CTxIn.prevout txin) with
    | Some ptxConflicting =>
      if negb (bool_decide (CTransaction.GetHash ptxConflicting ∈ setConflicts)) then
        if HasTxLockRequest (CTransaction.GetHash ptxConflicting)
        then reject (DoS 0 REJECT_INVALID "tx-txlockreq-mempool-conflict" false)
        else if HasTxLockRequest hash
        then reject (DoS 0 REJECT_INVALID "txlockreq-tx-mempool-conflict" false)
        else if fReplacementOptOut ptxConflicting
        then reject (Invalid REJECT_CONFLICT "txn-mempool-conflict")
        else ATMP_conflicts_loop pool hash rest
               (setConflicts ++ [CTransaction.GetHash ptxConflicting])
      else ATMP_conflicts_loop pool hash rest setConflicts
    | None => ATMP_conflicts_loop pool hash rest setConflicts
    end
  end.

Definition ATMP_conflicts (pool : CTxMemPool) (tx : CTransaction.t)
  : outcome (list uint256) :=
  if negb (IsZerocoinSpend tx)
  then ATMP_conflicts_loop pool (CTransaction.GetHash tx) (CTransaction.vin tx) []
  else Ok [].

(** "do we already have it?": the first output of the transaction that the
    view has. *)
Fixpoint ATMP_known_output (pcoinsTip view : CCoinsViewCache.t) (hash : uint256)
    (nOut : nat) (out : nat) (uncache : list COutPoint.t)
  : option (list COutPoint.t) :=
  match nOut with
  | O => None
  | S k =>
    let outpoint := COutPoint.mk hash (Z.of_nat out) in
    if CCoinsViewCache.HaveCoin view outpoint
    then Some (if negb (CCoinsViewCache.HaveCoinInCache pcoinsTip outpoint)
               then uncache ++ [outpoint] else uncache)
    else ATMP_known_output pcoinsTip view hash k (S out) uncache
  end.

(** "do all inputs exist?": the outpoints to uncache, and whether an input
    is missing. *)
Fixpoint ATMP_inputs_exist (pcoinsTip view : CCoinsViewCache.t) (vin : list CTxIn.t)
    (uncache : list COutPoint.t) : list COutPoint.t * bool :=
  match vin with
  | [] => (uncache, true)
  | txin :: rest =>
    let uncache :=
      if negb (CCoinsViewCache.HaveCoinInCache pcoinsTip (CTxIn.prevout txin))
      then uncache ++ [CTxIn.prevout txin] else uncache in
    if negb (CCoinsViewCache.HaveCoin view (CTxIn.prevout txin))
    then (uncache, false)
    else ATMP_inputs_exist pcoinsTip view rest uncache
  end.

(** The replacement rules, entered when [setConflicts] is not empty: the
    loop over the conflicting entries, which yields the parents of the
    conflicts, the descendant count and the entries found. *)
Fixpoint ATMP_replaced_loop (pool : CTxMemPool) (newFeeRate : Z)
    (conflicts : list uint256) (setConflictsParents : list uint256)
    (nConflictingCount : Z) (setIterConflicting : list uint256)
  : outcome (list uint256 * Z * list uint256) :=
  match conflicts with
  | [] => Ok (setConflictsParents, nConflictingCount, setIterConflicting)
  | hashConflicting :: rest =>
    match pool_mapTx pool hashConflicting with
    | None =>
      ATMP_replaced_loop pool newFeeRate rest setConflictsParents nConflictingCount
                         setIterConflicting
    | Some mi =>
      if IsDirty mi
      then reject (DoS 0 REJECT_NONSTANDARD "too many potential replacements" false)
      else if newFeeRate <=? CFeeRate (GetModifiedFee mi) (GetTxSize mi)
      then reject (DoS 0 REJECT_INSUFFICIENTFEE "insufficient fee" false)
      else
        ATMP_replaced_loop pool newFeeRate rest
          (setConflictsParents
           ++ map (fun txin => COutPoint.hash (CTxIn.prevout txin))
                  (CTransaction.vin (GetTx mi)))
          ((nConflictingCount + GetCountWithDescendants mi) mod 2 ^ 64)
          (setIterConflicting ++ [hashConflicting])
    end
  end.

(** The sums over [allConflicting]. *)
Definition sum_conflicting_fees (pool : CTxMemPool) (allConflicting : list uint256) : CAmount :=
  foldl (fun acc h =>
           match pool_mapTx pool h with
           | Some it => Int.s64 (acc + GetModifiedFee it)
           | None => acc
           end) 0 allConflicting.

Definition ATMP_replacement (pool : CTxMemPool) (tx : CTransaction.t)
    (setConflicts : list uint256) (nModifiedFees : CAmount) (nSize : Z)
  : outcome (list uint256) :=
  match setConflicts with
  | [] => Ok []
  | _ :: _ =>
    let newFeeRate := CFeeRate nModifiedFees nSize in
    let maxDescendantsToVisit := 100 in
    r ← ATMP_replaced_loop pool newFeeRate (set_order setConflicts) [] 0 [];
    let '(setConflictsParents, nConflictingCount, setIterConflicting) := r in
    if nConflictingCount <=? maxDescendantsToVisit then
      let allConflicting :=
        foldl (fun acc it => CalculateDescendants pool it acc) [] setIterConflicting in
      let nConflictingFees := sum_conflicting_fees pool allConflicting in
      if existsb (fun txin =>
                    negb (bool_decide (COutPoint.hash (CTxIn.prevout txin)
                                       ∈ setConflictsParents))
                    && bool_decide (is_Some (pool_mapTx pool
                                               (COutPoint.hash (CTxIn.prevout txin)))))
                 (CTransaction.vin tx)
      then reject (DoS 0 REJECT_NONSTANDARD "replacement-adds-unconfirmed" false)
      else if nModifiedFees <? nConflictingFees
      then reject (DoS 0 REJECT_INSUFFICIENTFEE "insufficient fee" false)
      else
        let nDeltaFees := Int.s64 (nModifiedFees - nConflictingFees) in
        if nDeltaFees <? minRelayTxFee_GetFee nSize
        then reject (DoS 0 REJECT_INSUFFICIENTFEE "insufficient fee" false)
        else Ok allConflicting
    else reject (DoS 0 REJECT_NONSTANDARD "too many potential replacements" false)
  end.

(** [void LimitMempoolSize(pool, limit, age)]: the pool afterwards and the
    outpoints it uncaches. *)
Definition LimitMempoolSize (pool : CTxMemPool) : CTxMemPool * list COutPoint.t :=
  pool_TrimToSize (pool_Expire pool).

(** The fee rules between the input checks and the ancestor limits; the
    result is the state of the rate limiter. *)
Definition ATMP_fees (pool : CTxMemPool) (ptipHeight : Z) (tx : CTransaction.t)
    (view : CCoinsViewCache.t) (fLimitFree fRejectAbsurdFee : bool)
    (nSigOps : Z) (nFees nModifiedFees : CAmount) (nSize : Z)
    (dFreeCount : Q) (nLastTime : Z) : (Q * Z) * outcome unit :=
  if fLimitFree && (nFees <? tx_GetMinFee tx)
  then ((dFreeCount, nLastTime),
        reject (DoS 0 REJECT_INSUFFICIENTFEE "not enough fee" false))
  else if MAX_STANDARD_TX_SIGOPS_COST <? nSigOps
  then ((dFreeCount, nLastTime),
        reject (DoS 0 REJECT_NONSTANDARD "bad-txns-too-many-sigops" false))
  else
    let mempoolRejectFee := pool_GetMinFee pool nSize in
    if (0 <? mempoolRejectFee) && (nModifiedFees <? mempoolRejectFee)
    then ((dFreeCount, nLastTime),
          reject (DoS 0 REJECT_INSUFFICIENTFEE "mempool min fee not met" false))
    else if fRelayPriority pf && (nModifiedFees <? minRelayTxFee_GetFee nSize)
            && negb (AllowFree_priority tx view (Int.s32 (ptipHeight + 1)))
    then ((dFreeCount, nLastTime),
          reject (DoS 0 REJECT_INSUFFICIENTFEE "insufficient priority" false))
    else
      let limited :=
        if fLimitFree && (nModifiedFees <? minRelayTxFee_GetFee nSize) then
          let nNow := GetTime in
          let dFreeCount := FreeCount_decay dFreeCount (Int.s64 (nNow - nLastTime)) in
          if Qle_bool (Double.of_int (Int.s64 (nLimitFreeRelay pf * 10 * 1000))) dFreeCount
          then ((dFreeCount, nNow),
                reject (DoS 0 REJECT_INSUFFICIENTFEE "rate limited free transaction" false))
          else ((Double.add dFreeCount (Double.of_int nSize), nNow), Ok tt)
        else ((dFreeCount, nLastTime), Ok tt) in
      match limited.2 with
      | Fail f => limited
      | Ok _ =>
        if fRejectAbsurdFee && (Int.s64 (minRelayTxFee_GetFee nSize * 10000) <? nFees)
        then (limited.1, reject (Invalid REJECT_HIGHFEE "absurdly-high-fee"))
        else (limited.1, Ok tt)
      end.

(** [bool AcceptToMemoryPoolWorker(pool, state, tx, fLimitFree,
    pfMissingInputs, fOverrideMempoolLimit, fRejectAbsurdFee,
    coins_to_uncache, fDryRun)] against the block index [m], the tip [ptip]
    of the active chain and the coins of the tip [pcoinsTip]. *)
Definition AcceptToMemoryPoolWorker (m : BlockMap) (ptip : option uint256)
    (pcoinsTip : CCoinsViewCache.t) (st : AtmpState) (tx : CTransaction.t)
    (fLimitFree fOverrideMempoolLimit fRejectAbsurdFee fDryRun : bool) : AtmpResult :=
  let pool := at_pool st in
  let hash := CTransaction.GetHash tx in
  let st0 := mkAtmpState pool (at_dFreeCount st) (at_nLastTime st)
                         (at_coins_to_uncache st) false (at_uncached st) (at_synced st) in
  let with_uncache (uncache : list COutPoint.t) (missing : bool) : AtmpState :=
    mkAtmpState pool (at_dFreeCount st) (at_nLastTime st) uncache missing
                (at_uncached st) (at_synced st) in
  match ATMP_prechecks m ptip pool tx with
  | Fail f => mkAtmpResult st0 (Fail f)
  | Ok _ =>
  match ATMP_conflicts pool tx with
  | Fail f => mkAtmpResult st0 (Fail f)
  | Ok setConflicts =>
    let view := CCoinsViewMemPool pcoinsTip pool in
    match ATMP_known_output pcoinsTip view hash (length (CTransaction.vout tx)) 0
                            (at_coins_to_uncache st) with
    | Some uncache =>
      mkAtmpResult (with_uncache uncache false)
                   (reject (Invalid REJECT_ALREADY_KNOWN "txn-already-known"))
    | None =>
      let '(uncache, fExist) :=
        ATMP_inputs_exist pcoinsTip view (CTransaction.vin tx) (at_coins_to_uncache st) in
      if negb fExist
      then mkAtmpResult (with_uncache uncache true) (Fail ReturnedFalse)
      else
        let st1 := with_uncache uncache false in
        if negb (CCoinsViewCache.HaveInputs view tx)
        then mkAtmpResult st1 (reject (Invalid REJECT_DUPLICATE "bad-txns-inputs-spent"))
        else
          let nValueIn := CCoinsViewCache.GetValueIn view tx in
          match CheckSequenceLocks m ptip
                  (fun o => if CCoinsViewCache.HaveCoin view o
                            then Some (CCoinsViewCache.AccessCoin view o) else None)
                  tx STANDARD_LOCKTIME_VERIFY_FLAGS
                  (Some (mkLockPoints 0 0 None)) false with
          | Fail f => mkAtmpResult st1 (Fail f)
          | Ok (false, _) =>
            mkAtmpResult st1 (reject (DoS 0 REJECT_NONSTANDARD "non-BIP68-final" false))
          | Ok (true, _) =>
            if IsZerocoinSpend tx
            then mkAtmpResult
                   (if fDryRun then st1
                    else mkAtmpState pool (at_dFreeCount st) (at_nLastTime st) uncache false
                                     (at_uncached st) (at_synced st ++ [tx]))
                   (Ok tt)
            else if fMainNet pf && fRequireStandard pf && negb (AreInputsStandard tx view)
            then mkAtmpResult st1
                   (reject (Invalid REJECT_NONSTANDARD "bad-txns-nonstandard-inputs"))
            else
              match GetP2SHSigOpCount tx view with
              | Fail f => mkAtmpResult st1 (Fail f)
              | Ok p2sh =>
                let nSigOps := Int.u32 (GetLegacySigOpCount tx + p2sh) in
                let nFees := Int.s64 (nValueIn - GetValueOut tx) in
                let nModifiedFees := ApplyDeltas pool hash nFees in
                let nSize := entry_GetTxSize tx in
                let ptipHeight :=
                  match at_ m ptip with
                  | Some tip => CBlockIndex.nHeight tip
                  | None => -1
                  end in
                let '(limiter, fees) :=
                  ATMP_fees pool ptipHeight tx view fLimitFree fRejectAbsurdFee nSigOps
                            nFees nModifiedFees nSize (at_dFreeCount st) (at_nLastTime st) in
                let st2 := mkAtmpState pool limiter.1 limiter.2 uncache false
                                       (at_uncached st) (at_synced st) in
                match fees with
                | Fail f => mkAtmpResult st2 (Fail f)
                | Ok _ =>
                  match CalculateMemPoolAncestors pool tx with
                  | None =>
                    mkAtmpResult st2
                      (reject (DoS 0 REJECT_NONSTANDARD "too-long-mempool-chain" false))
                  | Some setAncestors =>
                    if existsb (fun hashAncestor => bool_decide (hashAncestor ∈ setConflicts))
                               setAncestors
                    then mkAtmpResult st2
                           (reject (DoS 10 REJECT_INVALID "bad-txns-spends-conflicting-tx"
                                        false))
                    else
                      match ATMP_replacement pool tx setConflicts nModifiedFees nSize with
                      | Fail f => mkAtmpResult st2 (Fail f)
                      | Ok allConflicting =>
                        if fDryRun then mkAtmpResult st2 (Ok tt)
                        else
                          match (_ ← CheckInputs m tx view true STANDARD_SCRIPT_VERIFY_FLAGS
                                                 false;
                                 CheckInputs m tx view true MANDATORY_SCRIPT_VERIFY_FLAGS
                                             false) with
                          | Fail f => mkAtmpResult st2 (Fail f)
                          | Ok _ =>
                            let pool1 := RemoveStaged pool allConflicting in
                            let pool2 :=
                              addUnchecked pool1 tx nFees setAncestors
                                           (negb (fIsInitialBlockDownload pf)) in
                            let pool3 :=
                              if fAddressIndex nf then addAddressIndex pool2 tx view
                              else pool2 in
                            let pool4 :=
                              if fSpentIndex nf then addSpentIndex pool3 tx view
                              else pool3 in
                            if negb fOverrideMempoolLimit then
                              let '(pool5, removed) := LimitMempoolSize pool4 in
                              if negb (pool_exists pool5 hash)
                              then mkAtmpResult
                                     (mkAtmpState pool5 limiter.1 limiter.2 uncache false
                                        (at_uncached st ++ removed) (at_synced st))
                                     (reject (DoS 0 REJECT_INSUFFICIENTFEE "mempool full"
                                                  false))
                              else mkAtmpResult
                                     (mkAtmpState pool5 limiter.1 limiter.2 uncache false
                                        (at_uncached st ++ removed) (at_synced st ++ [tx]))
                                     (Ok tt)
                            else mkAtmpResult
                                   (mkAtmpState pool4 limiter.1 limiter.2 uncache false
                                      (at_uncached st) (at_synced st ++ [tx]))
                                   (Ok tt)
                          end
                      end
                  end
                end
              end
          end
    end
  end
  end.

End Mempool.
(** ** Statement-level notions for the replacement rules *)

Section ReplacementNotions.
Context `{Externals} `{MempoolExternals}.







End ReplacementNotions.

(** ** Statement-level notions for the way to the replacement rules *)

Section AdmissionPath.
Context `{Externals} `{MempoolExternals}.
Variable pf : PoolFlags.




End AdmissionPath.
(** Sample pool: a list of entries.  An outpoint is spent by the first
    entry with an input on it; fee rates are fee * 1000 / size; the relay
    fee is the size; nothing is non-standard and no limit binds. *)
Definition sample_pool_spender (pool : list CTxMemPoolEntry) (o : COutPoint.t)
  : option CTransaction.t :=
  GetTx <$> head (filter (fun e => o ∈ map CTxIn.prevout (CTransaction.vin (GetTx e))) pool).

Definition sample_pool_find (pool : list CTxMemPoolEntry) (h : uint256)
  : option CTxMemPoolEntry :=
  head (filter (fun e => CTransaction.GetHash (GetTx e) = h) pool).

Definition sample_mempool_externals : MempoolExternals := {|
  CTxMemPool := list CTxMemPoolEntry;
  pool_exists := fun pool h => bool_decide (is_Some (sample_pool_find pool h));
  pool_mapNextTx := sample_pool_spender;
  pool_mapTx := sample_pool_find;
  CCoinsViewMemPool := fun tip _ => tip;
  ApplyDeltas := fun _ _ fee => fee;
  CalculateMemPoolAncestors := fun _ _ => Some [];
  CalculateDescendants := fun _ h acc => if bool_decide (h ∈ acc) then acc else acc ++ [h];
  RemoveStaged := fun pool hs =>
    filter (fun e => CTransaction.GetHash (GetTx e) ∉ hs) pool;
  addUnchecked := fun pool tx fee _ _ => pool ++ [mkPoolEntry tx fee 100 false 1];
  addAddressIndex := fun pool _ _ => pool;
  addSpentIndex := fun pool _ _ => pool;
  pool_Expire := fun pool => pool;
  pool_TrimToSize := fun pool => (pool, []);
  pool_GetMinFee := fun _ _ => 0;
  set_order := fun l => l;
  set_order_perm := fun l => reflexivity l;
  IsStandardTx := fun _ => None;
  AreInputsStandard := fun _ _ => true;
  MAX_STANDARD_TX_SIGOPS_COST := 4000;
  STANDARD_SCRIPT_VERIFY_FLAGS := 0;
  MANDATORY_SCRIPT_VERIFY_FLAGS := 0;
  STANDARD_LOCKTIME_VERIFY_FLAGS := 3;
  CheckTransaction_default_nHeight := Int.INT_MAX;
  tx_GetMinFee := fun _ => 0;
  entry_GetTxSize := fun _ => 100;
  minRelayTxFee_GetFee := fun size => size / 10;
  CFeeRate := fun fee size => if 0 <? size then fee * 1000 / size else 0;
  AllowFree_priority := fun _ _ _ => true;
  FreeCount_decay := fun d _ => d;
  GetTime := 3000
|}.

Definition sample_pool_flags : PoolFlags := mkPoolFlags true true true false 15 false.

(** A pool transaction spending the coin (7, 0) of the sample view, with the
    sequence number [seq] on its input, and the pool that holds it with the
    fee [fee] for 100 bytes. *)
Definition sample_pool_tx (seq : Z) : CTransaction.t :=
  CTransaction.mk 1 [CTxIn.mk (COutPoint.mk 7 0) [1; 1] seq] [CTxOut.mk 45 [1]] 0 21.
Definition sample_pool (seq : Z) (fee : CAmount) : list CTxMemPoolEntry :=
  [mkPoolEntry (sample_pool_tx seq) fee 100 false 1].

(** A transaction spending the same coin, paying [50 - value] as fee. *)
Definition sample_replacement (value : CAmount) : CTransaction.t :=
  CTransaction.mk 1 [CTxIn.mk (COutPoint.mk 7 0) [1; 1] CTxIn.SEQUENCE_FINAL]
                  [CTxOut.mk value [1]] 0 22.

Definition sample_atmp_state (pool : list CTxMemPoolEntry)
  : AtmpState (H0 := sample_mempool_externals) :=
  mkAtmpState (H0 := sample_mempool_externals) pool 0%Q 0 [] false [] [].

(** A view in which the coin (7, 0) is known and spent. *)
Definition sample_view_spent : CCoinsViewCache.t :=
  CCoinsViewCache.mk
    {[ COutPoint.mk 7 0 := CCoinsViewCache.mkEntry Coin.empty true false ]} 104.


(** A header on top of the sample parent with a time inside both bounds and
    difficulty bits other than the required ones. *)
Definition sample_header_bad_bits : CBlock.t := CBlock.mk 2 104 0 2000 7 0 105 [] false.
(** ** Statement-level notions for the header tree *)

(** The best header is the entry with the most work: no header is best
    only while the index is empty, and otherwise no entry of the index has
    more chain work than the one [pindexBestHeader] names. *)
Definition best_header_has_most_work (cs : ChainState) : Prop :=
  match pindexBestHeader cs with
  | None => mapBlockIndex cs = ∅
  | Some p =>
    exists b, mapBlockIndex cs !! p = Some b
              /\ forall h e, mapBlockIndex cs !! h = Some e ->
                             CBlockIndex.nChainWork e <= CBlockIndex.nChainWork b
  end.

(** ** Statement-level notions for the block files *)

(** The size of the block file number [i]: a file past the end of
    [vinfoBlockFile] is a fresh one. *)
Definition block_file_size (files : list CBlockFileInfo) (i : nat) : Z :=
  nSize (default CBlockFileInfo_null (files !! i)).

(** Every pointer of the block tree leads to an entry of the index: the
    parent of every entry, the child of every pair of unlinked blocks, and
    the tip of the active chain. *)
Definition index_closed (cs : ChainState) : Prop :=
  (forall k b pp, mapBlockIndex cs !! k = Some b -> CBlockIndex.pprev b = Some pp ->
                  is_Some (mapBlockIndex cs !! pp))
  /\ (forall pc, pc ∈ mapBlocksUnlinked cs -> is_Some (mapBlockIndex cs !! pc.2))
  /\ (forall t, chainActive_Tip cs = Some t -> is_Some (mapBlockIndex cs !! t)).

(** ** Further sample data *)

(** The sample collaborators of the header tree with a disk that takes no
    block: every write fails. *)
Definition sample_chain_externals_no_write : ChainExternals := {|
  GetBlockProof := fun _ => 1;
  GetLastCheckpoint := fun _ => None;
  CheckBlockIndex_consistent := fun _ => true;
  tx_wit_IsNull := fun _ => true;
  coinbase_witness_nonce_ok := fun _ => true;
  witness_commitment_matches := fun _ _ => true;
  MAX_BLOCKFILE_SIZE := 1000;
  BLOCKFILE_CHUNK_SIZE := 100;
  MIN_BLOCKS_TO_KEEP := 288;
  CBlockFileInfo_AddBlock := fun info _ _ =>
    mkFileInfo (nBlocks info + 1) (nSize info) (nUndoSize info) (nHeightFirst info)
               (nHeightLast info) (nTimeFirst info) (nTimeLast info);
  CheckDiskSpace := fun _ => true;
  pointer_less := Z.ltb;
  block_GetSerializeSize_disk := fun b => Z.of_nat (length (CBlock.vtx b));
  WriteBlockToDisk_at := fun _ _ => None;
  FlushStateToDisk_none := fun cs => cs
|}.

(** ** Statement-level notions for the results *)

(** [never_duplicate_code o]: if [o] is a rejection, its reject code is not
    [REJECT_DUPLICATE]. *)
Definition never_duplicate_code {A} (o : outcome A) : Prop :=
  forall r, o = Fail (Rejected r) -> chRejectCode r <> REJECT_DUPLICATE.

(** ** Block files: undo space, pruning, and the initial-download latch *)

Module Store.
Section UndoSpace.
Context `{ChainExternals}.
Variable cf : ChainFlags.
(* validation.h: the step by which undo files are pre-allocated *)
Variable UNDOFILE_CHUNK_SIZE : Z.

Definition set_nUndoSize (info : CBlockFileInfo) (n : Z) : CBlockFileInfo :=
  mkFileInfo (nBlocks info) (nSize info) n (nHeightFirst info) (nHeightLast info)
             (nTimeFirst info) (nTimeLast info).

(** [bool FindUndoPos(state, nFile, pos, nAddSize)]: the state afterwards
    and the position.  [vinfoBlockFile[nFile]] is not bounds checked;
    [state.Error("out of disk space")] is the [ReturnedFalse] failure. *)
Definition FindUndoPos (cs : ChainState) (nFile : Z) (nAddSize : Z)
  : ChainState * outcome (Z * Z) :=
  match (if 0 <=? nFile then vinfoBlockFile cs !! Z.to_nat nFile else None) with
  | None => (cs, Fail (Crashed "vinfoBlockFile[nFile]"))
  | Some info =>
    let nPos := nUndoSize info in
    let nNewSize := Int.u32 (nUndoSize info + nAddSize) in
    let files := <[Z.to_nat nFile := set_nUndoSize info nNewSize]> (vinfoBlockFile cs) in
    let nOldChunks :=
      Int.u32 (Int.u32 (nPos + UNDOFILE_CHUNK_SIZE - 1) / UNDOFILE_CHUNK_SIZE) in
    let nNewChunks :=
      Int.u32 (Int.u32 (nNewSize + UNDOFILE_CHUNK_SIZE - 1) / UNDOFILE_CHUNK_SIZE) in
    let grows := nOldChunks <? nNewChunks in
    let pruning := if grows && fPruneMode cf then true else fCheckForPruning cs in
    let out_of_space :=
      grows && negb (CheckDiskSpace (Int.u32 (Int.u32 (nNewChunks * UNDOFILE_CHUNK_SIZE)
                                              - nPos))) in
    (mkChainState (mapBlockIndex cs) (pindexBestHeader cs) (setDirtyBlockIndex cs)
       (chainActive_Tip cs) (setBlockIndexCandidates cs) (mapBlocksUnlinked cs)
       (nBlockSequenceId cs) files (nLastBlockFile cs)
       ({[nFile]} ∪ setDirtyFileInfo cs)
       pruning (vBlocksOnDisk cs) (vAcceptedBlockHeader cs)
       (* CheckDiskSpace calls AbortNode when the space is short *)
       (if out_of_space then true else fAbortRequested cs),
     if out_of_space then Fail ReturnedFalse else Ok (nFile, nPos))
  end.

End UndoSpace.
End Store.

Section BlockFiles.
Context `{ChainExternals}.
(* validation.h: the step by which undo files are pre-allocated *)
Variable UNDOFILE_CHUNK_SIZE : Z.

(** [uint64_t CalculateCurrentUsage()]; the two sizes of a file are added
    as [unsigned int]. *)
Definition CalculateCurrentUsage (cs : ChainState) : Z :=
  foldl (fun retval file => (retval + Int.u32 (nSize file + nUndoSize file)) mod 2 ^ 64)
        0 (vinfoBlockFile cs).

(** What [PruneOneBlockFile] does to an index entry of the file. *)
Definition prune_entry (pindex : CBlockIndex.t) : CBlockIndex.t :=
  CBlockIndex.mk (CBlockIndex.phashBlock pindex) (CBlockIndex.pprev pindex)
    (CBlockIndex.nHeight pindex) 0 0 0
    (CBlockIndex.nChainWork pindex) (CBlockIndex.nTx pindex) (CBlockIndex.nChainTx pindex)
    (Z.land (Z.land (CBlockIndex.nStatus pindex) (Z.lnot BLOCK_HAVE_DATA))
            (Z.lnot BLOCK_HAVE_UNDO))
    (CBlockIndex.nVersion pindex) (CBlockIndex.hashMerkleRoot pindex)
    (CBlockIndex.nTime pindex) (CBlockIndex.nBits pindex) (CBlockIndex.nNonce pindex)
    (CBlockIndex.nSequenceId pindex).

(** The pairs [PruneOneBlockFile] erases from [mapBlocksUnlinked]: the
    child is an entry of the file, filed under its own parent. *)
Definition unlinked_pruned (m : BlockMap) (fileNumber : Z) (pc : uint256 * uint256) : bool :=
  match m !! pc.2 with
  | Some pindex =>
    (CBlockIndex.nFile pindex =? fileNumber)
    && bool_decide (CBlockIndex.pprev pindex = Some pc.1)
  | None => false
  end.

(** [void PruneOneBlockFile(const int fileNumber)];
    [vinfoBlockFile[fileNumber]] is not bounds checked. *)
Definition PruneOneBlockFile (cs : ChainState) (fileNumber : Z) : outcome ChainState :=
  let m := mapBlockIndex cs in
  if (0 <=? fileNumber) && (fileNumber <? Z.of_nat (length (vinfoBlockFile cs))) then
    Ok (mkChainState
          ((fun pindex => if CBlockIndex.nFile pindex =? fileNumber
                          then prune_entry pindex else pindex) <$> m)
          (pindexBestHeader cs)
          (dom (filter (fun kb : uint256 * CBlockIndex.t =>
                          CBlockIndex.nFile kb.2 = fileNumber) m)
           ∪ setDirtyBlockIndex cs)
          (chainActive_Tip cs) (setBlockIndexCandidates cs)
          (filter (fun pc => unlinked_pruned m fileNumber pc = false) (mapBlocksUnlinked cs))
          (nBlockSequenceId cs)
          (<[Z.to_nat fileNumber := CBlockFileInfo_null]> (vinfoBlockFile cs))
          (nLastBlockFile cs)
          ({[fileNumber]} ∪ setDirtyFileInfo cs)
          (fCheckForPruning cs) (vBlocksOnDisk cs) (vAcceptedBlockHeader cs)
          (fAbortRequested cs))
  else Fail (Crashed "vinfoBlockFile[fileNumber]").

(** The [for] loop of [FindFilesToPrune] from [fileNumber] on, with
    [remaining] files to go before [nLastBlockFile]. *)
Fixpoint FindFilesToPrune_loop (nPruneTarget nBuffer nLastBlockWeCanPrune : Z)
    (remaining : nat) (fileNumber : Z) (cs : ChainState) (setFilesToPrune : gset Z)
    (nCurrentUsage : Z) : outcome (ChainState * gset Z) :=
  match remaining with
  | O => Ok (cs, setFilesToPrune)
  | S remaining' =>
    match vinfoBlockFile cs !! Z.to_nat fileNumber with
    | None => Fail (Crashed "vinfoBlockFile[fileNumber]")
    | Some info =>
      let nBytesToPrune := Int.u32 (nSize info + nUndoSize info) in
      if nSize info =? 0
      then FindFilesToPrune_loop nPruneTarget nBuffer nLastBlockWeCanPrune remaining'
             (fileNumber + 1) cs setFilesToPrune nCurrentUsage
      else if (nCurrentUsage + nBuffer) mod 2 ^ 64 <? nPruneTarget
      then Ok (cs, setFilesToPrune)
      else if nLastBlockWeCanPrune <? nHeightLast info
      then FindFilesToPrune_loop nPruneTarget nBuffer nLastBlockWeCanPrune remaining'
             (fileNumber + 1) cs setFilesToPrune nCurrentUsage
      else
        cs' ← PruneOneBlockFile cs fileNumber;
        FindFilesToPrune_loop nPruneTarget nBuffer nLastBlockWeCanPrune remaining'
          (fileNumber + 1) cs' ({[fileNumber]} ∪ setFilesToPrune)
          ((nCurrentUsage - nBytesToPrune) mod 2 ^ 64)
    end
  end.

(** [void FindFilesToPrune(setFilesToPrune, nPruneAfterHeight)] with the
    global [nPruneTarget]: the state and the set afterwards. *)
Definition FindFilesToPrune (cs : ChainState) (setFilesToPrune : gset Z)
    (nPruneAfterHeight nPruneTarget : Z) : outcome (ChainState * gset Z) :=
  match at_ (mapBlockIndex cs) (chainActive_Tip cs) with
  | None => Ok (cs, setFilesToPrune)
  | Some tip =>
    if nPruneTarget =? 0 then Ok (cs, setFilesToPrune)
    else if CBlockIndex.nHeight tip mod 2 ^ 64 <=? nPruneAfterHeight
    then Ok (cs, setFilesToPrune)
    else
      let nLastBlockWeCanPrune := Int.u32 (CBlockIndex.nHeight tip - MIN_BLOCKS_TO_KEEP) in
      let nCurrentUsage := CalculateCurrentUsage cs in
      let nBuffer := Int.u32 (BLOCKFILE_CHUNK_SIZE + UNDOFILE_CHUNK_SIZE) in
      if nPruneTarget <=? (nCurrentUsage + nBuffer) mod 2 ^ 64
      then FindFilesToPrune_loop nPruneTarget nBuffer nLastBlockWeCanPrune
             (Z.to_nat (nLastBlockFile cs)) 0 cs setFilesToPrune nCurrentUsage
      else Ok (cs, setFilesToPrune)
  end.

(** A file the loop of [FindFilesToPrune] takes between two file numbers:
    it holds blocks, none of them above the last prunable height. *)
Definition prunable_file (nLastBlockWeCanPrune : Z) (files : list CBlockFileInfo)
    (lo hi f : Z) : Prop :=
  lo <= f < hi
  /\ exists info, files !! Z.to_nat f = Some info /\ nSize info <> 0
                  /\ nHeightLast info <= nLastBlockWeCanPrune.

(** [bool IsInitialBlockDownload()]: the answer and the [static bool
    lockIBDState] afterwards.  [fImporting], [fReindex], the minimum chain
    work and the maximal tip age of the chain parameters and the clock are
    arguments. *)
Definition IsInitialBlockDownload (lockIBDState : bool) (cs : ChainState)
    (fImporting fReindex : bool) (nMinimumChainWork nMaxTipAge nNow : Z) : bool * bool :=
  if lockIBDState then (false, lockIBDState)
  else if fImporting || fReindex then (true, lockIBDState)
  else
    match at_ (mapBlockIndex cs) (chainActive_Tip cs) with
    | None => (true, lockIBDState)
    | Some tip =>
      if CBlockIndex.nChainWork tip <? nMinimumChainWork then (true, lockIBDState)
      else if CBlockIndex.GetBlockTime tip <? Int.s64 (nNow - nMaxTipAge)
      then (true, lockIBDState)
      else (false, true)
    end.

End BlockFiles.

(** Sample data: the chain state with the stored entry 105, waiting in
    [mapBlocksUnlinked] under its parent, and two block files: file 0 with
    600 bytes of blocks and 60 of undo data up to height 50, file 1 with
    300 and 30 bytes up to height 104. *)
Definition sample_chain_files : ChainState :=
  mkChainState (<[105 := sample_stored_entry]> sample_map) (Some 104) ∅ (Some 104) ∅
               [(104, 105)] 1
               [mkFileInfo 5 600 60 1 50 0 0; mkFileInfo 2 300 30 51 104 0 0]
               1 ∅ false [] [] false.
(* ===================================================================== *)
(** * Part II: theorems                                                   *)
(* ===================================================================== *)

(** ** Rounding to binary64 *)

Section DoubleFacts.
Import Double.
Local Open Scope Q_scope.

Lemma pow2_pos k : 0 < pow2 k.
Proof. unfold pow2. apply Qpower_0_lt. reflexivity. Qed.

Lemma pow2_add a b : pow2 (a + b) == pow2 a * pow2 b.
Proof. unfold pow2. apply Qpower_plus. discriminate. Qed.

Lemma pow2_nonneg_Z k : (0 <= k)%Z -> pow2 k == inject_Z (2 ^ k).
Proof. intros Hk. unfold pow2. now rewrite Zpower_Qpower. Qed.

Lemma pow2_lt_inv a b : pow2 a < pow2 b -> (a < b)%Z.
Proof.
  unfold pow2. intros H.
  apply (Qpower_lt_compat_l_inv 2); [exact H | reflexivity].
Qed.

Lemma inject_Z_pos z : (0 < z)%Z -> 0 < inject_Z z.
Proof. intros H. change (inject_Z 0 < inject_Z z). now rewrite <- Zlt_Qlt. Qed.

Lemma inject_Z_sub x y : inject_Z (x - y) = inject_Z x - inject_Z y.
Proof. unfold Z.sub. now rewrite inject_Z_plus, inject_Z_opp. Qed.

Lemma round_half_even_bounds y :
  y - (1 # 2) <= inject_Z (round_half_even y) <= y + (1 # 2).
Proof.
  unfold round_half_even.
  pose proof (Qfloor_le y) as Hlo.
  pose proof (Qlt_floor y) as Hhi.
  rewrite inject_Z_plus in Hhi. change (inject_Z 1) with 1 in Hhi.
  destruct (Qcompare_spec (y - inject_Z (Qfloor y)) (1 # 2)) as [He|Hl|Hg].
  - destruct (Z.even (Qfloor y)).
    + lra.
    + rewrite inject_Z_plus. change (inject_Z 1) with 1. lra.
  - lra.
  - rewrite inject_Z_plus. change (inject_Z 1) with 1. lra.
Qed.

Lemma round_half_even_Z y z : y == inject_Z z -> round_half_even y = z.
Proof.
  intros Hy. unfold round_half_even.
  assert (Hf : Qfloor y = z) by (rewrite Hy; apply Qfloor_Z).
  rewrite Hf.
  destruct (Qcompare_spec (y - inject_Z z) (1 # 2)) as [He|Hl|Hg]; [lra | reflexivity | lra].
Qed.

Lemma ilog2_le x : 0 < x -> pow2 (ilog2 x) <= x.
Proof.
  intros Hx. unfold ilog2.
  destruct (Qle_bool _ x) eqn:Hb; [now apply Qle_bool_iff|].
  clear Hb. destruct x as [p q]. cbn [Qnum Qden].
  assert (Hp : (0 < p)%Z).
  { unfold Qlt in Hx. cbn in Hx. lia. }
  pose proof (Z.log2_spec p Hp) as [Hp1 _].
  pose proof (Z.log2_spec (Z.pos q) (Pos2Z.is_pos q)) as [_ Hq2].
  pose proof (Z.log2_nonneg p) as Hlp.
  pose proof (Z.log2_nonneg (Z.pos q)) as Hlq.
  set (lp := Z.log2 p) in *. set (lq := Z.log2 (Z.pos q)) in *.
  replace (lp - lq - 1)%Z with (lp + - (lq + 1))%Z by lia.
  rewrite pow2_add. unfold pow2 at 2. rewrite Qpower_opp.
  fold (pow2 (lq + 1)).
  rewrite !pow2_nonneg_Z by lia.
  rewrite (Qmake_Qdiv p q).
  assert (Hq0 : 0 < inject_Z (Z.pos q)) by (apply inject_Z_pos; lia).
  assert (Hb0 : 0 < inject_Z (2 ^ (lq + 1))).
  { apply inject_Z_pos. rewrite Z.add_1_r. lia. }
  apply Qle_shift_div_l; [exact Hq0|].
  setoid_replace (inject_Z (2 ^ lp) * / inject_Z (2 ^ (lq + 1)) * inject_Z (Z.pos q))
    with (inject_Z (2 ^ lp) * inject_Z (Z.pos q) / inject_Z (2 ^ (lq + 1)))
    using relation Qeq by (field; lra).
  apply Qle_shift_div_r; [exact Hb0|].
  rewrite <- !inject_Z_mult. rewrite <- Zle_Qle.
  rewrite Z.add_1_r. nia.
Qed.

Lemma rnd_pos_err x :
  0 < x -> x - x * pow2 (-53) <= rnd_pos x <= x + x * pow2 (-53).
Proof.
  intros Hx. unfold rnd_pos.
  set (e := (ilog2 x - (prec - 1))%Z).
  pose proof (pow2_pos e) as He.
  pose proof (ilog2_le x Hx) as Hl.
  replace (ilog2 x) with (e + 52)%Z in Hl by (unfold e, prec; lia).
  rewrite pow2_add in Hl.
  pose proof (round_half_even_bounds (x / pow2 e)) as [Hlo Hhi].
  set (r := inject_Z (round_half_even (x / pow2 e))) in *.
  assert (Hy : x / pow2 e * pow2 e == x) by (field; lra).
  apply (Qmult_le_compat_r _ _ (pow2 e)) in Hlo; [|lra].
  apply (Qmult_le_compat_r _ _ (pow2 e)) in Hhi; [|lra].
  assert (H52 : pow2 52 == 4503599627370496) by reflexivity.
  assert (H53 : pow2 (-53) == 1 # 9007199254740992) by reflexivity.
  rewrite H52 in Hl. rewrite H53.
  set (d := pow2 e) in *. set (y := x / d) in *.
  assert (Hlo' : y * d - (1 # 2) * d <= r * d) by lra.
  assert (Hhi' : r * d <= y * d + (1 # 2) * d) by lra.
  rewrite Hy in Hlo', Hhi'. lra.
Qed.

Lemma rnd_pos_exact x m e :
  0 < x -> x == inject_Z m * pow2 e -> (m < 2 ^ 53)%Z -> rnd_pos x == x.
Proof.
  intros Hx Hm Hlt. unfold rnd_pos.
  set (E := (ilog2 x - (prec - 1))%Z).
  pose proof (pow2_pos E) as HE. pose proof (pow2_pos e) as He.
  pose proof (ilog2_le x Hx) as Hl.
  assert (HEe : (E <= e)%Z).
  { assert (Hlt' : pow2 (ilog2 x) < pow2 (53 + e)).
    { eapply Qle_lt_trans; [exact Hl|]. rewrite Hm, pow2_add.
      apply Qmult_lt_compat_r; [exact He|].
      rewrite pow2_nonneg_Z by lia. now rewrite <- Zlt_Qlt. }
    apply pow2_lt_inv in Hlt'. unfold E, prec. lia. }
  assert (Hy : x / pow2 E == inject_Z (m * 2 ^ (e - E))).
  { rewrite inject_Z_mult, <- pow2_nonneg_Z by lia.
    rewrite Hm. replace e with ((e - E) + E)%Z at 1 by lia.
    rewrite pow2_add. field. lra. }
  rewrite (round_half_even_Z _ _ Hy). rewrite <- Hy. field. lra.
Qed.

Lemma rnd_exact x m e :
  x == inject_Z m * pow2 e -> (Z.abs m < 2 ^ 53)%Z -> rnd x == x.
Proof.
  intros Hm Hlt. unfold rnd.
  destruct (Qcompare_spec x 0) as [H0|Hn|Hp].
  - now rewrite H0.
  - assert (Hx : 0 < - x) by lra.
    rewrite (rnd_pos_exact (- x) (- m) e Hx); [lra| |lia].
    rewrite inject_Z_opp, Hm. ring.
  - apply (rnd_pos_exact x m e Hp Hm). lia.
Qed.

Lemma rnd_err x :
  0 < x -> x - x * (1 # 9007199254740992) <= rnd x <= x + x * (1 # 9007199254740992).
Proof.
  intros Hx. unfold rnd.
  destruct (Qcompare_spec x 0) as [H0|Hn|Hp]; [lra | lra |].
  apply (rnd_pos_err x Hp).
Qed.

Lemma of_int_exact z : (Z.abs z < 2 ^ 53)%Z -> of_int z == inject_Z z.
Proof.
  intros Hz. unfold of_int. apply (rnd_exact _ z 0); [|exact Hz].
  change (pow2 0) with 1. ring.
Qed.

Lemma Qfloor_unique x n : inject_Z n <= x -> x < inject_Z (n + 1) -> Qfloor x = n.
Proof.
  intros Hlo Hhi.
  pose proof (Qfloor_le x) as H1. pose proof (Qlt_floor x) as H2.
  assert (inject_Z n < inject_Z (Qfloor x + 1)) as H3 by lra.
  assert (inject_Z (Qfloor x) < inject_Z (n + 1)) as H4 by lra.
  rewrite <- Zlt_Qlt in H3, H4. lia.
Qed.

Lemma to_int64_Z x z :
  x == inject_Z z -> Int.in_s64 z -> to_int64 x = z.
Proof.
  intros Hx Hz. unfold to_int64, truncate.
  assert (Ht : (if Qle_bool 0 x then Qfloor x else Qceiling x) = z).
  { destruct (Qle_bool 0 x); rewrite Hx; [apply Qfloor_Z | apply Qceiling_Z]. }
  rewrite Ht. unfold Int.s64, Int.swrap, Int.in_s64, Int.INT64_MIN, Int.INT64_MAX in *.
  rewrite Z.mod_small; lia.
Qed.

End DoubleFacts.

(** ** Block reward *)

Section RewardFacts.
Import Double.

Example taper_first : Qeq (taper 143500) (inject_Z 5000).
Proof. vm_compute. reflexivity. Qed.

Example taper_last : Qeq (taper 717499999) (inject_Z 1).
Proof. vm_compute. reflexivity. Qed.

Example GetBlockValue_taper_sample :
  GetBlockValue {| nStartRewardTime := 0; MainNet := true |} 1000000 7 0
  = taper_exact 1000000 * COIN + 7.
Proof. vm_compute. reflexivity. Qed.

Lemma s32_small z : Int.in_s32 z -> Int.s32 z = z.
Proof.
  unfold Int.in_s32, Int.INT_MAX, Int.s32, Int.swrap. intros H.
  rewrite Z.mod_small; lia.
Qed.

Lemma s64_small z : Int.in_s64 z -> Int.s64 z = z.
Proof.
  unfold Int.in_s64, Int.INT64_MIN, Int.INT64_MAX, Int.s64, Int.swrap. intros H.
  rewrite Z.mod_small; lia.
Qed.

Lemma taper_exact_bounds h :
  143499 < h <= HF_CHAIN_REWARD_END_HEIGHT -> 1 <= taper_exact h <= 5000.
Proof.
  unfold HF_CHAIN_REWARD_END_HEIGHT, taper_exact. intros H. split.
  - apply Z.div_le_lower_bound; lia.
  - apply Z.lt_succ_r. apply Z.div_lt_upper_bound; lia.
Qed.

(** On the whole taper range the two roundings of the [double] expression
    never move its value across an integer: the code's
    [floor(0.5 + (double)717500000/(nHeight+1))] is the exact
    floor (1/2 + 717500000/(h+1)). *)
Lemma taper_correct h :
  143499 < h <= HF_CHAIN_REWARD_END_HEIGHT ->
  Qeq (taper h) (inject_Z (taper_exact h)).
Proof.
  intros Hh. pose proof (taper_exact_bounds h Hh) as Hn.
  unfold HF_CHAIN_REWARD_END_HEIGHT in Hh.
  unfold taper. change (Int.s32 (5000 * 143500)) with 717500000.
  rewrite (s32_small (h + 1)) by (unfold Int.in_s32, Int.INT_MAX; lia).
  unfold taper_exact in *. change (2 * (5000 * 143500)) with 1435000000 in *.
  set (b := h + 1) in *. set (n := (1435000000 + b) / (2 * b)) in *.
  assert (Hb : 143500 < b <= 717500000) by (unfold b; lia).
  assert (Hdiv : 2 * b * n <= 1435000000 + b < 2 * b * n + 2 * b).
  { pose proof (Z.mul_div_le (1435000000 + b) (2 * b)).
    pose proof (Z.mul_succ_div_gt (1435000000 + b) (2 * b)). unfold n. lia. }
  pose proof (of_int_exact 717500000 ltac:(reflexivity)) as Ha.
  pose proof (of_int_exact b ltac:(lia)) as Hbq.
  unfold floor. f_equiv.
  remember (of_int 717500000 / of_int b)%Q as x1 eqn:Ex1.
  assert (HB : (0 < inject_Z b)%Q) by (apply inject_Z_pos; lia).
  assert (Hx1 : (x1 * inject_Z b == 717500000)%Q).
  { rewrite Ex1, Ha, Hbq. change (inject_Z 717500000) with (717500000%Q).
    field. lra. }
  assert (Hbn : (inject_Z b * inject_Z n == inject_Z (b * n))%Q)
    by now rewrite inject_Z_mult.
  assert (HnQ : (1 <= inject_Z n <= 5000)%Q).
  { split; [change 1%Q with (inject_Z 1) | change 5000%Q with (inject_Z 5000)];
      rewrite <- Zle_Qle; lia. }
  assert (HbQ : (inject_Z b <= 717500000)%Q).
  { change 717500000%Q with (inject_Z 717500000). rewrite <- Zle_Qle. lia. }
  destruct (Z.eq_dec (1435000000 + b) (2 * b * n)) as [Heq|Hne].
  - (* the quotient is the half-integer n - 1/2: both operations are exact *)
    assert (Hx1v : (x1 == inject_Z (2 * n - 1) * pow2 (-1))%Q).
    { change (pow2 (-1)) with (1 # 2)%Q.
      apply (proj1 (Qmult_inj_r x1 (inject_Z (2 * n - 1) * (1 # 2)) (inject_Z b)
                                 ltac:(lra))).
      rewrite Hx1.
      assert (He : (inject_Z (1435000000 + b) == inject_Z (2 * b * n))%Q)
        by now rewrite Heq.
      rewrite inject_Z_plus, !inject_Z_mult in He.
      rewrite inject_Z_sub, inject_Z_mult.
      change (inject_Z 1435000000) with 1435000000%Q in He.
      change (inject_Z 2) with 2%Q in *. change (inject_Z 1) with 1%Q.
      lra. }
    assert (Hq : (div (of_int 717500000) (of_int b) == x1)%Q).
    { unfold div. rewrite <- Ex1. apply (rnd_exact _ _ _ Hx1v). lia. }
    apply Qfloor_unique.
    + unfold add. rewrite (rnd_exact _ n 0).
      * rewrite Hq, Hx1v. change (pow2 (-1)) with (1 # 2)%Q.
        rewrite inject_Z_sub, inject_Z_mult.
        change (inject_Z 2) with 2%Q. change (inject_Z 1) with 1%Q. lra.
      * rewrite Hq, Hx1v. change (pow2 (-1)) with (1 # 2)%Q. change (pow2 0) with 1%Q.
        rewrite inject_Z_sub, inject_Z_mult.
        change (inject_Z 2) with 2%Q. change (inject_Z 1) with 1%Q. lra.
      * lia.
    + unfold add. rewrite (rnd_exact _ n 0).
      * rewrite Hq, Hx1v. change (pow2 (-1)) with (1 # 2)%Q.
        rewrite inject_Z_sub, inject_Z_plus, inject_Z_mult.
        change (inject_Z 2) with 2%Q. change (inject_Z 1) with 1%Q. lra.
      * rewrite Hq, Hx1v. change (pow2 (-1)) with (1 # 2)%Q. change (pow2 0) with 1%Q.
        rewrite inject_Z_sub, inject_Z_mult.
        change (inject_Z 2) with 2%Q. change (inject_Z 1) with 1%Q. lra.
      * lia.
  - (* otherwise the quotient keeps a margin of 1/(2b) on either side *)
    set (c := (/ (2 * inject_Z b))%Q).
    assert (Hc : (c * (2 * inject_Z b) == 1)%Q) by (unfold c; field; lra).
    assert (Hc0 : (1 # 1435000000 <= c)%Q).
    { unfold c. apply Qle_shift_inv_l; lra. }
    assert (Hlo : (inject_Z n - (1 # 2) + c <= x1)%Q).
    { apply (proj1 (Qmult_le_r (inject_Z n - (1 # 2) + c) x1 (inject_Z b) HB)).
      rewrite Hx1.
      assert (He : (inject_Z (2 * b * n + 1) <= inject_Z (1435000000 + b))%Q)
        by (rewrite <- Zle_Qle; lia).
      rewrite !inject_Z_plus, !inject_Z_mult in He.
      change (inject_Z 1435000000) with 1435000000%Q in He.
      change (inject_Z 2) with 2%Q in *. change (inject_Z 1) with 1%Q in He.
      lra. }
    assert (Hhi : (x1 <= inject_Z n + (1 # 2) - c)%Q).
    { apply (proj1 (Qmult_le_r x1 (inject_Z n + (1 # 2) - c) (inject_Z b) HB)).
      rewrite Hx1.
      assert (He : (inject_Z (1435000000 + b + 1) <= inject_Z (2 * b * n + 2 * b))%Q)
        by (rewrite <- Zle_Qle; lia).
      rewrite !inject_Z_plus, !inject_Z_mult in He.
      change (inject_Z 1435000000) with 1435000000%Q in He.
      change (inject_Z 2) with 2%Q in *. change (inject_Z 1) with 1%Q in He.
      lra. }
    assert (Hx1p : (0 < x1)%Q) by lra.
    pose proof (rnd_err x1 Hx1p) as Hq.
    unfold add, div. rewrite <- Ex1. remember (rnd x1) as q eqn:Eq.
    assert (Hs0 : (0 < (1 # 2) + q)%Q) by lra.
    pose proof (rnd_err _ Hs0) as Hs.
    apply Qfloor_unique.
    + lra.
    + rewrite inject_Z_plus. change (inject_Z 1) with 1%Q. lra.
Qed.

Ltac zbool :=
  repeat match goal with
  | |- context [Z.ltb ?a ?b] => destruct (Z.ltb_spec a b)
  | |- context [Z.leb ?a ?b] => destruct (Z.leb_spec a b)
  | |- context [Z.eqb ?a ?b] => destruct (Z.eqb_spec a b)
  end;
  cbn [andb orb negb]; try lia.

Lemma GetBlockValue_genesis p nFees nTime : GetBlockValue p 0 nFees nTime = 0.
Proof. unfold GetBlockValue. cbn. now rewrite orb_true_r. Qed.

Lemma GetBlockValue_flat p h nFees nTime :
  1 <= h <= 143499 -> GetBlockValue p h nFees nTime = Int.s64 (5000 * COIN + nFees).
Proof.
  intros Hh. unfold GetBlockValue, HF_CHAIN_REWARD_END_HEIGHT.
  destruct ((nTime <? nStartRewardTime p) && MainNet p); zbool; reflexivity.
Qed.

Lemma GetBlockValue_past_end p h nFees nTime :
  HF_CHAIN_REWARD_END_HEIGHT < h -> GetBlockValue p h nFees nTime = nFees.
Proof.
  intros Hh. unfold GetBlockValue. unfold HF_CHAIN_REWARD_END_HEIGHT in *.
  destruct ((nTime <? nStartRewardTime p) && MainNet p); zbool; reflexivity.
Qed.

Lemma GetBlockValue_taper_expr p h nFees nTime :
  143499 < h <= HF_CHAIN_REWARD_END_HEIGHT ->
  GetBlockValue p h nFees nTime =
  to_int64 (add (mul (taper h) (of_int COIN)) (of_int nFees)).
Proof.
  intros Hh. unfold GetBlockValue. unfold HF_CHAIN_REWARD_END_HEIGHT in *.
  destruct ((nTime <? nStartRewardTime p) && MainNet p); zbool; reflexivity.
Qed.

Lemma taper_times_COIN h :
  143499 < h <= HF_CHAIN_REWARD_END_HEIGHT ->
  Qeq (mul (taper h) (of_int COIN)) (inject_Z (taper_exact h * COIN)).
Proof.
  intros Hh. pose proof (taper_exact_bounds h Hh) as Hn.
  pose proof (taper_correct h Hh) as Ht.
  pose proof (of_int_exact COIN ltac:(reflexivity)) as Hc.
  assert (Hx : Qeq (taper h * of_int COIN) (inject_Z (taper_exact h * COIN) * pow2 0)).
  { rewrite Ht, Hc, inject_Z_mult. change (pow2 0) with 1%Q. ring. }
  unfold mul. rewrite (rnd_exact _ _ _ Hx).
  - rewrite Hx. change (pow2 0) with 1%Q. ring.
  - unfold COIN. lia.
Qed.

Lemma GetBlockValue_taper p h nFees nTime :
  143499 < h <= HF_CHAIN_REWARD_END_HEIGHT ->
  Z.abs nFees < exact_fee_bound ->
  GetBlockValue p h nFees nTime = taper_exact h * COIN + nFees.
Proof.
  intros Hh Hf. rewrite GetBlockValue_taper_expr by exact Hh.
  pose proof (taper_exact_bounds h Hh) as Hn.
  pose proof (taper_times_COIN h Hh) as Hm.
  unfold exact_fee_bound, COIN in *.
  pose proof (of_int_exact nFees ltac:(lia)) as Hfe.
  assert (Hx : Qeq (mul (taper h) (of_int 100000000) + of_int nFees)
                   (inject_Z (taper_exact h * 100000000 + nFees) * pow2 0)).
  { rewrite Hm, Hfe, inject_Z_plus. change (pow2 0) with 1%Q. ring. }
  apply to_int64_Z.
  - unfold add. rewrite (rnd_exact _ _ _ Hx).
    + rewrite Hx. change (pow2 0) with 1%Q. ring.
    + lia.
  - unfold Int.in_s64, Int.INT64_MIN, Int.INT64_MAX. lia.
Qed.

(** C10.  For every height from 1 to 143499 [GetBlockValue] is 5000 coins
    plus the fees, whatever the block time, the reward start time and the
    network: the zero assigned by the time gate is overwritten.  The sum is
    the [int64_t] sum; it is the plain sum whenever that is representable.
    More generally the time gate changes nothing at any height from 1 to
    the terminal height. *)
Theorem GetBlockValue_time_gate_dead p p' h nFees nTime nTime' :
  1 <= h <= 143499 ->
  GetBlockValue p h nFees nTime = Int.s64 (5000 * COIN + nFees)
  /\ (Int.in_s64 (5000 * COIN + nFees) ->
      GetBlockValue p h nFees nTime = 5000 * COIN + nFees)
  /\ (forall h', 1 <= h' <= HF_CHAIN_REWARD_END_HEIGHT ->
      GetBlockValue p h' nFees nTime = GetBlockValue p' h' nFees nTime').
Proof.
  intros Hh. split; [|split].
  - now apply GetBlockValue_flat.
  - intros Hr. rewrite GetBlockValue_flat by exact Hh. now apply s64_small.
  - intros h' Hh'. destruct (Z.le_gt_cases h' 143499) as [Hle|Hgt].
    + now rewrite !GetBlockValue_flat by lia.
    + now rewrite !GetBlockValue_taper_expr by lia.
Qed.

Lemma GetBlockValue_time_gate_dead_witness :
  GetBlockValue {| nStartRewardTime := 1500000000; MainNet := true |} 1 7 0
  = 5000 * COIN + 7.
Proof.
  refine (proj1 (proj2 (GetBlockValue_time_gate_dead
           {| nStartRewardTime := 1500000000; MainNet := true |}
           {| nStartRewardTime := 0; MainNet := false |} 1 7 0 0 _)) _).
  - lia.
  - unfold Int.in_s64, Int.INT64_MIN, Int.INT64_MAX, COIN. lia.
Defined.




(** Past [exact_fee_bound] the [double] sum of the taper branch rounds: the
    last unit of the fees is lost. *)
Example GetBlockValue_taper_rounds :
  GetBlockValue {| nStartRewardTime := 0; MainNet := true |} 143500 (2 ^ 53 + 1) 0
  = 5000 * COIN + 2 ^ 53.
Proof. vm_compute. reflexivity. Qed.

(** [GetBlockSubsidy] agrees with the schedule up to the terminal height... *)
Lemma GetBlockSubsidy_schedule h :
  0 <= h <= HF_CHAIN_REWARD_END_HEIGHT -> GetBlockSubsidy h = subsidy_spec h.
Proof.
  intros Hh. unfold GetBlockSubsidy, subsidy_spec.
  destruct (Z.eqb_spec h 0) as [->|Hn]; [reflexivity|].
  destruct (Z.leb_spec h 143499) as [H1|H1].
  - replace (143499 <? h) with false by (symmetry; apply Z.ltb_ge; lia). reflexivity.
  - replace (143499 <? h) with true by (symmetry; apply Z.ltb_lt; lia).
    replace (h <=? HF_CHAIN_REWARD_END_HEIGHT) with true by (symmetry; apply Z.leb_le; lia).
    cbn [andb]. pose proof (taper_exact_bounds h ltac:(lia)) as Hb.
    apply to_int64_Z; [apply taper_times_COIN; lia|].
    unfold Int.in_s64, Int.INT64_MIN, Int.INT64_MAX, COIN. lia.
Qed.

(** ... and, unlike [GetBlockValue], keeps paying the flat 5000 coins past it. *)
Lemma GetBlockSubsidy_past_end h :
  HF_CHAIN_REWARD_END_HEIGHT < h -> GetBlockSubsidy h = 5000 * COIN.
Proof.
  intros Hh. unfold GetBlockSubsidy. unfold HF_CHAIN_REWARD_END_HEIGHT in *.
  zbool; reflexivity.
Qed.

End RewardFacts.
(** ** Results: which rejections a computation can end in *)

Section OutcomeFacts.

Lemma rejected_with_reject {A} r s :
  rejected_with (@reject A r) s <-> strRejectReason r = s.
Proof.
  split.
  - intros (r' & [= <-] & Hs). exact Hs.
  - intros Hs. exists r. split; [reflexivity | exact Hs].
Qed.

Lemma rejected_with_Ok {A} (a : A) s : ~ rejected_with (Ok a) s.
Proof. intros (r & Hr & _). discriminate. Qed.

Lemma rejected_with_bind {A B} (m : outcome A) (k : A -> outcome B) s :
  rejected_with (m ≫= k) s
  <-> rejected_with m s \/ exists a, m = Ok a /\ rejected_with (k a) s.
Proof.
  destruct m as [a|f]; cbn.
  - split; [intros Hr; right; eauto|].
    intros [Hr|(a' & [= <-] & Hr)]; [now apply rejected_with_Ok in Hr | exact Hr].
  - split.
    + intros (r & [= ->] & Hs). left. exists r. split; [reflexivity | exact Hs].
    + intros [(r & [= ->] & Hs)|(a' & Ha & _)]; [|discriminate].
      exists r. split; [reflexivity | exact Hs].
Qed.

Lemma reason_in_Ok {A} (a : A) R : reason_in (Ok a) R.
Proof. intros r Hr. discriminate. Qed.

Lemma reason_in_reject {A} r R : strRejectReason r ∈ R -> reason_in (@reject A r) R.
Proof. intros Hin r' [= <-]. exact Hin. Qed.

Lemma reason_in_Crashed {A} why R : reason_in (@Fail A (Crashed why)) R.
Proof. intros r Hr. discriminate. Qed.

Lemma reason_in_ReturnedFalse {A} R : reason_in (@Fail A ReturnedFalse) R.
Proof. intros r Hr. discriminate. Qed.

Lemma reason_in_NodeAborted {A} R : reason_in (@Fail A NodeAborted) R.
Proof. intros r Hr. discriminate. Qed.

Lemma reason_in_assert b what R : reason_in (assert_ b what) R.
Proof. destruct b; intros r Hr; discriminate. Qed.

Lemma reason_in_deref {A} (p : option A) R : reason_in (deref p) R.
Proof. destruct p; intros r Hr; discriminate. Qed.

Lemma reason_in_bind {A B} (m : outcome A) (k : A -> outcome B) R :
  reason_in m R -> (forall a, m = Ok a -> reason_in (k a) R) -> reason_in (m ≫= k) R.
Proof.
  intros Hm Hk. destruct m as [a|f]; cbn.
  - now apply Hk.
  - intros r [= ->]. now apply Hm.
Qed.

Lemma reason_in_weaken {A} (o : outcome A) R R' :
  reason_in o R -> R ⊆ R' -> reason_in o R'.
Proof. intros Ho Hsub r Hr. apply Hsub, Ho, Hr. Qed.

Lemma reason_in_not_rejected {A} (o : outcome A) R s :
  reason_in o R -> s ∉ R -> ~ rejected_with o s.
Proof. intros Ho Hs (r & Hr & <-). apply Hs, Ho, Hr. Qed.

End OutcomeFacts.

(** Membership of a literal reason in a literal list, and its negation. *)
Ltac reason_mem :=
  cbn [strRejectReason DoS Invalid];
  first [ apply (bool_decide_unpack _); vm_compute; reflexivity
        | rewrite !elem_of_cons; tauto ].

(** Walks through a computation built from binds, tests and literal
    rejections. *)
Ltac reasons :=
  repeat first
    [ eassumption
    | match goal with
      | |- reason_in (Ok _) _ => apply reason_in_Ok
      | |- reason_in (Fail (Crashed _)) _ => apply reason_in_Crashed
      | |- reason_in (Fail ReturnedFalse) _ => apply reason_in_ReturnedFalse
      | |- reason_in (Fail NodeAborted) _ => apply reason_in_NodeAborted
      | |- reason_in (assert_ _ _) _ => apply reason_in_assert
      | |- reason_in (deref _) _ => apply reason_in_deref
      | |- reason_in (reject _) _ => apply reason_in_reject; reason_mem
      | |- reason_in (_ ≫= _) _ => apply reason_in_bind; [|intros ? ?]
      | |- reason_in (if ?b then _ else _) _ => destruct b eqn:?
      | |- reason_in (match ?x with _ => _ end) _ => destruct x eqn:?
      end ].
(** ** Sequence locks *)

Section LockFacts.
Context `{Externals}.

Lemma insert_sorted_Forall (P : Z -> Prop) x l :
  P x -> Forall P l -> Forall P (insert_sorted x l).
Proof.
  intros Hx Hl. induction Hl as [|y l Hy Hl IH]; cbn.
  - now constructor.
  - destruct (x <=? y); repeat constructor; assumption.
Qed.

Lemma sort_Z_Forall (P : Z -> Prop) l : Forall P l -> Forall P (sort_Z l).
Proof.
  induction 1 as [|x l Hx Hl IH]; cbn; [constructor|].
  now apply insert_sorted_Forall.
Qed.

Lemma last_times_nonneg m span b : Forall (fun t => 0 <= t) (last_times m span b).
Proof.
  revert b. induction span as [|k IH]; intros [b|]; cbn; try constructor.
  - unfold CBlockIndex.GetBlockTime, Int.u32. apply Z.mod_pos_bound. lia.
  - apply IH.
Qed.

(** Block times are unsigned, so the median time past is never negative. *)
Lemma GetMedianTimePast_nonneg m b : 0 <= GetMedianTimePast m b.
Proof.
  unfold GetMedianTimePast.
  set (l := sort_Z _).
  assert (Hl : Forall (fun t => 0 <= t) l)
    by (apply sort_Z_Forall, last_times_nonneg).
  generalize (length l / 2)%nat. clearbody l.
  induction Hl as [|x l Hx Hl IH]; intros [|k]; cbn; try lia. apply IH.
Qed.


(** Inputs with the disable bit leave both minima alone. *)
Lemma CalculateSequenceLocks_loop_disabled m block vin prev a b :
  Forall (fun txin => sequence_disabled txin = true) vin ->
  length prev = length vin ->
  CalculateSequenceLocks_loop m block vin prev a b
  = Ok (a, b, repeat 0 (length vin)).
Proof.
  intros Hd. revert prev. induction Hd as [|txin vin Ht Hd IH]; intros [|h prev] Hlen;
    try discriminate; cbn in *; [reflexivity|].
  rewrite Ht, IH by lia. reflexivity.
Qed.


Lemma EvaluateSequenceLocks_height m block prevb a :
  at_ m (CBlockIndex.pprev block) = Some prevb ->
  EvaluateSequenceLocks m block (a, -1) = Ok (bool_decide (a < CBlockIndex.nHeight block)).
Proof.
  intros Hp. unfold EvaluateSequenceLocks.
  assert (Hs : is_Some (CBlockIndex.pprev block)).
  { destruct (CBlockIndex.pprev block); [eauto | discriminate]. }
  rewrite (bool_decide_eq_true_2 _ Hs), Hp. cbn [assert_ deref mbind outcome_bind fst snd].
  pose proof (GetMedianTimePast_nonneg m prevb) as Hm.
  replace (GetMedianTimePast m prevb <=? -1) with false by (symmetry; apply Z.leb_gt; lia).
  rewrite orb_false_r.
  destruct (Z.leb_spec (CBlockIndex.nHeight block) a).
  - now rewrite bool_decide_eq_false_2 by lia.
  - now rewrite bool_decide_eq_true_2 by lia.
Qed.



Example sequence_lock_too_early :
  SequenceLocks sample_map sample_locked_tx LOCKTIME_VERIFY_SEQUENCE [101] sample_block_index
  = Ok false.
Proof. vm_compute. reflexivity. Qed.

End LockFacts.
(** ** Contextual header check *)

Section HeaderFacts.
Context `{Externals}.

Lemma bad_version_reason_not_time v :
  bad_version_reason v <> "time-too-old"%string
  /\ bad_version_reason v <> "time-too-new"%string.
Proof.
  unfold bad_version_reason.
  destruct (v =? 2); [split; discriminate|].
  destruct (v =? 3); split; discriminate.
Qed.

(** The version loop ends in success or in a [bad-version] rejection. *)
Lemma outdated_version_loop_not_time m block pindexPrev versions :
  ~ rejected_with (outdated_version_loop m block pindexPrev versions) "time-too-old"
  /\ ~ rejected_with (outdated_version_loop m block pindexPrev versions) "time-too-new".
Proof.
  induction versions as [|v rest IH]; cbn.
  - split; intros (r & Hr & _); discriminate.
  - destruct (_ && _); [|exact IH].
    pose proof (bad_version_reason_not_time v) as [H1 H2].
    split; intros (r & Hr & Hs); inversion Hr; subst r; cbn in Hs; congruence.
Qed.

(** The version loop ends in success or in a [bad-version] rejection with
    the code [REJECT_OBSOLETE]. *)
Lemma outdated_version_loop_result m block pindexPrev versions :
  outdated_version_loop m block pindexPrev versions = Ok tt
  \/ exists v, outdated_version_loop m block pindexPrev versions
               = reject (Invalid REJECT_OBSOLETE (bad_version_reason v)).
Proof.
  induction versions as [|v rest IH]; cbn; [now left|].
  destruct (_ && _); [right; eauto | exact IH].
Qed.

(** C7.  The contextual header check looks at the difficulty bits first:
    a header whose bits are not the required ones is rejected with
    bad-diffbits, whatever its time.  With the required bits it fails with
    time-too-old exactly when the header time is not above the median time
    past of the parent, and with time-too-new exactly when it is above the
    median time past and more than two hours above the adjusted time.  A
    header within both bounds gets past the timestamp checks: what is left
    is the version check, which accepts or rejects with bad-version and
    never reports a time error; so the check accepts only a header with the
    required bits and a time within both bounds. *)
Theorem ContextualCheckBlockHeader_time_bounds m block pindexPrev :
  let t := CBlock.GetBlockTime block in
  let mtp := GetMedianTimePast m pindexPrev in
  let bits_ok := Int.u32 (CBlock.nBits block) = GetNextWorkRequired m pindexPrev block in
  let r := ContextualCheckBlockHeader m block pindexPrev in
  (~ bits_ok <-> r = reject (DoS 100 REJECT_INVALID "bad-diffbits" false))
  /\ (bits_ok /\ t <= mtp <-> r = reject (Invalid REJECT_INVALID "time-too-old"))
  /\ (bits_ok /\ mtp < t /\ GetAdjustedTime + 2 * 60 * 60 < t
      <-> r = reject (Invalid REJECT_INVALID "time-too-new"))
  /\ (bits_ok -> mtp < t <= GetAdjustedTime + 2 * 60 * 60 ->
      r = outdated_version_loop m block pindexPrev [2; 3; 4]
      /\ (r = Ok tt
          \/ exists v, r = reject (Invalid REJECT_OBSOLETE (bad_version_reason v)))
      /\ ~ rejected_with r "time-too-old" /\ ~ rejected_with r "time-too-new")
  /\ (r = Ok tt -> bits_ok /\ mtp < t <= GetAdjustedTime + 2 * 60 * 60).
Proof.
  intros t mtp bits_ok r. subst r bits_ok. unfold ContextualCheckBlockHeader.
  fold t mtp. change MAX_FUTURE_BLOCK_TIME with (2 * 60 * 60).
  pose proof (outdated_version_loop_not_time m block pindexPrev [2; 3; 4]) as [Hold Hnew].
  pose proof (outdated_version_loop_result m block pindexPrev [2; 3; 4]) as Hres.
  destruct (Z.eqb_spec (Int.u32 (CBlock.nBits block))
                       (GetNextWorkRequired m pindexPrev block)) as [Hbits|Hbits];
    cbn [negb].
  2: { split; [tauto|]. split; [split; [tauto | discriminate]|].
       split; [split; [tauto | discriminate]|]. split; [tauto | discriminate]. }
  destruct (Z.leb_spec t mtp) as [Hle|Hgt].
  { split; [split; [tauto | discriminate]|]. split; [tauto|].
    split; [split; [lia | discriminate]|]. split; [lia | discriminate]. }
  destruct (Z.ltb_spec (GetAdjustedTime + 2 * 60 * 60) t) as [Hfar|Hnear].
  { split; [split; [tauto | discriminate]|]. split; [split; [lia | discriminate]|].
    split; [tauto|]. split; [lia | discriminate]. }
  split; [|split; [|split; [|split]]].
  - split; [tauto|]. intros Hr.
    destruct Hres as [Hok|[v Hv]]; [rewrite Hok in Hr | rewrite Hv in Hr];
      unfold reject, Invalid, DoS in Hr; discriminate Hr.
  - split; [lia|]. intros Hr. exfalso. apply Hold. eexists. split; [exact Hr | reflexivity].
  - split; [lia|]. intros Hr. exfalso. apply Hnew. eexists. split; [exact Hr | reflexivity].
  - intros _ _. auto.
  - intros _. split; [exact Hbits | lia].
Qed.

End HeaderFacts.

Lemma ContextualCheckBlockHeader_time_bounds_witness :
  ContextualCheckBlockHeader (H := sample_externals) sample_map (sample_block 105 [])
                             sample_parent
  = Ok tt.
Proof.
  pose proof (ContextualCheckBlockHeader_time_bounds (H := sample_externals)
                sample_map (sample_block 105 []) sample_parent) as W.
  cbv zeta in W. destruct W as (_ & _ & _ & W & _).
  destruct (W eq_refl ltac:(vm_compute; split; first [reflexivity | discriminate]))
    as (W' & _).
  rewrite W'. vm_compute. reflexivity.
Defined.

Lemma header_in_time_rejected_for_bits :
  GetMedianTimePast sample_map sample_parent
  < CBlock.GetBlockTime sample_header_bad_bits
  <= GetAdjustedTime (Externals := sample_externals) + 2 * 60 * 60
  /\ ContextualCheckBlockHeader (H := sample_externals) sample_map sample_header_bad_bits
                                sample_parent
     = reject (DoS 100 REJECT_INVALID "bad-diffbits" false).
Proof.
  split; [vm_compute; split; [reflexivity | discriminate] | vm_compute; reflexivity].
Qed.
(** ** The coins view: what the operations do to the unspent coins *)

Section CoinFacts.
Context `{Externals}.
Import CCoinsViewCache.

Lemma unspent_lookup v o :
  unspent v !! o
  = match cacheCoins v !! o with
    | Some e => if Coin.IsSpent (coin e) then None else Some (coin e)
    | None => None
    end.
Proof. unfold unspent. rewrite lookup_omap. now destruct (cacheCoins v !! o). Qed.


Lemma HaveCoin_unspent v o : HaveCoin v o = bool_decide (is_Some (unspent v !! o)).
Proof.
  unfold HaveCoin. rewrite unspent_lookup. symmetry.
  destruct (cacheCoins v !! o) as [e|]; [destruct (Coin.IsSpent (coin e))|].
  - apply bool_decide_eq_false_2. now intros [].
  - apply bool_decide_eq_true_2. eauto.
  - apply bool_decide_eq_false_2. now intros [].
Qed.

Lemma HaveCoin_true v o : HaveCoin v o = true <-> is_Some (unspent v !! o).
Proof. rewrite HaveCoin_unspent. apply bool_decide_eq_true. Qed.



Lemma unspent_SetBestBlock v h : unspent (SetBestBlock v h) = unspent v.
Proof. reflexivity. Qed.


(** Spending where nothing is unspent: the view keeps its unspent coins, and
    what is moved out, if anything, is a spent coin. *)
Lemma SpendCoin_none v o :
  unspent v !! o = None ->
  exists b c v', SpendCoin v o = (b, c, v')
                 /\ unspent v' = unspent v
                 /\ hashBlock v' = hashBlock v
                 /\ (b = true -> Coin.IsSpent c = true).
Proof.
  intros Hc. pose proof Hc as Hc'. rewrite unspent_lookup in Hc'. unfold SpendCoin.
  destruct (cacheCoins v !! o) as [e|] eqn:E.
  - destruct (Coin.IsSpent (coin e)) eqn:Es; [|discriminate].
    do 3 eexists. split; [reflexivity|]. split; [|split; [now destruct (FRESH e) | auto]].
    apply map_eq. intros o'. destruct (FRESH e); rewrite !unspent_lookup; cbn.
    + destruct (decide (o = o')) as [->|Hne].
      * now rewrite lookup_delete_eq, E, Es.
      * now rewrite lookup_delete_ne by done.
    + destruct (decide (o = o')) as [->|Hne].
      * now rewrite lookup_insert_eq, E, Es.
      * now rewrite lookup_insert_ne by done.
  - do 3 eexists. split; [reflexivity|]. split; [reflexivity|]. split; [reflexivity|].
    discriminate.
Qed.

(** Adding a coin: nothing happens for an unspendable script; otherwise the
    coin is stored, and without [possible_overwrite] that succeeds only
    where no coin was unspent. *)
Lemma AddCoin_unspent v o c ow v' :
  AddCoin v o c ow = Ok v' ->
  hashBlock v' = hashBlock v
  /\ Coin.IsSpent c = false
  /\ (if IsUnspendable (CTxOut.scriptPubKey (Coin.out c))
      then unspent v' = unspent v
      else unspent v' = <[o := c]> (unspent v)
           /\ (ow = false -> unspent v !! o = None)).
Proof.
  unfold AddCoin. destruct (Coin.IsSpent c) eqn:Es; [discriminate|].
  cbn [negb assert_ mbind outcome_bind].
  destruct (IsUnspendable _); [now intros [= <-]|].
  destruct (negb ow && _) eqn:Eo; [discriminate|]. intros [= <-].
  split; [reflexivity|]. split; [reflexivity|]. split.
  - apply map_eq. intros o'. rewrite unspent_lookup. cbn [cacheCoins].
    destruct (decide (o = o')) as [->|Hne].
    + rewrite !lookup_insert_eq. cbn [coin]. now rewrite Es.
    + rewrite !lookup_insert_ne by done. now rewrite unspent_lookup.
  - intros ->. cbn in Eo. rewrite unspent_lookup.
    destruct (cacheCoins v !! o) as [e|]; [|reflexivity]. cbn in Eo.
    now destruct (Coin.IsSpent (coin e)).
Qed.


End CoinFacts.
(** ** Checking and connecting blocks: the rejections *)

Ltac reasons_sub :=
  first [ apply (bool_decide_unpack _); vm_compute; reflexivity
        | intros ? ?; set_solver ].

Section ConnectReasons.
Context `{Externals}.

Lemma CheckTransaction_vout_reasons nHeight vout nValueOut :
  reason_in (CheckTransaction_vout nHeight vout nValueOut) CheckTransaction_reasons.
Proof.
  revert nValueOut. induction vout as [|txout rest IH]; intros nValueOut; cbn; reasons.
  apply IH.
Qed.

Lemma CheckTransaction_dups_reasons vin seen :
  reason_in (CheckTransaction_dups vin seen) CheckTransaction_reasons.
Proof.
  revert seen. induction vin as [|txin rest IH]; intros seen; cbn; reasons. apply IH.
Qed.

Lemma CheckTransaction_vin_reasons nHeight vin :
  reason_in (CheckTransaction_vin nHeight vin) CheckTransaction_reasons.
Proof. induction vin as [|txin rest IH]; cbn; reasons. Qed.

Lemma CheckTransaction_reason limits tx nHeight :
  reason_in (CheckTransaction limits tx nHeight) CheckTransaction_reasons.
Proof.
  unfold CheckTransaction.
  pose proof (CheckTransaction_vout_reasons nHeight (CTransaction.vout tx) 0).
  pose proof (CheckTransaction_dups_reasons (CTransaction.vin tx) []).
  pose proof (CheckTransaction_vin_reasons nHeight (CTransaction.vin tx)).
  reasons.
Qed.

Lemma CheckBlock_transactions_reasons m limits block vtx :
  reason_in (CheckBlock_transactions m limits block vtx) CheckBlock_structure_reasons.
Proof.
  induction vtx as [|tx rest IH]; cbn; reasons.
  eapply reason_in_weaken; [apply CheckTransaction_reason | reasons_sub].
Qed.

Lemma CheckBlock_structure_reason m limits block fCheckPOW fCheckMerkleRoot :
  reason_in (CheckBlock_structure m limits block fCheckPOW fCheckMerkleRoot)
            CheckBlock_structure_reasons.
Proof.
  unfold CheckBlock_structure, CheckBlockHeader.
  pose proof (CheckBlock_transactions_reasons m limits block (CBlock.vtx block)).
  reasons.
Qed.

Lemma CheckBlock_reason m limits block fCheckPOW fCheckMerkleRoot :
  reason_in (CheckBlock m limits block fCheckPOW fCheckMerkleRoot) CheckBlock_reasons.
Proof.
  unfold CheckBlock.
  pose proof (reason_in_weaken _ _ CheckBlock_reasons
                (CheckBlock_structure_reason m limits block fCheckPOW fCheckMerkleRoot)
                ltac:(reasons_sub)).
  reasons.
Qed.

(** The sequence-lock calculation and the coin updates fail by assertion
    only. *)
Lemma CalculateSequenceLocks_loop_reasons m block vin prevHeights nMinHeight nMinTime R :
  reason_in (CalculateSequenceLocks_loop m block vin prevHeights nMinHeight nMinTime) R.
Proof.
  revert prevHeights nMinHeight nMinTime.
  induction vin as [|txin rest IH]; intros [|h hs] a b; cbn; reasons; apply IH.
Qed.

Lemma SequenceLocks_reasons m tx flags prevHeights block R :
  reason_in (SequenceLocks m tx flags prevHeights block) R.
Proof.
  unfold SequenceLocks, CalculateSequenceLocks, EvaluateSequenceLocks.
  reasons. apply CalculateSequenceLocks_loop_reasons.
Qed.

Lemma GetP2SHSigOpCount_loop_reasons view vin n R :
  reason_in (GetP2SHSigOpCount_loop view vin n) R.
Proof.
  revert n. induction vin as [|txin rest IH]; intros n; cbn; reasons. apply IH.
Qed.

Lemma GetP2SHSigOpCount_reasons tx view R : reason_in (GetP2SHSigOpCount tx view) R.
Proof. unfold GetP2SHSigOpCount. reasons. apply GetP2SHSigOpCount_loop_reasons. Qed.

Lemma AddCoin_reasons v o c ow R : reason_in (CCoinsViewCache.AddCoin v o c ow) R.
Proof. unfold CCoinsViewCache.AddCoin. reasons. Qed.

Lemma AddCoins_from_reasons v tx h vout i R :
  reason_in (CCoinsViewCache.AddCoins_from v tx h vout i) R.
Proof.
  revert v i. induction vout as [|out rest IH]; intros v i; cbn; reasons.
  - apply AddCoin_reasons.
  - apply IH.
Qed.

Lemma UpdateCoins_spend_reasons inputs vin txundo R :
  reason_in (UpdateCoins_spend inputs vin txundo) R.
Proof.
  revert inputs txundo. induction vin as [|txin rest IH]; intros inputs txundo; cbn; reasons.
  apply IH.
Qed.

Lemma UpdateCoins_reasons tx inputs txundo h R :
  reason_in (UpdateCoins tx inputs txundo h) R.
Proof.
  unfold UpdateCoins, CCoinsViewCache.AddCoins. reasons.
  - apply UpdateCoins_spend_reasons.
  - apply AddCoins_from_reasons.
Qed.

Lemma CheckTxInputs_loop_reasons inputs h vin n :
  reason_in (CheckTxInputs_loop inputs h vin n) CheckInputs_reasons.
Proof. revert n. induction vin as [|txin rest IH]; intros n; cbn; reasons. apply IH. Qed.

Lemma CheckInputs_scripts_reasons tx inputs flags queue vin i :
  reason_in (CheckInputs_scripts tx inputs flags queue vin i) CheckInputs_reasons.
Proof.
  revert i. induction vin as [|txin rest IH]; intros i; cbn; reasons; apply IH.
Qed.

Lemma CheckInputs_reason m tx inputs fScriptChecks flags queue :
  reason_in (CheckInputs m tx inputs fScriptChecks flags queue) CheckInputs_reasons.
Proof.
  unfold CheckInputs, GetSpendHeight, CheckTxInputs. reasons.
  - apply CheckTxInputs_loop_reasons.
  - apply CheckInputs_scripts_reasons.
Qed.

Lemma ConnectBlock_tx_reason e i tx s :
  reason_in (ConnectBlock_tx e i tx s) ConnectBlock_tx_reasons.
Proof.
  unfold ConnectBlock_tx. reasons.
  - apply SequenceLocks_reasons.
  - apply GetP2SHSigOpCount_reasons.
  - eapply reason_in_weaken; [apply CheckInputs_reason | reasons_sub].
  - apply UpdateCoins_reasons.
Qed.

Lemma ConnectBlock_loop_reason e i vtx s :
  reason_in (ConnectBlock_loop e i vtx s) ConnectBlock_tx_reasons.
Proof.
  revert i s. induction vtx as [|tx rest IH]; intros i s; cbn; reasons.
  - apply ConnectBlock_tx_reason.
  - apply IH.
Qed.

End ConnectReasons.
(** ** The sigop limits *)

Section SigopFacts.
Context `{Externals}.





End SigopFacts.
(** ** The duplicate-transaction rule (BIP30) *)

Section BIP30Facts.
Context `{Externals}.

(** The scan finds a transaction exactly when one of its outputs is held
    unspent by the view. *)
Lemma overwrites_spec view vtx :
  existsb (overwrites view) vtx = true
  <-> exists tx i, tx ∈ vtx /\ (i < length (CTransaction.vout tx))%nat
                   /\ is_Some (CCoinsViewCache.unspent view
                                 !! COutPoint.mk (CTransaction.GetHash tx) (Z.of_nat i)).
Proof.
  rewrite existsb_exists. split.
  - intros (tx & Hin & Ho). unfold overwrites in Ho.
    apply existsb_exists in Ho as (i & Hi & Hc).
    apply in_seq in Hi. apply HaveCoin_true in Hc.
    exists tx, i. split; [now apply list_elem_of_In|]. split; [lia | exact Hc].
  - intros (tx & i & Hin & Hi & Hc). exists tx. split; [now apply list_elem_of_In|].
    unfold overwrites. apply existsb_exists. exists i.
    split; [apply in_seq; lia | now apply HaveCoin_true].
Qed.

Lemma fEnforceBIP30_spec m pindex prev enforce :
  at_ m (CBlockIndex.pprev pindex) = Some prev ->
  fEnforceBIP30 m pindex = Ok enforce ->
  enforce = false
  <-> (exists h, CBlockIndex.phashBlock pindex = Some h
                 /\ ((CBlockIndex.nHeight pindex, h) = BIP30_exempt_1
                     \/ (CBlockIndex.nHeight pindex, h) = BIP30_exempt_2))
      \/ (exists a, GetAncestor m prev BIP34Height = Some a
                    /\ CBlockIndex.phashBlock a = Some BIP34Hash).
Proof.
  intros Hprev. unfold fEnforceBIP30. rewrite Hprev. cbn [deref mbind outcome_bind].
  set (white := match CBlockIndex.phashBlock pindex with
                | Some h => _
                | None => true
                end).
  assert (Hwhite : white = false
                   <-> exists h, CBlockIndex.phashBlock pindex = Some h
                                 /\ ((CBlockIndex.nHeight pindex, h) = BIP30_exempt_1
                                     \/ (CBlockIndex.nHeight pindex, h) = BIP30_exempt_2)).
  { subst white. destruct (CBlockIndex.phashBlock pindex) as [h|].
    - rewrite negb_false_iff, orb_true_iff, !andb_true_iff, !Z.eqb_eq. split.
      + intros Hw. exists h. split; [reflexivity|].
        destruct Hw as [[-> ->]|[-> ->]]; [left | right]; reflexivity.
      + intros (h' & [= <-] & [[= -> ->]|[= -> ->]]); [left | right]; split; reflexivity.
    - split; [discriminate | intros (h & Hh & _); discriminate]. }
  destruct (GetAncestor m prev BIP34Height) as [a|].
  - unfold CBlockIndex.GetBlockHash. destruct (CBlockIndex.phashBlock a) as [ha|] eqn:Ea; cbn;
      [|discriminate].
    intros [= <-]. rewrite andb_false_iff, Hwhite, negb_false_iff, Z.eqb_eq. split.
    + intros [Hw| ->]; [left; exact Hw | right; eauto].
    + intros [Hw|(a' & [= <-] & Ha)]; [left; exact Hw | right; congruence].
  - intros [= <-]. rewrite Hwhite. split; [auto|].
    intros [Hw|(a & Ha & _)]; [exact Hw | discriminate].
Qed.

(** C4.  For a block other than the genesis block that passes [CheckBlock]
    on top of the view's best block, [ConnectBlock] rejects with
    bad-txns-BIP30 when the rule is enforced and an output of a transaction
    of the block is held unspent by the view, and otherwise does not (the
    mining validation, which is not part of this file, left aside).  The
    rule is not enforced in exactly two cases: the block is one of the two
    whitelisted pairs of height and hash, or the ancestor of the parent at
    the BIP34 activation height has the BIP34 activation hash. *)
Theorem BIP30_enforcement m best nf limits undo block pindex view fJustCheck fc prev enforce :
  CheckBlock m limits block (negb fJustCheck) (negb fJustCheck) = Ok fc ->
  at_ m (CBlockIndex.pprev pindex) = Some prev ->
  CBlockIndex.phashBlock prev = Some (CCoinsViewCache.GetBestBlock view) ->
  CBlock.GetHash block <> hashGenesisBlock ->
  fEnforceBIP30 m pindex = Ok enforce ->
  let r := ConnectBlock m best nf limits undo block pindex view fJustCheck in
  let duplicate :=
    exists tx i, tx ∈ CBlock.vtx block /\ (i < length (CTransaction.vout tx))%nat
                 /\ is_Some (CCoinsViewCache.unspent view
                               !! COutPoint.mk (CTransaction.GetHash tx) (Z.of_nat i)) in
  (enforce = false
   <-> (exists h, CBlockIndex.phashBlock pindex = Some h
                  /\ ((CBlockIndex.nHeight pindex, h)
                      = (91842,
                         0x00000000000a4d0a398161ffc163c503763b1f4360639393e0e4c8e300e0caec)
                      \/ (CBlockIndex.nHeight pindex, h)
                         = (91880,
                            0x00000000000743f190a18c5577a3c2d2a1f610ae9601ac046a38084ccb7cd721)))
       \/ (exists a, GetAncestor m prev BIP34Height = Some a
                     /\ CBlockIndex.phashBlock a = Some BIP34Hash))
  /\ (enforce = true -> duplicate ->
      r = reject (DoS 100 REJECT_INVALID "bad-txns-BIP30" false))
  /\ (enforce = false \/ ~ duplicate ->
      (forall nFees r', SmartMining_Validate block pindex nFees = Some r' ->
                        strRejectReason r' <> "bad-txns-BIP30"%string) ->
      ~ rejected_with r "bad-txns-BIP30").
Proof.
  intros Hcb Hprev Hbest Hgen Henf r duplicate.
  split; [exact (fEnforceBIP30_spec m pindex prev enforce Hprev Henf)|].
  assert (Hdup : existsb (overwrites view) (CBlock.vtx block) = true <-> duplicate)
    by apply overwrites_spec.
  subst r. unfold ConnectBlock. rewrite Hcb. cbn [mbind outcome_bind].
  destruct (CBlockIndex.pprev pindex) as [hp|] eqn:Hpp; [|discriminate].
  rewrite Hprev. cbn [deref mbind outcome_bind]. unfold CBlockIndex.GetBlockHash.
  rewrite Hbest.
  cbn [deref mbind outcome_bind]. rewrite Z.eqb_refl. cbn [assert_ mbind outcome_bind].
  apply Z.eqb_neq in Hgen. rewrite Hgen, Henf. cbn [mbind outcome_bind].
  split.
  - intros -> Hd. apply Hdup in Hd. now rewrite Hd.
  - intros Hno Hsm.
    assert (Hcond : enforce && existsb (overwrites view) (CBlock.vtx block) = false).
    { destruct Hno as [-> | Hno]; [reflexivity|].
      destruct (existsb (overwrites view) (CBlock.vtx block)); [|apply andb_false_r].
      exfalso. apply Hno, Hdup. reflexivity. }
    rewrite Hcond. intros Hr.
    apply rejected_with_bind in Hr as [Hr|(s & _ & Hr)].
    { revert Hr. eapply reason_in_not_rejected; [apply ConnectBlock_loop_reason|].
      apply (bool_decide_unpack _). vm_compute. reflexivity. }
    destruct (SmartMining_Validate block pindex (cl_nFees s)) as [r'|] eqn:Esm.
    { apply rejected_with_reject in Hr. exact (Hsm _ _ Esm Hr). }
    revert Hr. apply (reason_in_not_rejected _ [""%string]).
    + unfold CBlockIndex.GetBlockHash. reasons.
    + apply (bool_decide_unpack _). vm_compute. reflexivity.
Qed.

End BIP30Facts.

Lemma BIP30_enforcement_witness :
  ConnectBlock (H := sample_externals) sample_map None sample_flags sample_limits ∅
               sample_block_duplicate sample_block_index sample_view false
  = reject (DoS 100 REJECT_INVALID "bad-txns-BIP30" false).
Proof.
  pose proof (BIP30_enforcement (H := sample_externals) sample_map None sample_flags
                sample_limits ∅ sample_block_duplicate sample_block_index sample_view false
                true sample_parent true eq_refl eq_refl eq_refl
                ltac:(vm_compute; discriminate) eq_refl) as W.
  cbv zeta in W. destruct W as (_ & W & _). apply W; [reflexivity|].
  exists (sample_coinbase 7 [1; 1] 60 [1]), O.
  split; [apply list_elem_of_here|]. split; [cbn; lia|]. vm_compute. eauto.
Defined.

(** Above the BIP34 activation block the rule is off: a block that is not
    whitelisted and whose coinbase output is the outpoint (7, 0) the view
    holds is connected, and the coin of the view is overwritten. *)
Lemma BIP30_skipped_above_BIP34 :
  (CBlockIndex.nHeight sample_block_index, CBlock.GetHash sample_block_duplicate) = (105, 105)
  /\ CCoinsViewCache.HaveCoin sample_view
       (COutPoint.mk (CTransaction.GetHash (sample_coinbase 7 [1; 1] 60 [1])) 0) = true
  /\ exists c,
       ConnectBlock (H := sample_externals_bip34) sample_map None sample_flags sample_limits ∅
                    sample_block_duplicate sample_block_index sample_view false
       = Ok c
       /\ CCoinsViewCache.unspent (co_view c) !! COutPoint.mk 7 0
          = Some (Coin.mk (CTxOut.mk 60 [1]) true 105).
Proof.
  split; [reflexivity|]. split; [reflexivity|].
  eexists. split; [vm_compute; reflexivity|]. vm_compute. reflexivity.
Qed.
(** ** Connecting and disconnecting a block: the round trip *)

Section RoundTrip.
Context `{Externals}.
Import CCoinsViewCache.

Lemma output_coin_from_cons tx h out rest i o :
  output_coin_from tx h (out :: rest) i o
  = if decide (o = COutPoint.mk (CTransaction.GetHash tx) i)
    then (if IsUnspendable (CTxOut.scriptPubKey out) then None
          else Some (Coin.mk out (IsCoinBase tx) h))
    else output_coin_from tx h rest (i + 1) o.
Proof.
  unfold output_coin_from. destruct o as [oh on]. cbn [COutPoint.hash COutPoint.n].
  destruct (decide _) as [[= -> ->]|Hne].
  - rewrite Z.eqb_refl, Z.leb_refl, Z.sub_diag. reflexivity.
  - destruct (Z.eqb_spec oh (CTransaction.GetHash tx)) as [->|Hh]; [|reflexivity].
    cbn [andb]. destruct (Z.leb_spec i on) as [Hle|Hgt].
    + assert (on <> i) by congruence.
      replace (i + 1 <=? on) with true by (symmetry; apply Z.leb_le; lia).
      replace (Z.to_nat (on - i)) with (S (Z.to_nat (on - (i + 1)))) by lia.
      reflexivity.
    + now replace (i + 1 <=? on) with false by (symmetry; apply Z.leb_gt; lia).
Qed.

Lemma output_coin_from_nil tx h i o : output_coin_from tx h [] i o = None.
Proof. unfold output_coin_from. now destruct (_ && _). Qed.

Lemma output_coin_from_below tx h vout i n :
  n < i -> output_coin_from tx h vout i (COutPoint.mk (CTransaction.GetHash tx) n) = None.
Proof.
  intros Hlt. unfold output_coin_from. cbn.
  replace (i <=? n) with false by (symmetry; apply Z.leb_gt; lia).
  now rewrite andb_false_r.
Qed.


(** [AddCoins]: afterwards the view holds the coins of the outputs on top of
    what it held; without overwriting it succeeds only where nothing was
    held. *)
Lemma AddCoins_from_unspent tx h vout : forall i v v',
  AddCoins_from v tx h vout i = Ok v' ->
  hashBlock v' = hashBlock v
  /\ (forall o, unspent v' !! o
                = match output_coin_from tx h vout i o with
                  | Some c => Some c
                  | None => unspent v !! o
                  end)
  /\ (IsCoinBase tx = false ->
      forall o c, output_coin_from tx h vout i o = Some c -> unspent v !! o = None).
Proof.
  induction vout as [|out rest IH]; intros i v v' Hadd.
  - injection Hadd as <-. split; [reflexivity|].
    split; [intros o; now rewrite output_coin_from_nil|].
    intros _ o c. rewrite output_coin_from_nil. discriminate.
  - cbn [AddCoins_from] in Hadd.
    destruct (AddCoin v _ _ _) as [v1|] eqn:E1; [|discriminate].
    cbn [mbind outcome_bind] in Hadd.
    apply AddCoin_unspent in E1 as (Hh1 & _ & Hu1). cbn [Coin.out] in Hu1.
    apply IH in Hadd as (Hh & Hl & Hno).
    set (k := COutPoint.mk (CTransaction.GetHash tx) i) in *.
    assert (Hk : output_coin_from tx h rest (i + 1) k = None)
      by (apply output_coin_from_below; lia).
    split; [congruence|]. split.
    + intros o. rewrite Hl, output_coin_from_cons. fold k.
      destruct (decide (o = k)) as [->|Hne].
      * rewrite Hk. destruct (IsUnspendable _); [now rewrite Hu1|].
        destruct Hu1 as [-> _]. now rewrite lookup_insert_eq.
      * destruct (output_coin_from tx h rest (i + 1) o); [reflexivity|].
        destruct (IsUnspendable _); [now rewrite Hu1|].
        destruct Hu1 as [-> _]. now rewrite lookup_insert_ne.
    + intros Hcb o c. rewrite output_coin_from_cons. fold k.
      destruct (decide (o = k)) as [->|Hne].
      * destruct (IsUnspendable _); [discriminate|]. intros _. now apply Hu1.
      * intros Ho. specialize (Hno Hcb o c Ho).
        destruct (IsUnspendable _); [now rewrite <- Hu1|].
        destruct Hu1 as [Hu1 _]. rewrite Hu1 in Hno. now rewrite lookup_insert_ne in Hno.
Qed.










(** What a successful turn of the transaction loop of [ConnectBlock] did. *)
Lemma ConnectBlock_tx_inv e i tx s s' :
  ConnectBlock_tx e i tx s = Ok s' ->
  (IsCoinBase tx = false -> IsZerocoinSpend tx = false ->
   HaveInputs (cl_view s) tx = true)
  /\ exists u, UpdateCoins tx (cl_view s) [] (CBlockIndex.nHeight (ce_pindex e)) = Ok u
               /\ cl_view s' = u.1
               /\ cl_blockundo s'
                  = if (0 <? i)%nat then cl_blockundo s ++ [u.2] else cl_blockundo s.
Proof.
  unfold ConnectBlock_tx. destruct (_ <? _); [discriminate|].
  match goal with
  | |- (?r ≫= _) = _ -> _ => destruct r as [[[n f] ch]|] eqn:Er; [|discriminate]
  end.
  cbn [mbind outcome_bind].
  destruct (UpdateCoins _ _ _ _) as [u|] eqn:Eu; [|discriminate].
  cbn [mbind outcome_bind]. intros [= <-]. cbn [cl_view cl_blockundo]. split.
  - intros Hcb Hz. rewrite Hcb, Hz in Er. cbn [negb andb] in Er.
    destruct (HaveInputs (cl_view s) tx); [reflexivity | discriminate].
  - exists u. auto.
Qed.






(** What passing the contextless checks says about the shape of a block. *)
Lemma CheckTransaction_dups_NoDup : forall vin seen,
  CheckTransaction_dups vin seen = Ok tt ->
  NoDup (map CTxIn.prevout vin)
  /\ forall txin, txin ∈ vin -> CTxIn.prevout txin ∉ seen.
Proof.
  induction vin as [|txin rest IH]; intros seen Hd.
  - split; [constructor|]. intros txin Hin. now apply elem_of_nil in Hin.
  - cbn [CheckTransaction_dups] in Hd.
    destruct (bool_decide (CTxIn.prevout txin ∈ seen)) eqn:Es; [discriminate|].
    apply bool_decide_eq_false in Es.
    apply IH in Hd as [Hnd Hseen]. split.
    + cbn [map]. apply NoDup_cons. split; [|exact Hnd].
      intros Hin. apply list_elem_of_fmap in Hin as (txin' & Heq & Hin).
      apply (Hseen txin' Hin). rewrite <- Heq. apply list_elem_of_here.
    + intros txin'. rewrite elem_of_cons. intros [->|Hin]; [exact Es|].
      intros Hin'. apply (Hseen txin' Hin). now apply list_elem_of_further.
Qed.

Lemma CheckTransaction_NoDup limits tx nHeight :
  CheckTransaction limits tx nHeight = Ok tt ->
  NoDup (map CTxIn.prevout (CTransaction.vin tx)).
Proof.
  unfold CheckTransaction.
  destruct (bool_decide (CTransaction.vin tx = [])); [discriminate|].
  destruct (bool_decide (CTransaction.vout tx = [])); [discriminate|].
  destruct (_ <? _); [discriminate|].
  destruct (CheckTransaction_vout _ _ _) as [[]|]; [|discriminate].
  cbn [mbind outcome_bind].
  destruct (CheckTransaction_dups _ _) as [[]|] eqn:Ed; [|discriminate].
  intros _. now apply CheckTransaction_dups_NoDup in Ed.
Qed.

Lemma CheckBlock_transactions_NoDup m limits block vtx :
  CheckBlock_transactions m limits block vtx = Ok tt ->
  Forall (fun tx => NoDup (map CTxIn.prevout (CTransaction.vin tx))) vtx.
Proof.
  induction vtx as [|tx rest IH]; cbn [CheckBlock_transactions]; [constructor|].
  destruct (CheckTransaction _ _ _) as [[]|] eqn:Et; [|discriminate].
  cbn [mbind outcome_bind]. intros Hrest. constructor; [|now apply IH].
  now apply CheckTransaction_NoDup in Et.
Qed.

Lemma CheckBlock_structure_shape m limits block fCheckPOW fCheckMerkleRoot :
  CheckBlock_structure m limits block fCheckPOW fCheckMerkleRoot = Ok tt ->
  exists tx0 others,
    CBlock.vtx block = tx0 :: others
    /\ IsCoinBase tx0 = true
    /\ Forall (fun tx => IsCoinBase tx = false) others
    /\ Forall (fun tx => NoDup (map CTxIn.prevout (CTransaction.vin tx)))
              (CBlock.vtx block).
Proof.
  unfold CheckBlock_structure.
  destruct (CheckBlockHeader _ _ _) as [[]|]; [|discriminate]. cbn [mbind outcome_bind].
  match goal with
  | |- (?r ≫= _) = _ -> _ => destruct r as [[]|]; [|discriminate]
  end.
  cbn [mbind outcome_bind]. destruct (_ || _); [discriminate|].
  destruct (CBlock.vtx block) as [|tx0 others] eqn:Ev; [discriminate|].
  destruct (IsCoinBase tx0) eqn:Ecb; [|discriminate]. cbn [negb].
  destruct (existsb IsCoinBase others) eqn:Eo; [discriminate|].
  destruct (_ && _); [discriminate|]. intros Htx.
  exists tx0, others. split; [reflexivity|]. split; [exact Ecb|]. split.
  - apply Forall_forall. intros tx Hin.
    destruct (IsCoinBase tx) eqn:E; [|reflexivity].
    rewrite <- Eo. symmetry. apply existsb_exists. exists tx.
    split; [now apply list_elem_of_In | exact E].
  - now apply CheckBlock_transactions_NoDup in Htx.
Qed.

Lemma land_16 x : Z.land x 16 = if Z.testbit x 4 then 16 else 0.
Proof.
  apply Z.bits_inj'. intros n Hn. rewrite Z.land_spec.
  change 16 with (2 ^ 4). rewrite Z.pow2_bits_eqb by lia.
  destruct (Z.eqb_spec 4 n) as [<-|Hne].
  - rewrite andb_true_r. destruct (Z.testbit x 4) eqn:E; [|now rewrite Z.bits_0].
    now rewrite Z.pow2_bits_eqb by lia.
  - rewrite andb_false_r. destruct (Z.testbit x 4); [|now rewrite Z.bits_0].
    rewrite Z.pow2_bits_eqb by lia. symmetry. now apply Z.eqb_neq.
Qed.

(** The undo position written by [ConnectBlock] is the one [DisconnectBlock]
    reads. *)
Lemma GetUndoPos_written pindex nPos :
  GetUndoPos (CBlockIndex.RaiseValidity (set_undo pindex nPos) BLOCK_VALID_SCRIPTS)
  = Some (CBlockIndex.nFile pindex, nPos).
Proof.
  assert (Hbit : Z.testbit (Z.lor (CBlockIndex.nStatus pindex) 16) 4 = true).
  { rewrite Z.lor_spec. change 16 with (2 ^ 4). rewrite Z.pow2_bits_eqb by lia.
    apply orb_true_r. }
  unfold GetUndoPos, CBlockIndex.RaiseValidity, set_undo, BLOCK_HAVE_UNDO.
  cbn [CBlockIndex.nStatus].
  destruct (negb _).
  { cbn [CBlockIndex.nStatus CBlockIndex.nFile CBlockIndex.nUndoPos].
    rewrite land_16, Hbit. reflexivity. }
  destruct (_ <? _); cbn [CBlockIndex.nStatus CBlockIndex.nFile CBlockIndex.nUndoPos].
  - rewrite land_16, Z.lor_spec, Z.land_spec, Hbit. reflexivity.
  - rewrite land_16, Hbit. reflexivity.
Qed.

Lemma RaiseValidity_fields b nUpTo :
  CBlockIndex.phashBlock (CBlockIndex.RaiseValidity b nUpTo) = CBlockIndex.phashBlock b
  /\ CBlockIndex.pprev (CBlockIndex.RaiseValidity b nUpTo) = CBlockIndex.pprev b
  /\ CBlockIndex.nHeight (CBlockIndex.RaiseValidity b nUpTo) = CBlockIndex.nHeight b.
Proof.
  unfold CBlockIndex.RaiseValidity. destruct (negb _); [auto|]. destruct (_ <? _); auto.
Qed.

End RoundTrip.
Section RoundTripMain.
Context `{Externals}.
Import CCoinsViewCache.


End RoundTripMain.



(** A zerocoin spend leaves an empty undo record for its one input, and the
    block that holds it cannot be disconnected. *)
Lemma zerocoin_spend_not_disconnected :
  exists c,
    ConnectBlock (H := sample_externals) sample_map None sample_flags sample_limits ∅
                 sample_block_zerocoin sample_block_index sample_view false = Ok c
    /\ DisconnectBlock (H := sample_externals) sample_map sample_flags (co_undo c)
                       sample_block_zerocoin (co_pindex c) (co_view c)
       = Ok (DISCONNECT_FAILED, co_view c).
Proof. eexists. split; [vm_compute; reflexivity|]. vm_compute. reflexivity. Qed.

(** With the duplicate-transaction rule off, the coin a coinbase overwrites
    is lost: the disconnect is clean and leaves no coin. *)
Lemma overwritten_coin_not_restored :
  exists c view',
    ConnectBlock (H := sample_externals_bip34) sample_map None sample_flags sample_limits ∅
                 sample_block_duplicate sample_block_index sample_view false = Ok c
    /\ DisconnectBlock (H := sample_externals_bip34) sample_map sample_flags (co_undo c)
                       sample_block_duplicate (co_pindex c) (co_view c)
       = Ok (DISCONNECT_OK, view')
    /\ CCoinsViewCache.unspent view' = ∅
    /\ CCoinsViewCache.unspent sample_view !! COutPoint.mk 7 0 = Some sample_coin.
Proof.
  do 2 eexists. split; [vm_compute; reflexivity|].
  split; [vm_compute; reflexivity|]. split; vm_compute; reflexivity.
Qed.
(** ** Accepting headers and blocks *)

Section AcceptFacts.
Context `{Externals} `{ChainExternals}.
Variable cf : ChainFlags.
Variable limits : Limits.



End AcceptFacts.


(** ** Admission to the memory pool *)

Section MempoolFacts.
Context `{Externals} `{MempoolExternals}.
Variable pf : PoolFlags.
Variable nf : NodeFlags.
Variable limits : Limits.







(** The loop "do all inputs exist?" says yes exactly when the view has
    every input. *)
Lemma ATMP_inputs_exist_spec pcoinsTip view : forall vin uncache,
  (ATMP_inputs_exist pcoinsTip view vin uncache).2
  = forallb (fun txin => CCoinsViewCache.HaveCoin view (CTxIn.prevout txin)) vin.
Proof.
  induction vin as [|txin rest IH]; intros uncache; cbn [ATMP_inputs_exist forallb];
    [reflexivity|].
  destruct (CCoinsViewCache.HaveCoin view (CTxIn.prevout txin)); cbn [negb andb];
    [apply IH | reflexivity].
Qed.


(** C9.  Past the checks for conflicts and for a known output, a
    transaction one of whose inputs the joint view of pool and tip does not
    have, be the outpoint unknown or its coin spent, is answered with
    failure, the missing-inputs flag set and no rejection recorded; the
    pool stays as it was. *)
Theorem ATMP_input_not_had_is_missing m ptip pcoinsTip st tx fLimitFree
    fOverrideMempoolLimit fRejectAbsurdFee fDryRun setConflicts :
  let pool := at_pool st in
  let view := CCoinsViewMemPool pcoinsTip pool in
  ATMP_prechecks pf limits m ptip pool tx = Ok tt ->
  ATMP_conflicts pf pool tx = Ok setConflicts ->
  ATMP_known_output pcoinsTip view (CTransaction.GetHash tx)
                    (length (CTransaction.vout tx)) 0 (at_coins_to_uncache st) = None ->
  (exists txin, txin ∈ CTransaction.vin tx
                /\ CCoinsViewCache.unspent view !! CTxIn.prevout txin = None) ->
  let r := AcceptToMemoryPoolWorker pf nf limits m ptip pcoinsTip st tx fLimitFree
                                    fOverrideMempoolLimit fRejectAbsurdFee fDryRun in
  ar_result r = Fail ReturnedFalse
  /\ at_fMissingInputs (ar_state r) = true
  /\ at_pool (ar_state r) = pool.
Proof.
  intros pool view Hpre Hconf Hknown (txin & Hin & Hnone) r. subst r.
  unfold AcceptToMemoryPoolWorker. fold pool. rewrite Hpre, Hconf. fold view.
  rewrite Hknown.
  pose proof (ATMP_inputs_exist_spec pcoinsTip view (CTransaction.vin tx)
                (at_coins_to_uncache st)) as Hex.
  destruct (ATMP_inputs_exist pcoinsTip view (CTransaction.vin tx) (at_coins_to_uncache st))
    as [uncache fExist].
  cbn [snd] in Hex.
  assert (fExist = false) as ->.
  { rewrite Hex. apply not_true_is_false. intros Hall. rewrite forallb_forall in Hall.
    apply list_elem_of_In in Hin. specialize (Hall _ Hin).
    apply HaveCoin_true in Hall as [c Hc]. congruence. }
  cbn. auto.
Qed.

End MempoolFacts.



Lemma ATMP_input_not_had_is_missing_witness :
  let r := AcceptToMemoryPoolWorker (H := sample_externals) (H0 := sample_mempool_externals)
             sample_pool_flags sample_flags sample_limits sample_map (Some 104)
             sample_view_spent (sample_atmp_state []) (sample_replacement 30)
             true false true false in
  ar_result r = Fail ReturnedFalse /\ at_fMissingInputs (ar_state r) = true.
Proof.
  pose proof (ATMP_input_not_had_is_missing (H := sample_externals)
                (H0 := sample_mempool_externals)
                sample_pool_flags sample_flags sample_limits sample_map (Some 104)
                sample_view_spent (sample_atmp_state []) (sample_replacement 30)
                true false true false []) as W.
  cbv zeta in W. cbv zeta.
  destruct W as (W1 & W2 & _).
  - vm_compute. reflexivity.
  - vm_compute. reflexivity.
  - vm_compute. reflexivity.
  - exists (CTxIn.mk (COutPoint.mk 7 0) [1; 1] CTxIn.SEQUENCE_FINAL).
    split; [apply list_elem_of_here | vm_compute; reflexivity].
  - split; [exact W1 | exact W2].
Defined.


(* ===================================================================== *)
(** * Part III: further properties of the code                            *)
(* ===================================================================== *)

(** ** The two reward functions side by side *)

Section RewardComparison.

(** X1.  [GetBlockSubsidy] follows the reward schedule from the genesis
    height to the terminal height (nothing at 0, 5000 coins up to 143499,
    floor(1/2 + 5000*143500/(h+1)) coins after), and there it is what
    [GetBlockValue] pays on a block without fees.  Outside that range the
    two part: [GetBlockSubsidy] answers 5000 coins for every other height,
    negative ones and those past the terminal height alike, where
    [GetBlockValue] pays nothing but the fees. *)
Theorem GetBlockSubsidy_against_GetBlockValue p h nFees nTime :
  (0 <= h <= HF_CHAIN_REWARD_END_HEIGHT ->
   GetBlockSubsidy h
   = (if h =? 0 then 0
      else if h <=? 143499 then 5000 * COIN else taper_exact h * COIN)
   /\ GetBlockValue p h 0 nTime = GetBlockSubsidy h)
  /\ (h < 0 \/ HF_CHAIN_REWARD_END_HEIGHT < h ->
      GetBlockSubsidy h = 5000 * COIN
      /\ GetBlockValue p h nFees nTime = if h <? 0 then 0 else nFees).
Proof.
  split.
  - intros Hh. split.
    + rewrite GetBlockSubsidy_schedule by exact Hh. unfold subsidy_spec.
      destruct (h =? 0); [reflexivity|]. destruct (h <=? 143499); [reflexivity|].
      now replace (h <=? HF_CHAIN_REWARD_END_HEIGHT) with true
        by (symmetry; apply Z.leb_le; lia).
    + rewrite GetBlockSubsidy_schedule by exact Hh. unfold subsidy_spec.
      destruct (Z.eqb_spec h 0) as [->|Hn]; [apply GetBlockValue_genesis|].
      destruct (Z.leb_spec h 143499) as [H1|H1].
      * rewrite GetBlockValue_flat by lia. reflexivity.
      * replace (h <=? HF_CHAIN_REWARD_END_HEIGHT) with true
          by (symmetry; apply Z.leb_le; lia).
        rewrite GetBlockValue_taper; [lia | lia |].
        unfold exact_fee_bound, COIN. cbn. lia.
  - intros [Hneg|Hpast].
    + split.
      * unfold GetBlockSubsidy.
        replace (h =? 0) with false by (symmetry; apply Z.eqb_neq; lia).
        replace (143499 <? h) with false by (symmetry; apply Z.ltb_ge; lia).
        reflexivity.
      * replace (h <? 0) with true by (symmetry; apply Z.ltb_lt; lia).
        unfold GetBlockValue, HF_CHAIN_REWARD_END_HEIGHT.
        replace (h =? 0) with false by (symmetry; apply Z.eqb_neq; lia).
        replace (0 <? h) with false by (symmetry; apply Z.ltb_ge; lia).
        replace (143499 <? h) with false by (symmetry; apply Z.ltb_ge; lia).
        replace (717499999 <? h) with false by (symmetry; apply Z.ltb_ge; lia).
        cbn [andb orb]. now destruct ((nTime <? nStartRewardTime p) && MainNet p).
    + split; [now apply GetBlockSubsidy_past_end|].
      replace (h <? 0) with false
        by (symmetry; apply Z.ltb_ge; unfold HF_CHAIN_REWARD_END_HEIGHT in *; lia).
      now apply GetBlockValue_past_end.
Qed.

End RewardComparison.

Lemma GetBlockSubsidy_against_GetBlockValue_witness :
  GetBlockSubsidy 717500000 = 5000 * COIN
  /\ GetBlockValue {| nStartRewardTime := 0; MainNet := true |} 717500000 12 0 = 12.
Proof.
  apply (proj2 (GetBlockSubsidy_against_GetBlockValue
                  {| nStartRewardTime := 0; MainNet := true |} 717500000 12 0)).
  right. unfold HF_CHAIN_REWARD_END_HEIGHT. lia.
Defined.

(** ** Finality and sequence locks *)

Section FinalityFacts.

(** X2.  Finality never reverts: a transaction that [IsFinalTx] accepts
    for a block height and a block time is accepted for every later height
    and time. *)
Theorem IsFinalTx_monotone tx nBlockHeight nBlockTime nBlockHeight' nBlockTime' :
  nBlockHeight <= nBlockHeight' -> nBlockTime <= nBlockTime' ->
  IsFinalTx tx nBlockHeight nBlockTime = true ->
  IsFinalTx tx nBlockHeight' nBlockTime' = true.
Proof.
  intros Hh Ht. unfold IsFinalTx.
  destruct (CTransaction.nLockTime tx =? 0); [reflexivity|].
  destruct (CTransaction.nLockTime tx <? LOCKTIME_THRESHOLD).
  - destruct (Z.ltb_spec (CTransaction.nLockTime tx) nBlockHeight) as [H1|H1].
    + intros _. now replace (CTransaction.nLockTime tx <? nBlockHeight') with true
        by (symmetry; apply Z.ltb_lt; lia).
    + intros Hall. rewrite Hall. now destruct (_ <? _).
  - destruct (Z.ltb_spec (CTransaction.nLockTime tx) nBlockTime) as [H1|H1].
    + intros _. now replace (CTransaction.nLockTime tx <? nBlockTime') with true
        by (symmetry; apply Z.ltb_lt; lia).
    + intros Hall. rewrite Hall. now destruct (_ <? _).
Qed.

(** X3.  Sequence locks bind only where BIP68 is enforced: a transaction
    whose version read as unsigned is below 2, or one checked without
    [LOCKTIME_VERIFY_SEQUENCE], or one whose every input carries the
    disable bit, passes [SequenceLocks] in every block of height 0 or more
    that has a parent, whatever the heights of the coins it spends. *)
Theorem SequenceLocks_unenforced m tx flags prevHeights block prevb :
  length prevHeights = length (CTransaction.vin tx) ->
  at_ m (CBlockIndex.pprev block) = Some prevb ->
  0 <= CBlockIndex.nHeight block ->
  Int.u32 (CTransaction.nVersion tx) < 2
  \/ Z.land flags LOCKTIME_VERIFY_SEQUENCE = 0
  \/ Forall (fun txin => sequence_disabled txin = true) (CTransaction.vin tx) ->
  SequenceLocks m tx flags prevHeights block = Ok true.
Proof.
  intros Hlen Hprev Hh Hcase.
  assert (Hcalc : exists l, CalculateSequenceLocks m tx flags prevHeights block
                            = Ok (-1, -1, l)).
  { unfold CalculateSequenceLocks.
    replace (length prevHeights =? length (CTransaction.vin tx))%nat with true
      by (symmetry; apply Nat.eqb_eq; exact Hlen).
    cbn [assert_ mbind outcome_bind].
    destruct ((2 <=? Int.u32 (CTransaction.nVersion tx))
              && negb (Z.land flags LOCKTIME_VERIFY_SEQUENCE =? 0)) eqn:E;
      cbn [negb]; [|eauto].
    apply andb_true_iff in E as [E1 E2]. apply Z.leb_le in E1.
    apply negb_true_iff, Z.eqb_neq in E2.
    destruct Hcase as [Hv|[Hf|Hd]]; [lia | contradiction |].
    rewrite (CalculateSequenceLocks_loop_disabled _ _ _ _ _ _ Hd Hlen). eauto. }
  destruct Hcalc as [l Hcalc]. unfold SequenceLocks. rewrite Hcalc.
  cbn [mbind outcome_bind fst snd].
  rewrite (EvaluateSequenceLocks_height _ _ _ _ Hprev).
  now rewrite bool_decide_eq_true_2 by lia.
Qed.

End FinalityFacts.

Lemma IsFinalTx_monotone_witness :
  IsFinalTx (CTransaction.mk 1 [sample_txin 0] [CTxOut.mk 1 []] 100 8) 200 0 = true.
Proof.
  apply (IsFinalTx_monotone (CTransaction.mk 1 [sample_txin 0] [CTxOut.mk 1 []] 100 8)
           101 0 200 0); [lia | lia | reflexivity].
Defined.

Lemma SequenceLocks_unenforced_witness :
  SequenceLocks sample_map
    (CTransaction.mk 1 [sample_txin 5] [CTxOut.mk 1 []] 0 8)
    LOCKTIME_VERIFY_SEQUENCE [105] sample_block_index
  = Ok true.
Proof.
  apply (SequenceLocks_unenforced sample_map
           (CTransaction.mk 1 [sample_txin 5] [CTxOut.mk 1 []] 0 8)
           LOCKTIME_VERIFY_SEQUENCE [105] sample_block_index sample_parent).
  - reflexivity.
  - reflexivity.
  - vm_compute. discriminate.
  - left. vm_compute. reflexivity.
Defined.
(** ** What the contextless checks guarantee *)

Section CheckFacts.
Context `{Externals}.
Import CCoinsViewCache.

(** The exact sum of the output values. *)
Lemma CheckTransaction_vout_sum nHeight : forall vout acc,
  CheckTransaction_vout nHeight vout acc = Ok tt ->
  Forall (fun txout => 0 <= CTxOut.nValue txout <= MAX_MONEY) vout
  /\ (vout <> [] ->
      MoneyRange (foldl (fun a txout => Int.s64 (a + CTxOut.nValue txout)) acc vout) = true)
  /\ (2 * MAX_MONEY <= Int.INT64_MAX -> 0 <= acc <= MAX_MONEY ->
      foldl (fun a txout => Int.s64 (a + CTxOut.nValue txout)) acc vout
      = acc + foldr Z.add 0 (map CTxOut.nValue vout)).
Proof.
  induction vout as [|txout rest IH]; intros acc Hc.
  - split; [constructor|]. split; [congruence|]. intros _ _. cbn. lia.
  - cbn [CheckTransaction_vout] in Hc.
    destruct (Z.ltb_spec (CTxOut.nValue txout) 0) as [|Hlo]; [discriminate|].
    destruct (Z.ltb_spec MAX_MONEY (CTxOut.nValue txout)) as [|Hhi]; [discriminate|].
    destruct (MoneyRange (Int.s64 (acc + CTxOut.nValue txout))) eqn:Em; [|discriminate].
    cbn [negb] in Hc.
    destruct (_ && _); [discriminate|].
    apply IH in Hc as (Hall & Hrange & Hsum). split; [|split].
    + constructor; [lia | exact Hall].
    + intros _. cbn [foldl]. destruct rest as [|t rest']; [exact Em|].
      apply Hrange. discriminate.
    + intros Hmax Hacc. cbn [foldl map foldr].
      assert (Hs : Int.s64 (acc + CTxOut.nValue txout) = acc + CTxOut.nValue txout).
      { apply s64_small. unfold Int.in_s64, Int.INT64_MIN, Int.INT64_MAX in *. lia. }
      rewrite Hs in *. rewrite Hsum; [lia | exact Hmax |].
      unfold MoneyRange in Em. apply andb_true_iff in Em as [E1 E2].
      apply Z.leb_le in E1, E2. lia.
Qed.

(** X4.  A transaction that [CheckTransaction] accepts has inputs and
    outputs, fits the block size limit, pays into every output an amount
    between 0 and [MAX_MONEY], pays out at most [MAX_MONEY] in all, and
    names no outpoint twice among its inputs.  Where twice [MAX_MONEY] fits
    an [int64_t] the total is the true sum of the output values: the
    running sum never wraps. *)
Theorem CheckTransaction_accepted limits tx nHeight :
  CheckTransaction limits tx nHeight = Ok tt ->
  CTransaction.vin tx <> [] /\ CTransaction.vout tx <> []
  /\ tx_GetSerializeSize tx <= maxBlockSize limits
  /\ Forall (fun txout => 0 <= CTxOut.nValue txout <= MAX_MONEY) (CTransaction.vout tx)
  /\ 0 <= GetValueOut tx <= MAX_MONEY
  /\ NoDup (map CTxIn.prevout (CTransaction.vin tx))
  /\ (2 * MAX_MONEY <= Int.INT64_MAX ->
      GetValueOut tx = foldr Z.add 0 (map CTxOut.nValue (CTransaction.vout tx))).
Proof.
  intros Hc. pose proof (CheckTransaction_NoDup _ _ _ Hc) as Hnd.
  unfold CheckTransaction in Hc.
  destruct (bool_decide (CTransaction.vin tx = [])) eqn:Evin; [discriminate|].
  destruct (bool_decide (CTransaction.vout tx = [])) eqn:Evout; [discriminate|].
  apply bool_decide_eq_false in Evin, Evout.
  destruct (Z.ltb_spec (maxBlockSize limits) (tx_GetSerializeSize tx)) as [|Hsize];
    [discriminate|].
  destruct (CheckTransaction_vout nHeight (CTransaction.vout tx) 0) as [[]|] eqn:Ev;
    [|discriminate].
  apply CheckTransaction_vout_sum in Ev as (Hall & Hrange & Hsum).
  specialize (Hrange Evout). unfold MoneyRange in Hrange.
  apply andb_true_iff in Hrange as [E1 E2]. apply Z.leb_le in E1, E2.
  repeat split; try assumption.
  intros Hmax. unfold GetValueOut. rewrite Hsum; [lia | exact Hmax |].
  unfold GetValueOut in E1, E2. lia.
Qed.

Lemma CheckTransaction_vout_zerocoin nHeight : forall vout acc,
  HF_ZEROCOIN_DISABLE < nHeight ->
  CheckTransaction_vout nHeight vout acc = Ok tt ->
  Forall (fun txout => script_IsZerocoinMint (CTxOut.scriptPubKey txout) = false
                       /\ script_IsZerocoinSpend (CTxOut.scriptPubKey txout) = false) vout.
Proof.
  intros vout acc Hh. revert acc.
  induction vout as [|txout rest IH]; intros acc Hc; [constructor|].
  cbn [CheckTransaction_vout] in Hc.
  destruct (_ <? 0); [discriminate|]. destruct (MAX_MONEY <? _); [discriminate|].
  destruct (negb _); [discriminate|].
  replace (HF_ZEROCOIN_DISABLE <? nHeight) with true in Hc
    by (symmetry; apply Z.ltb_lt; exact Hh).
  cbn [andb] in Hc.
  destruct (script_IsZerocoinMint _) eqn:E1; [discriminate|].
  destruct (script_IsZerocoinSpend _) eqn:E2; [discriminate|].
  cbn [orb] in Hc. constructor; [auto | eapply IH, Hc].
Qed.

Lemma CheckTransaction_vin_zerocoin nHeight : forall vin,
  HF_ZEROCOIN_DISABLE < nHeight ->
  CheckTransaction_vin nHeight vin = Ok tt ->
  Forall (fun txin => COutPoint.IsNull (CTxIn.prevout txin) = false
                      /\ script_IsZerocoinMint (CTxIn.scriptSig txin) = false
                      /\ script_IsZerocoinSpend (CTxIn.scriptSig txin) = false) vin.
Proof.
  intros vin Hh. induction vin as [|txin rest IH]; intros Hc; [constructor|].
  cbn [CheckTransaction_vin] in Hc.
  replace (HF_ZEROCOIN_DISABLE <? nHeight) with true in Hc
    by (symmetry; apply Z.ltb_lt; exact Hh).
  cbn [andb] in Hc.
  destruct (script_IsZerocoinSpend (CTxIn.scriptSig txin)) eqn:E2.
  { rewrite andb_false_r, orb_true_r in Hc. discriminate. }
  rewrite andb_true_r, orb_false_r in Hc.
  destruct (COutPoint.IsNull (CTxIn.prevout txin)) eqn:E0; [discriminate|].
  destruct (script_IsZerocoinMint (CTxIn.scriptSig txin)) eqn:E1; [discriminate|].
  constructor; [auto | apply IH, Hc].
Qed.

(** X5.  Above the height [HF_ZEROCOIN_DISABLE] an accepted transaction
    carries no zerocoin mint or spend script in any output, and, unless it
    is a coinbase, none in any input and no null previous outpoint either:
    the exemption that lets a zerocoin spend name the null outpoint is gone
    with the zerocoin scripts.  The input scripts of a coinbase are not
    looked at. *)
Theorem CheckTransaction_zerocoin_disabled limits tx nHeight :
  HF_ZEROCOIN_DISABLE < nHeight ->
  CheckTransaction limits tx nHeight = Ok tt ->
  Forall (fun txout => script_IsZerocoinMint (CTxOut.scriptPubKey txout) = false
                       /\ script_IsZerocoinSpend (CTxOut.scriptPubKey txout) = false)
         (CTransaction.vout tx)
  /\ (IsCoinBase tx = false ->
      Forall (fun txin => COutPoint.IsNull (CTxIn.prevout txin) = false
                          /\ script_IsZerocoinMint (CTxIn.scriptSig txin) = false
                          /\ script_IsZerocoinSpend (CTxIn.scriptSig txin) = false)
             (CTransaction.vin tx)).
Proof.
  intros Hh Hc. unfold CheckTransaction in Hc.
  destruct (bool_decide (CTransaction.vin tx = [])); [discriminate|].
  destruct (bool_decide (CTransaction.vout tx = [])); [discriminate|].
  destruct (_ <? _); [discriminate|].
  destruct (CheckTransaction_vout nHeight (CTransaction.vout tx) 0) as [[]|] eqn:Ev;
    [|discriminate].
  cbn [mbind outcome_bind] in Hc.
  destruct (CheckTransaction_dups _ _) as [[]|]; [|discriminate].
  cbn [mbind outcome_bind] in Hc. split.
  - eapply CheckTransaction_vout_zerocoin; eassumption.
  - intros Hcb. rewrite Hcb in Hc. exact (CheckTransaction_vin_zerocoin nHeight _ Hh Hc).
Qed.

Lemma CheckBlock_transactions_all m limits block vtx :
  CheckBlock_transactions m limits block vtx = Ok tt ->
  Forall (fun tx => CheckTransaction limits tx (getNHeight m block) = Ok tt) vtx.
Proof.
  induction vtx as [|tx rest IH]; cbn [CheckBlock_transactions]; [constructor|].
  destruct (CheckTransaction _ _ _) as [[]|] eqn:Et; [|discriminate].
  cbn [mbind outcome_bind]. intros Hrest. constructor; [exact Et | now apply IH].
Qed.

(** X6.  What a block that [CheckBlock] checks and accepts looks like: its
    first transaction is a coinbase and no other is, every transaction
    passes [CheckTransaction] at the height [getNHeight] gives the block,
    the number of transactions and the serialised size are within
    [maxBlockSize], and the legacy sigops, scaled by the witness factor in
    [unsigned int] arithmetic, are within [MAX_BLOCK_SIGOPS_COST].  The
    proof of work and the merkle root were verified if and only if they
    were asked for, and the block is marked as checked only when both
    were. *)
Theorem CheckBlock_accepted m limits block fCheckPOW fCheckMerkleRoot fChecked :
  CBlock.fChecked block = false ->
  CheckBlock m limits block fCheckPOW fCheckMerkleRoot = Ok fChecked ->
  fChecked = fCheckPOW && fCheckMerkleRoot
  /\ (exists tx0 others,
        CBlock.vtx block = tx0 :: others /\ IsCoinBase tx0 = true
        /\ Forall (fun tx => IsCoinBase tx = false) others)
  /\ Forall (fun tx => CheckTransaction limits tx (getNHeight m block) = Ok tt)
            (CBlock.vtx block)
  /\ Z.of_nat (length (CBlock.vtx block)) <= maxBlockSize limits
  /\ block_GetSerializeSize block <= maxBlockSize limits
  /\ Int.u32 (block_legacy_sigops (CBlock.vtx block) * WITNESS_SCALE_FACTOR)
     <= MAX_BLOCK_SIGOPS_COST
  /\ (fCheckPOW = true ->
      CheckProofOfWork (getNHeight m block) (CBlock.GetHash block) (CBlock.nBits block)
      = true)
  /\ (fCheckMerkleRoot = true ->
      BlockMerkleRoot block = (CBlock.hashMerkleRoot block, false)).
Proof.
  intros Hfc Hc. unfold CheckBlock in Hc. rewrite Hfc in Hc.
  destruct (CheckBlock_structure m limits block fCheckPOW fCheckMerkleRoot) as [[]|] eqn:Es;
    [|discriminate].
  cbn [mbind outcome_bind] in Hc.
  destruct (Z.ltb_spec MAX_BLOCK_SIGOPS_COST
              (Int.u32 (block_legacy_sigops (CBlock.vtx block) * WITNESS_SCALE_FACTOR)))
    as [|Hsig]; [discriminate|].
  injection Hc as <-. split; [reflexivity|].
  destruct (CheckBlock_structure_shape _ _ _ _ _ Es) as (tx0 & others & Hv & Hcb & Hoth & _).
  split; [exists tx0, others; auto|].
  unfold CheckBlock_structure, CheckBlockHeader in Es.
  destruct (fCheckPOW && negb (CheckProofOfWork _ _ _)) eqn:Epow; [discriminate|].
  cbn [mbind outcome_bind] in Es.
  destruct (BlockMerkleRoot block) as [root mutated] eqn:Eroot.
  assert (Hmerkle : fCheckMerkleRoot = true ->
                    (root, mutated) = (CBlock.hashMerkleRoot block, false)).
  { intros ->. destruct (Z.eqb_spec (CBlock.hashMerkleRoot block) root) as [->|];
      [|discriminate]. cbn [negb] in Es. destruct mutated; [discriminate | reflexivity]. }
  match type of Es with
  | (?r ≫= _) = _ => destruct r as [[]|]; [|discriminate]
  end.
  cbn [mbind outcome_bind] in Es.
  destruct (bool_decide (CBlock.vtx block = [])); [discriminate|].
  destruct (Z.ltb_spec (maxBlockSize limits) (Z.of_nat (length (CBlock.vtx block))))
    as [|Hlen]; [discriminate|].
  destruct (Z.ltb_spec (maxBlockSize limits) (block_GetSerializeSize block))
    as [|Hsize]; [discriminate|].
  cbn [orb] in Es. rewrite Hv in Es. rewrite Hcb in Es. cbn [negb] in Es.
  destruct (existsb IsCoinBase others); [discriminate|].
  destruct (SPORK_3_INSTANTSEND_BLOCK_FILTERING_active && _); [discriminate|].
  rewrite <- Hv in Es. apply CheckBlock_transactions_all in Es.
  repeat split; try assumption.
  intros ->. cbn [andb] in Epow. now apply negb_false_iff in Epow.
Qed.

(** The sum that the input loop of [CheckTxInputs] carries is the one
    [GetValueIn] computes. *)
Lemma CheckTxInputs_loop_sum inputs nSpendHeight : forall vin acc nValueIn,
  CheckTxInputs_loop inputs nSpendHeight vin acc = Ok nValueIn ->
  nValueIn
  = foldl (fun a txin =>
             Int.s64 (a + CTxOut.nValue (Coin.out (AccessCoin inputs (CTxIn.prevout txin)))))
          acc vin
  /\ (vin <> [] -> MoneyRange nValueIn = true)
  /\ Forall (fun txin =>
               let coin := AccessCoin inputs (CTxIn.prevout txin) in
               Coin.IsSpent coin = false
               /\ MoneyRange (CTxOut.nValue (Coin.out coin)) = true
               /\ (Coin.IsCoinBase coin = true ->
                   COINBASE_MATURITY <= Int.s32 (nSpendHeight - Coin.nHeight coin))) vin.
Proof.
  induction vin as [|txin rest IH]; intros acc nValueIn Hc.
  - cbn in Hc. injection Hc as <-. split; [reflexivity|]. split; [congruence | constructor].
  - cbn [CheckTxInputs_loop] in Hc.
    destruct (Coin.IsSpent (AccessCoin inputs (CTxIn.prevout txin))) eqn:Esp;
      [discriminate|].
    cbn [negb assert_ mbind outcome_bind] in Hc.
    destruct (Coin.IsCoinBase _ && _) eqn:Emat; [discriminate|].
    destruct (MoneyRange (CTxOut.nValue _)) eqn:Ev; [|discriminate].
    destruct (MoneyRange (Int.s64 _)) eqn:Es; [|discriminate].
    cbn [negb orb] in Hc. apply IH in Hc as (Hsum & Hrange & Hall). split; [|split].
    + exact Hsum.
    + intros _. destruct rest as [|t rest']; [|apply Hrange; discriminate].
      cbn in Hsum. now rewrite Hsum.
    + constructor; [|exact Hall]. cbv zeta. split; [exact Esp|]. split; [exact Ev|].
      intros Hcb. rewrite Hcb in Emat. cbn [andb] in Emat. now apply Z.ltb_ge in Emat.
Qed.

(** X7.  A transaction other than a coinbase that [CheckTxInputs] accepts
    spends only unspent coins with an amount in the money range, every
    coinbase among them at least [COINBASE_MATURITY] blocks below the
    spending height; the amounts it spends cover the amounts it pays, and
    the fee, the difference of the two, is in the money range. *)
Theorem CheckTxInputs_accepted tx inputs nSpendHeight :
  IsCoinBase tx = false ->
  CheckTxInputs tx inputs nSpendHeight = Ok tt ->
  Forall (fun txin =>
            let coin := AccessCoin inputs (CTxIn.prevout txin) in
            HaveCoin inputs (CTxIn.prevout txin) = true
            /\ 0 <= CTxOut.nValue (Coin.out coin) <= MAX_MONEY
            /\ (Coin.IsCoinBase coin = true ->
                COINBASE_MATURITY <= Int.s32 (nSpendHeight - Coin.nHeight coin)))
         (CTransaction.vin tx)
  /\ GetValueOut tx <= GetValueIn inputs tx
  /\ 0 <= Int.s64 (GetValueIn inputs tx - GetValueOut tx) <= MAX_MONEY.
Proof.
  intros Hcb Hc. unfold CheckTxInputs in Hc.
  destruct (HaveInputs inputs tx) eqn:Hhave; [|discriminate]. cbn [negb] in Hc.
  destruct (CheckTxInputs_loop inputs nSpendHeight (CTransaction.vin tx) 0)
    as [nValueIn|] eqn:El; [|discriminate].
  cbn [mbind outcome_bind] in Hc.
  apply CheckTxInputs_loop_sum in El as (Hsum & _ & Hall).
  assert (Hin : nValueIn = GetValueIn inputs tx).
  { unfold GetValueIn. now rewrite Hcb. }
  rewrite <- Hin.
  destruct (Z.ltb_spec nValueIn (GetValueOut tx)) as [|Hcover]; [discriminate|].
  destruct (Z.ltb_spec (Int.s64 (nValueIn - GetValueOut tx)) 0) as [|Hfee]; [discriminate|].
  destruct (MoneyRange (Int.s64 (0 + Int.s64 (nValueIn - GetValueOut tx)))) eqn:Er;
    [|discriminate].
  split; [|split; [exact Hcover|]].
  - unfold HaveInputs in Hhave. rewrite Hcb in Hhave. cbn [negb] in Hhave.
    rewrite forallb_forall in Hhave.
    apply Forall_forall. intros txin Htxin. rewrite Forall_forall in Hall.
    destruct (Hall txin Htxin) as (_ & Hv & Hm). cbv zeta. split; [|split].
    + apply Hhave. now apply list_elem_of_In.
    + unfold MoneyRange in Hv. apply andb_true_iff in Hv as [E1 E2].
      apply Z.leb_le in E1, E2. lia.
    + exact Hm.
  - split; [exact Hfee|]. unfold MoneyRange in Er. apply andb_true_iff in Er as [_ E2].
    apply Z.leb_le in E2. rewrite Z.add_0_l in E2.
    assert (Hi : Int.s64 (Int.s64 (nValueIn - GetValueOut tx))
                 = Int.s64 (nValueIn - GetValueOut tx)).
    { apply s64_small. unfold Int.in_s64, Int.s64, Int.swrap, Int.INT64_MIN, Int.INT64_MAX.
      pose proof (Z.mod_pos_bound (nValueIn - GetValueOut tx + 2 ^ (64 - 1)) (2 ^ 64)
                    ltac:(lia)).
      change (2 ^ (64 - 1)) with (2 ^ 63) in *. lia. }
    rewrite Hi in E2. exact E2.
Qed.

End CheckFacts.

Lemma CheckTransaction_accepted_witness :
  NoDup (map CTxIn.prevout (CTransaction.vin (sample_spend 12 (COutPoint.mk 7 0) 40)))
  /\ GetValueOut (sample_spend 12 (COutPoint.mk 7 0) 40) = 40.
Proof.
  pose proof (CheckTransaction_accepted (H := sample_externals) sample_limits
                (sample_spend 12 (COutPoint.mk 7 0) 40) 105) as W.
  destruct W as (_ & _ & _ & _ & _ & Hnd & Hsum); [vm_compute; reflexivity|].
  split; [exact Hnd|]. rewrite Hsum; [reflexivity|]. vm_compute. discriminate.
Defined.

Lemma CheckTransaction_zerocoin_disabled_witness :
  Forall (fun txin => COutPoint.IsNull (CTxIn.prevout txin) = false
                      /\ script_IsZerocoinMint (Externals := sample_externals)
                           (CTxIn.scriptSig txin) = false
                      /\ script_IsZerocoinSpend (Externals := sample_externals)
                           (CTxIn.scriptSig txin) = false)
         (CTransaction.vin (sample_spend 12 (COutPoint.mk 7 0) 40)).
Proof.
  apply (CheckTransaction_zerocoin_disabled (H := sample_externals) sample_limits
           (sample_spend 12 (COutPoint.mk 7 0) 40) 300000);
    [reflexivity | vm_compute; reflexivity | reflexivity].
Defined.

Lemma CheckBlock_accepted_witness :
  Forall (fun tx => CheckTransaction (H := sample_externals) sample_limits tx
                      (getNHeight sample_map sample_block_spend) = Ok tt)
         (CBlock.vtx sample_block_spend).
Proof.
  pose proof (CheckBlock_accepted (H := sample_externals) sample_map sample_limits
                sample_block_spend true true true) as W.
  destruct W as (_ & _ & Hall & _); [reflexivity | vm_compute; reflexivity |].
  exact Hall.
Defined.

Lemma CheckTxInputs_accepted_witness :
  GetValueOut (sample_spend 12 (COutPoint.mk 7 0) 40)
  <= CCoinsViewCache.GetValueIn (H := sample_externals) sample_view
       (sample_spend 12 (COutPoint.mk 7 0) 40).
Proof.
  pose proof (CheckTxInputs_accepted (H := sample_externals)
                (sample_spend 12 (COutPoint.mk 7 0) 40) sample_view 105) as W.
  destruct W as (_ & Hcover & _); [reflexivity | vm_compute; reflexivity |].
  exact Hcover.
Defined.
(** ** What connecting a block leaves behind, and what undoing needs *)

Section ConnectFacts.
Context `{Externals}.
Import CCoinsViewCache.

Lemma SpendCoin_hashBlock v o : hashBlock (SpendCoin v o).2 = hashBlock v.
Proof.
  unfold SpendCoin. destruct (cacheCoins v !! o) as [e|]; [|reflexivity].
  now destruct (FRESH e).
Qed.

Lemma UpdateCoins_spend_shape : forall vin v undo0 r,
  UpdateCoins_spend v vin undo0 = Ok r ->
  hashBlock r.1 = hashBlock v /\ length r.2 = (length undo0 + length vin)%nat.
Proof.
  induction vin as [|txin rest IH]; intros v undo0 r Hr.
  - cbn in Hr. injection Hr as <-. cbn. split; [reflexivity | lia].
  - cbn [UpdateCoins_spend] in Hr.
    pose proof (SpendCoin_hashBlock v (CTxIn.prevout txin)) as Hh.
    destruct (SpendCoin v (CTxIn.prevout txin)) as [[is_spent c] v1].
    destruct is_spent; [|discriminate]. cbn [assert_ mbind outcome_bind] in Hr.
    apply IH in Hr as [Hh' Hl]. cbn [snd] in Hh. split; [congruence|].
    rewrite Hl, length_app. cbn [length]. lia.
Qed.

(** [UpdateCoins] keeps the best block of the view, and the undo record it
    fills has one coin per input, none for a coinbase or a zerocoin spend. *)
Lemma UpdateCoins_shape tx v nHeight u :
  UpdateCoins tx v [] nHeight = Ok u ->
  hashBlock u.1 = hashBlock v
  /\ length u.2 = if negb (IsCoinBase tx) && negb (IsZerocoinSpend tx)
                  then length (CTransaction.vin tx) else 0%nat.
Proof.
  unfold UpdateCoins.
  destruct (negb (IsCoinBase tx) && negb (IsZerocoinSpend tx)).
  - destruct (UpdateCoins_spend v (CTransaction.vin tx) []) as [r|] eqn:Er; [|discriminate].
    cbn [mbind outcome_bind]. apply UpdateCoins_spend_shape in Er as [Hh Hl].
    destruct (AddCoins r.1 tx nHeight) as [v'|] eqn:Ea; [|discriminate].
    cbn [mbind outcome_bind]. intros [= <-]. cbn [fst snd].
    apply AddCoins_from_unspent in Ea as (Hh' & _). split; [congruence | exact Hl].
  - cbn [mbind outcome_bind fst snd].
    destruct (AddCoins v tx nHeight) as [v'|] eqn:Ea; [|discriminate].
    cbn [mbind outcome_bind]. intros [= <-]. cbn [fst snd].
    apply AddCoins_from_unspent in Ea as (Hh' & _). split; [exact Hh' | reflexivity].
Qed.

(** The undo records the transaction loop of [ConnectBlock] appends from a
    position other than the first on: one per transaction, in order. *)
Lemma ConnectBlock_loop_undo e : forall vtx i s s',
  (0 < i)%nat ->
  ConnectBlock_loop e i vtx s = Ok s' ->
  hashBlock (cl_view s') = hashBlock (cl_view s)
  /\ exists undos,
       cl_blockundo s' = cl_blockundo s ++ undos
       /\ length undos = length vtx
       /\ forall j tx, vtx !! j = Some tx ->
            exists txundo,
              undos !! j = Some txundo
              /\ length txundo = if negb (IsCoinBase tx) && negb (IsZerocoinSpend tx)
                                 then length (CTransaction.vin tx) else 0%nat.
Proof.
  induction vtx as [|tx rest IH]; intros i s s' Hi Hl.
  - cbn in Hl. injection Hl as <-. split; [reflexivity|]. exists [].
    rewrite app_nil_r. split; [reflexivity|]. split; [reflexivity|].
    intros j tx Hj. discriminate.
  - cbn [ConnectBlock_loop] in Hl.
    destruct (ConnectBlock_tx e i tx s) as [s1|] eqn:E1; [|discriminate].
    cbn [mbind outcome_bind] in Hl.
    apply ConnectBlock_tx_inv in E1 as (_ & u & Hu & Hv1 & Hb1).
    apply UpdateCoins_shape in Hu as [Hh Hlen].
    apply (IH (S i)) in Hl as (Hh' & undos & Hb & Hlu & Hall); [|lia].
    replace (0 <? i)%nat with true in Hb1 by (symmetry; apply Nat.ltb_lt; exact Hi).
    split; [congruence|]. exists (u.2 :: undos). split; [|split].
    + rewrite Hb, Hb1, <- app_assoc. reflexivity.
    + cbn [length]. now rewrite Hlu.
    + intros [|j] tx' Hj; cbn in Hj.
      * injection Hj as <-. exists u.2. split; [reflexivity | exact Hlen].
      * now apply Hall.
Qed.

(** The same from the first position, whose transaction gets no record. *)
Lemma ConnectBlock_loop_undo_0 e vtx s s' :
  ConnectBlock_loop e 0 vtx s = Ok s' ->
  hashBlock (cl_view s') = hashBlock (cl_view s)
  /\ exists undos,
       cl_blockundo s' = cl_blockundo s ++ undos
       /\ length undos = (length vtx - 1)%nat
       /\ forall j tx, (0 < j)%nat -> vtx !! j = Some tx ->
            exists txundo,
              undos !! (j - 1)%nat = Some txundo
              /\ length txundo = if negb (IsCoinBase tx) && negb (IsZerocoinSpend tx)
                                 then length (CTransaction.vin tx) else 0%nat.
Proof.
  destruct vtx as [|tx0 rest]; intros Hl.
  - cbn in Hl. injection Hl as <-. split; [reflexivity|]. exists [].
    rewrite app_nil_r. split; [reflexivity|]. split; [reflexivity|].
    intros j tx _ Hj. discriminate.
  - cbn [ConnectBlock_loop] in Hl.
    destruct (ConnectBlock_tx e 0 tx0 s) as [s1|] eqn:E1; [|discriminate].
    cbn [mbind outcome_bind] in Hl.
    apply ConnectBlock_tx_inv in E1 as (_ & u & Hu & Hv1 & Hb1).
    apply UpdateCoins_shape in Hu as [Hh _]. cbn in Hb1.
    apply ConnectBlock_loop_undo in Hl as (Hh' & undos & Hb & Hlu & Hall); [|lia].
    split; [congruence|]. exists undos. split; [congruence|]. split.
    + cbn [length]. lia.
    + intros [|j] tx Hj Hlook; [lia|]. cbn in Hlook.
      replace (S j - 1)%nat with j by lia. now apply Hall.
Qed.

(** How a successful [ConnectBlock] of a block other than the genesis block
    came about. *)
Lemma ConnectBlock_inv m best nf limits undo block pindex view fJustCheck c :
  ConnectBlock m best nf limits undo block pindex view fJustCheck = Ok c ->
  CBlock.GetHash block <> hashGenesisBlock ->
  exists e s,
    ce_pindex e = pindex
    /\ ConnectBlock_loop e 0 (CBlock.vtx block) (mkConnectLoop view 0 0 0 [] []) = Ok s
    /\ CheckBlock m limits block (negb fJustCheck) (negb fJustCheck) = Ok (co_fChecked c)
    /\ (fJustCheck = true ->
        co_view c = cl_view s /\ co_pindex c = pindex /\ co_undo c = undo)
    /\ (fJustCheck = false ->
        exists h,
          CBlockIndex.phashBlock pindex = Some h
          /\ co_view c = SetBestBlock (cl_view s) h
          /\ ((GetUndoPos pindex = None
               /\ exists nPos prev hprev,
                    at_ m (CBlockIndex.pprev pindex) = Some prev
                    /\ CBlockIndex.phashBlock prev = Some hprev
                    /\ co_pindex c
                       = CBlockIndex.RaiseValidity (set_undo pindex nPos) BLOCK_VALID_SCRIPTS
                    /\ co_undo c
                       = <[(CBlockIndex.nFile pindex, nPos) := (hprev, cl_blockundo s)]> undo)
              \/ (GetUndoPos pindex <> None
                  /\ co_undo c = undo
                  /\ co_pindex c
                     = if CBlockIndex.IsValid pindex BLOCK_VALID_SCRIPTS then pindex
                       else CBlockIndex.RaiseValidity pindex BLOCK_VALID_SCRIPTS))).
Proof.
  intros Hconn Hgen. unfold ConnectBlock in Hconn.
  destruct (CheckBlock _ _ _ _ _) as [fc|]; [|discriminate].
  cbn [mbind outcome_bind] in Hconn.
  match type of Hconn with
  | (?r ≫= _) = _ => destruct r as [hashPrevBlock|]; [|discriminate]
  end.
  cbn [mbind outcome_bind] in Hconn.
  destruct (assert_ _ _) as [[]|]; [|discriminate].
  cbn [mbind outcome_bind] in Hconn.
  apply Z.eqb_neq in Hgen. rewrite Hgen in Hconn.
  destruct (fEnforceBIP30 m pindex) as [enforce|]; [|discriminate].
  cbn [mbind outcome_bind] in Hconn.
  destruct (enforce && _); [discriminate|].
  match type of Hconn with
  | (ConnectBlock_loop ?e' _ _ ?s0' ≫= _) = _ => set (e := e') in *; set (s0 := s0') in *
  end.
  destruct (ConnectBlock_loop e 0 (CBlock.vtx block) s0) as [s|] eqn:Eloop; [|discriminate].
  cbn [mbind outcome_bind] in Hconn.
  destruct (SmartMining_Validate _ _ _); [discriminate|].
  destruct (negb (forallb run_check (cl_checks s))); [discriminate|].
  exists e, s. split; [reflexivity|]. split; [exact Eloop|].
  destruct fJustCheck.
  - injection Hconn as <-. cbn [co_fChecked co_view co_pindex co_undo].
    split; [reflexivity|]. split; [auto | discriminate].
  - cbn [negb] in Hconn.
    match type of Hconn with
    | (?r ≫= _) = _ => destruct r as [[pd und]|] eqn:Er; [|discriminate]
    end.
    cbn [mbind outcome_bind fst snd] in Hconn.
    destruct (fTxIndex nf && _); [discriminate|].
    destruct (fAddressIndex nf && negb WriteAddressIndex_ok); [discriminate|].
    destruct (fAddressIndex nf && negb UpdateAddressUnspentIndex_ok); [discriminate|].
    destruct (fSpentIndex nf && _); [discriminate|].
    destruct (fTimestampIndex nf && _); [discriminate|].
    destruct (CBlockIndex.GetBlockHash pindex) as [h|] eqn:Eh; [|discriminate].
    cbn [mbind outcome_bind] in Hconn. injection Hconn as <-.
    cbn [co_fChecked co_view co_pindex co_undo].
    split; [reflexivity|]. split; [discriminate|]. intros _. exists h.
    split.
    { unfold CBlockIndex.GetBlockHash in Eh.
      destruct (CBlockIndex.phashBlock pindex); [|discriminate]. now injection Eh as ->. }
    split; [reflexivity|].
    destruct (GetUndoPos pindex) as [pos|] eqn:Epos.
    + right. split; [discriminate|].
      rewrite bool_decide_eq_false_2 in Er by discriminate. cbn [orb] in Er.
      destruct (CBlockIndex.IsValid pindex BLOCK_VALID_SCRIPTS); cbn [negb] in Er.
      * injection Er as <- <-. auto.
      * cbn [mbind outcome_bind fst snd] in Er. injection Er as <- <-. auto.
    + left. split; [reflexivity|].
      rewrite bool_decide_eq_true_2 in Er by reflexivity. cbn [orb] in Er.
      destruct (FindUndoPos _ _) as [nPos|]; [|discriminate].
      destruct (at_ m (CBlockIndex.pprev pindex)) as [prev|] eqn:Eprev; [|discriminate].
      cbn [deref mbind outcome_bind] in Er.
      destruct (CBlockIndex.GetBlockHash prev) as [hprev|] eqn:Ehprev; [|discriminate].
      cbn [mbind outcome_bind] in Er.
      destruct (negb UndoWriteToDisk_ok); [discriminate|].
      cbn [mbind outcome_bind fst snd] in Er. injection Er as <- <-.
      exists nPos, prev, hprev. split; [reflexivity|]. split; [|auto].
      unfold CBlockIndex.GetBlockHash in Ehprev.
      destruct (CBlockIndex.phashBlock prev); [|discriminate]. now injection Ehprev as ->.
Qed.

Lemma land_lor_16 x : Z.land (Z.lor x 16) 16 = 16.
Proof.
  rewrite land_16, Z.lor_spec. change 16 with (2 ^ 4) at 1.
  rewrite Z.pow2_bits_eqb by lia. cbn. now rewrite orb_true_r.
Qed.

(** Raising the validity level touches the low three bits only. *)
Lemma GetUndoPos_RaiseValidity pindex nUpTo :
  0 <= nUpTo < 8 ->
  GetUndoPos (CBlockIndex.RaiseValidity pindex nUpTo) = GetUndoPos pindex.
Proof.
  intros Hn. unfold CBlockIndex.RaiseValidity.
  destruct (negb _); [reflexivity|]. destruct (_ <? _); [|reflexivity].
  unfold GetUndoPos, BLOCK_HAVE_UNDO, BLOCK_VALID_MASK.
  cbn [CBlockIndex.nStatus CBlockIndex.nFile CBlockIndex.nUndoPos].
  rewrite !land_16, Z.lor_spec, Z.land_spec.
  assert (H7 : Z.testbit (Z.lnot 7) 4 = true) by reflexivity.
  assert (Hu : Z.testbit nUpTo 4 = false).
  { destruct (Z.eq_dec nUpTo 0) as [->|]; [reflexivity|].
    apply Z.bits_above_log2; [lia|].
    assert (Z.log2 nUpTo < 3) by (apply Z.log2_lt_pow2; lia). lia. }
  rewrite H7, Hu, andb_true_r, orb_false_r. reflexivity.
Qed.

(** X8.  [ConnectBlock] called to check only writes nothing: the index
    entry and the undo files come back as they went in, the view keeps its
    best block, and the block is not marked as checked, since the proof of
    work and the merkle root were not looked at. *)
Theorem ConnectBlock_just_check m best nf limits undo block pindex view c :
  ConnectBlock m best nf limits undo block pindex view true = Ok c ->
  co_pindex c = pindex
  /\ co_undo c = undo
  /\ GetBestBlock (co_view c) = GetBestBlock view
  /\ co_fChecked c = CBlock.fChecked block.
Proof.
  intros Hconn.
  assert (Hfc : co_fChecked c = CBlock.fChecked block).
  { unfold ConnectBlock in Hconn. cbn [negb] in Hconn.
    assert (Hcb : forall fc, CheckBlock m limits block false false = Ok fc ->
                             fc = CBlock.fChecked block).
    { intros fc. unfold CheckBlock. destruct (CBlock.fChecked block); [now intros [= <-]|].
      destruct (CheckBlock_structure _ _ _ _ _) as [[]|]; [|discriminate].
      cbn [mbind outcome_bind]. destruct (_ <? _); [discriminate|]. now intros [= <-]. }
    destruct (CheckBlock m limits block false false) as [fc|] eqn:Ec; [|discriminate].
    specialize (Hcb fc eq_refl). subst fc. cbn [mbind outcome_bind] in Hconn.
    match type of Hconn with
    | (?r ≫= _) = _ => destruct r as [hashPrevBlock|]; [|discriminate]
    end.
    cbn [mbind outcome_bind] in Hconn.
    destruct (assert_ _ _) as [[]|]; [|discriminate].
    cbn [mbind outcome_bind] in Hconn.
    destruct (CBlock.GetHash block =? hashGenesisBlock); [now injection Hconn as <-|].
    destruct (fEnforceBIP30 m pindex) as [enforce|]; [|discriminate].
    cbn [mbind outcome_bind] in Hconn.
    destruct (enforce && _); [discriminate|].
    match type of Hconn with
    | (?r ≫= _) = _ => destruct r as [s|]; [|discriminate]
    end.
    cbn [mbind outcome_bind] in Hconn.
    destruct (SmartMining_Validate _ _ _); [discriminate|].
    destruct (negb _); [discriminate|]. now injection Hconn as <-. }
  destruct (Z.eq_dec (CBlock.GetHash block) hashGenesisBlock) as [Hg|Hg].
  - unfold ConnectBlock in Hconn. cbn [negb] in Hconn.
    destruct (CheckBlock _ _ _ _ _) as [fc|]; [|discriminate].
    cbn [mbind outcome_bind] in Hconn.
    match type of Hconn with
    | (?r ≫= _) = _ => destruct r as [hashPrevBlock|]; [|discriminate]
    end.
    cbn [mbind outcome_bind] in Hconn.
    destruct (assert_ _ _) as [[]|]; [|discriminate].
    cbn [mbind outcome_bind] in Hconn.
    apply Z.eqb_eq in Hg. rewrite Hg in Hconn. injection Hconn as <-.
    cbn [co_pindex co_undo co_view co_fChecked] in *. auto.
  - destruct (ConnectBlock_inv _ _ _ _ _ _ _ _ _ _ Hconn Hg)
      as (e & s & _ & Hloop & _ & Hjust & _).
    destruct (Hjust eq_refl) as (Hv & Hp & Hu).
    apply ConnectBlock_loop_undo_0 in Hloop as [Hh _]. cbn [cl_view] in Hh.
    unfold GetBestBlock. rewrite Hv. auto.
Qed.

(** X9.  After [ConnectBlock] has connected a block other than the genesis
    block for good, the best block of the view is the block, and its index
    entry points to undo data.  If the entry had none before, the record
    written holds the parent's hash and one entry per transaction after the
    first, each with as many coins as the transaction has inputs (none for
    a zerocoin spend): for every transaction that spends coins this is what
    [DisconnectBlock] will ask of it. *)
Theorem ConnectBlock_connected m best nf limits undo block pindex view c :
  ConnectBlock m best nf limits undo block pindex view false = Ok c ->
  CBlock.GetHash block <> hashGenesisBlock ->
  CBlockIndex.phashBlock pindex = Some (GetBestBlock (co_view c))
  /\ is_Some (GetUndoPos (co_pindex c))
  /\ (GetUndoPos pindex = None ->
      exists pos prev blockUndo,
        GetUndoPos (co_pindex c) = Some pos
        /\ at_ m (CBlockIndex.pprev pindex) = Some prev
        /\ co_undo c !! pos = Some (GetBestBlock view, blockUndo)
        /\ CBlockIndex.phashBlock prev = Some (GetBestBlock view)
        /\ length blockUndo = (length (CBlock.vtx block) - 1)%nat
        /\ forall j tx, (0 < j)%nat -> CBlock.vtx block !! j = Some tx ->
             exists txundo,
               blockUndo !! (j - 1)%nat = Some txundo
               /\ length txundo = if negb (IsCoinBase tx) && negb (IsZerocoinSpend tx)
                                  then length (CTransaction.vin tx) else 0%nat).
Proof.
  intros Hconn Hg.
  destruct (ConnectBlock_inv _ _ _ _ _ _ _ _ _ _ Hconn Hg)
    as (e & s & _ & Hloop & _ & _ & Hreal).
  destruct (Hreal eq_refl) as (h & Hh & Hv & Hcases).
  split; [rewrite Hv; exact Hh|].
  assert (Hbest : forall prev hprev,
             at_ m (CBlockIndex.pprev pindex) = Some prev ->
             CBlockIndex.phashBlock prev = Some hprev -> hprev = GetBestBlock view).
  { intros prev hprev Hprev Hhp. unfold ConnectBlock in Hconn.
    destruct (CheckBlock _ _ _ _ _) as [fc|]; [|discriminate].
    cbn [mbind outcome_bind] in Hconn.
    destruct (CBlockIndex.pprev pindex) as [pp|]; [|discriminate].
    rewrite Hprev in Hconn. cbn [deref mbind outcome_bind] in Hconn.
    unfold CBlockIndex.GetBlockHash in Hconn. rewrite Hhp in Hconn.
    cbn [deref mbind outcome_bind] in Hconn.
    destruct (Z.eqb_spec hprev (GetBestBlock view)); [assumption | discriminate]. }
  destruct Hcases as [(Hnone & nPos & prev & hprev & Hprev & Hhp & Hp & Hu)
                     |(Hsome & Hu & Hp)].
  - split; [rewrite Hp, GetUndoPos_written; eauto|]. intros _.
    exists (CBlockIndex.nFile pindex, nPos), prev, (cl_blockundo s).
    pose proof (Hbest _ _ Hprev Hhp) as ->.
    split; [rewrite Hp; apply GetUndoPos_written|]. split; [exact Hprev|].
    split; [rewrite Hu; unfold UndoFiles; apply lookup_insert_eq|]. split; [exact Hhp|].
    apply ConnectBlock_loop_undo_0 in Hloop as (_ & undos & Hb & Hlen & Hall).
    cbn [cl_blockundo app] in Hb. rewrite Hb. split; [exact Hlen | exact Hall].
  - split; [|intros Hnone; contradiction].
    rewrite Hp. destruct (CBlockIndex.IsValid pindex BLOCK_VALID_SCRIPTS).
    + destruct (GetUndoPos pindex); [eauto | contradiction].
    + rewrite GetUndoPos_RaiseValidity by (unfold BLOCK_VALID_SCRIPTS; lia).
      destruct (GetUndoPos pindex); [eauto | contradiction].
Qed.

Lemma rev_lookup {A} (l : list A) k :
  (k < length l)%nat -> rev l !! k = l !! (length l - S k)%nat.
Proof. intros Hk. rewrite rev_alt. now apply reverse_lookup. Qed.

(** What the transaction loop of [DisconnectBlock] asks of the undo
    records when it runs to its end: one record for every transaction but
    the first, with as many coins as the transaction has inputs. *)
Lemma DisconnectBlock_loop_lengths pindex blockUndo : forall rev_vtx i view fClean r,
  DisconnectBlock_loop pindex blockUndo rev_vtx i view fClean = Ok (Some r) ->
  forall k tx, rev_vtx !! k = Some tx -> (k < i)%nat ->
    exists txundo, blockUndo !! (i - k - 1)%nat = Some txundo
                   /\ length txundo = length (CTransaction.vin tx).
Proof.
  induction rev_vtx as [|tx rest IH]; intros i view fClean r Hl k tx' Hk Hki;
    [discriminate|].
  cbn [DisconnectBlock_loop] in Hl.
  destruct (DisconnectBlock_outputs pindex tx (CTransaction.vout tx) 0 view fClean)
    as [view1 fClean1].
  destruct (Nat.ltb_spec 0 i) as [Hi|Hi]; [|lia].
  destruct (blockUndo !! (i - 1)%nat) as [txundo|] eqn:Eu; [|discriminate].
  cbn [deref mbind outcome_bind] in Hl.
  destruct (Nat.eqb_spec (length txundo) (length (CTransaction.vin tx))) as [Hlen|];
    [|discriminate].
  cbn [negb] in Hl.
  destruct (DisconnectBlock_inputs _ view1 fClean1) as [[[view2 fClean2]|]|];
    try discriminate.
  destruct k as [|k]; cbn in Hk.
  - injection Hk as <-. exists txundo. replace (i - 0 - 1)%nat with (i - 1)%nat by lia.
    auto.
  - replace (i - S k - 1)%nat with (i - 1 - k - 1)%nat by lia.
    eapply IH; [exact Hl | exact Hk | lia].
Qed.

(** The undo data behind a successful [DisconnectBlock]. *)
Lemma DisconnectBlock_undo_used m nf undo block pindex view res view' :
  DisconnectBlock m nf undo block pindex view = Ok (res, view') ->
  res <> DISCONNECT_FAILED ->
  exists pos prev hprev blockUndo,
    GetUndoPos pindex = Some pos
    /\ at_ m (CBlockIndex.pprev pindex) = Some prev
    /\ CBlockIndex.phashBlock prev = Some hprev
    /\ undo !! pos = Some (hprev, blockUndo)
    /\ (length blockUndo + 1 = length (CBlock.vtx block))%nat
    /\ (forall j tx, (0 < j)%nat -> CBlock.vtx block !! j = Some tx ->
          exists txundo, blockUndo !! (j - 1)%nat = Some txundo
                         /\ length txundo = length (CTransaction.vin tx)).
Proof.
  intros Hd Hres. unfold DisconnectBlock, CBlockIndex.GetBlockHash in Hd.
  destruct (CBlockIndex.phashBlock pindex) as [h|] eqn:Eh; [|discriminate].
  cbn [deref mbind outcome_bind] in Hd.
  destruct (assert_ _ _) as [[]|]; [|discriminate].
  cbn [mbind outcome_bind] in Hd.
  destruct (GetUndoPos pindex) as [pos|] eqn:Epos; [|injection Hd as <- <-; contradiction].
  destruct (at_ m (CBlockIndex.pprev pindex)) as [prev|] eqn:Eprev; [|discriminate].
  cbn [deref mbind outcome_bind] in Hd.
  destruct (CBlockIndex.phashBlock prev) as [hprev|] eqn:Ehp; [|discriminate].
  cbn [deref mbind outcome_bind] in Hd.
  destruct (undo !! pos) as [[hcheck blockUndo]|] eqn:Elook;
    [|injection Hd as <- <-; contradiction].
  destruct (Z.eqb_spec hcheck hprev) as [->|]; cbn [negb] in Hd;
    [|injection Hd as <- <-; contradiction].
  destruct (Nat.eqb_spec (length blockUndo + 1) (length (CBlock.vtx block))) as [Hlen|];
    cbn [negb] in Hd; [|injection Hd as <- <-; contradiction].
  destruct (DisconnectBlock_loop pindex blockUndo (rev (CBlock.vtx block))
              (length (CBlock.vtx block) - 1) view true) as [[[view1 fClean]|]|] eqn:El;
    cbn [mbind outcome_bind] in Hd;
    [|injection Hd as <- <-; contradiction | discriminate].
  exists pos, prev, hprev, blockUndo.
  do 4 (split; [first [reflexivity | assumption]|]). split; [exact Hlen|].
  intros j tx Hj Htx.
  assert (Hjl : (j < length (CBlock.vtx block))%nat) by (eapply lookup_lt_Some, Htx).
  destruct (DisconnectBlock_loop_lengths _ _ _ _ _ _ _ El
              (length (CBlock.vtx block) - 1 - j)%nat tx) as (txundo & Hu & Hl).
  - rewrite rev_lookup by lia. rewrite <- Htx. f_equal. lia.
  - lia.
  - exists txundo. split; [|exact Hl]. rewrite <- Hu. f_equal. lia.
Qed.

(** X10.  [DisconnectBlock] answers with success, clean or unclean, only if
    the index entry of the block points to undo data that were found and
    carry the hash of the parent, with one record for every transaction but
    the first, each holding as many coins as its transaction has inputs;
    and then it has moved the best block of the view from the block to its
    parent. *)
Theorem DisconnectBlock_needs_undo m nf undo block pindex view res view' :
  DisconnectBlock m nf undo block pindex view = Ok (res, view') ->
  res <> DISCONNECT_FAILED ->
  exists pos prev hprev blockUndo,
    GetUndoPos pindex = Some pos
    /\ at_ m (CBlockIndex.pprev pindex) = Some prev
    /\ CBlockIndex.phashBlock prev = Some hprev
    /\ undo !! pos = Some (hprev, blockUndo)
    /\ (length blockUndo + 1 = length (CBlock.vtx block))%nat
    /\ (forall j tx, (0 < j)%nat -> CBlock.vtx block !! j = Some tx ->
          exists txundo, blockUndo !! (j - 1)%nat = Some txundo
                         /\ length txundo = length (CTransaction.vin tx))
    /\ CBlockIndex.phashBlock pindex = Some (GetBestBlock view)
    /\ GetBestBlock view' = hprev.
Proof.
  intros Hd Hres.
  destruct (DisconnectBlock_undo_used _ _ _ _ _ _ _ _ Hd Hres)
    as (pos & prev & hprev & blockUndo & Hpos & Hprev & Hhp & Hlook & Hlen & Hall).
  exists pos, prev, hprev, blockUndo. repeat (split; [assumption|]).
  unfold DisconnectBlock, CBlockIndex.GetBlockHash in Hd.
  destruct (CBlockIndex.phashBlock pindex) as [h|] eqn:Eh; [|discriminate].
  cbn [deref mbind outcome_bind] in Hd.
  destruct (Z.eqb_spec h (GetBestBlock view)) as [Hbest|]; [|discriminate].
  cbn [assert_ mbind outcome_bind] in Hd. split; [now rewrite Hbest|].
  rewrite Hpos, Hprev in Hd. cbn [deref mbind outcome_bind] in Hd.
  unfold UndoFiles, CBlockUndo, CTxUndo, uint256 in *. rewrite Hhp in Hd. cbn [deref mbind outcome_bind] in Hd.
  rewrite Hlook in Hd. rewrite Z.eqb_refl in Hd. cbn [negb] in Hd.
  destruct (negb (length blockUndo + 1 =? length (CBlock.vtx block))%nat);
    [injection Hd as <- <-; contradiction|].
  destruct (DisconnectBlock_loop _ _ _ _ _ _) as [[[view1 fClean]|]|];
    cbn [mbind outcome_bind] in Hd;
    [|injection Hd as <- <-; contradiction | discriminate].
  destruct (fAddressIndex nf && negb EraseAddressIndex_ok);
    [injection Hd as <- <-; contradiction|].
  destruct (fAddressIndex nf && negb UpdateAddressUnspentIndex_ok);
    [injection Hd as <- <-; contradiction|].
  injection Hd as _ <-. reflexivity.
Qed.

(** X11.  A block with a zerocoin spend cannot be undone.  [UpdateCoins]
    records no coin for the inputs of a zerocoin spend, and [DisconnectBlock]
    insists on one coin per input for every transaction but the first: once
    such a block is connected for the first time, [DisconnectBlock] on what
    [ConnectBlock] left never answers with success. *)
Theorem zerocoin_spend_blocks_disconnect m best nf limits undo block pindex view c
    j tx res view' :
  ConnectBlock m best nf limits undo block pindex view false = Ok c ->
  CBlock.GetHash block <> hashGenesisBlock ->
  GetUndoPos pindex = None ->
  CBlock.vtx block !! j = Some tx -> (0 < j)%nat ->
  IsZerocoinSpend tx = true -> CTransaction.vin tx <> [] ->
  DisconnectBlock m nf (co_undo c) block (co_pindex c) (co_view c) = Ok (res, view') ->
  res = DISCONNECT_FAILED.
Proof.
  intros Hconn Hg Hnone Htx Hj Hz Hvin Hd.
  destruct (ConnectBlock_inv _ _ _ _ _ _ _ _ _ _ Hconn Hg)
    as (e & s & _ & Hloop & _ & _ & Hreal).
  destruct (Hreal eq_refl) as (h & Hh & Hv & Hcases).
  destruct Hcases as [(_ & nPos & prev & hprev & Hprev & Hhp & Hp & Hu)
                     |(Hsome & _)]; [|contradiction].
  apply ConnectBlock_loop_undo_0 in Hloop as (_ & undos & Hb & _ & Hall).
  cbn [cl_blockundo app] in Hb.
  destruct (Hall j tx Hj Htx) as (txundo & Hundo & Hlen).
  rewrite Hz, andb_false_r in Hlen.
  destruct (decide (res = DISCONNECT_FAILED)) as [|Hres]; [assumption|]. exfalso.
  destruct (DisconnectBlock_undo_used m nf (co_undo c) block (co_pindex c) (co_view c)
              res view' Hd Hres) as (pos & prev' & hprev' & bu & Hpos & _ & _ & Hlook & _ & Hneed).
  rewrite Hp, GetUndoPos_written in Hpos. injection Hpos as <-.
  rewrite Hu in Hlook. unfold UndoFiles in Hlook. rewrite lookup_insert_eq in Hlook.
  injection Hlook as _ <-.
  destruct (Hneed j tx Hj Htx) as (txundo' & Hundo' & Hlen').
  rewrite Hb, Hundo in Hundo'. injection Hundo' as <-.
  destruct (CTransaction.vin tx); [now apply Hvin | cbn in Hlen'; lia].
Qed.

End ConnectFacts.

(** The sample block with a spend, connected and disconnected. *)
Lemma connect_disconnect_roundtrip_sample :
  exists c view',
    ConnectBlock (H := sample_externals) sample_map None sample_flags sample_limits ∅
                 sample_block_spend sample_block_index sample_view false = Ok c
    /\ DisconnectBlock (H := sample_externals) sample_map sample_flags (co_undo c)
                       sample_block_spend (co_pindex c) (co_view c)
       = Ok (DISCONNECT_OK, view').
Proof. do 2 eexists. split; [vm_compute; reflexivity|]. vm_compute. reflexivity. Qed.

Lemma ConnectBlock_just_check_witness :
  exists c,
    ConnectBlock (H := sample_externals) sample_map None sample_flags sample_limits ∅
                 sample_block_spend sample_block_index sample_view true = Ok c
    /\ co_pindex c = sample_block_index /\ co_undo c = ∅
    /\ CCoinsViewCache.GetBestBlock (co_view c) = 104
    /\ co_fChecked c = false.
Proof.
  destruct (ConnectBlock (H := sample_externals) sample_map None sample_flags sample_limits ∅
              sample_block_spend sample_block_index sample_view true) as [c|f] eqn:E;
    [|vm_compute in E; discriminate E].
  exists c. split; [reflexivity|].
  exact (ConnectBlock_just_check (H := sample_externals) sample_map None sample_flags
           sample_limits ∅ sample_block_spend sample_block_index sample_view c E).
Defined.

Lemma ConnectBlock_connected_witness :
  exists c,
    ConnectBlock (H := sample_externals) sample_map None sample_flags sample_limits ∅
                 sample_block_spend sample_block_index sample_view false = Ok c
    /\ CBlockIndex.phashBlock sample_block_index
       = Some (CCoinsViewCache.GetBestBlock (co_view c))
    /\ is_Some (GetUndoPos (co_pindex c)).
Proof.
  destruct (ConnectBlock (H := sample_externals) sample_map None sample_flags sample_limits ∅
              sample_block_spend sample_block_index sample_view false) as [c|f] eqn:E;
    [|vm_compute in E; discriminate E].
  exists c. split; [reflexivity|].
  destruct (ConnectBlock_connected (H := sample_externals) sample_map None sample_flags
              sample_limits ∅ sample_block_spend sample_block_index sample_view c E)
    as (Hbest & Hundo & _); [vm_compute; discriminate|].
  split; [exact Hbest | exact Hundo].
Defined.

Lemma DisconnectBlock_needs_undo_witness :
  exists c view',
    ConnectBlock (H := sample_externals) sample_map None sample_flags sample_limits ∅
                 sample_block_spend sample_block_index sample_view false = Ok c
    /\ DisconnectBlock (H := sample_externals) sample_map sample_flags (co_undo c)
                       sample_block_spend (co_pindex c) (co_view c)
       = Ok (DISCONNECT_OK, view')
    /\ CBlockIndex.phashBlock (co_pindex c)
       = Some (CCoinsViewCache.GetBestBlock (co_view c))
    /\ is_Some (GetUndoPos (co_pindex c)).
Proof.
  destruct connect_disconnect_roundtrip_sample as (c & view' & Hc & Hd).
  exists c, view'. split; [exact Hc|]. split; [exact Hd|].
  destruct (DisconnectBlock_needs_undo (H := sample_externals) sample_map sample_flags
              (co_undo c) sample_block_spend (co_pindex c) (co_view c) DISCONNECT_OK view'
              Hd) as (pos & prev & hprev & bu & Hpos & _ & _ & _ & _ & _ & Hbest & _);
    [discriminate|].
  split; [exact Hbest|]. rewrite Hpos. eauto.
Defined.

Lemma zerocoin_spend_blocks_disconnect_witness :
  exists c res view',
    ConnectBlock (H := sample_externals) sample_map None sample_flags sample_limits ∅
                 sample_block_zerocoin sample_block_index sample_view false = Ok c
    /\ DisconnectBlock (H := sample_externals) sample_map sample_flags (co_undo c)
                       sample_block_zerocoin (co_pindex c) (co_view c)
       = Ok (res, view')
    /\ res = DISCONNECT_FAILED.
Proof.
  destruct zerocoin_spend_not_disconnected as (c & Hc & Hd).
  exists c, DISCONNECT_FAILED, (co_view c). split; [exact Hc|]. split; [exact Hd|].
  apply (zerocoin_spend_blocks_disconnect (H := sample_externals) sample_map None
           sample_flags sample_limits ∅ sample_block_zerocoin sample_block_index
           sample_view c 1%nat (sample_zerocoin_spend 12 40) DISCONNECT_FAILED (co_view c)
           Hc).
  - vm_compute. discriminate.
  - reflexivity.
  - reflexivity.
  - lia.
  - reflexivity.
  - discriminate.
  - exact Hd.
Defined.
(** ** Putting a spent coin back *)

Section ApplyUndoFacts.
Context `{Externals}.
Import CCoinsViewCache.

(** X12.  [ApplyTxInUndo] fails exactly when the undo coin comes without
    metadata (height 0) and no output of its transaction is left in the
    view to take them from; the view is then as it was.  Otherwise the
    coin, with the metadata filled in, is put at the outpoint (nothing is
    stored for an unspendable script), and the result is unclean exactly
    when the view already had an unspent coin there.  Since the coin is
    added with its coinbase flag as the permission to overwrite, an unclean
    result is only ever reached with a coinbase coin or an unspendable
    script: for any other coin the overwrite ends in the exception of
    [AddCoin]. *)
Theorem ApplyTxInUndo_result undo view out res view' :
  ApplyTxInUndo undo view out = Ok (res, view') ->
  let alternate := AccessByTxid view (COutPoint.hash out) in
  let restored :=
    if Coin.nHeight undo =? 0
    then Coin.mk (Coin.out undo) (Coin.fCoinBase alternate) (Coin.nHeight alternate)
    else undo in
  (res = DISCONNECT_FAILED <-> Coin.nHeight undo = 0 /\ Coin.IsSpent alternate = true)
  /\ (res = DISCONNECT_FAILED -> view' = view)
  /\ (res <> DISCONNECT_FAILED ->
      unspent view'
      = (if IsUnspendable (CTxOut.scriptPubKey (Coin.out restored)) then unspent view
         else <[out := restored]> (unspent view))
      /\ (res = DISCONNECT_UNCLEAN <-> is_Some (unspent view !! out))
      /\ (res = DISCONNECT_UNCLEAN ->
          IsUnspendable (CTxOut.scriptPubKey (Coin.out restored)) = true
          \/ Coin.fCoinBase restored = true)).
Proof.
  intros Ha alternate restored. unfold ApplyTxInUndo in Ha. fold alternate in Ha.
  destruct ((Coin.nHeight undo =? 0) && Coin.IsSpent alternate) eqn:Efail.
  - injection Ha as <- <-. apply andb_true_iff in Efail as [E0 Es].
    apply Z.eqb_eq in E0. split; [tauto|]. split; [reflexivity|]. intros Hne.
    now destruct Hne.
  - fold restored in Ha.
    destruct (AddCoin view out restored (Coin.fCoinBase restored)) as [v1|] eqn:Eadd;
      [|discriminate].
    cbn [mbind outcome_bind] in Ha. injection Ha as <- <-.
    assert (Hres : (if negb (HaveCoin view out) then DISCONNECT_OK else DISCONNECT_UNCLEAN)
                   <> DISCONNECT_FAILED) by (destruct (negb _); discriminate).
    split; [|split; [intros Hf; now destruct Hres|]].
    { split; [intros Hf; now destruct Hres|]. intros [E0 Es].
      apply Z.eqb_eq in E0. rewrite E0, Es in Efail. discriminate. }
    intros _. apply AddCoin_unspent in Eadd as (_ & _ & Hu).
    assert (Hun : (if negb (HaveCoin view out) then DISCONNECT_OK else DISCONNECT_UNCLEAN)
                  = DISCONNECT_UNCLEAN <-> is_Some (unspent view !! out)).
    { rewrite <- HaveCoin_true. destruct (HaveCoin view out); cbn [negb];
        split; (discriminate || reflexivity || auto). }
    destruct (IsUnspendable (CTxOut.scriptPubKey (Coin.out restored))) eqn:Eu.
    + split; [exact Hu|]. split; [exact Hun | auto].
    + destruct Hu as [Hu Hover]. split; [exact Hu|]. split; [exact Hun|].
      intros Hunclean. right. apply Hun in Hunclean as [c Hc].
      destruct (Coin.fCoinBase restored); [reflexivity|].
      rewrite (Hover eq_refl) in Hc. discriminate.
Qed.

End ApplyUndoFacts.

Lemma ApplyTxInUndo_result_witness :
  exists view',
    ApplyTxInUndo (H := sample_externals) sample_coin sample_empty_view (COutPoint.mk 7 0)
    = Ok (DISCONNECT_OK, view')
    /\ CCoinsViewCache.unspent view'
       = <[COutPoint.mk 7 0 := sample_coin]> (CCoinsViewCache.unspent sample_empty_view).
Proof.
  eexists. split; [vm_compute; reflexivity|].
  match goal with
  | |- CCoinsViewCache.unspent ?v = _ =>
    pose proof (ApplyTxInUndo_result (H := sample_externals) sample_coin sample_empty_view
                  (COutPoint.mk 7 0) DISCONNECT_OK v) as W
  end.
  cbv zeta in W. destruct W as (_ & _ & W); [vm_compute; reflexivity|].
  destruct W as (W & _); [discriminate|]. exact W.
Defined.
(** ** The header tree *)

Section HeaderTreeFacts.
Context `{Externals} `{ChainExternals}.
Variable cf : ChainFlags.
Variable limits : Limits.

(** What [AddToBlockIndex] changes: the entry of the header, if it was not
    there, the best header and the set of dirty entries. *)
Lemma AddToBlockIndex_frame cs block :
  let cs' := (AddToBlockIndex cs block).1 in
  (AddToBlockIndex cs block).2 = CBlock.GetHash block
  /\ (forall h, h <> CBlock.GetHash block ->
                mapBlockIndex cs' !! h = mapBlockIndex cs !! h)
  /\ (forall e, mapBlockIndex cs !! CBlock.GetHash block = Some e -> cs' = cs)
  /\ is_Some (mapBlockIndex cs' !! CBlock.GetHash block)
  /\ chainActive_Tip cs' = chainActive_Tip cs
  /\ setBlockIndexCandidates cs' = setBlockIndexCandidates cs
  /\ mapBlocksUnlinked cs' = mapBlocksUnlinked cs
  /\ nBlockSequenceId cs' = nBlockSequenceId cs
  /\ vinfoBlockFile cs' = vinfoBlockFile cs
  /\ nLastBlockFile cs' = nLastBlockFile cs
  /\ vBlocksOnDisk cs' = vBlocksOnDisk cs
  /\ vAcceptedBlockHeader cs' = vAcceptedBlockHeader cs.
Proof.
  cbv zeta. unfold AddToBlockIndex.
  destruct (mapBlockIndex cs !! CBlock.GetHash block) as [e|] eqn:Ek; cbn [fst snd].
  - rewrite Ek. repeat split; eauto.
  - cbn [mapBlockIndex chainActive_Tip setBlockIndexCandidates mapBlocksUnlinked
         nBlockSequenceId vinfoBlockFile nLastBlockFile vBlocksOnDisk vAcceptedBlockHeader].
    split; [reflexivity|]. split; [intros h Hne; now apply lookup_insert_ne|].
    split; [discriminate|]. split; [rewrite lookup_insert_eq; eauto|].
    repeat split.
Qed.

(** X13.  [AcceptBlockHeader] touches nothing but the header's own entry:
    every other entry of the block index is as before, and so is the
    header's entry if there was one; the active chain, the candidate set,
    the unlinked blocks, the sequence counter and the block files are never
    touched; and a header that is rejected leaves the whole state as it
    was. *)
Theorem AcceptBlockHeader_frame cs block :
  let cs' := (AcceptBlockHeader cf cs block).1.1 in
  (forall h, h <> CBlock.GetHash block ->
             mapBlockIndex cs' !! h = mapBlockIndex cs !! h)
  /\ (forall e, mapBlockIndex cs !! CBlock.GetHash block = Some e ->
                mapBlockIndex cs' = mapBlockIndex cs)
  /\ (forall rj, (AcceptBlockHeader cf cs block).2 = Fail (Rejected rj) -> cs' = cs)
  /\ chainActive_Tip cs' = chainActive_Tip cs
  /\ setBlockIndexCandidates cs' = setBlockIndexCandidates cs
  /\ mapBlocksUnlinked cs' = mapBlocksUnlinked cs
  /\ nBlockSequenceId cs' = nBlockSequenceId cs
  /\ vinfoBlockFile cs' = vinfoBlockFile cs
  /\ nLastBlockFile cs' = nLastBlockFile cs
  /\ vBlocksOnDisk cs' = vBlocksOnDisk cs.
Proof.
  cbv zeta. unfold AcceptBlockHeader.
  match goal with
  | |- context [match ?x with Some _ => _ | None => _ end] =>
    destruct x as [pindex|] eqn:Eknown
  end.
  { cbn [fst snd]. repeat split; eauto. }
  match goal with
  | |- context [match ?x with Ok _ => _ | Fail _ => _ end] => destruct x as [[]|f]
  end.
  2: { cbn [fst snd]. repeat split; eauto. }
  pose proof (AddToBlockIndex_frame cs block) as Hadd. cbv zeta in Hadd.
  destruct (AddToBlockIndex cs block) as [cs1 p]. cbn [fst snd] in Hadd.
  destruct Hadd as (_ & Hother & Hsame & _ & Htip & Hcand & Hunl & Hseq & Hfiles & Hlast
                    & Hdisk & _).
  unfold CheckBlockIndex.
  destruct (negb (fCheckBlockIndex cf)); [|destruct (CheckBlockIndex_consistent cs1)];
    cbn [assert_ fst snd mapBlockIndex chainActive_Tip setBlockIndexCandidates
         mapBlocksUnlinked nBlockSequenceId vinfoBlockFile nLastBlockFile vBlocksOnDisk];
    (split; [exact Hother|]); (split; [intros e He; now rewrite (Hsame e He)|]);
    (split; [discriminate|]); auto 10.
Qed.

(** The reasons [ContextualCheckBlockHeader] can reject with. *)
Lemma outdated_version_loop_reasons m block pindexPrev versions :
  reason_in (outdated_version_loop m block pindexPrev versions)
            ["bad-version(0x00000001)"; "bad-version(0x00000002)";
             "bad-version(0x00000003)"]%string.
Proof.
  induction versions as [|v rest IH]; cbn [outdated_version_loop].
  - apply reason_in_Ok.
  - destruct (_ && _); [|exact IH]. apply reason_in_reject.
    cbn [strRejectReason Invalid DoS]. unfold bad_version_reason.
    destruct (v =? 2); [|destruct (v =? 3)]; rewrite !elem_of_cons; tauto.
Qed.

Lemma ContextualCheckBlockHeader_reasons m block pindexPrev :
  reason_in (ContextualCheckBlockHeader m block pindexPrev)
            ["bad-diffbits"; "time-too-old"; "time-too-new";
             "bad-version(0x00000001)"; "bad-version(0x00000002)";
             "bad-version(0x00000003)"]%string.
Proof.
  unfold ContextualCheckBlockHeader.
  destruct (negb _); [apply reason_in_reject; reason_mem|].
  destruct (_ <=? _); [apply reason_in_reject; reason_mem|].
  destruct (_ <? _); [apply reason_in_reject; reason_mem|].
  eapply reason_in_weaken; [apply outdated_version_loop_reasons|].
  intros s. rewrite !elem_of_cons. tauto.
Qed.

(** X14.  For a header that is new, is not the genesis header and has a
    valid proof of work, [AcceptBlockHeader] rejects with "bad-prevblk"
    exactly when the parent is unknown or marked as failed: an unknown
    parent costs 10 misbehaviour points and carries no reject code, a
    failed one costs 100 and is [REJECT_INVALID].  No other check reports
    this reason. *)
Theorem AcceptBlockHeader_bad_prevblk cs block :
  CBlock.GetHash block <> hashGenesisBlock ->
  mapBlockIndex cs !! CBlock.GetHash block = None ->
  CheckBlockHeader (mapBlockIndex cs) block true = Ok tt ->
  let r := (AcceptBlockHeader cf cs block).2 in
  (mapBlockIndex cs !! CBlock.hashPrevBlock block = None ->
   r = reject (DoS 10 REJECT_NONE "bad-prevblk" false))
  /\ (forall pindexPrev,
        mapBlockIndex cs !! CBlock.hashPrevBlock block = Some pindexPrev ->
        Z.land (CBlockIndex.nStatus pindexPrev) BLOCK_FAILED_MASK <> 0 ->
        r = reject (DoS 100 REJECT_INVALID "bad-prevblk" false))
  /\ (rejected_with r "bad-prevblk" ->
      match mapBlockIndex cs !! CBlock.hashPrevBlock block with
      | None => True
      | Some pindexPrev => Z.land (CBlockIndex.nStatus pindexPrev) BLOCK_FAILED_MASK <> 0
      end).
Proof.
  intros Hgen Hnew Hpow. cbv zeta. unfold AcceptBlockHeader.
  apply Z.eqb_neq in Hgen. rewrite Hgen. cbn [negb]. rewrite Hnew, Hpow.
  cbn [mbind outcome_bind].
  destruct (mapBlockIndex cs !! CBlock.hashPrevBlock block) as [pindexPrev|] eqn:Eprev.
  2: { cbn [snd]. split; [reflexivity|]. split; [discriminate | auto]. }
  split; [discriminate|].
  destruct (Z.eqb_spec (Z.land (CBlockIndex.nStatus pindexPrev) BLOCK_FAILED_MASK) 0)
    as [Hok|Hfailed]; cbn [negb].
  2: { cbn [snd]. split; [intros p [= <-] _; reflexivity | auto]. }
  split; [intros p [= <-] Hne; contradiction|].
  intros Hrej. exfalso.
  assert (Hchecks : reason_in
            ((if fCheckpointsEnabled cf then CheckIndexAgainstCheckpoint cs pindexPrev
              else Ok tt)
             ≫= fun _ => ContextualCheckBlockHeader (mapBlockIndex cs) block pindexPrev)
            [""; "bad-diffbits"; "time-too-old"; "time-too-new";
             "bad-version(0x00000001)"; "bad-version(0x00000002)";
             "bad-version(0x00000003)"]%string).
  { apply reason_in_bind.
    - destruct (fCheckpointsEnabled cf); [|apply reason_in_Ok].
      unfold CheckIndexAgainstCheckpoint, CBlockIndex.GetBlockHash. reasons.
    - intros _ _. eapply reason_in_weaken; [apply ContextualCheckBlockHeader_reasons|].
      intros s. rewrite !elem_of_cons. tauto. }
  match type of Hrej with
  | rejected_with (match ?x with Ok _ => _ | Fail _ => _ end).2 _ =>
    destruct x as [[]|f] eqn:Ec
  end.
  - destruct (AddToBlockIndex cs block) as [cs1 p].
    destruct (CheckBlockIndex cf cs1) as [[]|f] eqn:Ei; cbn [snd] in Hrej.
    + now apply rejected_with_Ok in Hrej.
    + unfold CheckBlockIndex in Ei. destruct (negb _); [discriminate|].
      destruct (CheckBlockIndex_consistent cs1); [discriminate|]. injection Ei as <-.
      destruct Hrej as (rj & Hr & _). discriminate.
  - cbn [snd] in Hrej. destruct Hrej as (rj & [= ->] & Hs).
    specialize (Hchecks rj eq_refl). rewrite Hs in Hchecks.
    revert Hchecks. apply (bool_decide_unpack _). vm_compute. reflexivity.
Qed.

(** X15.  A header that is new, is not the genesis header and is accepted
    enters the block index as a child of its parent: one above it in
    height, valid up to the tree level, without transactions or data, and
    dirty; the parent is known and carries no failure bit, the header is
    later than the median time past of the parent and at most two hours
    ahead of the adjusted time, and the header is signalled as accepted. *)
Theorem AcceptBlockHeader_new_entry cs block cs' ppindex :
  CBlock.GetHash block <> hashGenesisBlock ->
  mapBlockIndex cs !! CBlock.GetHash block = None ->
  AcceptBlockHeader cf cs block = (cs', ppindex, Ok tt) ->
  exists pindexPrev e,
    ppindex = Some (CBlock.GetHash block)
    /\ mapBlockIndex cs !! CBlock.hashPrevBlock block = Some pindexPrev
    /\ Z.land (CBlockIndex.nStatus pindexPrev) BLOCK_FAILED_MASK = 0
    /\ GetMedianTimePast (mapBlockIndex cs) pindexPrev < CBlock.GetBlockTime block
       <= GetAdjustedTime + MAX_FUTURE_BLOCK_TIME
    /\ mapBlockIndex cs' !! CBlock.GetHash block = Some e
    /\ CBlockIndex.phashBlock e = Some (CBlock.GetHash block)
    /\ CBlockIndex.pprev e = Some (CBlock.hashPrevBlock block)
    /\ CBlockIndex.nHeight e = Int.s32 (CBlockIndex.nHeight pindexPrev + 1)
    /\ CBlockIndex.nStatus e = BLOCK_VALID_TREE
    /\ CBlockIndex.nTx e = 0 /\ CBlockIndex.nChainTx e = 0
    /\ CBlockIndex.nSequenceId e = 0
    /\ CBlock.GetHash block ∈ setDirtyBlockIndex cs'
    /\ vAcceptedBlockHeader cs' = vAcceptedBlockHeader cs ++ [CBlock.GetHash block].
Proof.
  intros Hgen Hnew. unfold AcceptBlockHeader.
  apply Z.eqb_neq in Hgen. rewrite Hgen. cbn [negb]. rewrite Hnew.
  destruct (CheckBlockHeader (mapBlockIndex cs) block true) as [[]|];
    [|discriminate].
  cbn [mbind outcome_bind].
  destruct (mapBlockIndex cs !! CBlock.hashPrevBlock block) as [pindexPrev|] eqn:Eprev;
    [|discriminate].
  destruct (Z.eqb_spec (Z.land (CBlockIndex.nStatus pindexPrev) BLOCK_FAILED_MASK) 0)
    as [Hok|]; [|discriminate].
  cbn [negb].
  match goal with
  | |- context [(if fCheckpointsEnabled cf then ?a else ?b) ≫= _] =>
    destruct (if fCheckpointsEnabled cf then a else b) as [[]|]; [|discriminate]
  end.
  cbn [mbind outcome_bind].
  destruct (ContextualCheckBlockHeader (mapBlockIndex cs) block pindexPrev) as [[]|] eqn:Ectx;
    [|discriminate].
  assert (Htime : GetMedianTimePast (mapBlockIndex cs) pindexPrev < CBlock.GetBlockTime block
                  <= GetAdjustedTime + MAX_FUTURE_BLOCK_TIME).
  { unfold ContextualCheckBlockHeader in Ectx.
    destruct (negb _); [discriminate|].
    destruct (Z.leb_spec (CBlock.GetBlockTime block)
                (GetMedianTimePast (mapBlockIndex cs) pindexPrev)); [discriminate|].
    destruct (Z.ltb_spec (GetAdjustedTime + MAX_FUTURE_BLOCK_TIME)
                (CBlock.GetBlockTime block)); [discriminate|]. lia. }
  assert (Hne : CBlock.hashPrevBlock block <> CBlock.GetHash block)
    by (intros Heq; rewrite Heq in Eprev; congruence).
  unfold AddToBlockIndex. rewrite Hnew. rewrite lookup_insert_ne by (apply not_eq_sym, Hne).
  rewrite Eprev.
  match goal with
  | |- context [CheckBlockIndex cf ?c] => destruct (CheckBlockIndex cf c) as [[]|];
                                          [|discriminate]
  end.
  intros [= <- <-]. exists pindexPrev. eexists.
  cbn [mapBlockIndex setDirtyBlockIndex vAcceptedBlockHeader].
  split; [reflexivity|]. split; [reflexivity|]. split; [exact Hok|]. split; [exact Htime|].
  split; [apply lookup_insert_eq|].
  unfold CBlockIndex.RaiseValidity.
  cbn [CBlockIndex.nStatus CBlockIndex.phashBlock CBlockIndex.pprev CBlockIndex.nHeight
       CBlockIndex.nTx CBlockIndex.nChainTx CBlockIndex.nSequenceId].
  change (negb (Z.land 0 BLOCK_FAILED_MASK =? 0)) with false. cbv iota.
  change (Z.land 0 BLOCK_VALID_MASK <? BLOCK_VALID_TREE) with true. cbv iota.
  cbn [CBlockIndex.nStatus CBlockIndex.phashBlock CBlockIndex.pprev CBlockIndex.nHeight
       CBlockIndex.nTx CBlockIndex.nChainTx CBlockIndex.nSequenceId].
  repeat (split; [reflexivity|]). split; [|reflexivity].
  apply elem_of_union. left. now apply elem_of_singleton.
Qed.

(** What [AcceptBlockHeader] does to the block index: entries that exist
    stay as they are, and an accepted header has an entry. *)
Lemma AcceptBlockHeader_index cs block :
  (forall h e, mapBlockIndex cs !! h = Some e ->
               mapBlockIndex (AcceptBlockHeader cf cs block).1.1 !! h = Some e)
  /\ ((AcceptBlockHeader cf cs block).2 = Ok tt ->
      is_Some (mapBlockIndex (AcceptBlockHeader cf cs block).1.1 !! CBlock.GetHash block)).
Proof.
  unfold AcceptBlockHeader.
  match goal with
  | |- context [match ?x with Some _ => _ | None => _ end] =>
    destruct x as [pindex|] eqn:Eknown
  end.
  { cbn [fst snd]. split; [auto|]. intros _.
    destruct (negb _); [eauto | discriminate]. }
  match goal with
  | |- context [match ?x with Ok _ => _ | Fail _ => _ end] => destruct x as [[]|f]
  end.
  2: { cbn [fst snd]. split; [auto | discriminate]. }
  pose proof (AddToBlockIndex_frame cs block) as Hadd. cbv zeta in Hadd.
  destruct (AddToBlockIndex cs block) as [cs1 p]. cbn [fst snd] in Hadd.
  destruct Hadd as (_ & Hother & Hsame & Hentry & _).
  assert (Hkeep : forall h e, mapBlockIndex cs !! h = Some e ->
                              mapBlockIndex cs1 !! h = Some e).
  { intros h e He. destruct (decide (h = CBlock.GetHash block)) as [->|Hne].
    - now rewrite (Hsame e He).
    - now rewrite Hother. }
  destruct (CheckBlockIndex cf cs1) as [[]|]; cbn [fst snd mapBlockIndex];
    (split; [exact Hkeep|]); [intros _; exact Hentry | discriminate].
Qed.

(** X16.  [ProcessNewBlockHeaders] only ever adds to the block index: an
    entry that exists is still there, unchanged, afterwards, whether the
    headers were accepted or one of them failed; and when all were
    accepted, every one of them has an entry. *)
Theorem ProcessNewBlockHeaders_grows : forall headers cs ppindex,
  let res := ProcessNewBlockHeaders cf cs headers ppindex in
  (forall h e, mapBlockIndex cs !! h = Some e -> mapBlockIndex res.1.1 !! h = Some e)
  /\ (res.2 = Ok tt ->
      Forall (fun header => is_Some (mapBlockIndex res.1.1 !! CBlock.GetHash header))
             headers).
Proof.
  cbv zeta. induction headers as [|header rest IH]; intros cs ppindex.
  - cbn. split; [auto | constructor].
  - cbn [ProcessNewBlockHeaders].
    pose proof (AcceptBlockHeader_index cs header) as [Hkeep Hentry].
    destruct (AcceptBlockHeader cf cs header) as [[cs1 p] r]. cbn [fst snd] in *.
    destruct r as [[]|f]; cbn [fst snd].
    + destruct (IH cs1 (match p with Some _ => p | None => ppindex end)) as [IH1 IH2].
      split; [intros h e He; apply IH1, Hkeep, He|].
      intros Hok. constructor; [|exact (IH2 Hok)].
      destruct (Hentry eq_refl) as [e He]. exists e. now apply IH1.
    + split; [exact Hkeep | discriminate].
Qed.

End HeaderTreeFacts.

Lemma AcceptBlockHeader_bad_prevblk_witness :
  (AcceptBlockHeader (H := sample_externals) (H0 := sample_chain_externals)
     sample_chain_flags sample_chain (CBlock.mk 2 999 0 2000 0 0 105 [] false)).2
  = reject (DoS 10 REJECT_NONE "bad-prevblk" false).
Proof.
  pose proof (AcceptBlockHeader_bad_prevblk (H := sample_externals)
                (H0 := sample_chain_externals) sample_chain_flags sample_chain
                (CBlock.mk 2 999 0 2000 0 0 105 [] false)) as W.
  cbv zeta in W.
  destruct W as (W & _); [vm_compute; discriminate | reflexivity | reflexivity |].
  apply W. reflexivity.
Defined.

Lemma AcceptBlockHeader_new_entry_witness :
  exists cs' e,
    AcceptBlockHeader (H := sample_externals) (H0 := sample_chain_externals)
      sample_chain_flags sample_chain (sample_block 105 [])
    = (cs', Some 105, Ok tt)
    /\ mapBlockIndex cs' !! 105 = Some e
    /\ CBlockIndex.nHeight e = 105
    /\ CBlockIndex.nStatus e = BLOCK_VALID_TREE.
Proof.
  destruct (AcceptBlockHeader (H := sample_externals) (H0 := sample_chain_externals)
              sample_chain_flags sample_chain (sample_block 105 []))
    as [[cs' pp] [[]|f]] eqn:E; [|vm_compute in E; discriminate E].
  destruct (AcceptBlockHeader_new_entry (H := sample_externals)
              (H0 := sample_chain_externals) sample_chain_flags sample_chain
              (sample_block 105 []) cs' pp)
    as (prev & e & Hpp & Hprev & _ & _ & He & _ & _ & Hh & Hs & _);
    [vm_compute; discriminate | reflexivity | exact E |].
  exists cs', e. rewrite Hpp. split; [reflexivity|]. split; [exact He|].
  split; [|exact Hs]. rewrite Hh.
  vm_compute in Hprev. injection Hprev as <-. reflexivity.
Defined.
(** ** The best header, version majorities and the witness commitment *)

Section TreeFacts.
Context `{Externals} `{ChainExternals}.

(** X17.  [AddToBlockIndex] keeps the best header the entry with the most
    work: where no entry of the index had more chain work than the best
    header before a header is added, none has afterwards; the new entry
    replaces the best header only with strictly more work, so of two
    entries with the same work the one that came first stays. *)
Theorem AddToBlockIndex_best_header cs block :
  best_header_has_most_work cs ->
  best_header_has_most_work (AddToBlockIndex cs block).1
  /\ (forall p b e,
        pindexBestHeader cs = Some p -> mapBlockIndex cs !! p = Some b ->
        mapBlockIndex (AddToBlockIndex cs block).1 !! CBlock.GetHash block = Some e ->
        CBlockIndex.nChainWork e <= CBlockIndex.nChainWork b ->
        pindexBestHeader (AddToBlockIndex cs block).1 = Some p).
Proof.
  intros Hinv. unfold AddToBlockIndex.
  destruct (mapBlockIndex cs !! CBlock.GetHash block) as [e0|] eqn:Ek; cbn [fst].
  { split; [exact Hinv | auto]. }
  match goal with
  | |- context [<[_ := ?n]> (mapBlockIndex cs)] => set (new3 := n)
  end.
  unfold best_header_has_most_work in *. cbn [pindexBestHeader mapBlockIndex].
  destruct (pindexBestHeader cs) as [p|] eqn:Ep; cbn [at_ mbind option_bind].
  - destruct Hinv as (b & Hb & Hmax). rewrite Hb.
    assert (Hne : p <> CBlock.GetHash block) by (intros ->; congruence).
    destruct (Z.ltb_spec (CBlockIndex.nChainWork b) (CBlockIndex.nChainWork new3))
      as [Hlt|Hge].
    + split.
      * exists new3. split; [apply lookup_insert_eq|]. intros h e.
        destruct (decide (h = CBlock.GetHash block)) as [->|Hh].
        -- rewrite lookup_insert_eq. intros [= <-]. lia.
        -- rewrite lookup_insert_ne by (apply not_eq_sym, Hh). intros He.
           specialize (Hmax h e He). lia.
      * intros p' b' e [= <-]. rewrite Hb, lookup_insert_eq. intros [= <-] [= <-]. lia.
    + split; [|intros p' b' e [= <-] _ _ _; reflexivity].
      exists b. split; [now rewrite lookup_insert_ne by (apply not_eq_sym, Hne)|].
      intros h e. destruct (decide (h = CBlock.GetHash block)) as [->|Hh].
      * rewrite lookup_insert_eq. intros [= <-]. exact Hge.
      * rewrite lookup_insert_ne by (apply not_eq_sym, Hh). apply Hmax.
  - split; [|discriminate]. exists new3. split; [apply lookup_insert_eq|]. intros h e.
    destruct (decide (h = CBlock.GetHash block)) as [->|Hh].
    + rewrite lookup_insert_eq. intros [= <-]. lia.
    + rewrite lookup_insert_ne by (apply not_eq_sym, Hh). rewrite Hinv.
      rewrite lookup_empty. discriminate.
Qed.

(** The count of [IsSuperMajority] grows by at most one per block looked
    at. *)
Lemma IsSuperMajority_loop_bound m minVersion nRequired : forall window pstart nFound,
  0 <= nFound ->
  0 <= IsSuperMajority_loop m window minVersion pstart nRequired nFound
  <= nFound + Z.of_nat window.
Proof.
  induction window as [|k IH]; intros pstart nFound Hf; cbn [IsSuperMajority_loop]; [lia|].
  destruct (nFound <? nRequired); [|lia]. destruct pstart as [b|]; [|lia].
  destruct (minVersion <=? CBlockIndex.nVersion b).
  - assert (Hu : 0 <= Int.u32 (nFound + 1) <= nFound + 1).
    { unfold Int.u32. pose proof (Z.mod_pos_bound (nFound + 1) (2 ^ 32) ltac:(lia)).
      pose proof (Z.mod_le (nFound + 1) (2 ^ 32) ltac:(lia) ltac:(lia)). lia. }
    specialize (IH (at_ m (CBlockIndex.pprev b)) (Int.u32 (nFound + 1)) ltac:(lia)). lia.
  - specialize (IH (at_ m (CBlockIndex.pprev b)) nFound Hf). lia.
Qed.

(** A lower version is found at least as often. *)
Lemma IsSuperMajority_loop_monotone m v v' nRequired :
  v' <= v -> nRequired < 2 ^ 32 ->
  forall window pstart nFound nFound',
    0 <= nFound <= nFound' ->
    nRequired <= IsSuperMajority_loop m window v pstart nRequired nFound ->
    nRequired <= IsSuperMajority_loop m window v' pstart nRequired nFound'.
Proof.
  intros Hv Hn. induction window as [|k IH]; intros pstart nFound nFound' Hf;
    cbn [IsSuperMajority_loop]; [lia|].
  destruct (Z.ltb_spec nFound' nRequired) as [Hc'|Hc']; [|lia].
  destruct (Z.ltb_spec nFound nRequired) as [Hc|Hc]; [|lia].
  destruct pstart as [b|]; [|lia].
  assert (Hu : forall c, 0 <= c < nRequired -> Int.u32 (c + 1) = c + 1).
  { intros c Hc0. unfold Int.u32. apply Z.mod_small. lia. }
  apply IH.
  destruct (Z.leb_spec v (CBlockIndex.nVersion b)) as [H1|H1];
    destruct (Z.leb_spec v' (CBlockIndex.nVersion b)) as [H2|H2];
    rewrite ?Hu by lia; lia.
Qed.

(** X18.  [IsSuperMajority] is monotone in the version asked for: a
    supermajority for a version is one for every lower version.  And the
    window bounds the count: a requirement above the size of the window is
    never met. *)
Theorem IsSuperMajority_monotone m minVersion minVersion' pstart nRequired :
  (minVersion' <= minVersion ->
   IsSuperMajority m minVersion pstart nRequired = true ->
   IsSuperMajority m minVersion' pstart nRequired = true)
  /\ (Z.max 0 nMajorityWindow < Int.u32 nRequired ->
      IsSuperMajority m minVersion pstart nRequired = false).
Proof.
  unfold IsSuperMajority. split.
  - intros Hv Hs. apply Z.leb_le in Hs. apply Z.leb_le.
    eapply IsSuperMajority_loop_monotone; [exact Hv | | | exact Hs].
    + unfold Int.u32. apply Z.mod_pos_bound. lia.
    + lia.
  - intros Hw. apply Z.leb_gt.
    pose proof (IsSuperMajority_loop_bound m minVersion (Int.u32 nRequired)
                  (Z.to_nat nMajorityWindow) pstart 0 ltac:(lia)). lia.
Qed.

Variable cf : ChainFlags.
Variable limits : Limits.

(** The loop of [GetWitnessCommitmentIndex] keeps the last output that
    carries the commitment header. *)
Lemma GetWitnessCommitmentIndex_loop_last : forall vout o commitpos,
  (GetWitnessCommitmentIndex_loop vout o commitpos = commitpos
   /\ Forall (fun out => is_commitment (CTxOut.scriptPubKey out) = false) vout)
  \/ exists j out,
       GetWitnessCommitmentIndex_loop vout o commitpos = Some (o + j)%nat
       /\ vout !! j = Some out
       /\ is_commitment (CTxOut.scriptPubKey out) = true
       /\ forall j' out', (j < j')%nat -> vout !! j' = Some out' ->
            is_commitment (CTxOut.scriptPubKey out') = false.
Proof.
  induction vout as [|out rest IH]; intros o commitpos; cbn [GetWitnessCommitmentIndex_loop].
  - left. split; [reflexivity | constructor].
  - destruct (IH (S o) (if is_commitment (CTxOut.scriptPubKey out) then Some o
                        else commitpos))
      as [[Hr Hnone]|(j & out1 & Hr & Hj & Hc & Hlast)].
    + destruct (is_commitment (CTxOut.scriptPubKey out)) eqn:Ec.
      * right. exists 0%nat, out. rewrite Hr, Nat.add_0_r.
        split; [reflexivity|]. split; [reflexivity|]. split; [exact Ec|].
        intros [|j'] out' Hlt Hlook; [lia|]. cbn in Hlook.
        rewrite Forall_forall in Hnone. apply Hnone.
        eapply list_elem_of_lookup_2, Hlook.
      * left. split; [exact Hr | now constructor].
    + right. exists (S j), out1. rewrite Hr.
      split; [f_equal; lia|]. split; [exact Hj|]. split; [exact Hc|].
      intros [|j'] out' Hlt Hlook; [lia|]. cbn in Hlook.
      apply (Hlast j' out'); [lia | exact Hlook].
Qed.

(** X19.  [GetWitnessCommitmentIndex] answers with the last output of the
    coinbase whose script carries the commitment header: the output at the
    index it returns does, no later output does, and it returns none only
    when no output of the coinbase does. *)
Theorem GetWitnessCommitmentIndex_last block commitpos :
  GetWitnessCommitmentIndex block = Ok commitpos ->
  exists tx0,
    head (CBlock.vtx block) = Some tx0
    /\ match commitpos with
       | None =>
         Forall (fun out => is_commitment (CTxOut.scriptPubKey out) = false)
                (CTransaction.vout tx0)
       | Some pos =>
         exists out,
           CTransaction.vout tx0 !! pos = Some out
           /\ is_commitment (CTxOut.scriptPubKey out) = true
           /\ forall j out', (pos < j)%nat -> CTransaction.vout tx0 !! j = Some out' ->
                is_commitment (CTxOut.scriptPubKey out') = false
       end.
Proof.
  unfold GetWitnessCommitmentIndex.
  destruct (head (CBlock.vtx block)) as [tx0|]; [|discriminate].
  cbn [deref mbind outcome_bind]. intros [= <-]. exists tx0. split; [reflexivity|].
  destruct (GetWitnessCommitmentIndex_loop_last (CTransaction.vout tx0) 0 None)
    as [[Hr Hnone]|(j & out & Hr & Hj & Hc & Hlast)]; rewrite Hr.
  - exact Hnone.
  - cbn [Nat.add]. exists out. auto.
Qed.

End TreeFacts.

Lemma AddToBlockIndex_best_header_witness :
  best_header_has_most_work
    (AddToBlockIndex (H0 := sample_chain_externals) sample_chain (sample_block 105 [])).1.
Proof.
  apply (AddToBlockIndex_best_header (H0 := sample_chain_externals) sample_chain
           (sample_block 105 [])).
  exists sample_parent. split; [reflexivity|]. intros h e He.
  change (mapBlockIndex sample_chain) with ({[ 104 := sample_parent ]} : BlockMap) in He.
  apply lookup_singleton_Some in He as [_ <-]. lia.
Defined.

Lemma GetWitnessCommitmentIndex_last_witness :
  exists tx0, head (CBlock.vtx sample_block_spend) = Some tx0
              /\ Forall (fun out => is_commitment (CTxOut.scriptPubKey out) = false)
                        (CTransaction.vout tx0).
Proof.
  exact (GetWitnessCommitmentIndex_last sample_block_spend None eq_refl).
Defined.
(** ** The block files and the data of a block *)

Section StoreFacts.
Context `{Externals} `{ChainExternals}.
Variable cf : ChainFlags.
Variable limits : Limits.

Lemma block_file_size_resize files n i :
  block_file_size (resize_files files n) i = block_file_size files i.
Proof.
  unfold block_file_size, resize_files.
  destruct (Nat.lt_ge_cases i (length files)) as [Hlt|Hge].
  - now rewrite lookup_app_l.
  - rewrite lookup_app_r by exact Hge. rewrite (lookup_ge_None_2 files i Hge).
    destruct (replicate _ _ !! _) as [x|] eqn:E; [|reflexivity].
    now apply lookup_replicate in E as [-> _].
Qed.

Lemma length_resize_files files n : (n <= length (resize_files files n))%nat.
Proof. unfold resize_files. rewrite length_app, length_replicate. lia. Qed.

Lemma lookup_resize_files files n i info :
  files !! i = Some info -> resize_files files n !! i = Some info.
Proof. intros Hi. unfold resize_files. now apply lookup_app_l_Some. Qed.

(** The file the [while] loop of [FindBlockPos] stops at has room, and the
    files it passed had none. *)
Lemma FindBlockPos_file_spec nAddSize : forall files nFile0 nFile,
  FindBlockPos_file files nAddSize nFile0 = Some nFile ->
  (nFile0 <= nFile)%nat
  /\ Int.u32 (block_file_size files (nFile - nFile0) + nAddSize) < MAX_BLOCKFILE_SIZE
  /\ forall i, (i < nFile - nFile0)%nat ->
       MAX_BLOCKFILE_SIZE <= Int.u32 (block_file_size files i + nAddSize).
Proof.
  induction files as [|info rest IH]; intros nFile0 nFile; cbn [FindBlockPos_file].
  - destruct (Z.leb_spec MAX_BLOCKFILE_SIZE (Int.u32 (0 + nAddSize))) as [|Hroom];
      [discriminate|].
    intros [= <-]. rewrite Nat.sub_diag. split; [lia|]. split; [exact Hroom | lia].
  - destruct (Z.leb_spec MAX_BLOCKFILE_SIZE (Int.u32 (nSize info + nAddSize)))
      as [Hfull|Hroom].
    + intros Hf. apply IH in Hf as (Hle & Hr & Hall).
      split; [lia|]. replace (nFile - nFile0)%nat with (S (nFile - S nFile0)) by lia.
      split; [exact Hr|]. intros [|i] Hi; [exact Hfull|]. apply Hall. lia.
    + intros [= <-]. rewrite Nat.sub_diag. split; [lia|]. split; [exact Hroom | lia].
Qed.

(** X20.  Where [FindBlockPos] finds a place for a block that is not yet
    on disk, the place is the end of the first block file, from the last
    one used on, that has room: the position is the size of that file,
    every file passed over was too full, and the file grows by the bytes
    asked for and stays below [MAX_BLOCKFILE_SIZE].  The other files, the
    block index and the chain are as before, and the file is marked
    dirty. *)
Theorem FindBlockPos_allocates cs pos0 nAddSize nHeight nTime cs' pos :
  (forall info h t, nSize (CBlockFileInfo_AddBlock info h t) = nSize info) ->
  FindBlockPos cf cs pos0 nAddSize nHeight nTime false = (cs', Ok pos) ->
  exists nFile info',
    pos = (Z.of_nat nFile, block_file_size (vinfoBlockFile cs) nFile)
    /\ (Z.to_nat (Int.u32 (nLastBlockFile cs)) <= nFile)%nat
    /\ (forall i, (Z.to_nat (Int.u32 (nLastBlockFile cs)) <= i < nFile)%nat ->
          MAX_BLOCKFILE_SIZE
          <= Int.u32 (block_file_size (vinfoBlockFile cs) i + nAddSize))
    /\ vinfoBlockFile cs' !! nFile = Some info'
    /\ nSize info' = Int.u32 (pos.2 + nAddSize)
    /\ nSize info' < MAX_BLOCKFILE_SIZE
    /\ (forall i info, i <> nFile -> vinfoBlockFile cs !! i = Some info ->
          vinfoBlockFile cs' !! i = Some info)
    /\ Z.of_nat nFile ∈ setDirtyFileInfo cs'
    /\ mapBlockIndex cs' = mapBlockIndex cs
    /\ chainActive_Tip cs' = chainActive_Tip cs.
Proof.
  intros Hadd. unfold FindBlockPos. cbv zeta.
  set (nFile0 := Z.to_nat (Int.u32 (nLastBlockFile cs))).
  set (files0 := resize_files (vinfoBlockFile cs) (S nFile0)).
  destruct (FindBlockPos_file (drop nFile0 files0) nAddSize nFile0) as [nFile|] eqn:Ef;
    [|discriminate].
  apply FindBlockPos_file_spec in Ef as (Hle & Hroom & Hfull).
  assert (Hsize : forall k, block_file_size (drop nFile0 files0) k
                            = block_file_size (vinfoBlockFile cs) (nFile0 + k)).
  { intros k. unfold block_file_size at 1. rewrite lookup_drop.
    fold (block_file_size files0 (nFile0 + k)). apply block_file_size_resize. }
  rewrite Hsize in Hroom. replace (nFile0 + (nFile - nFile0))%nat with nFile in Hroom by lia.
  set (files1 := resize_files files0 (S nFile)).
  assert (Hinfo : nSize (default CBlockFileInfo_null (files1 !! nFile))
                  = block_file_size (vinfoBlockFile cs) nFile).
  { fold (block_file_size files1 nFile). unfold files1, files0.
    now rewrite !block_file_size_resize. }
  cbn [negb andb fst snd].
  match goal with
  | |- context [if ?b then Fail ReturnedFalse else _] => destruct b; [discriminate|]
  end.
  intros [= <- <-].
  cbn [vinfoBlockFile setDirtyFileInfo mapBlockIndex chainActive_Tip fst snd].
  eexists nFile, _. rewrite Hinfo.
  split; [reflexivity|]. split; [exact Hle|]. split.
  { intros i Hi. specialize (Hfull (i - nFile0)%nat ltac:(lia)). rewrite Hsize in Hfull.
    now replace (nFile0 + (i - nFile0))%nat with i in Hfull by lia. }
  split.
  { apply list_lookup_insert_eq. pose proof (length_resize_files files0 (S nFile)) as Hlen.
    fold files1 in Hlen. lia. }
  unfold set_nSize. cbn [nSize]. rewrite Hadd, Hinfo.
  split; [reflexivity|]. split; [exact Hroom|]. split.
  { intros i info Hne Hi. rewrite list_lookup_insert_ne by (apply not_eq_sym, Hne).
    unfold files1, files0. now apply lookup_resize_files, lookup_resize_files. }
  split; [|split; reflexivity].
  apply elem_of_union. left. now apply elem_of_singleton.
Qed.

Lemma land_pow2 x k :
  0 <= k -> Z.land x (2 ^ k) = if Z.testbit x k then 2 ^ k else 0.
Proof.
  intros Hk. apply Z.bits_inj'. intros n Hn. rewrite Z.land_spec.
  rewrite Z.pow2_bits_eqb by lia.
  destruct (Z.eqb_spec k n) as [<-|Hne].
  - rewrite andb_true_r. destruct (Z.testbit x k) eqn:E; [|now rewrite Z.bits_0].
    rewrite Z.pow2_bits_eqb by lia. now rewrite Z.eqb_refl.
  - rewrite andb_false_r. destruct (Z.testbit x k); [|now rewrite Z.bits_0].
    rewrite Z.pow2_bits_eqb by lia. symmetry. now apply Z.eqb_neq.
Qed.

Lemma land_HAVE_DATA s :
  Z.testbit s 3 = true -> Z.land s BLOCK_HAVE_DATA = BLOCK_HAVE_DATA.
Proof.
  intros Hs. change BLOCK_HAVE_DATA with (2 ^ 3). rewrite land_pow2 by lia.
  now rewrite Hs.
Qed.

(** Raising the validity level leaves the status flags alone. *)
Lemma RaiseValidity_flags b nUpTo k :
  0 <= nUpTo < 8 -> 3 <= k ->
  Z.testbit (CBlockIndex.nStatus (CBlockIndex.RaiseValidity b nUpTo)) k
  = Z.testbit (CBlockIndex.nStatus b) k.
Proof.
  intros Hn Hk. unfold CBlockIndex.RaiseValidity.
  destruct (negb _); [reflexivity|]. destruct (_ <? _); [|reflexivity].
  cbn [CBlockIndex.nStatus]. rewrite Z.lor_spec, Z.land_spec.
  assert (H7 : Z.testbit (Z.lnot BLOCK_VALID_MASK) k = true).
  { rewrite Z.lnot_spec by lia. change BLOCK_VALID_MASK with (Z.ones 3).
    rewrite Z.ones_spec_high by lia. reflexivity. }
  assert (Hu : Z.testbit nUpTo k = false).
  { destruct (Z.eq_dec nUpTo 0) as [->|]; [apply Z.bits_0|].
    apply Z.bits_above_log2; [lia|].
    assert (Z.log2 nUpTo < 3) by (apply Z.log2_lt_pow2; lia). lia. }
  rewrite H7, Hu, andb_true_r, orb_false_r. reflexivity.
Qed.

Lemma RaiseValidity_data b nUpTo :
  CBlockIndex.nFile (CBlockIndex.RaiseValidity b nUpTo) = CBlockIndex.nFile b
  /\ CBlockIndex.nDataPos (CBlockIndex.RaiseValidity b nUpTo) = CBlockIndex.nDataPos b
  /\ CBlockIndex.nUndoPos (CBlockIndex.RaiseValidity b nUpTo) = CBlockIndex.nUndoPos b
  /\ CBlockIndex.nTx (CBlockIndex.RaiseValidity b nUpTo) = CBlockIndex.nTx b
  /\ CBlockIndex.nChainTx (CBlockIndex.RaiseValidity b nUpTo) = CBlockIndex.nChainTx b.
Proof.
  unfold CBlockIndex.RaiseValidity. destruct (negb _); [auto|].
  destruct (_ <? _); cbn; auto.
Qed.

(** The queue of [ReceivedBlockTransactions] rewrites the chain transaction
    count and the sequence id of the entries it visits, and nothing else of
    the block index. *)
Lemma ReceivedBlockTransactions_queue_keeps : forall fuel cs queue cs',
  ReceivedBlockTransactions_queue fuel cs queue = Ok cs' ->
  (forall h e, mapBlockIndex cs !! h = Some e ->
     exists nChainTx nSequenceId,
       mapBlockIndex cs' !! h = Some (set_chain_fields e nChainTx nSequenceId))
  /\ setDirtyBlockIndex cs' = setDirtyBlockIndex cs
  /\ vinfoBlockFile cs' = vinfoBlockFile cs
  /\ vBlocksOnDisk cs' = vBlocksOnDisk cs
  /\ chainActive_Tip cs' = chainActive_Tip cs
  /\ fAbortRequested cs' = fAbortRequested cs
  /\ fCheckForPruning cs' = fCheckForPruning cs.
Proof.
  assert (Hid : forall e, e = set_chain_fields e (CBlockIndex.nChainTx e)
                                               (CBlockIndex.nSequenceId e))
    by (now intros []).
  induction fuel as [|fuel IH]; intros cs queue cs'.
  - destruct queue; [|discriminate]. intros [= <-].
    split; [|auto 10]. intros h e He. rewrite He. eexists _, _. f_equal. apply Hid.
  - destruct queue as [|p queue]; cbn [ReceivedBlockTransactions_queue].
    { intros [= <-]. split; [|auto 10]. intros h e He. rewrite He. eexists _, _.
      f_equal. apply Hid. }
    unfold deref_index.
    destruct (mapBlockIndex cs !! p) as [pindex|] eqn:Ep; [|discriminate].
    cbn [deref mbind outcome_bind].
    match goal with
    | |- (?r ≫= _) = _ -> _ => destruct r as [prevTx|]; [|discriminate]
    end.
    cbn [mbind outcome_bind].
    match goal with
    | |- (?r ≫= _) = _ -> _ => destruct r as [candidate|]; [|discriminate]
    end.
    cbn [mbind outcome_bind]. intros Hq.
    apply IH in Hq as (Hm & Hd & Hf & Hb & Ht & Ha & Hp).
    cbn [mapBlockIndex setDirtyBlockIndex vinfoBlockFile vBlocksOnDisk chainActive_Tip
         fAbortRequested fCheckForPruning] in *.
    split; [|auto 10]. intros h e He.
    destruct (decide (h = p)) as [->|Hne].
    + rewrite Ep in He. injection He as <-.
      destruct (Hm p _ (lookup_insert_eq _ _ _)) as (c & s & Hc).
      exists c, s. rewrite Hc. reflexivity.
    + apply Hm. now rewrite lookup_insert_ne by (apply not_eq_sym, Hne).
Qed.

(** What [ReceivedBlockTransactions] does to the state. *)
Lemma ReceivedBlockTransactions_inv cs block pindexNew pos cs' :
  ReceivedBlockTransactions cs block pindexNew pos = Ok cs' ->
  exists b e,
    mapBlockIndex cs !! pindexNew = Some b
    /\ mapBlockIndex cs' !! pindexNew = Some e
    /\ CBlockIndex.nFile e = pos.1 /\ CBlockIndex.nDataPos e = pos.2
    /\ CBlockIndex.nUndoPos e = 0
    /\ CBlockIndex.nTx e = Int.u32 (Z.of_nat (length (CBlock.vtx block)))
    /\ Z.land (CBlockIndex.nStatus e) BLOCK_HAVE_DATA = BLOCK_HAVE_DATA
    /\ pindexNew ∈ setDirtyBlockIndex cs'
    /\ (forall h x, h <> pindexNew -> mapBlockIndex cs !! h = Some x ->
          exists nChainTx nSequenceId,
            mapBlockIndex cs' !! h = Some (set_chain_fields x nChainTx nSequenceId))
    /\ vinfoBlockFile cs' = vinfoBlockFile cs
    /\ vBlocksOnDisk cs' = vBlocksOnDisk cs
    /\ fAbortRequested cs' = fAbortRequested cs
    /\ fCheckForPruning cs' = fCheckForPruning cs.
Proof.
  unfold ReceivedBlockTransactions, deref_index.
  destruct (mapBlockIndex cs !! pindexNew) as [b|] eqn:Eb; [|discriminate].
  cbn [deref mbind outcome_bind].
  match goal with
  | |- context [update_index cs pindexNew ?x true] => set (b2 := x)
  end.
  set (cs1 := update_index cs pindexNew b2 true).
  assert (Hb2 : CBlockIndex.nFile b2 = pos.1 /\ CBlockIndex.nDataPos b2 = pos.2
                /\ CBlockIndex.nUndoPos b2 = 0
                /\ CBlockIndex.nTx b2 = Int.u32 (Z.of_nat (length (CBlock.vtx block)))
                /\ Z.land (CBlockIndex.nStatus b2) BLOCK_HAVE_DATA = BLOCK_HAVE_DATA).
  { unfold b2.
    match goal with
    | |- context [CBlockIndex.RaiseValidity ?x _] =>
      destruct (RaiseValidity_data x BLOCK_VALID_TRANSACTIONS) as (-> & -> & -> & -> & _);
      pose proof (RaiseValidity_flags x BLOCK_VALID_TRANSACTIONS 3) as Hbit
    end.
    cbn [CBlockIndex.nFile CBlockIndex.nDataPos CBlockIndex.nUndoPos CBlockIndex.nTx] in *.
    repeat (split; [reflexivity|]).
    apply land_HAVE_DATA. rewrite Hbit by (unfold BLOCK_VALID_TRANSACTIONS; lia).
    cbn [CBlockIndex.nStatus]. rewrite Z.lor_spec.
    replace (Z.testbit BLOCK_HAVE_DATA 3) with true by reflexivity. apply orb_true_r. }
  assert (Hcs1 : mapBlockIndex cs1 !! pindexNew = Some b2) by apply lookup_insert_eq.
  assert (Hdirty : pindexNew ∈ setDirtyBlockIndex cs1).
  { cbn. apply elem_of_union. left. now apply elem_of_singleton. }
  assert (Hother : forall h x, h <> pindexNew -> mapBlockIndex cs !! h = Some x ->
                               mapBlockIndex cs1 !! h = Some x).
  { intros h x Hne Hx. cbn. now rewrite lookup_insert_ne by (apply not_eq_sym, Hne). }
  pose (Post := fun cs' : ChainState =>
    exists e,
      mapBlockIndex cs' !! pindexNew = Some e
      /\ CBlockIndex.nFile e = pos.1 /\ CBlockIndex.nDataPos e = pos.2
      /\ CBlockIndex.nUndoPos e = 0
      /\ CBlockIndex.nTx e = Int.u32 (Z.of_nat (length (CBlock.vtx block)))
      /\ Z.land (CBlockIndex.nStatus e) BLOCK_HAVE_DATA = BLOCK_HAVE_DATA
      /\ pindexNew ∈ setDirtyBlockIndex cs'
      /\ (forall h x, h <> pindexNew -> mapBlockIndex cs !! h = Some x ->
            exists nChainTx nSequenceId,
              mapBlockIndex cs' !! h = Some (set_chain_fields x nChainTx nSequenceId))
      /\ vinfoBlockFile cs' = vinfoBlockFile cs
      /\ vBlocksOnDisk cs' = vBlocksOnDisk cs
      /\ fAbortRequested cs' = fAbortRequested cs
      /\ fCheckForPruning cs' = fCheckForPruning cs).
  assert (Hqueue : forall fuel q,
            ReceivedBlockTransactions_queue fuel cs1 q = Ok cs' -> Post cs').
  { intros fuel q Hq.
    apply ReceivedBlockTransactions_queue_keeps in Hq
      as (Hm & Hd & Hf & Hdisk & _ & Ha & Hp).
    destruct (Hm _ _ Hcs1) as (c & s & He).
    exists (set_chain_fields b2 c s). split; [exact He|].
    cbn [set_chain_fields CBlockIndex.nFile CBlockIndex.nDataPos CBlockIndex.nUndoPos
         CBlockIndex.nTx CBlockIndex.nStatus].
    destruct Hb2 as (? & ? & ? & ? & ?). repeat (split; [assumption|]).
    split; [now rewrite Hd|].
    split; [|split; [exact Hf | split; [exact Hdisk | split; [exact Ha | exact Hp]]]].
    intros h x Hne Hx. apply Hm, Hother; assumption. }
  assert (Hparked : forall unl,
            Post (mkChainState (mapBlockIndex cs1) (pindexBestHeader cs1)
                    (setDirtyBlockIndex cs1) (chainActive_Tip cs1)
                    (setBlockIndexCandidates cs1) unl (nBlockSequenceId cs1)
                    (vinfoBlockFile cs1) (nLastBlockFile cs1) (setDirtyFileInfo cs1)
                    (fCheckForPruning cs1) (vBlocksOnDisk cs1) (vAcceptedBlockHeader cs1)
                    (fAbortRequested cs1))).
  { intros unl. exists b2. split; [exact Hcs1|].
    destruct Hb2 as (? & ? & ? & ? & ?). repeat (split; [assumption|]).
    split; [|repeat split].
    intros h x Hne Hx. exists (CBlockIndex.nChainTx x), (CBlockIndex.nSequenceId x).
    cbn [mapBlockIndex]. rewrite (Hother h x Hne Hx). now destruct x. }
  enough (Hpost : (match CBlockIndex.pprev b with
                   | Some pp =>
                     deref (mapBlockIndex cs1 !! pp)
                     ≫= fun prev =>
                          if negb (CBlockIndex.nChainTx prev =? 0)
                          then ReceivedBlockTransactions_queue
                                 (S (length (mapBlocksUnlinked cs1))) cs1 [pindexNew]
                          else if CBlockIndex.IsValid prev BLOCK_VALID_TREE
                          then Ok (mkChainState (mapBlockIndex cs1) (pindexBestHeader cs1)
                                     (setDirtyBlockIndex cs1) (chainActive_Tip cs1)
                                     (setBlockIndexCandidates cs1)
                                     (mapBlocksUnlinked cs1 ++ [(pp, pindexNew)])
                                     (nBlockSequenceId cs1) (vinfoBlockFile cs1)
                                     (nLastBlockFile cs1) (setDirtyFileInfo cs1)
                                     (fCheckForPruning cs1) (vBlocksOnDisk cs1)
                                     (vAcceptedBlockHeader cs1) (fAbortRequested cs1))
                          else Ok cs1
                   | None =>
                     ReceivedBlockTransactions_queue
                       (S (length (mapBlocksUnlinked cs1))) cs1 [pindexNew]
                   end) = Ok cs' -> Post cs').
  { intros Hr. exists b. destruct (Hpost Hr) as (e & He). exists e.
    split; [reflexivity | exact He]. }
  destruct (CBlockIndex.pprev b) as [pp|]; [|apply Hqueue].
  destruct (mapBlockIndex cs1 !! pp) as [prev|]; [|discriminate].
  cbn [deref mbind outcome_bind].
  destruct (negb (CBlockIndex.nChainTx prev =? 0)); [apply Hqueue|].
  destruct (CBlockIndex.IsValid prev BLOCK_VALID_TREE); intros [= <-].
  - apply Hparked.
  - apply (Hparked (mapBlocksUnlinked cs1)).
Qed.

(** X21.  After [ReceivedBlockTransactions] the entry of the block says
    where its data are: it carries the position handed in and the number of
    transactions, has no undo position, has [BLOCK_HAVE_DATA] set and is
    marked dirty.  Of every other entry nothing changes but, for the blocks
    that become linked, the chain transaction count and the sequence id;
    the block files are not touched. *)
Theorem ReceivedBlockTransactions_marks cs block pindexNew pos cs' :
  ReceivedBlockTransactions cs block pindexNew pos = Ok cs' ->
  exists e,
    mapBlockIndex cs' !! pindexNew = Some e
    /\ (CBlockIndex.nFile e, CBlockIndex.nDataPos e) = pos
    /\ CBlockIndex.nUndoPos e = 0
    /\ CBlockIndex.nTx e = Int.u32 (Z.of_nat (length (CBlock.vtx block)))
    /\ Z.land (CBlockIndex.nStatus e) BLOCK_HAVE_DATA = BLOCK_HAVE_DATA
    /\ pindexNew ∈ setDirtyBlockIndex cs'
    /\ (forall h x, h <> pindexNew -> mapBlockIndex cs !! h = Some x ->
          exists nChainTx nSequenceId,
            mapBlockIndex cs' !! h = Some (set_chain_fields x nChainTx nSequenceId))
    /\ vinfoBlockFile cs' = vinfoBlockFile cs
    /\ vBlocksOnDisk cs' = vBlocksOnDisk cs.
Proof.
  intros Hr.
  destruct (ReceivedBlockTransactions_inv _ _ _ _ _ Hr)
    as (b & e & _ & He & Hf & Hp & Hu & Ht & Hs & Hd & Ho & Hfiles & Hdisk & _).
  exists e. split; [exact He|]. split; [destruct pos; cbn in *; congruence|].
  auto 10.
Qed.


Lemma AcceptBlockHeader_vBlocksOnDisk cs block :
  vBlocksOnDisk (AcceptBlockHeader cf cs block).1.1 = vBlocksOnDisk cs.
Proof.
  unfold AcceptBlockHeader.
  match goal with
  | |- context [match ?x with Some _ => _ | None => _ end] => destruct x as [pindex|]
  end; [reflexivity|].
  match goal with
  | |- context [match ?x with Ok _ => _ | Fail _ => _ end] => destruct x as [[]|f]
  end; [|reflexivity].
  pose proof (AddToBlockIndex_frame cs block) as Hadd. cbv zeta in Hadd.
  destruct (AddToBlockIndex cs block) as [cs1 p']. cbn [fst snd] in Hadd.
  destruct Hadd as (_ & _ & _ & _ & _ & _ & _ & _ & _ & _ & Hd & _).
  destruct (CheckBlockIndex cf cs1); exact Hd.
Qed.






(** Pointers that lead to entries keep doing so. *)
Lemma index_closed_insert cs cs' p b b' :
  index_closed cs ->
  mapBlockIndex cs !! p = Some b ->
  CBlockIndex.pprev b' = CBlockIndex.pprev b ->
  mapBlockIndex cs' = <[p := b']> (mapBlockIndex cs) ->
  (forall pc, pc ∈ mapBlocksUnlinked cs' -> pc ∈ mapBlocksUnlinked cs) ->
  chainActive_Tip cs' = chainActive_Tip cs ->
  index_closed cs'.
Proof.
  intros (Hpar & Hun & Htip) Hp Hpp Hm Hsub Ht.
  assert (Hkeep : forall h, is_Some (mapBlockIndex cs !! h) ->
                            is_Some (mapBlockIndex cs' !! h)).
  { intros h Hh. rewrite Hm. apply lookup_insert_is_Some'. now right. }
  split; [|split].
  - intros k x pp Hk Hx. apply Hkeep. rewrite Hm in Hk.
    destruct (decide (k = p)) as [->|Hne].
    + rewrite lookup_insert_eq in Hk. injection Hk as <-.
      apply (Hpar p b pp Hp). congruence.
    + rewrite lookup_insert_ne in Hk by congruence. now apply (Hpar k x pp).
  - intros pc Hpc. apply Hkeep, Hun, Hsub, Hpc.
  - intros t Hcs'. apply Hkeep, Htip. congruence.
Qed.

Lemma AddToBlockIndex_closed cs block :
  index_closed cs -> index_closed (AddToBlockIndex cs block).1.
Proof.
  intros (Hpar & Hun & Htip). unfold AddToBlockIndex.
  destruct (mapBlockIndex cs !! CBlock.GetHash block) as [e|] eqn:Ek; cbn [fst];
    [now split|].
  set (hash := CBlock.GetHash block) in *.
  assert (Hkeep : forall h x, is_Some (mapBlockIndex cs !! h) ->
                              is_Some (<[hash := x]> (mapBlockIndex cs) !! h)).
  { intros h x Hh. apply lookup_insert_is_Some'. now right. }
  split; [|split]; cbn [mapBlockIndex mapBlocksUnlinked chainActive_Tip].
  - intros k x pp Hk Hx.
    destruct (decide (k = hash)) as [->|Hne].
    + rewrite lookup_insert_eq in Hk. injection Hk as <-.
      match type of Hx with
      | CBlockIndex.pprev (CBlockIndex.RaiseValidity ?x ?n) = _ =>
        destruct (RaiseValidity_fields x n) as (_ & Hpp & _)
      end.
      rewrite Hpp in Hx. cbn [CBlockIndex.pprev] in Hx.
      destruct (<[hash := _]> (mapBlockIndex cs) !! CBlock.hashPrevBlock block)
        as [prev|] eqn:Eprev; cbn [CBlockIndex.pprev] in Hx; [|discriminate].
      injection Hx as <-.
      destruct (decide (CBlock.hashPrevBlock block = hash)) as [->|Hnp].
      * rewrite lookup_insert_eq. eauto.
      * rewrite lookup_insert_ne in Eprev by congruence. apply Hkeep. eauto.
    + rewrite lookup_insert_ne in Hk by congruence. apply Hkeep. now apply (Hpar k x pp).
  - intros pc Hpc. apply Hkeep, Hun, Hpc.
  - intros t Ht. apply Hkeep, Htip, Ht.
Qed.

Lemma AcceptBlockHeader_closed cs block :
  index_closed cs -> index_closed (AcceptBlockHeader cf cs block).1.1.
Proof.
  intros Hc. unfold AcceptBlockHeader.
  match goal with
  | |- context [match ?x with Some _ => _ | None => _ end] => destruct x as [pindex|]
  end; [exact Hc|].
  match goal with
  | |- context [match ?x with Ok _ => _ | Fail _ => _ end] => destruct x as [[]|f]
  end; [|exact Hc].
  pose proof (AddToBlockIndex_closed cs block Hc) as Hadd.
  destruct (AddToBlockIndex cs block) as [cs1 p']. cbn [fst] in Hadd.
  destruct (CheckBlockIndex cf cs1); exact Hadd.
Qed.

Lemma length_filter_split {A} (P : A -> Prop) `{forall x, Decision (P x)} (l : list A) :
  (length (filter P l) + length (filter (fun x => ~ P x) l) = length l)%nat.
Proof.
  induction l as [|x l IH]; [reflexivity|].
  rewrite !filter_cons. destruct (decide (P x)) as [Hx|Hx].
  - rewrite decide_False by tauto. cbn [length]. lia.
  - rewrite decide_True by tauto. cbn [length]. lia.
Qed.

(** With every pointer leading to an entry, the queue of
    [ReceivedBlockTransactions] runs to its end: each turn takes the pairs
    of one parent out of [mapBlocksUnlinked], so the turns are bounded by
    the queue and the pairs left. *)
Lemma ReceivedBlockTransactions_queue_total : forall fuel cs queue,
  index_closed cs ->
  (forall p, p ∈ queue -> is_Some (mapBlockIndex cs !! p)) ->
  (length queue + length (mapBlocksUnlinked cs) <= fuel)%nat ->
  exists cs', ReceivedBlockTransactions_queue fuel cs queue = Ok cs'.
Proof.
  induction fuel as [|fuel IH]; intros cs [|p queue] Hc Hq Hlen;
    cbn [ReceivedBlockTransactions_queue]; eauto.
  { cbn [length] in Hlen. lia. }
  destruct (Hq p) as [pindex Hp]; [apply list_elem_of_here|].
  unfold deref_index. rewrite Hp. cbn [deref mbind outcome_bind].
  pose proof Hc as (Hpar & Hun & Htip).
  assert (Hprev : exists prevTx,
             match CBlockIndex.pprev pindex with
             | Some pp => prev ← deref (mapBlockIndex cs !! pp);
                          Ok (CBlockIndex.nChainTx prev)
             | None => Ok 0
             end = Ok prevTx).
  { destruct (CBlockIndex.pprev pindex) as [pp|] eqn:Epp; [|eauto].
    destruct (Hpar p pindex pp Hp Epp) as [prev ->]. cbn. eauto. }
  destruct Hprev as [prevTx ->]. cbn [mbind outcome_bind].
  set (pindex' := set_chain_fields pindex _ _).
  assert (Hcand : exists candidate,
             match chainActive_Tip cs with
             | Some t =>
               tip ← deref (<[p := pindex']> (mapBlockIndex cs) !! t);
               Ok (negb (CBlockIndexWorkComparator (p, pindex') (t, tip)))
             | None => Ok true
             end = Ok candidate).
  { destruct (chainActive_Tip cs) as [t|] eqn:Et; [|eauto].
    assert (Ht : is_Some (<[p := pindex']> (mapBlockIndex cs) !! t)).
    { apply lookup_insert_is_Some'. right. now apply Htip. }
    destruct Ht as [tip ->]. cbn. eauto. }
  destruct Hcand as [candidate ->]. cbn [mbind outcome_bind].
  apply IH.
  - eapply (index_closed_insert cs _ p pindex pindex' Hc Hp); [reflexivity | reflexivity | |].
    + intros pc Hpc. cbn [mapBlocksUnlinked] in Hpc.
      apply list_elem_of_filter in Hpc. tauto.
    + reflexivity.
  - cbn [mapBlockIndex]. intros q Hq'.
    apply lookup_insert_is_Some'. right.
    apply elem_of_app in Hq' as [Hq'|Hq'].
    + apply Hq. now apply list_elem_of_further.
    + apply list_elem_of_fmap in Hq' as (pc & -> & Hpc).
      apply list_elem_of_filter in Hpc as [_ Hpc]. now apply Hun.
  - cbn [mapBlocksUnlinked]. rewrite length_app, length_map.
    pose proof (length_filter_split (fun pc : uint256 * uint256 => pc.1 = p)
                  (mapBlocksUnlinked cs)) as Hsplit.
    cbn [length] in Hlen. lia.
Qed.

Lemma ReceivedBlockTransactions_total cs block pindexNew pos :
  index_closed cs ->
  is_Some (mapBlockIndex cs !! pindexNew) ->
  exists cs', ReceivedBlockTransactions cs block pindexNew pos = Ok cs'.
Proof.
  intros Hc [b Hb]. unfold ReceivedBlockTransactions, deref_index.
  rewrite Hb. cbn [deref mbind outcome_bind].
  match goal with
  | |- context [update_index cs pindexNew ?x true] => set (b2 := x)
  end.
  set (cs1 := update_index cs pindexNew b2 true).
  assert (Hpp : CBlockIndex.pprev b2 = CBlockIndex.pprev b).
  { unfold b2.
    match goal with
    | |- context [CBlockIndex.RaiseValidity ?x ?n] =>
      destruct (RaiseValidity_fields x n) as (_ & -> & _)
    end. reflexivity. }
  assert (Hc1 : index_closed cs1).
  { eapply (index_closed_insert cs cs1 pindexNew b b2 Hc Hb Hpp); [reflexivity | | reflexivity].
    intros pc Hpc. exact Hpc. }
  assert (Hnew : is_Some (mapBlockIndex cs1 !! pindexNew)).
  { cbn [cs1 update_index mapBlockIndex]. rewrite lookup_insert_eq. eauto. }
  assert (Hqueue : exists cs',
             ReceivedBlockTransactions_queue (S (length (mapBlocksUnlinked cs1))) cs1
                                             [pindexNew] = Ok cs').
  { apply ReceivedBlockTransactions_queue_total; [exact Hc1 | | cbn [length]; lia].
    intros p Hp. apply list_elem_of_singleton in Hp as ->. exact Hnew. }
  destruct (CBlockIndex.pprev b) as [pp|] eqn:Epp; [|exact Hqueue].
  destruct Hc as (Hpar & _).
  assert (Hprev : is_Some (mapBlockIndex cs1 !! pp)).
  { cbn [cs1 update_index mapBlockIndex]. apply lookup_insert_is_Some'. right.
    now apply (Hpar pindexNew b pp). }
  destruct Hprev as [prev ->]. cbn [deref mbind outcome_bind].
  destruct (negb (CBlockIndex.nChainTx prev =? 0)); [exact Hqueue|].
  destruct (CBlockIndex.IsValid prev BLOCK_VALID_TREE); eauto.
Qed.

Lemma FindBlockPos_tree cs pos nAddSize nHeight nTime fKnown :
  let cs' := (FindBlockPos cf cs pos nAddSize nHeight nTime fKnown).1 in
  mapBlockIndex cs' = mapBlockIndex cs
  /\ mapBlocksUnlinked cs' = mapBlocksUnlinked cs
  /\ chainActive_Tip cs' = chainActive_Tip cs
  /\ vBlocksOnDisk cs' = vBlocksOnDisk cs.
Proof.
  unfold FindBlockPos. cbv zeta.
  match goal with
  | |- context [match ?x with Some _ => _ | None => _ end] => destruct x
  end; cbn [fst]; auto.
Qed.

(** X23.  A failed write does not stop [AcceptBlock].  Take a requested
    block whose header is accepted, whose data the index does not have yet,
    which passes the checks and for which [FindBlockPos] finds a place, in
    a block tree whose pointers all lead to entries.  When the block
    cannot be written to that place the node is told to abort, and
    [AcceptBlock] carries on all the same: the entry of the block gets the
    position and [BLOCK_HAVE_DATA] as if the block were on disk, nothing
    was stored, and the answer is success with the block reported as
    new. *)
Theorem AcceptBlock_write_failure cs block cs1 p pindex cs2 blockPos :
  index_closed cs ->
  AcceptBlockHeader cf cs block = (cs1, Some p, Ok tt) ->
  mapBlockIndex cs1 !! p = Some pindex ->
  Z.land (CBlockIndex.nStatus pindex) BLOCK_HAVE_DATA = 0 ->
  (_ ← CheckBlock (mapBlockIndex cs1) limits block true true;
   ContextualCheckBlock limits (mapBlockIndex cs1) block
                        (at_ (mapBlockIndex cs1) (CBlockIndex.pprev pindex))) = Ok tt ->
  FindBlockPos cf cs1 (0, 0) (Int.u32 (Int.u32 (block_GetSerializeSize_disk block) + 8))
               (CBlockIndex.nHeight pindex) (CBlock.GetBlockTime block) false
  = (cs2, Ok blockPos) ->
  WriteBlockToDisk_at block blockPos = None ->
  let a := AcceptBlock cf limits cs block true None in
  ac_result a = Ok tt
  /\ ac_fNewBlock a = true
  /\ ac_pindex a = Some p
  /\ exists cs4 e,
       ac_state a = (if fCheckForPruning cs4 then FlushStateToDisk_none cs4 else cs4)
       /\ fAbortRequested cs4 = true
       /\ vBlocksOnDisk cs4 = vBlocksOnDisk cs
       /\ mapBlockIndex cs4 !! p = Some e
       /\ CBlockIndex.nFile e = blockPos.1
       /\ CBlockIndex.nDataPos e = blockPos.2
       /\ Z.land (CBlockIndex.nStatus e) BLOCK_HAVE_DATA = BLOCK_HAVE_DATA.
Proof.
  intros Hclosed Hhdr Hp Hdata Hchecks Hfind Hwrite a.
  pose proof (AcceptBlockHeader_closed cs block Hclosed) as Hc1.
  pose proof (AcceptBlockHeader_vBlocksOnDisk cs block) as Hdisk1.
  rewrite Hhdr in Hc1, Hdisk1. cbn [fst] in Hc1, Hdisk1.
  pose proof (FindBlockPos_tree cs1 (0, 0)
                (Int.u32 (Int.u32 (block_GetSerializeSize_disk block) + 8))
                (CBlockIndex.nHeight pindex) (CBlock.GetBlockTime block) false) as Htree.
  cbv zeta in Htree. rewrite Hfind in Htree. cbn [fst] in Htree.
  destruct Htree as (Hm2 & Hu2 & Ht2 & Hd2).
  set (cs3 := mkChainState (mapBlockIndex cs2) (pindexBestHeader cs2)
                (setDirtyBlockIndex cs2) (chainActive_Tip cs2) (setBlockIndexCandidates cs2)
                (mapBlocksUnlinked cs2) (nBlockSequenceId cs2) (vinfoBlockFile cs2)
                (nLastBlockFile cs2) (setDirtyFileInfo cs2) (fCheckForPruning cs2)
                (vBlocksOnDisk cs2) (vAcceptedBlockHeader cs2) true).
  assert (Hc3 : index_closed cs3).
  { destruct Hc1 as (Hpar & Hun & Htip).
    split; [|split]; cbn [cs3 mapBlockIndex mapBlocksUnlinked chainActive_Tip];
      rewrite ?Hm2, ?Hu2, ?Ht2; assumption. }
  destruct (ReceivedBlockTransactions_total cs3 block p blockPos Hc3) as [cs4 Hrecv].
  { cbn [cs3 mapBlockIndex]. rewrite Hm2, Hp. eauto. }
  assert (Ha : a = mkAccepted (if fCheckForPruning cs4 then FlushStateToDisk_none cs4
                               else cs4) (Some p) true (Ok tt)).
  { subst a. unfold AcceptBlock. rewrite Hhdr, Hp.
    replace (Z.land (CBlockIndex.nStatus pindex) BLOCK_HAVE_DATA =? 0) with true
      by (symmetry; apply Z.eqb_eq; exact Hdata).
    cbn [negb andb]. rewrite Hchecks.
    cbn [default bool_decide]. 
    replace (bool_decide (is_Some (@None (Z * Z)))) with false
      by (symmetry; apply bool_decide_eq_false; intros [? [=]]).
    rewrite Hfind, Hwrite. cbn [default]. fold cs3. rewrite Hrecv. reflexivity. }
  rewrite Ha. cbn [ac_result ac_fNewBlock ac_pindex ac_state].
  do 3 (split; [reflexivity|]).
  apply ReceivedBlockTransactions_inv in Hrecv
    as (b & e & _ & He & Hfile & Hpos & _ & _ & Hs & _ & _ & _ & Hd & Hab & _).
  cbn [cs3 vBlocksOnDisk fAbortRequested] in Hd, Hab.
  exists cs4, e. split; [reflexivity|]. split; [exact Hab|].
  split; [congruence|]. split; [exact He|]. auto.
Qed.

End StoreFacts.

Lemma FindBlockPos_allocates_witness :
  exists cs' info',
    FindBlockPos (H0 := sample_chain_externals) sample_chain_flags sample_chain (0, 0)
                 100 105 2000 false
    = (cs', Ok (0, 0))
    /\ vinfoBlockFile cs' !! 0%nat = Some info' /\ nSize info' = 100.
Proof.
  destruct (FindBlockPos (H0 := sample_chain_externals) sample_chain_flags sample_chain
              (0, 0) 100 105 2000 false) as [cs' [pos|f]] eqn:E;
    [|vm_compute in E; discriminate E].
  assert (Hp : pos = (0, 0)) by (vm_compute in E; now injection E).
  destruct (FindBlockPos_allocates (H0 := sample_chain_externals) sample_chain_flags
              sample_chain (0, 0) 100 105 2000 cs' pos)
    as (nFile & info' & Hpos & _ & _ & Hlook & Hsize & _);
    [intros; reflexivity | exact E |].
  subst pos. apply (f_equal fst) in Hpos. cbn [fst] in Hpos.
  assert (nFile = 0%nat) as -> by lia.
  exists cs', info'. split; [reflexivity|]. split; [exact Hlook|].
  rewrite Hsize. reflexivity.
Defined.

Lemma ReceivedBlockTransactions_marks_witness :
  exists cs' e,
    ReceivedBlockTransactions (H0 := sample_chain_externals) sample_chain
                              sample_block_spend 104 (0, 8) = Ok cs'
    /\ mapBlockIndex cs' !! 104 = Some e
    /\ (CBlockIndex.nFile e, CBlockIndex.nDataPos e) = (0, 8)
    /\ Z.land (CBlockIndex.nStatus e) BLOCK_HAVE_DATA = BLOCK_HAVE_DATA.
Proof.
  destruct (ReceivedBlockTransactions (H0 := sample_chain_externals) sample_chain
              sample_block_spend 104 (0, 8)) as [cs'|f] eqn:E;
    [|vm_compute in E; discriminate E].
  destruct (ReceivedBlockTransactions_marks (H0 := sample_chain_externals) sample_chain
              sample_block_spend 104 (0, 8) cs' E)
    as (e & He & Hpos & _ & _ & Hs & _).
  exists cs', e. auto.
Defined.


Lemma sample_chain_closed : index_closed sample_chain.
Proof.
  split; [|split].
  - intros k b pp Hk Hpp.
    change (mapBlockIndex sample_chain) with ({[104 := sample_parent]} : BlockMap) in Hk.
    apply lookup_singleton_Some in Hk as [_ <-]. discriminate Hpp.
  - intros pc Hpc. now apply elem_of_nil in Hpc.
  - intros t [= <-]. now exists sample_parent.
Qed.

Lemma AcceptBlock_write_failure_witness :
  let a := AcceptBlock (H := sample_externals) (H0 := sample_chain_externals_no_write)
             sample_chain_flags sample_limits sample_chain sample_block_spend true None in
  ac_result a = Ok tt
  /\ ac_fNewBlock a = true
  /\ exists cs4 e,
       fAbortRequested cs4 = true
       /\ vBlocksOnDisk cs4 = []
       /\ mapBlockIndex cs4 !! CBlock.GetHash sample_block_spend = Some e
       /\ CBlockIndex.nFile e = 0 /\ CBlockIndex.nDataPos e = 0.
Proof.
  pose (cs1 := (AcceptBlockHeader (H := sample_externals)
                  (H0 := sample_chain_externals_no_write)
                  sample_chain_flags sample_chain sample_block_spend).1.1).
  pose (pindex := CBlockIndex.mk (Some (CBlock.GetHash sample_block_spend))
                    (Some 104) 105 0 0 0 1 0 0 2 2 0 2000 0 0 0).
  pose (cs2 := (FindBlockPos (H0 := sample_chain_externals_no_write) sample_chain_flags cs1
                  (0, 0) 10 105 2000 false).1).
  pose proof (AcceptBlock_write_failure (H := sample_externals)
                (H0 := sample_chain_externals_no_write) sample_chain_flags sample_limits
                sample_chain sample_block_spend cs1 (CBlock.GetHash sample_block_spend)
                pindex cs2 (0, 0) sample_chain_closed) as W.
  cbv zeta in W.
  destruct W as (W1 & W2 & _ & cs4 & e & _ & W4 & W5 & W6 & W7 & W8 & _).
  - vm_compute. reflexivity.
  - vm_compute. reflexivity.
  - vm_compute. reflexivity.
  - vm_compute. reflexivity.
  - vm_compute. reflexivity.
  - reflexivity.
  - cbv zeta. split; [exact W1|]. split; [exact W2|].
    exists cs4, e. split; [exact W4|]. split; [exact W5|]. split; [exact W6|].
    split; [exact W7 | exact W8].
Defined.
(** ** Admission to the memory pool: what it changes and how it answers *)

Section DuplicateCode.

Lemma never_duplicate_code_Ok {A} (a : A) : never_duplicate_code (Ok a).
Proof. intros r Hr. discriminate. Qed.

Lemma never_duplicate_code_other {A} (f : failure) :
  (forall r, f <> Rejected r) -> never_duplicate_code (@Fail A f).
Proof. intros Hf r [= ->]. now destruct (Hf r). Qed.

Lemma never_duplicate_code_reject {A} r :
  chRejectCode r <> REJECT_DUPLICATE -> never_duplicate_code (@reject A r).
Proof. intros Hc r' [= <-]. exact Hc. Qed.

Lemma never_duplicate_code_assert b what : never_duplicate_code (assert_ b what).
Proof. destruct b; intros r Hr; discriminate. Qed.

Lemma never_duplicate_code_deref {A} (p : option A) : never_duplicate_code (deref p).
Proof. destruct p; intros r Hr; discriminate. Qed.

Lemma never_duplicate_code_bind {A B} (m : outcome A) (k : A -> outcome B) :
  never_duplicate_code m -> (forall a, m = Ok a -> never_duplicate_code (k a)) ->
  never_duplicate_code (m ≫= k).
Proof.
  intros Hm Hk. destruct m as [a|f]; cbn.
  - now apply Hk.
  - intros r [= ->]. now apply Hm.
Qed.

Lemma never_duplicate_code_Fail {A B} (f : failure) :
  never_duplicate_code (@Fail A f) -> never_duplicate_code (@Fail B f).
Proof. intros Hf r [= ->]. now apply Hf. Qed.

End DuplicateCode.

(** Walks through a computation built from binds, tests and literal
    rejections, none of which carries the code [REJECT_DUPLICATE]. *)
Ltac codes :=
  repeat first
    [ eassumption
    | match goal with
      | |- never_duplicate_code (Ok _) => apply never_duplicate_code_Ok
      | |- never_duplicate_code (Fail (Crashed _)) =>
          apply never_duplicate_code_other; discriminate
      | |- never_duplicate_code (Fail ReturnedFalse) =>
          apply never_duplicate_code_other; discriminate
      | |- never_duplicate_code (Fail NodeAborted) =>
          apply never_duplicate_code_other; discriminate
      | |- never_duplicate_code (assert_ _ _) => apply never_duplicate_code_assert
      | |- never_duplicate_code (deref _) => apply never_duplicate_code_deref
      | |- never_duplicate_code (reject _) =>
          apply never_duplicate_code_reject; cbn; discriminate
      | |- never_duplicate_code (_ ≫= _) =>
          apply never_duplicate_code_bind; [|intros ? ?]
      | |- never_duplicate_code (if ?b then _ else _) => destruct b eqn:?
      | |- never_duplicate_code (match ?x with _ => _ end) => destruct x eqn:?
      end ].

Section AdmissionFacts.
Context `{Externals} `{MempoolExternals}.
Variable pf : PoolFlags.
Variable nf : NodeFlags.
Variable limits : Limits.

Lemma CheckTransaction_code tx nHeight :
  never_duplicate_code (CheckTransaction limits tx nHeight).
Proof.
  assert (Hvout : forall vout n, never_duplicate_code (CheckTransaction_vout nHeight vout n)).
  { induction vout as [|txout rest IH]; intros n; cbn; codes. apply IH. }
  assert (Hdups : forall vin seen, never_duplicate_code (CheckTransaction_dups vin seen)).
  { induction vin as [|txin rest IH]; intros seen; cbn; codes. apply IH. }
  assert (Hvin : forall vin, never_duplicate_code (CheckTransaction_vin nHeight vin)).
  { induction vin as [|txin rest IH]; cbn; codes. }
  unfold CheckTransaction. codes; [apply Hvout | apply Hdups | apply Hvin].
Qed.

Lemma ATMP_prechecks_code m ptip pool tx :
  never_duplicate_code (ATMP_prechecks pf limits m ptip pool tx).
Proof.
  pose proof (CheckTransaction_code tx CheckTransaction_default_nHeight).
  unfold ATMP_prechecks, CheckFinalTx. codes.
Qed.

Lemma ATMP_conflicts_code pool tx : never_duplicate_code (ATMP_conflicts pf pool tx).
Proof.
  assert (Hloop : forall hash vin acc,
             never_duplicate_code (ATMP_conflicts_loop pf pool hash vin acc)).
  { induction vin as [|txin rest IH]; intros acc; cbn; codes; apply IH. }
  unfold ATMP_conflicts. codes. apply Hloop.
Qed.

Lemma CheckSequenceLocks_code m ptip GetCoin tx flags lp useExisting :
  never_duplicate_code (CheckSequenceLocks m ptip GetCoin tx flags lp useExisting).
Proof.
  assert (Hloop : forall block vin prevHeights a b,
             never_duplicate_code (CalculateSequenceLocks_loop m block vin prevHeights a b)).
  { induction vin as [|txin rest IH]; intros [|h hs] a b; cbn; codes; apply IH. }
  unfold CheckSequenceLocks, CalculateSequenceLocks, EvaluateSequenceLocks.
  codes; apply Hloop.
Qed.

Lemma GetP2SHSigOpCount_code tx view : never_duplicate_code (GetP2SHSigOpCount tx view).
Proof.
  assert (Hloop : forall vin n, never_duplicate_code (GetP2SHSigOpCount_loop view vin n)).
  { induction vin as [|txin rest IH]; intros n; cbn; codes. apply IH. }
  unfold GetP2SHSigOpCount. codes. apply Hloop.
Qed.

Lemma ATMP_fees_code pool h tx view fLimitFree fRejectAbsurdFee nSigOps nFees nModifiedFees
    nSize dFreeCount nLastTime :
  never_duplicate_code
    (ATMP_fees pf pool h tx view fLimitFree fRejectAbsurdFee nSigOps nFees nModifiedFees
               nSize dFreeCount nLastTime).2.
Proof.
  unfold ATMP_fees.
  repeat match goal with
         | |- context [if ?b then _ else _] => destruct b eqn:?
         end; cbn [fst snd]; codes.
Qed.

Lemma ATMP_replacement_code pool tx setConflicts nModifiedFees nSize :
  never_duplicate_code (ATMP_replacement pool tx setConflicts nModifiedFees nSize).
Proof.
  assert (Hloop : forall rate L parents count iters,
             never_duplicate_code (ATMP_replaced_loop pool rate L parents count iters)).
  { induction L as [|h rest IH]; intros parents count iters; cbn; codes; apply IH. }
  unfold ATMP_replacement. codes. apply Hloop.
Qed.

Lemma CheckInputs_code m tx inputs fScriptChecks flags queue :
  never_duplicate_code (CheckInputs m tx inputs fScriptChecks flags queue).
Proof.
  assert (Hloop : forall h vin n,
             never_duplicate_code (CheckTxInputs_loop inputs h vin n)).
  { induction vin as [|txin rest IH]; intros n; cbn; codes. apply IH. }
  assert (Hscripts : forall vin i,
             never_duplicate_code (CheckInputs_scripts tx inputs flags queue vin i)).
  { induction vin as [|txin rest IH]; intros i; cbn; codes; apply IH. }
  unfold CheckInputs, GetSpendHeight, CheckTxInputs. codes; [apply Hloop | apply Hscripts].
Qed.

(** X24.  [AcceptToMemoryPoolWorker] changes the pool only by admitting the
    transaction: the pool it leaves differs from the one it found only if
    the call was no dry run, the transaction is no zerocoin spend, and the
    answer is success or, with the size limit in force, "mempool full" (the
    transaction went in and was trimmed away again).  A transaction is
    signalled to the listeners exactly when the answer is success outside a
    dry run; a zerocoin spend never changes the pool, also when it is
    accepted and signalled. *)
Theorem AcceptToMemoryPoolWorker_frame m ptip pcoinsTip st tx fLimitFree
    fOverrideMempoolLimit fRejectAbsurdFee fDryRun :
  let r := AcceptToMemoryPoolWorker pf nf limits m ptip pcoinsTip st tx fLimitFree
                                    fOverrideMempoolLimit fRejectAbsurdFee fDryRun in
  (at_pool (ar_state r) <> at_pool st ->
   fDryRun = false /\ IsZerocoinSpend tx = false
   /\ (ar_result r = Ok tt
       \/ fOverrideMempoolLimit = false
          /\ ar_result r = reject (DoS 0 REJECT_INSUFFICIENTFEE "mempool full" false)))
  /\ (ar_result r = Ok tt ->
      at_synced (ar_state r) = if fDryRun then at_synced st else at_synced st ++ [tx])
  /\ (ar_result r <> Ok tt -> at_synced (ar_state r) = at_synced st)
  /\ (IsZerocoinSpend tx = true -> at_pool (ar_state r) = at_pool st).
Proof.
  intros r. subst r. unfold AcceptToMemoryPoolWorker.
  repeat match goal with
         | |- context [match ?x with _ => _ end] => destruct x eqn:?
         end;
    cbn [ar_state ar_result at_pool at_synced]; unfold reject;
    (split;
     [ intros Hne;
       first [ now contradict Hne
             | solve [repeat split; auto]
             | do 2 (split; [reflexivity|]); right;
               split; [now apply negb_true_iff | reflexivity] ]
     | repeat split; intros; congruence ]).
Qed.

(** X25.  [AcceptToMemoryPoolWorker] never answers with the reject code
    [REJECT_DUPLICATE]: the one place that names it, the test of
    [HaveInputs] behind "bad-txns-inputs-spent", comes after the loop that
    has already answered "missing inputs" for every input the view does not
    have, and none of the checks it calls uses that code. *)
Theorem AcceptToMemoryPoolWorker_never_duplicate m ptip pcoinsTip st tx fLimitFree
    fOverrideMempoolLimit fRejectAbsurdFee fDryRun r :
  ar_result (AcceptToMemoryPoolWorker pf nf limits m ptip pcoinsTip st tx fLimitFree
               fOverrideMempoolLimit fRejectAbsurdFee fDryRun)
  = Fail (Rejected r) ->
  chRejectCode r <> REJECT_DUPLICATE.
Proof.
  revert r.
  change (never_duplicate_code
            (ar_result (AcceptToMemoryPoolWorker pf nf limits m ptip pcoinsTip st tx
                          fLimitFree fOverrideMempoolLimit fRejectAbsurdFee fDryRun))).
  unfold AcceptToMemoryPoolWorker.
  pose proof (ATMP_prechecks_code m ptip (at_pool st) tx) as Hpre.
  pose proof (ATMP_conflicts_code (at_pool st) tx) as Hconf.
  set (view := CCoinsViewMemPool pcoinsTip (at_pool st)) in *.
  pose proof (ATMP_inputs_exist_spec pcoinsTip view (CTransaction.vin tx)
                (at_coins_to_uncache st)) as Hex.
  pose proof (GetP2SHSigOpCount_code tx view) as Hp2sh.
  destruct (ATMP_prechecks pf limits m ptip (at_pool st) tx) as [[]|f] eqn:Epre;
    [|cbn [ar_result]; exact (never_duplicate_code_Fail _ Hpre)].
  destruct (ATMP_conflicts pf (at_pool st) tx) as [setConflicts|f] eqn:Econf;
    [|cbn [ar_result]; exact (never_duplicate_code_Fail _ Hconf)].
  destruct (ATMP_known_output _ _ _ _ _ _); [cbn [ar_result]; codes|].
  destruct (ATMP_inputs_exist pcoinsTip view (CTransaction.vin tx) (at_coins_to_uncache st))
    as [uncache fExist].
  cbn [snd] in Hex.
  destruct fExist; cbn [negb]; [|cbn [ar_result]; codes].
  assert (Hhave : CCoinsViewCache.HaveInputs view tx = true).
  { unfold CCoinsViewCache.HaveInputs. rewrite <- Hex. now destruct (negb (IsCoinBase tx)). }
  rewrite Hhave. cbn [negb]. clear Hhave Hex.
  match goal with
  | |- context [CheckSequenceLocks ?a ?b ?c ?d ?e ?f ?g] =>
      pose proof (CheckSequenceLocks_code a b c d e f g) as Hseq;
      destruct (CheckSequenceLocks a b c d e f g) as [[[] lp]|f'] eqn:Eseq
  end; [| cbn [ar_result]; codes | cbn [ar_result]; exact (never_duplicate_code_Fail _ Hseq)].
  destruct (IsZerocoinSpend tx); [cbn [ar_result]; codes|].
  destruct (_ && _ && negb (AreInputsStandard tx view)); [cbn [ar_result]; codes|].
  destruct (GetP2SHSigOpCount tx view) as [p2sh|f'] eqn:Ep2sh; [|cbn [ar_result]; exact (never_duplicate_code_Fail _ Hp2sh)].
  match goal with
  | |- context [ATMP_fees ?a ?b ?c ?d ?e ?f ?g ?h ?i ?j ?k ?l ?n] =>
      pose proof (ATMP_fees_code b c d e f g h i j k l n) as Hfees;
      destruct (ATMP_fees a b c d e f g h i j k l n) as [limiter [[]|f']] eqn:Efees
  end; cbn [snd] in Hfees; [|cbn [ar_result]; exact (never_duplicate_code_Fail _ Hfees)].
  destruct (CalculateMemPoolAncestors (at_pool st) tx) as [setAncestors|];
    [|cbn [ar_result]; codes].
  destruct (existsb _ setAncestors); [cbn [ar_result]; codes|].
  match goal with
  | |- context [ATMP_replacement ?a ?b ?c ?d ?e] =>
      pose proof (ATMP_replacement_code a b c d e) as Hrep;
      destruct (ATMP_replacement a b c d e) as [allConflicting|f'] eqn:Erep
  end; [|cbn [ar_result]; exact (never_duplicate_code_Fail _ Hrep)].
  destruct fDryRun; [cbn [ar_result]; codes|].
  match goal with
  | |- context [match ?x ≫= ?k with _ => _ end] =>
      assert (Hchk : never_duplicate_code (x ≫= k))
        by (apply never_duplicate_code_bind; [|intros ? ?]; apply CheckInputs_code);
      destruct (x ≫= k) as [checks|f'] eqn:Echk
  end; [|cbn [ar_result]; exact (never_duplicate_code_Fail _ Hchk)].
  destruct (negb fOverrideMempoolLimit); [|cbn [ar_result]; codes].
  destruct (LimitMempoolSize _) as [pool5 removed].
  destruct (negb (pool_exists pool5 (CTransaction.GetHash tx))); cbn [ar_result]; codes.
Qed.

End AdmissionFacts.

Lemma AcceptToMemoryPoolWorker_never_duplicate_witness :
  chRejectCode (Invalid REJECT_CONFLICT "txn-mempool-conflict") <> REJECT_DUPLICATE.
Proof.
  apply (AcceptToMemoryPoolWorker_never_duplicate
           (H := sample_externals) (H0 := sample_mempool_externals)
           sample_pool_flags sample_flags sample_limits sample_map (Some 104) sample_view
           (sample_atmp_state (sample_pool CTxIn.SEQUENCE_FINAL 5)) (sample_replacement 30)
           true false true false).
  vm_compute. reflexivity.
Defined.
(** ** Pruning block files *)

Section PruneFacts.
Context `{ChainExternals}.

Lemma land_clear_bits s :
  Z.land (Z.land (Z.land s (Z.lnot BLOCK_HAVE_DATA)) (Z.lnot BLOCK_HAVE_UNDO))
         (Z.lor BLOCK_HAVE_DATA BLOCK_HAVE_UNDO) = 0
  /\ Z.land (Z.land (Z.land s (Z.lnot BLOCK_HAVE_DATA)) (Z.lnot BLOCK_HAVE_UNDO))
            (Z.lnot (Z.lor BLOCK_HAVE_DATA BLOCK_HAVE_UNDO))
     = Z.land s (Z.lnot (Z.lor BLOCK_HAVE_DATA BLOCK_HAVE_UNDO)).
Proof.
  split; apply Z.bits_inj'; intros i Hi;
    rewrite ?Z.land_spec, ?Z.lnot_spec, ?Z.lor_spec, ?Z.bits_0 by exact Hi;
    destruct (Z.testbit s i), (Z.testbit BLOCK_HAVE_DATA i), (Z.testbit BLOCK_HAVE_UNDO i);
    reflexivity.
Qed.

Lemma PruneOneBlockFile_inv cs fileNumber cs' :
  PruneOneBlockFile cs fileNumber = Ok cs' ->
  0 <= fileNumber < Z.of_nat (length (vinfoBlockFile cs))
  /\ vinfoBlockFile cs' = <[Z.to_nat fileNumber := CBlockFileInfo_null]> (vinfoBlockFile cs)
  /\ nLastBlockFile cs' = nLastBlockFile cs
  /\ chainActive_Tip cs' = chainActive_Tip cs.
Proof.
  unfold PruneOneBlockFile.
  destruct (_ && _) eqn:E; [|discriminate]. intros [= <-].
  apply andb_true_iff in E as [E1 E2]. apply Z.leb_le in E1. apply Z.ltb_lt in E2.
  cbn. auto.
Qed.

(** X26.  [PruneOneBlockFile] stays within the bounds of [vinfoBlockFile]
    exactly for a file number from 0 to below the length of the vector.
    Every index entry of that file then loses the
    have-data and have-undo bits and its file position, keeps the rest of
    its status, and is marked dirty; every other entry is untouched, so no
    entry points into the pruned file afterwards (file 0 apart, where
    pruned entries are parked).  The record of the file is reset and marked
    dirty, the records of the other files stay. *)
Theorem PruneOneBlockFile_effect cs fileNumber :
  (0 <= fileNumber < Z.of_nat (length (vinfoBlockFile cs))
   <-> exists cs', PruneOneBlockFile cs fileNumber = Ok cs')
  /\ forall cs', PruneOneBlockFile cs fileNumber = Ok cs' ->
     (forall k b, mapBlockIndex cs !! k = Some b -> CBlockIndex.nFile b = fileNumber ->
        exists b', mapBlockIndex cs' !! k = Some b'
          /\ Z.land (CBlockIndex.nStatus b') (Z.lor BLOCK_HAVE_DATA BLOCK_HAVE_UNDO) = 0
          /\ Z.land (CBlockIndex.nStatus b') (Z.lnot (Z.lor BLOCK_HAVE_DATA BLOCK_HAVE_UNDO))
             = Z.land (CBlockIndex.nStatus b) (Z.lnot (Z.lor BLOCK_HAVE_DATA BLOCK_HAVE_UNDO))
          /\ CBlockIndex.nFile b' = 0 /\ CBlockIndex.nDataPos b' = 0
          /\ CBlockIndex.nUndoPos b' = 0
          /\ CBlockIndex.pprev b' = CBlockIndex.pprev b
          /\ CBlockIndex.nHeight b' = CBlockIndex.nHeight b
          /\ CBlockIndex.nChainWork b' = CBlockIndex.nChainWork b
          /\ k ∈ setDirtyBlockIndex cs')
     /\ (forall k b, mapBlockIndex cs !! k = Some b -> CBlockIndex.nFile b <> fileNumber ->
           mapBlockIndex cs' !! k = Some b)
     /\ (forall k b', mapBlockIndex cs' !! k = Some b' ->
           CBlockIndex.nFile b' = fileNumber -> fileNumber = 0)
     /\ vinfoBlockFile cs' !! Z.to_nat fileNumber = Some CBlockFileInfo_null
     /\ (forall i, i <> Z.to_nat fileNumber ->
           vinfoBlockFile cs' !! i = vinfoBlockFile cs !! i)
     /\ fileNumber ∈ setDirtyFileInfo cs'.
Proof.
  split.
  - unfold PruneOneBlockFile. split.
    + intros [H1 H2].
      replace (0 <=? fileNumber) with true by (symmetry; apply Z.leb_le; lia).
      replace (fileNumber <? _) with true by (symmetry; apply Z.ltb_lt; lia).
      cbn [andb]. eauto.
    + intros [cs' Hcs']. destruct (_ && _) eqn:E; [|discriminate].
      apply andb_true_iff in E as [E1 E2]. apply Z.leb_le in E1. apply Z.ltb_lt in E2. lia.
  - intros cs' Hp. pose proof (PruneOneBlockFile_inv _ _ _ Hp) as (Hr & Hfiles & _ & _).
    unfold PruneOneBlockFile in Hp. destruct (_ && _); [|discriminate].
    injection Hp as <-. cbn [mapBlockIndex setDirtyBlockIndex vinfoBlockFile setDirtyFileInfo].
    split; [|split; [|split; [|split; [|split]]]].
    + intros k b Hk Hf. exists (prune_entry b).
      rewrite lookup_fmap, Hk. cbn [fmap option_fmap option_map].
      replace (CBlockIndex.nFile b =? fileNumber) with true
        by (symmetry; apply Z.eqb_eq; exact Hf).
      destruct (land_clear_bits (CBlockIndex.nStatus b)) as [Hc1 Hc2].
      split; [reflexivity|]. split; [exact Hc1|]. split; [exact Hc2|].
      do 6 (split; [reflexivity|]).
      apply elem_of_union. left. apply elem_of_dom. exists b.
      apply map_lookup_filter_Some. split; [exact Hk | exact Hf].
    + intros k b Hk Hf. rewrite lookup_fmap, Hk. cbn [fmap option_fmap option_map].
      now replace (CBlockIndex.nFile b =? fileNumber) with false
        by (symmetry; apply Z.eqb_neq; exact Hf).
    + intros k b'. rewrite lookup_fmap.
      destruct (mapBlockIndex cs !! k) as [b|]; [|discriminate].
      cbn [fmap option_fmap option_map].
      destruct (Z.eqb_spec (CBlockIndex.nFile b) fileNumber) as [He|Hne].
      * intros [= <-]. cbn [CBlockIndex.nFile prune_entry]. congruence.
      * intros [= <-]. contradiction.
    + apply list_lookup_insert_eq. lia.
    + intros i Hi. now apply list_lookup_insert_ne.
    + apply elem_of_union. left. now apply elem_of_singleton.
Qed.

(** The bytes [CalculateCurrentUsage] counts for one file. *)
Lemma usage_foldl (l : list CBlockFileInfo) : forall a,
  foldl (fun retval file => (retval + Int.u32 (nSize file + nUndoSize file)) mod 2 ^ 64) a l
    mod 2 ^ 64
  = (a + foldr (fun file acc => Int.u32 (nSize file + nUndoSize file) + acc) 0 l) mod 2 ^ 64.
Proof.
  induction l as [|file rest IH]; intros a; cbn [foldl foldr].
  - now rewrite Z.add_0_r.
  - rewrite IH, Zplus_mod_idemp_l. f_equal. lia.
Qed.

Lemma usage_foldl_0 (l : list CBlockFileInfo) :
  foldl (fun retval file => (retval + Int.u32 (nSize file + nUndoSize file)) mod 2 ^ 64) 0 l
  = foldr (fun file acc => Int.u32 (nSize file + nUndoSize file) + acc) 0 l mod 2 ^ 64.
Proof.
  pose proof (usage_foldl l 0) as Hf. rewrite Z.add_0_l in Hf. rewrite <- Hf.
  symmetry. apply Z.mod_small.
  destruct l as [|file rest] using rev_ind; [cbn; lia|].
  rewrite foldl_app. cbn [foldl]. apply Z.mod_pos_bound. lia.
Qed.

Lemma usage_insert_null (l : list CBlockFileInfo) : forall i info,
  l !! i = Some info ->
  foldr (fun file acc => Int.u32 (nSize file + nUndoSize file) + acc) 0
        (<[i := CBlockFileInfo_null]> l)
  = foldr (fun file acc => Int.u32 (nSize file + nUndoSize file) + acc) 0 l
    - Int.u32 (nSize info + nUndoSize info).
Proof.
  induction l as [|file rest IH]; intros [|i] info Hi; try discriminate.
  - injection Hi as ->. cbn [insert list_insert foldr].
    change (Int.u32 (nSize CBlockFileInfo_null + nUndoSize CBlockFileInfo_null)) with 0.
    lia.
  - change (<[S i := CBlockFileInfo_null]> (file :: rest))
      with (file :: <[i := CBlockFileInfo_null]> rest).
    cbn [foldr]. change ((file :: rest) !! S i) with (rest !! i) in Hi.
    rewrite (IH i info Hi). lia.
Qed.

(** X27.  Pruning a file lowers the disk usage that [CalculateCurrentUsage]
    reports by exactly the bytes of that file, block and undo data added as
    32-bit numbers: the amount [FindFilesToPrune] subtracts from its
    running total. *)
Theorem PruneOneBlockFile_usage cs fileNumber cs' info :
  PruneOneBlockFile cs fileNumber = Ok cs' ->
  vinfoBlockFile cs !! Z.to_nat fileNumber = Some info ->
  CalculateCurrentUsage cs'
  = (CalculateCurrentUsage cs - Int.u32 (nSize info + nUndoSize info)) mod 2 ^ 64.
Proof.
  intros Hp Hinfo. apply PruneOneBlockFile_inv in Hp as (_ & Hfiles & _).
  unfold CalculateCurrentUsage. rewrite Hfiles, !usage_foldl_0.
  rewrite (usage_insert_null _ _ _ Hinfo). now rewrite Zminus_mod_idemp_l.
Qed.

End PruneFacts.

Lemma PruneOneBlockFile_usage_witness :
  exists cs', PruneOneBlockFile sample_chain_files 0 = Ok cs'
              /\ CalculateCurrentUsage cs' = 330.
Proof.
  destruct (PruneOneBlockFile sample_chain_files 0) as [cs'|f] eqn:E;
    [|vm_compute in E; discriminate E].
  exists cs'. split; [reflexivity|].
  rewrite (PruneOneBlockFile_usage _ _ _ (mkFileInfo 5 600 60 1 50 0 0) E);
    [|reflexivity].
  vm_compute. reflexivity.
Defined.

(** ** Choosing the files to prune *)

Section FindFilesFacts.
Context `{ChainExternals}.
Variable UNDOFILE_CHUNK_SIZE : Z.

Lemma FindFilesToPrune_loop_spec T B L : forall remaining fileNumber cs set usage cs' set',
  0 <= fileNumber ->
  FindFilesToPrune_loop T B L remaining fileNumber cs set usage = Ok (cs', set') ->
  set ⊆ set'
  /\ (forall f, f ∈ set' ->
        f ∈ set
        \/ prunable_file L (vinfoBlockFile cs) fileNumber (fileNumber + Z.of_nat remaining) f
           /\ vinfoBlockFile cs' !! Z.to_nat f = Some CBlockFileInfo_null)
  /\ (forall i, vinfoBlockFile cs' !! i = vinfoBlockFile cs !! i
                \/ vinfoBlockFile cs' !! i = Some CBlockFileInfo_null
                   /\ Z.of_nat i ∈ set'
                   /\ prunable_file L (vinfoBlockFile cs) fileNumber
                        (fileNumber + Z.of_nat remaining) (Z.of_nat i)).
Proof.
  induction remaining as [|remaining IH]; intros fileNumber cs set usage cs' set' Hpos;
    cbn [FindFilesToPrune_loop].
  - intros [= <- <-]. split; [reflexivity|]. split; [intros f Hf; now left | intros i; now left].
  - destruct (vinfoBlockFile cs !! Z.to_nat fileNumber) as [info|] eqn:Hinfo; [|discriminate].
    assert (Hpos1 : 0 <= fileNumber + 1) by lia.
    assert (Hwiden : forall files f,
               prunable_file L files (fileNumber + 1) (fileNumber + 1 + Z.of_nat remaining) f ->
               prunable_file L files fileNumber (fileNumber + Z.of_nat (S remaining)) f).
    { intros files f [Hr Hi]. split; [lia | exact Hi]. }
    assert (Hskip : FindFilesToPrune_loop T B L remaining (fileNumber + 1) cs set usage
                    = Ok (cs', set') ->
                    set ⊆ set'
                    /\ (forall f, f ∈ set' ->
                          f ∈ set
                          \/ prunable_file L (vinfoBlockFile cs) fileNumber
                               (fileNumber + Z.of_nat (S remaining)) f
                             /\ vinfoBlockFile cs' !! Z.to_nat f = Some CBlockFileInfo_null)
                    /\ (forall i, vinfoBlockFile cs' !! i = vinfoBlockFile cs !! i
                                  \/ vinfoBlockFile cs' !! i = Some CBlockFileInfo_null
                                     /\ Z.of_nat i ∈ set'
                                     /\ prunable_file L (vinfoBlockFile cs) fileNumber
                                          (fileNumber + Z.of_nat (S remaining))
                                          (Z.of_nat i))).
    { intros Hl. destruct (IH _ _ _ _ _ _ Hpos1 Hl) as (Hsub & Hset & Hfiles).
      split; [exact Hsub|]. split.
      - intros f Hf. destruct (Hset f Hf) as [Hin|[Hp Hn]]; [now left|].
        right. split; [now apply Hwiden | exact Hn].
      - intros i. destruct (Hfiles i) as [He|(Hn & Hin & Hp)]; [now left|].
        right. split; [exact Hn|]. split; [exact Hin | now apply Hwiden]. }
    destruct (Z.eqb_spec (nSize info) 0) as [Hz|Hnz]; [exact Hskip|].
    destruct ((usage + B) mod 2 ^ 64 <? T).
    { intros [= <- <-]. split; [reflexivity|].
      split; [intros f Hf; now left | intros i; now left]. }
    destruct (Z.ltb_spec L (nHeightLast info)) as [Hhigh|Hlow]; [exact Hskip|].
    destruct (PruneOneBlockFile cs fileNumber) as [cs1|f1] eqn:Hprune; [|discriminate].
    cbn [mbind outcome_bind]. intros Hl.
    apply PruneOneBlockFile_inv in Hprune as (Hrange & Hfiles1 & _ & _).
    destruct (IH _ _ _ _ _ _ Hpos1 Hl) as (Hsub & Hset & Hfiles).
    assert (Hin0 : fileNumber ∈ set').
    { apply Hsub, elem_of_union. left. now apply elem_of_singleton. }
    assert (Hpick0 : prunable_file L (vinfoBlockFile cs) fileNumber
                       (fileNumber + Z.of_nat (S remaining)) fileNumber).
    { split; [lia|]. exists info. auto. }
    assert (Hnull0 : vinfoBlockFile cs' !! Z.to_nat fileNumber = Some CBlockFileInfo_null).
    { destruct (Hfiles (Z.to_nat fileNumber)) as [He|(Hn & _)]; [|exact Hn].
      rewrite He, Hfiles1. apply list_lookup_insert_eq. lia. }
    assert (Hback : forall f,
               prunable_file L (vinfoBlockFile cs1) (fileNumber + 1)
                      (fileNumber + 1 + Z.of_nat remaining) f ->
               prunable_file L (vinfoBlockFile cs) fileNumber
                      (fileNumber + Z.of_nat (S remaining)) f).
    { intros f [Hr (info' & Hi & Hs & Hh)]. split; [lia|]. exists info'.
      rewrite Hfiles1, list_lookup_insert_ne in Hi by lia. auto. }
    split; [|split].
    + intros f Hf. apply Hsub, elem_of_union. now right.
    + intros f Hf. destruct (Hset f Hf) as [Hin|[Hp Hn]].
      * apply elem_of_union in Hin as [Hin|Hin]; [|now left].
        apply elem_of_singleton in Hin as ->. right. split; [exact Hpick0 | exact Hnull0].
      * right. split; [now apply Hback | exact Hn].
    + intros i. destruct (decide (i = Z.to_nat fileNumber)) as [->|Hne].
      * right. rewrite Z2Nat.id by lia. auto.
      * destruct (Hfiles i) as [He|(Hn & Hin & Hp)].
        -- left. rewrite He, Hfiles1. now apply list_lookup_insert_ne.
        -- right. split; [exact Hn|]. split; [exact Hin | now apply Hback].
Qed.

(** X28.  [FindFilesToPrune] only adds to the set it is given, and every
    file it adds was chosen by the rules: the chain has a tip above
    [nPruneAfterHeight], a prune target is set and the usage with the
    allocation buffer has reached it; the file lies below the last block
    file, holds blocks, and its highest block is not above the last
    prunable height, the tip height less [MIN_BLOCKS_TO_KEEP] as an
    [unsigned int].  Every file chosen has its record reset, and the record
    of every other file is as before.  Where the entry conditions fail
    nothing changes at all. *)
Theorem FindFilesToPrune_selects cs set nPruneAfterHeight nPruneTarget cs' set' :
  FindFilesToPrune UNDOFILE_CHUNK_SIZE cs set nPruneAfterHeight nPruneTarget
  = Ok (cs', set') ->
  set ⊆ set'
  /\ (forall f, f ∈ set' -> f ∉ set ->
        exists tip info,
          at_ (mapBlockIndex cs) (chainActive_Tip cs) = Some tip
          /\ nPruneTarget <> 0
          /\ nPruneAfterHeight < CBlockIndex.nHeight tip mod 2 ^ 64
          /\ nPruneTarget
             <= (CalculateCurrentUsage cs
                 + Int.u32 (BLOCKFILE_CHUNK_SIZE + UNDOFILE_CHUNK_SIZE)) mod 2 ^ 64
          /\ 0 <= f < nLastBlockFile cs
          /\ vinfoBlockFile cs !! Z.to_nat f = Some info
          /\ nSize info <> 0
          /\ nHeightLast info <= Int.u32 (CBlockIndex.nHeight tip - MIN_BLOCKS_TO_KEEP)
          /\ vinfoBlockFile cs' !! Z.to_nat f = Some CBlockFileInfo_null)
  /\ (forall i, vinfoBlockFile cs' !! i = vinfoBlockFile cs !! i
                \/ vinfoBlockFile cs' !! i = Some CBlockFileInfo_null /\ Z.of_nat i ∈ set')
  /\ ((forall tip, at_ (mapBlockIndex cs) (chainActive_Tip cs) = Some tip ->
         nPruneTarget = 0
         \/ CBlockIndex.nHeight tip mod 2 ^ 64 <= nPruneAfterHeight
         \/ (CalculateCurrentUsage cs
             + Int.u32 (BLOCKFILE_CHUNK_SIZE + UNDOFILE_CHUNK_SIZE)) mod 2 ^ 64
            < nPruneTarget) ->
      cs' = cs /\ set' = set).
Proof.
  unfold FindFilesToPrune.
  assert (Hsame : Ok (cs, set) = Ok (cs', set') ->
            set ⊆ set'
            /\ (forall f, f ∈ set' -> f ∉ set ->
                  exists tip info,
                    at_ (mapBlockIndex cs) (chainActive_Tip cs) = Some tip
                    /\ nPruneTarget <> 0
                    /\ nPruneAfterHeight < CBlockIndex.nHeight tip mod 2 ^ 64
                    /\ nPruneTarget
                       <= (CalculateCurrentUsage cs
                           + Int.u32 (BLOCKFILE_CHUNK_SIZE + UNDOFILE_CHUNK_SIZE))
                          mod 2 ^ 64
                    /\ 0 <= f < nLastBlockFile cs
                    /\ vinfoBlockFile cs !! Z.to_nat f = Some info
                    /\ nSize info <> 0
                    /\ nHeightLast info
                       <= Int.u32 (CBlockIndex.nHeight tip - MIN_BLOCKS_TO_KEEP)
                    /\ vinfoBlockFile cs' !! Z.to_nat f = Some CBlockFileInfo_null)
            /\ (forall i, vinfoBlockFile cs' !! i = vinfoBlockFile cs !! i
                          \/ vinfoBlockFile cs' !! i = Some CBlockFileInfo_null
                             /\ Z.of_nat i ∈ set')
            /\ ((forall tip, at_ (mapBlockIndex cs) (chainActive_Tip cs) = Some tip ->
                   nPruneTarget = 0
                   \/ CBlockIndex.nHeight tip mod 2 ^ 64 <= nPruneAfterHeight
                   \/ (CalculateCurrentUsage cs
                       + Int.u32 (BLOCKFILE_CHUNK_SIZE + UNDOFILE_CHUNK_SIZE)) mod 2 ^ 64
                      < nPruneTarget) ->
                cs' = cs /\ set' = set)).
  { intros [= <- <-]. split; [reflexivity|]. split; [intros f Hf Hn; contradiction|].
    split; [intros i; now left | auto]. }
  destruct (at_ (mapBlockIndex cs) (chainActive_Tip cs)) as [tip|] eqn:Htip; [|exact Hsame].
  destruct (Z.eqb_spec nPruneTarget 0) as [Ht0|Ht0]; [exact Hsame|].
  destruct (Z.leb_spec (CBlockIndex.nHeight tip mod 2 ^ 64) nPruneAfterHeight)
    as [Hafter|Hafter]; [exact Hsame|].
  destruct (Z.leb_spec nPruneTarget
              ((CalculateCurrentUsage cs
                + Int.u32 (BLOCKFILE_CHUNK_SIZE + UNDOFILE_CHUNK_SIZE)) mod 2 ^ 64))
    as [Husage|Husage]; [|exact Hsame].
  clear Hsame. intros Hl.
  apply FindFilesToPrune_loop_spec in Hl as (Hsub & Hset & Hfiles); [|lia].
  split; [exact Hsub|]. split; [|split].
  - intros f Hf Hnot. destruct (Hset f Hf) as [Hin|[[Hr (info & Hi & Hs & Hh)] Hn]];
      [contradiction|].
    exists tip, info. do 4 (split; [first [reflexivity | assumption]|]).
    split; [lia|]. auto.
  - intros i. destruct (Hfiles i) as [He|(Hn & Hin & _)]; [now left | now right].
  - intros Hno. destruct (Hno tip eq_refl) as [Hc|[Hc|Hc]]; [contradiction | lia | lia].
Qed.

End FindFilesFacts.

Lemma FindFilesToPrune_selects_witness :
  exists cs' set',
    FindFilesToPrune (H := sample_chain_externals) 10 sample_chain_files ∅ 10 500
    = Ok (cs', set')
    /\ forall f, f ∈ set' -> f = 0.
Proof.
  destruct (FindFilesToPrune (H := sample_chain_externals) 10 sample_chain_files ∅ 10 500)
    as [[cs' set']|f] eqn:E; [|vm_compute in E; discriminate E].
  exists cs', set'. split; [reflexivity|]. intros f Hf.
  destruct (FindFilesToPrune_selects (H := sample_chain_externals) 10 sample_chain_files ∅
              10 500 cs' set' E) as (_ & Hpick & _).
  destruct (Hpick f Hf) as (tip & info & _ & _ & _ & _ & Hr & _).
  - apply not_elem_of_empty.
  - change (nLastBlockFile sample_chain_files) with 1 in Hr. lia.
Defined.
(** ** Undo space and the initial-download latch *)

Section UndoSpaceFacts.
Context `{ChainExternals}.
Variable cf : ChainFlags.
Variable UNDOFILE_CHUNK_SIZE : Z.

Lemma FindUndoPos_inv cs nFile nAddSize info cs1 r :
  0 <= nFile ->
  vinfoBlockFile cs !! Z.to_nat nFile = Some info ->
  Store.FindUndoPos cf UNDOFILE_CHUNK_SIZE cs nFile nAddSize = (cs1, r) ->
  (r = Ok (nFile, nUndoSize info) \/ r = Fail ReturnedFalse)
  /\ vinfoBlockFile cs1
     = <[Z.to_nat nFile := Store.set_nUndoSize info (Int.u32 (nUndoSize info + nAddSize))]>
         (vinfoBlockFile cs)
  /\ mapBlockIndex cs1 = mapBlockIndex cs
  /\ setDirtyFileInfo cs1 = {[nFile]} ∪ setDirtyFileInfo cs.
Proof.
  intros Hpos Hinfo. unfold Store.FindUndoPos.
  replace (0 <=? nFile) with true by (symmetry; apply Z.leb_le; exact Hpos).
  rewrite Hinfo. intros [= <- <-].
  cbn [vinfoBlockFile mapBlockIndex setDirtyFileInfo].
  split; [|auto]. destruct (_ && negb _); [now right | now left].
Qed.

(** X29.  [FindUndoPos] hands out the undo space of a file from front to
    back: the position is the undo size of the file so far, and the next
    call on the same file starts where this one ended (in [unsigned int]
    arithmetic), so two allocations never overlap.  The space is taken also
    when the call fails for lack of disk space: the size has grown and the
    file is marked dirty before the disk is asked.  The block size of the
    file, the other files and the block index are not touched. *)
Theorem FindUndoPos_adjacent cs nFile nAddSize nAddSize' info :
  0 <= nFile ->
  vinfoBlockFile cs !! Z.to_nat nFile = Some info ->
  let first := Store.FindUndoPos cf UNDOFILE_CHUNK_SIZE cs nFile nAddSize in
  let second := Store.FindUndoPos cf UNDOFILE_CHUNK_SIZE first.1 nFile nAddSize' in
  (first.2 = Ok (nFile, nUndoSize info) \/ first.2 = Fail ReturnedFalse)
  /\ (second.2 = Ok (nFile, Int.u32 (nUndoSize info + nAddSize))
      \/ second.2 = Fail ReturnedFalse)
  /\ nFile ∈ setDirtyFileInfo first.1
  /\ (exists info1, vinfoBlockFile first.1 !! Z.to_nat nFile = Some info1
                    /\ nUndoSize info1 = Int.u32 (nUndoSize info + nAddSize)
                    /\ nSize info1 = nSize info)
  /\ (exists info2, vinfoBlockFile second.1 !! Z.to_nat nFile = Some info2
                    /\ nUndoSize info2
                       = Int.u32 (Int.u32 (nUndoSize info + nAddSize) + nAddSize')
                    /\ nSize info2 = nSize info)
  /\ (forall i, i <> Z.to_nat nFile ->
        vinfoBlockFile second.1 !! i = vinfoBlockFile cs !! i)
  /\ mapBlockIndex second.1 = mapBlockIndex cs.
Proof.
  intros Hpos Hinfo first second.
  destruct first as [cs1 r1] eqn:E1.
  pose proof (FindUndoPos_inv _ _ _ _ _ _ Hpos Hinfo E1) as (Hr1 & Hf1 & Hm1 & Hd1).
  assert (Hlt : (Z.to_nat nFile < length (vinfoBlockFile cs))%nat)
    by (apply lookup_lt_is_Some; eauto).
  assert (Hinfo1 : vinfoBlockFile cs1 !! Z.to_nat nFile
                   = Some (Store.set_nUndoSize info (Int.u32 (nUndoSize info + nAddSize)))).
  { rewrite Hf1. now apply list_lookup_insert_eq. }
  subst second. cbn [fst snd] in *.
  destruct (Store.FindUndoPos cf UNDOFILE_CHUNK_SIZE cs1 nFile nAddSize')
    as [cs2 r2] eqn:E2.
  pose proof (FindUndoPos_inv _ _ _ _ _ _ Hpos Hinfo1 E2) as (Hr2 & Hf2 & Hm2 & Hd2).
  cbn [fst snd Store.set_nUndoSize nUndoSize nSize] in *.
  split; [exact Hr1|]. split; [exact Hr2|].
  split; [rewrite Hd1; apply elem_of_union; left; now apply elem_of_singleton|].
  split; [eexists; split; [exact Hinfo1|]; split; reflexivity|].
  split.
  - exists (Store.set_nUndoSize
              (Store.set_nUndoSize info (Int.u32 (nUndoSize info + nAddSize)))
              (Int.u32 (Int.u32 (nUndoSize info + nAddSize) + nAddSize'))).
    split; [|split; reflexivity].
    rewrite Hf2. apply list_lookup_insert_eq. rewrite Hf1, length_insert. exact Hlt.
  - split; [|congruence].
    intros i Hi. rewrite Hf2, list_lookup_insert_ne by auto.
    rewrite Hf1. now apply list_lookup_insert_ne.
Qed.

End UndoSpaceFacts.

Lemma FindUndoPos_adjacent_witness :
  (Store.FindUndoPos (H := sample_chain_externals) sample_chain_flags 10
     (Store.FindUndoPos (H := sample_chain_externals) sample_chain_flags 10
        sample_chain_files 1 25).1 1 40).2
  = Ok (1, 55).
Proof.
  destruct (FindUndoPos_adjacent (H := sample_chain_externals) sample_chain_flags 10
              sample_chain_files 1 25 40 (mkFileInfo 2 300 30 51 104 0 0))
    as (_ & [Hsecond|Hsecond] & _); [lia | reflexivity | exact Hsecond |].
  vm_compute in Hsecond. discriminate Hsecond.
Defined.

Section LatchFacts.
Context `{ChainExternals}.

(** X30.  [IsInitialBlockDownload] latches.  Until the latch is set it
    answers false exactly when nothing is being imported or reindexed and
    the tip exists, has the minimum chain work and is no older than the
    maximal tip age; that answer sets the latch, and from then on every
    call answers false, whatever the chain, the flags and the clock have
    become.  An answer of true leaves the latch as it was. *)
Theorem IsInitialBlockDownload_latch lockIBDState cs fImporting fReindex
    nMinimumChainWork nMaxTipAge nNow :
  let r := IsInitialBlockDownload lockIBDState cs fImporting fReindex nMinimumChainWork
                                  nMaxTipAge nNow in
  (r.1 = false ->
   r.2 = true
   /\ forall cs2 fImporting2 fReindex2 nMinimumChainWork2 nMaxTipAge2 nNow2,
        IsInitialBlockDownload r.2 cs2 fImporting2 fReindex2 nMinimumChainWork2
                               nMaxTipAge2 nNow2 = (false, true))
  /\ (r.1 = true -> r.2 = lockIBDState /\ lockIBDState = false)
  /\ (lockIBDState = false ->
      (r.1 = false
       <-> fImporting = false /\ fReindex = false
           /\ exists tip, at_ (mapBlockIndex cs) (chainActive_Tip cs) = Some tip
                          /\ nMinimumChainWork <= CBlockIndex.nChainWork tip
                          /\ Int.s64 (nNow - nMaxTipAge) <= CBlockIndex.GetBlockTime tip)).
Proof.
  intros r. subst r. unfold IsInitialBlockDownload.
  destruct lockIBDState; cbn [fst snd].
  { split; [intros _; split; [reflexivity | intros; reflexivity]|].
    split; [discriminate | discriminate]. }
  destruct fImporting, fReindex; cbn [orb fst snd];
    try (split; [discriminate|]; split; [auto|]; intros _;
         split; [discriminate | intros (? & ? & _); discriminate]).
  destruct (at_ (mapBlockIndex cs) (chainActive_Tip cs)) as [tip|]; cbn [fst snd].
  2:{ split; [discriminate|]. split; [auto|]. intros _.
      split; [discriminate | intros (_ & _ & tip & Ht & _); discriminate]. }
  destruct (Z.ltb_spec (CBlockIndex.nChainWork tip) nMinimumChainWork) as [Hw|Hw];
    cbn [fst snd].
  { split; [discriminate|]. split; [auto|]. intros _.
    split; [discriminate | intros (_ & _ & tip' & [= <-] & Hw' & _); lia]. }
  destruct (Z.ltb_spec (CBlockIndex.GetBlockTime tip) (Int.s64 (nNow - nMaxTipAge)))
    as [Ht|Ht]; cbn [fst snd].
  { split; [discriminate|]. split; [auto|]. intros _.
    split; [discriminate | intros (_ & _ & tip' & [= <-] & _ & Ht'); lia]. }
  split; [intros _; split; [reflexivity | intros; reflexivity]|].
  split; [discriminate|]. intros _. split; [|reflexivity].
  intros _. do 2 (split; [reflexivity|]). exists tip. auto.
Qed.

End LatchFacts.
